(* ===== verification/_CoqProject ===== *)
-Q . S2P
Prelude.v
Chain.v
Memory.v
KType.v
PageFrames.v
FrameRemoval.v
Boot.v
VarMem.v
Timer.v
Process.v
Task.v
Ipc.v
KString.v
Console.v
Descriptor.v
Clone.v
PagingStart.v
Fork.v
Interrupt.v
System.v
UserMemory.v
Messages.v
Execution.v
Syscall.v
Runtime.v
Asmfunc.v
InitTasks.v
Ports.v
Vga.v
Keyboard.v
IdeHdd.v
Kmalloc.v
Start.v
Ata.v
KernelIO.v
AtaIO.v
Utilclass.v
Ext2.v
FileSystem.v
FsImage.v
ElfLoader.v
ElfImage.v
