(* ===== verification/Prelude.v ===== *)
(** * ownOS: a verification development of the kernel

    ownOS is a small 32-bit x86 kernel in C++ ([src/kernel], [src/include]). The boot
    code hands the free physical memory to the page-frame allocator; the paging code
    builds page tables from frames; the kernel heap lives in one run of frames.
    Processes have an address space, a kernel stack and three message queues; four
    run queues, a timer list and a queue of interrupt waiters drive the scheduler.
    The ATA driver reads sectors into the heap, the ext2 reader finds inodes and
    blocks, the file layer opens and reads files, and the ELF loader maps and reads
    the segments of an executable into the address space of a process. Strings,
    console output and descriptor tables serve all of these.

    ** Files, and the sources they model

    - [Prelude.v]: machine integers ([Type.hpp]), the outcomes of kernel code, loops,
      tactics and the hint databases [machine] and [chaindb]; [Chain.v]: lists threaded
      through arrays of nodes; [Memory.v]: byte memory, the macros of [com.h], the
      interface [FrameAlloc] of a frame allocator.
    - [KType.v]: [Lessor] and [Que] ([KType.hpp]).
    - [PageFrames.v], [FrameRemoval.v]: [PFAllocator.cpp], an instance of [FrameAlloc];
      [Boot.v]: the memory map of the boot loader ([mbi_read.cpp]).
    - [VarMem.v]: paging ([VarMem.cpp]), over any [FrameAlloc]; [PagingStart.v]: what
      [initPaging] builds.
    - [Timer.v], [Process.v], [Task.v], [Ipc.v]: [Timer.cpp], [Process.cpp],
      [task.cpp] with [timerHandler.cpp] and [Tss.cpp], [Ipc.cpp].
    - [Clone.v], [Fork.v], [InitTasks.v]: the copy of an address space, [fork],
      [makeSysProc] and the start of the system ([task.cpp], [Process.cpp]).
    - [Interrupt.v]: the entry code ([isr.nas]), the table of handlers ([KGlobal.cpp]),
      the handlers and the kernel calls ([irq.cpp], [irq.h]); [System.v]: the invariants
      between interrupts, single interrupts and [fork]; [UserMemory.v], [Messages.v]: the memory
      of a program, and the kernel calls that send and receive; [Execution.v]: programs,
      interrupts and kernel calls as a step relation; [Syscall.v]: the functions through which a
      program calls the kernel ([syscall.cpp], [kernel_call_asm] of [asmfunc.cpp]); [Asmfunc.v]: the
      other functions of [asmfunc.cpp]; [Runtime.v]: the start-up code ([loader.nas], [crt0.nas]) and what
      the C library of a program calls ([grue.cpp]).
    - [Start.v]: [kinit.cpp], all of the initialisations together.
    - [KString.v], [Console.v], [Vga.v], [Keyboard.v], [Descriptor.v]: [string.cpp],
      [tk_printf.cpp] with [printf.cpp], [vga.cpp], [init_KBC.h], [Descriptor.cpp].
    - [Ports.v], [IdeHdd.v], [Ata.v]: the port bus with the accessors of [asmfunc.cpp],
      the two disk drivers [ide_hdd.c] and [ata.cpp], and a model of an ATA drive.
    - [Kmalloc.v]: the kernel heap ([kmalloc.cpp]).
    - [KernelIO.v]: the interface of memory, heap and disk that the file system uses
      ([KernelIO], its promises [KernelIOSpec], and the heap assertion [kheap]);
      [AtaIO.v]: heap and ATA driver implement it.
    - [Utilclass.v], [Ext2.v], [FileSystem.v], [ElfLoader.v]: [Utilclass.hpp],
      [Ext2.cpp], [FileSystem.cpp], [elf_loader.cpp] with [exec.cpp], all over
      [KernelIO]; [FsImage.v] and [ElfImage.v]: a disk image with a file system and an
      executable, to which the theorems are applied.

    ** State and operations

    Every function of the source is a definition of the same name, as far as the name
    is free. A struct is a record; a pointer into a static array is an index, NULL is
    [None], a pointer to a pointer is the place it points to; a pointer to memory is an
    address. Integers are [Z], with the conversion to their width written where the code
    converts or overflows. Functions that can fail return [res]: [Ok], [Panic] (a call
    of [panic]), [Fault] (an access through NULL or a division by zero) or [NoFuel].
    Kernel data are at physical addresses, which is what the kernel's addresses are below
    4 MiB ([initPaging_correct]; above, the straight mapping of the code is wrong).
    The running process sees one memory in [KernelIO]; the loader keeps the page tables
    beside it, so a byte that a process sees at an address and the fact that the
    address is mapped are two statements. Console output changes only the state of
    [Console.v]; the other files leave it out.

    ** Theorems

    - Allocation: [allocChunk], [addChunk], [removeChunk], [freeChunk] against the set of free
      and used frames, which [mbi_read] fills from the memory map; [kmalloc] and [kfree]
      against the list of blocks; [Que] refines a list.
    - Address spaces: [enableSpace] maps every page of a range and keeps the others,
      [vir2phy] is the translation of the page tables, [copyKernelDir]; the kernel's own
      directory, as [initPaging] makes it.
    - Scheduling: [schedule] refines the four run queues, no runnable process starves,
      sleep and wakeup, timers in order and each expired once, messages arrive.
    - Processes: [clone_mm] makes a private copy of an address space, [makeSysProc] and
      [fork] make a process that can run and leave the others alone, [init_tasks]
      starts from the constructors' state and ends where every operation can go on.
    - Start: [kinit] runs to its end, and what it leaves satisfies the invariants of the
      scheduler, the paging code, the heap and the descriptor tables at once; the first process
      starts below the privilege of the kernel, with a stack and with interrupts enabled.
    - Interrupts and calls: in every state that programs, interrupts, forks and messages lead
      to, the handlers come to an end and the invariants hold; an interrupt changes the
      registers of no process, whatever it switches to; [fork] returns in the parent and in the
      child; a message that one program sends is in the memory of the other when it receives;
      the wrappers give the program its registers back.
    - Disk: reads deliver the sectors of the drive, what is written is read back.
    - Files: block numbers follow the direct and indirect blocks of ext2, a path is the
      walk through directories, reads deliver the bytes of the file; heap blocks that are
      not handed to the caller are returned, or counted where the code leaks them.
    - Programs: the loader builds the image of an executable, and refuses other files.
    - Strings, numbers and descriptors: round trips and bounds.
    - Error theorems state what the code does where it does not do what it means to.

    ** Fuel and bounds

    A loop over a bounded range runs as often as its bound. [while] loops over linked
    lists take the number of nodes of their array, which no chain without a cycle
    exceeds. Loops that wait for hardware, the search of [kmalloc], the search in a
    directory and the splitting of a path take fuel; the theorems give the number that is
    enough (blocks of the heap, entries of the directory, characters of the path) and
    prove [Ok].

    ** Not modelled

    [init_pit], [init_pic] and [taskInit], which the repository does not hold, are parameters of [Start.v]; the class of
    [Kprint.cpp] is not in it either, and neither it nor [File.cpp] and [executable.cpp] are linked into the kernel.
    The file part of the kernel call EXEC is a parameter in [Interrupt.v]. The steps of
    [Execution.v] do not include EXEC, and of SEND and RECV those to a process that does not
    wait and of a message that is there: three programs can bring the kernel to a panic with
    the others ([Ipc.v], [ipc_panics]). The test program and the C library headers in [src/user]. Of [elf.h] only what the loader uses. The PCI layer of
    [ide_hdd.c] and the drives are parameters with their documented behaviour as laws;
    [IdeHdd.v] has a drive that satisfies them. *)

From stdpp Require Export base tactics option list numbers gmap strings.

#[global] Open Scope Z_scope.

(** ** Machine integers ([src/include/Type.hpp])

    A [w]-bit integer of the source is a [Z]; the conversion to the type is
    written out wherever the C++ code converts or overflows. *)

Definition u8 (z : Z) : Z := z `mod` 256.

Definition u16 (z : Z) : Z := z `mod` 65536.

Definition u32 (z : Z) : Z := z `mod` 4294967296.

(** The 32-bit two's complement value of [z] ([int], [s32_t], [pid_t]). *)
Definition s32 (z : Z) : Z := (z + 2147483648) `mod` 4294967296 - 2147483648.

(** The 8-bit two's complement value of [z] ([char], [s8_t] of this target). *)
Definition s8 (z : Z) : Z := (z + 128) `mod` 256 - 128.

Definition is_u8 (z : Z) : Prop := 0 ≤ z < 256.
Definition is_u16 (z : Z) : Prop := 0 ≤ z < 65536.
Definition is_u32 (z : Z) : Prop := 0 ≤ z < 4294967296.
Definition is_s32 (z : Z) : Prop := -2147483648 ≤ z < 2147483648.

(** ** Outcomes of kernel code

    [Panic] is a call of [panic()] (it prints and loops for ever), [Fault] an
    access through a NULL pointer, [NoFuel] a loop that did not end within the
    fuel given to the model: theorems about results always prove [Ok]. *)

Inductive res (A : Type) : Type :=
| Ok (a : A)
| Panic (msg : string)
| Fault
| NoFuel.

Arguments Ok {A} _.
Arguments Panic {A} _.
Arguments Fault {A}.
Arguments NoFuel {A}.

#[export] Instance res_ret : MRet res := λ A a, Ok a.

#[export] Instance res_bind : MBind res := λ A B f m,
  match m with
  | Ok a => f a
  | Panic s => Panic s
  | Fault => Fault
  | NoFuel => NoFuel
  end.

(** Iteration of a C [for (i = lo; i < lo + n; i++)] whose body updates [s]. *)
Fixpoint for_loop {S : Type} (n : nat) (i : Z) (body : Z → S → S) (s : S) : S :=
  match n with
  | O => s
  | S n' => for_loop n' (i + 1) body (body i s)
  end.

(** The same loop with a body that may fail. *)
Fixpoint for_loop_res {S : Type} (n : nat) (i : Z) (body : Z → S → res S) (s : S) : res S :=
  match n with
  | O => Ok s
  | S n' => s' ← body i s; for_loop_res n' (i + 1) body s'
  end.

(** ** Tactics *)

(** Normal form of machine-integer goals: unfold the conversions and let [lia]
    see the quotients. *)
Ltac machine_unfold := unfold is_u8, is_u16, is_u32, is_s32, u8, u16, u32, s32, s8 in *.
Ltac mlia := machine_unfold; Z.div_mod_to_equations; lia.

(** Turn boolean comparisons of the code into propositions. *)
Ltac bool_to_prop :=
  repeat match goal with
  | H : (_ && _)%bool = true |- _ => apply andb_prop in H as [? ?]
  | H : (_ && _)%bool = false |- _ => apply andb_false_iff in H
  | H : (_ || _)%bool = false |- _ => apply orb_false_iff in H as [? ?]
  | H : negb _ = true |- _ => apply negb_true_iff in H
  | H : negb _ = false |- _ => apply negb_false_iff in H
  | H : (_ <? _) = true |- _ => apply Z.ltb_lt in H
  | H : (_ <? _) = false |- _ => apply Z.ltb_ge in H
  | H : (_ <=? _) = true |- _ => apply Z.leb_le in H
  | H : (_ <=? _) = false |- _ => apply Z.leb_gt in H
  | H : (_ >? _) = true |- _ => apply Z.gtb_lt in H
  | H : (_ >? _) = false |- _ => rewrite Z.gtb_ltb in H
  | H : (_ >=? _) = _ |- _ => rewrite Z.geb_leb in H
  | H : (_ =? _) = true |- _ => apply Z.eqb_eq in H
  | H : (_ =? _) = false |- _ => apply Z.eqb_neq in H
  | H : bool_decide _ = true |- _ => apply bool_decide_eq_true in H
  | H : bool_decide _ = false |- _ => apply bool_decide_eq_false in H
  end.

(** Case analysis on the conditional at the head of the goal. *)
Ltac split_if :=
  match goal with
  | |- context [if ?b then _ else _] => let E := fresh "E" in destruct b eqn:E; bool_to_prop
  end.

(** ** Hint databases *)

Create HintDb machine.
Create HintDb chaindb.

(** ** Machine-integer lemmas *)

Lemma u8_id z : is_u8 z → u8 z = z.
Proof. intros; unfold u8; apply Z.mod_small; assumption. Qed.

Lemma u16_id z : is_u16 z → u16 z = z.
Proof. intros; unfold u16; apply Z.mod_small; assumption. Qed.

Lemma u32_id z : is_u32 z → u32 z = z.
Proof. intros; unfold u32; apply Z.mod_small; assumption. Qed.

Lemma s32_id z : is_s32 z → s32 z = z.
Proof. intros H; unfold s32, is_s32 in *; rewrite Z.mod_small by lia; lia. Qed.

Lemma u8_range z : is_u8 (u8 z).
Proof. unfold is_u8, u8; apply Z.mod_pos_bound; lia. Qed.

Lemma u16_range z : is_u16 (u16 z).
Proof. unfold is_u16, u16; apply Z.mod_pos_bound; lia. Qed.

Lemma u32_range z : is_u32 (u32 z).
Proof. unfold is_u32, u32; apply Z.mod_pos_bound; lia. Qed.

Lemma s32_range z : is_s32 (s32 z).
Proof.
  unfold is_s32, s32.
  pose proof (Z.mod_pos_bound (z + 2147483648) 4294967296); lia.
Qed.

Lemma u32_s32 z : u32 (s32 z) = u32 z.
Proof. mlia. Qed.

Lemma s32_u32 z : s32 (u32 z) = s32 z.
Proof. mlia. Qed.

(** Masking with [~(2^k - 1)] rounds a 32-bit value down to a multiple of [2^k]. *)
Lemma land_high_mask k z : 0 ≤ k ≤ 32 → is_u32 z →
  Z.land z (4294967296 - 2 ^ k) = z / 2 ^ k * 2 ^ k.
Proof.
  intros Hk Hz.
  assert (Em : 4294967296 - 2 ^ k = Z.shiftl (Z.ones (32 - k)) k).
  { rewrite Z.shiftl_mul_pow2, Z.ones_equiv by lia.
    replace 4294967296 with (2 ^ (32 - k) * 2 ^ k); [lia|].
    rewrite <- Z.pow_add_r by lia. by replace (32 - k + k) with 32 by lia. }
  assert (E : Z.land z (Z.shiftl (Z.ones (32 - k)) k) =
    Z.shiftl (Z.land (Z.shiftr z k) (Z.ones (32 - k))) k).
  { apply Z.bits_inj'. intros n Hn. rewrite Z.land_spec.
    destruct (Z.lt_ge_cases n k).
    - rewrite !Z.shiftl_spec_low by lia. apply andb_false_r.
    - rewrite !Z.shiftl_spec_high, Z.land_spec, Z.shiftr_spec by lia.
      by replace (n - k + k) with n by lia. }
  rewrite Em, E, Z.land_ones, Z.shiftl_mul_pow2, Z.shiftr_div_pow2 by lia.
  rewrite Z.mod_small; [done|]. unfold is_u32 in Hz. split; [apply Z.div_pos; lia|].
  apply Z.div_lt_upper_bound; [lia|]. rewrite <- Z.pow_add_r by lia.
  replace (k + (32 - k)) with 32 by lia. lia.
Qed.

Lemma land_page_mask z : is_u32 z → Z.land z 4294963200 = z / 4096 * 4096.
Proof. apply (land_high_mask 12). lia. Qed.

#[export] Hint Resolve u8_range u16_range u32_range s32_range : machine.

(** ** The error monad *)

Lemma res_bind_ok {A B : Type} (m : res A) (f : A → res B) (b : B) :
  m ≫= f = Ok b ↔ ∃ a, m = Ok a ∧ f a = Ok b.
Proof.
  split.
  - destruct m as [a| | |]; cbn; try discriminate; eauto.
  - intros (a & -> & H); exact H.
Qed.

(** ** Loops *)

Section for_loop.
Context {S : Type}.

(** Invariant rule of the bounded [for] loop. *)
Lemma for_loop_ind (P : Z → S → Prop) (n : nat) (i : Z) (body : Z → S → S) (s : S) :
  P i s →
  (∀ j t, i ≤ j < i + Z.of_nat n → P j t → P (j + 1) (body j t)) →
  P (i + Z.of_nat n) (for_loop n i body s).
Proof.
  revert i s; induction n as [|n IH]; intros i s Hi Hstep; cbn [for_loop].
  - replace (i + Z.of_nat 0) with i by lia; exact Hi.
  - replace (i + Z.of_nat (Datatypes.S n)) with (i + 1 + Z.of_nat n) by lia.
    apply IH; [apply Hstep; [lia|exact Hi]|].
    intros j t Hj; apply Hstep; lia.
Qed.

Lemma for_loop_res_ind (P : Z → S → Prop) (n : nat) (i : Z) (body : Z → S → res S) (s : S) :
  P i s →
  (∀ j t, i ≤ j < i + Z.of_nat n → P j t → ∃ t', body j t = Ok t' ∧ P (j + 1) t') →
  ∃ s', for_loop_res n i body s = Ok s' ∧ P (i + Z.of_nat n) s'.
Proof.
  revert i s; induction n as [|n IH]; intros i s Hi Hstep; cbn [for_loop_res].
  - exists s; split; [done|]. replace (i + Z.of_nat 0) with i by lia; exact Hi.
  - destruct (Hstep i s) as (s1 & E1 & H1); [lia|exact Hi|].
    destruct (IH (i + 1) s1) as (s' & E' & H'); [exact H1| |].
    + intros j t Hj; apply Hstep; lia.
    + exists s'; split; [rewrite E1; exact E'|].
      replace (i + Z.of_nat (Datatypes.S n)) with (i + 1 + Z.of_nat n) by lia; exact H'.
Qed.

End for_loop.
