(* ===== verification/Chain.v ===== *)
(** * Linked chains in an arena of nodes

    The kernel keeps its lists in static arrays of nodes linked by pointers
    ([Seg.np] of PFAllocator.h, [Proc.next] of Process.h, [Entry.next] and
    [Entry.prev] of KType.hpp).  A pointer into such an array is an index, NULL
    is [None], and the pointer fields of a state are a function [nxt] from nodes
    to pointers.  [lseg nxt p xs q] says that following [nxt] from [p] visits the
    nodes [xs] in order and reaches [q]. *)

From S2P Require Import Prelude.

Fixpoint lseg (nxt : nat → option nat) (p : option nat) (xs : list nat) (q : option nat) : Prop :=
  match xs with
  | [] => p = q
  | x :: xs' => p = Some x ∧ lseg nxt (nxt x) xs' q
  end.

(** A NULL-terminated list. *)
Definition chain (nxt : nat → option nat) (p : option nat) (xs : list nat) : Prop :=
  lseg nxt p xs None.

(** The pointer fields after the assignment [node i]->next = [v]. *)
Definition fset (nxt : nat → option nat) (i : nat) (v : option nat) : nat → option nat :=
  λ j, if decide (j = i) then v else nxt j.

(** Bounded walk along a chain: the nodes visited from [p]. *)
Fixpoint walk (fuel : nat) (nxt : nat → option nat) (p : option nat) : list nat :=
  match fuel, p with
  | S f, Some x => x :: walk f nxt (nxt x)
  | _, _ => []
  end.

Section lseg.
Context (nxt : nat → option nat).
Implicit Types (p q : option nat) (xs ys : list nat) (x : nat).

Lemma fset_eq i v : fset nxt i v i = v.
Proof. unfold fset; by rewrite decide_True. Qed.

Lemma fset_ne i j v : j ≠ i → fset nxt i v j = nxt j.
Proof. intros; unfold fset; by rewrite decide_False. Qed.

Lemma lseg_ext nxt' p q xs :
  (∀ x, x ∈ xs → nxt' x = nxt x) → lseg nxt p xs q → lseg nxt' p xs q.
Proof.
  revert p; induction xs as [|x xs IH]; intros p Hext; cbn; [done|].
  intros [-> H]; split; [done|].
  rewrite (Hext x) by set_solver. apply IH; [set_solver|done].
Qed.

Lemma lseg_app p q xs ys :
  lseg nxt p (xs ++ ys) q ↔ ∃ r, lseg nxt p xs r ∧ lseg nxt r ys q.
Proof.
  revert p; induction xs as [|x xs IH]; intros p; cbn.
  - split; [by eauto|]. by intros (r & -> & H).
  - rewrite IH; split.
    + intros (-> & r & H1 & H2); eauto.
    + intros (r & (-> & H1) & H2); eauto.
Qed.

Lemma lseg_snoc p q xs x :
  lseg nxt p (xs ++ [x]) q ↔ lseg nxt p xs (Some x) ∧ nxt x = q.
Proof.
  rewrite lseg_app; cbn; split.
  - intros (r & H1 & -> & <-); done.
  - intros (H1 & <-); eauto.
Qed.

Lemma lseg_head p q x xs : lseg nxt p (x :: xs) q → p = Some x.
Proof. by intros [? _]. Qed.

(** Two chains from the same pointer visit the same nodes. *)
Lemma chain_det p xs ys : chain nxt p xs → chain nxt p ys → xs = ys.
Proof.
  unfold chain; revert p ys; induction xs as [|x xs IH]; intros p [|y ys]; cbn;
    intros H1 H2; destruct_and?; simplify_eq; [done|].
  f_equal; by eapply IH.
Qed.

Lemma chain_NoDup p xs : chain nxt p xs → NoDup xs.
Proof.
  revert p; induction xs as [|x xs IH]; intros p H; [constructor|].
  destruct H as [-> H]. constructor; [|by eapply IH].
  intros Hin. apply list_elem_of_split in Hin as (l1 & l2 & ->).
  pose proof H as H'. apply lseg_app in H' as (r & H1 & H2).
  assert (Heq : l1 ++ x :: l2 = l2).
  { apply (chain_det (nxt x)); [exact H|]. by destruct H2. }
  apply (f_equal length) in Heq; rewrite length_app in Heq; cbn in Heq; lia.
Qed.

Lemma chain_walk p xs (fuel : nat) :
  chain nxt p xs → (length xs < fuel)%nat → walk fuel nxt p = xs.
Proof.
  revert p fuel; induction xs as [|x xs IH]; intros p [|fuel] H Hf; cbn in *; try lia.
  - unfold chain in H; cbn in H; by subst.
  - destruct H as [-> H]; f_equal; apply IH; [done|lia].
Qed.

End lseg.

Section lseg_update.
Implicit Types (nxt : nat → option nat) (p q r : option nat) (xs ys : list nat) (x : nat).

(** Redirecting the last node of a segment. *)
Lemma lseg_redirect nxt p q r xs x :
  x ∉ xs → lseg nxt p (xs ++ [x]) q → lseg (fset nxt x r) p (xs ++ [x]) r.
Proof.
  intros Hx H. apply lseg_snoc in H as [H _].
  rewrite lseg_app. exists (Some x); split.
  - eapply lseg_ext; [|done]. intros y Hy; apply fset_ne; set_solver.
  - cbn; by rewrite fset_eq.
Qed.

Lemma lseg_fset_notin nxt p q xs x r :
  x ∉ xs → lseg nxt p xs q → lseg (fset nxt x r) p xs q.
Proof. intros Hx; apply lseg_ext; intros y Hy; apply fset_ne; set_solver. Qed.

(** A segment of a NULL-terminated list is duplicate free. *)
Lemma lseg_NoDup nxt p q xs ys : lseg nxt p xs q → chain nxt q ys → NoDup (xs ++ ys).
Proof. intros H1 H2; eapply chain_NoDup, lseg_app; eauto. Qed.

End lseg_update.

#[export] Hint Resolve lseg_fset_notin : chaindb.

(** ** Walking with a pointer to a pointer

    A pointer [pp] that starts at [&head] and moves to [&pp[0]->next] is how every list of
    the kernel is traversed: [pp] is either the head variable or the next field
    of a node. *)

Inductive loc := LHead | LNext (i : nat).

(** The location reached after walking over [xs]. *)
Definition loc_after (xs : list nat) : loc :=
  match last xs with
  | None => LHead
  | Some x => LNext x
  end.

(** The content of a location, for a list with head pointer [p]. *)
Definition loc_get (nxt : nat → option nat) (p : option nat) (l : loc) : option nat :=
  match l with
  | LHead => p
  | LNext i => nxt i
  end.

Definition loc_set_head (p : option nat) (l : loc) (v : option nat) : option nat :=
  match l with
  | LHead => v
  | LNext _ => p
  end.

Definition loc_set_nxt (nxt : nat → option nat) (l : loc) (v : option nat) : nat → option nat :=
  match l with
  | LHead => nxt
  | LNext i => fset nxt i v
  end.

Lemma loc_after_snoc xs x : loc_after (xs ++ [x]) = LNext x.
Proof. unfold loc_after; by rewrite last_snoc. Qed.

Lemma loc_get_after nxt p xs q :
  lseg nxt p xs q → loc_get nxt p (loc_after xs) = q.
Proof.
  destruct xs as [|x xs _] using rev_ind; [done|].
  rewrite loc_after_snoc; cbn. by intros [_ H]%lseg_snoc.
Qed.

(** Assigning through the location reached after [xs] keeps [xs] and
    redirects the list to the assigned pointer. *)
Lemma lseg_loc_set nxt p xs q r :
  NoDup xs → lseg nxt p xs q →
  lseg (loc_set_nxt nxt (loc_after xs) r) (loc_set_head p (loc_after xs) r) xs r.
Proof.
  destruct xs as [|x xs _] using rev_ind; [done|].
  rewrite loc_after_snoc; cbn. intros Hnd; apply lseg_redirect.
  apply NoDup_app in Hnd as (_ & Hd & _); intros Hx; apply (Hd x Hx); set_solver.
Qed.

Lemma loc_set_nxt_ne nxt l v j : l ≠ LNext j → loc_set_nxt nxt l v j = nxt j.
Proof. destruct l as [|i]; cbn; [done|]. intros; apply fset_ne; congruence. Qed.

Lemma loc_after_in xs j : loc_after xs = LNext j → j ∈ xs.
Proof.
  destruct xs as [|x xs _] using rev_ind; [done|].
  rewrite loc_after_snoc; intros [= ->]; set_solver.
Qed.

(** Splicing: the list [xs ++ mid ++ ys] becomes [xs ++ new ++ ys'] when the
    location after [xs] is set to the start of a chain [zs] that does not go
    through [xs]. *)
Lemma chain_splice nxt p xs q r zs :
  NoDup xs → lseg nxt p xs q →
  (∀ z, z ∈ zs → z ∉ xs) →
  chain nxt r zs →
  chain (loc_set_nxt nxt (loc_after xs) r) (loc_set_head p (loc_after xs) r) (xs ++ zs).
Proof.
  intros Hnd Hseg Hdisj Hz. unfold chain. apply lseg_app. exists r; split.
  - by eapply lseg_loc_set.
  - eapply lseg_ext; [|exact Hz]. intros z Hin. apply loc_set_nxt_ne.
    intros E%loc_after_in. by apply (Hdisj z).
Qed.

(** Unlinking the node after [x], and linking a node after [x]. *)
Lemma lseg_unlink nxt s q xs x c ys :
  NoDup (xs ++ x :: c :: ys) → lseg nxt s (xs ++ x :: c :: ys) q →
  lseg (fset nxt x (nxt c)) s (xs ++ x :: ys) q.
Proof.
  intros Hnd. rewrite !lseg_app. apply NoDup_app in Hnd as (_ & Hd & Hnd).
  apply NoDup_cons in Hnd as [Hx _].
  intros (r & H1 & -> & Hc & H2). exists (Some x); split; [|split; [done|]].
  - apply lseg_fset_notin; [|done]. intros Hin; apply (Hd x Hin); set_solver.
  - rewrite fset_eq. apply lseg_fset_notin; [set_solver|done].
Qed.

Lemma lseg_link nxt s q xs x c ys :
  NoDup (xs ++ x :: c :: ys) → lseg nxt s (xs ++ x :: ys) q →
  lseg (fset (fset nxt c (nxt x)) x (Some c)) s (xs ++ x :: c :: ys) q.
Proof.
  intros Hnd. rewrite !lseg_app. apply NoDup_app in Hnd as (_ & Hd & Hnd).
  apply NoDup_cons in Hnd as [Hx Hc]. apply NoDup_cons in Hc as [Hc _].
  intros (r & H1 & -> & H2). exists (Some x); split; [|split; [done|]].
  - apply lseg_fset_notin; [|apply lseg_fset_notin; [|done]];
      intros Hin; [apply (Hd x Hin)|apply (Hd c Hin)]; set_solver.
  - rewrite fset_eq; split; [done|].
    rewrite fset_ne, fset_eq by set_solver.
    apply lseg_fset_notin; [|apply lseg_fset_notin; [|done]]; set_solver.
Qed.

(** The first node of a segment [l] that ends at [t], read from the reversed
    list. *)
Lemma lseg_first nxt p l t zs n :
  lseg nxt p l (Some t) → t :: rev l = zs ++ [n] → p = Some n.
Proof.
  destruct l as [|m l]; cbn; intros H E.
  - change [t] with ([] ++ [t]) in E. apply app_inj_tail in E as [_ <-]. done.
  - destruct H as [-> _]. rewrite app_comm_cons in E.
    by apply app_inj_tail in E as [_ <-].
Qed.

Lemma cons_snoc {A : Type} (x : A) (l : list A) : ∃ ys y, x :: l = ys ++ [y].
Proof.
  destruct l as [|y l _] using rev_ind; [by exists [], x|].
  exists (x :: l), y; done.
Qed.

Lemma elem_of_rev {A : Type} (x : A) (l : list A) : x ∈ rev l ↔ x ∈ l.
Proof. by rewrite <-(Permutation_rev l). Qed.
