(* ===== verification/Memory.v ===== *)
(** * Physical memory

    The byte-addressed memory the kernel works on ([load32]/[store32] are the
    little-endian accesses of the 486), the rounding macros of [com.h], and the
    interface [FrameAlloc] through which the paging code and the heap obtain
    page frames; [PageFrames.v] shows that [PFAllocator] implements it. *)

From S2P Require Import Prelude.

(** ** Bytes and words *)

Abbreviation mem := (gmap Z Z).

Definition load8 (m : mem) (a : Z) : Z := default 0 (m !! a).
Definition store8 (m : mem) (a v : Z) : mem := <[a := u8 v]> m.

Definition load32 (m : mem) (a : Z) : Z :=
  load8 m a + load8 m (a + 1) * 256 + load8 m (a + 2) * 65536 + load8 m (a + 3) * 16777216.

Definition store32 (m : mem) (a v : Z) : mem :=
  store8 (store8 (store8 (store8 m a v) (a + 1) (v / 256)) (a + 2) (v / 65536)) (a + 3)
    (v / 16777216).

Definition load16 (m : mem) (a : Z) : Z := load8 m a + load8 m (a + 1) * 256.

Definition store16 (m : mem) (a v : Z) : mem := store8 (store8 m a v) (a + 1) (v / 256).

(** Consecutive 16-bit words, as [rep insw] stores them. *)
Fixpoint store_words (m : mem) (a : Z) (ws : list Z) : mem :=
  match ws with
  | [] => m
  | w :: ws => store_words (store16 m a w) (a + 2) ws
  end.

(** Every cell holds a byte. *)
Definition bytes_ok (m : mem) : Prop := ∀ a v, m !! a = Some v → is_u8 v.

(** ** Macros of [com.h] *)

Definition ALIGN_4K (x : Z) : Z := Z.land x (u32 (Z.lnot 4095)).
Definition MOD_4K (x : Z) : Z := Z.land x 4095.
Definition CEIL (x y : Z) : Z := Z.land (u32 (x + y - 1)) (u32 (Z.lnot (y - 1))).
Definition FLOOR (x y : Z) : Z := Z.land x (u32 (Z.lnot (y - 1))).

(** ** The page-frame interface *)

(** [fa_ready s n]: at least [n] more single frames can be obtained;
    [fa_used s a]: address [a] is not in free memory. *)
Class FrameAlloc (S : Type) := {
  fa_alloc : S → Z → res (Z * S);
  fa_ready : S → nat → Prop;
  fa_used : S → Z → Prop;
  fa_ready_le : ∀ s n n', (n' ≤ n)%nat → fa_ready s n → fa_ready s n';
  fa_alloc_spec : ∀ s n, fa_ready s (Datatypes.S n) →
    ∃ p s', fa_alloc s 1 = Ok (p, s') ∧ fa_ready s' n ∧ p `mod` 4096 = 0 ∧
      0 ≤ p ∧ p + 4096 < 4294967296 ∧
      (∀ a, fa_used s' a ↔ fa_used s a ∨ p ≤ a < p + 4096) ∧
      (∀ a, p ≤ a < p + 4096 → ¬ fa_used s a)
}.

(** ** Lemmas *)

Lemma load8_store8 m a b v : load8 (store8 m a v) b = if decide (b = a) then u8 v else load8 m b.
Proof.
  unfold load8, store8. case_decide as E; subst; [by rewrite lookup_insert_eq|].
  by rewrite lookup_insert_ne.
Qed.

Lemma bytes_ok_store8 m a v : bytes_ok m → bytes_ok (store8 m a v).
Proof.
  intros H b w. unfold store8. rewrite lookup_insert. case_decide; [|apply H].
  intros [= <-]. apply u8_range.
Qed.

Lemma bytes_ok_store32 m a v : bytes_ok m → bytes_ok (store32 m a v).
Proof. intros H. unfold store32. by repeat apply bytes_ok_store8. Qed.

Lemma bytes_ok_empty : bytes_ok ∅.
Proof. intros a v. by rewrite lookup_empty. Qed.

Lemma load8_range m a : bytes_ok m → is_u8 (load8 m a).
Proof.
  intros H. unfold load8. destruct (m !! a) eqn:E; cbn; [by eapply H|unfold is_u8; lia].
Qed.

Lemma load32_range m a : bytes_ok m → is_u32 (load32 m a).
Proof.
  intros H. unfold load32.
  pose proof (load8_range m a H). pose proof (load8_range m (a + 1) H).
  pose proof (load8_range m (a + 2) H). pose proof (load8_range m (a + 3) H).
  unfold is_u8, is_u32 in *. lia.
Qed.

(** Reading back a word, and reading a word that does not overlap it. *)
Lemma load32_store32_eq m a v : is_u32 v → load32 (store32 m a v) a = v.
Proof.
  intros Hv. unfold load32, store32. rewrite !load8_store8.
  repeat ((rewrite decide_True by lia) || (rewrite decide_False by lia)).
  unfold u8, is_u32 in *. Z.div_mod_to_equations. lia.
Qed.

Lemma load8_store32_ne m a b v : b < a ∨ a + 4 ≤ b → load8 (store32 m a v) b = load8 m b.
Proof. intros H. unfold store32. rewrite !load8_store8. by rewrite !decide_False by lia. Qed.

Lemma load32_store32_ne m a b v : b + 4 ≤ a ∨ a + 4 ≤ b → load32 (store32 m a v) b = load32 m b.
Proof. intros H. unfold load32. by rewrite !load8_store32_ne by lia. Qed.

Lemma ALIGN_4K_spec x : is_u32 x → ALIGN_4K x = x / 4096 * 4096.
Proof. exact (land_page_mask x). Qed.

Lemma MOD_4K_spec x : MOD_4K x = x `mod` 4096.
Proof. unfold MOD_4K. change 4095 with (Z.ones 12). by rewrite Z.land_ones by lia. Qed.

Lemma FLOOR_4K x : is_u32 x → FLOOR x 4096 = x / 4096 * 4096.
Proof. exact (land_page_mask x). Qed.

(** [CEIL] rounds up as long as the rounded value is a 32-bit value. *)
Lemma CEIL_4K x : 0 ≤ x → x + 4095 < 4294967296 → CEIL x 4096 = (x + 4095) / 4096 * 4096.
Proof.
  intros H0 H1. unfold CEIL. replace (x + 4096 - 1) with (x + 4095) by lia.
  rewrite u32_id by (unfold is_u32; lia). apply (land_page_mask (x + 4095)). unfold is_u32; lia.
Qed.

(** ** Frames: what a computation leaves alone *)

(** [m'] differs from [m] at most in the [n] bytes at [a]. *)
Definition only_changes (m m' : mem) (a n : Z) : Prop :=
  ∀ b, ¬ (a ≤ b < a + n) → load8 m' b = load8 m b.

Lemma only_changes_refl m a n : only_changes m m a n.
Proof. done. Qed.

Lemma only_changes_trans m1 m2 m3 a n :
  only_changes m1 m2 a n → only_changes m2 m3 a n → only_changes m1 m3 a n.
Proof. intros H1 H2 b Hb. by rewrite H2, H1. Qed.

Lemma only_changes_store8 m c v a n : a ≤ c < a + n → only_changes m (store8 m c v) a n.
Proof. intros Hc b Hb. rewrite load8_store8, decide_False; [done|]. by intros ->. Qed.

(** A loop whose every iteration stays inside a range stays inside it. *)
Lemma only_changes_loop (n : nat) i (body : Z → mem → mem) m a k :
  (∀ j t, i ≤ j < i + Z.of_nat n → only_changes t (body j t) a k) →
  only_changes m (for_loop n i body m) a k.
Proof.
  intros H. apply (for_loop_ind (λ _ t, only_changes m t a k)); [done|].
  intros j t Hj Ht. eapply only_changes_trans; [exact Ht|]. by apply H.
Qed.

Lemma only_changes_mono m m' a n b k :
  only_changes m m' a n → b ≤ a → a + n ≤ b + k → only_changes m m' b k.
Proof. intros H Hl Hh c Hc. apply H. lia. Qed.

Lemma only_changes_store32 m c v a n : a ≤ c → c + 4 ≤ a + n → only_changes m (store32 m c v) a n.
Proof. intros Hl Hh b Hb. apply load8_store32_ne. lia. Qed.

#[export] Hint Resolve bytes_ok_store8 bytes_ok_store32 load8_range load32_range : machine.
