(* ===== verification/KType.v ===== *)
(** * KType.hpp: the node lessor and the message queue

    [Lessor<T,N>] hands out the elements of a static array; [Que<T,N>] is a
    doubly linked queue between two sentinels whose nodes are leased from a
    [Lessor<Entry,N+2>].  IPC messages ([Proc::recvQ], [sendQ], [recv_anyQ]) and
    the interrupt waiters ([irqQue]) are such queues. *)

From S2P Require Import Prelude Chain.

(** ** [template<class T,int N> class Lessor] *)

Section lessor.
Context {T : Type}.

Record Lessor := mkLessor {
  room : list T;
  isFree : list bool
}.

(** [Lessor()]: every room is free. *)
Definition Lessor_new (N : nat) (d : T) : Lessor :=
  mkLessor (replicate N d) (replicate N true).

(** The scan [for(int i=0;i<N;i++) if(isFree[i])] of [get]. *)
Fixpoint first_free (l : list bool) (i : nat) : option nat :=
  match l with
  | [] => None
  | b :: l' => if b then Some i else first_free l' (S i)
  end.

(** [T *get()]: the first free room, or NULL. *)
Definition get (r : Lessor) : option nat * Lessor :=
  match first_free (isFree r) 0 with
  | Some i => (Some i, mkLessor (room r) (<[i := false]> (isFree r)))
  | None => (None, r)
  end.

(** [void free(const T *a)]: a pointer outside the array frees nothing. *)
Definition free (r : Lessor) (a : option nat) : Lessor :=
  match a with
  | Some i =>
      if bool_decide (i < length (isFree r))%nat
      then mkLessor (room r) (<[i := true]> (isFree r))
      else r
  | None => r
  end.

Lemma first_free_spec (l : list bool) (k i : nat) :
  first_free l k = Some i →
  ∃ j, i = (k + j)%nat ∧ l !! j = Some true ∧ ∀ m, (m < j)%nat → l !! m = Some false.
Proof.
  revert k; induction l as [|b l IH]; intros k; cbn; [done|].
  destruct b.
  - intros [= <-]; exists 0%nat; split_and!; [lia|done|lia].
  - intros (j & -> & Hj & Hm)%IH; exists (S j); split_and!; [lia|done|].
    intros [|m] Hlt; [done|]; apply Hm; lia.
Qed.

Lemma first_free_none (l : list bool) (k : nat) :
  first_free l k = None ↔ ∀ j, l !! j ≠ Some true.
Proof.
  revert k; induction l as [|b l IH]; intros k; cbn.
  - split; [intros _ j; by rewrite lookup_nil|done].
  - destruct b.
    + split; [done|]. intros H; by destruct (H 0%nat).
    + rewrite IH; split.
      * intros H [|j]; [done|apply H].
      * intros H j; apply (H (S j)).
Qed.

Lemma get_some (r r' : Lessor) (i : nat) :
  get r = (Some i, r') →
  isFree r !! i = Some true ∧ r' = mkLessor (room r) (<[i := false]> (isFree r)).
Proof.
  unfold get; destruct (first_free (isFree r) 0) as [j|] eqn:E; [|done].
  intros [= -> <-]. apply first_free_spec in E as (m & -> & H & _). done.
Qed.

Lemma get_none (r r' : Lessor) :
  get r = (None, r') → r' = r ∧ ∀ j, isFree r !! j ≠ Some true.
Proof.
  unfold get; destruct (first_free (isFree r) 0) as [j|] eqn:E; [done|].
  intros [= <-]; split; [done|]. by eapply first_free_none.
Qed.

End lessor.

Arguments Lessor : clear implicits.

(** ** [template<class T,int N> class Que] *)

Section que.
Context {T : Type}.
(** [nr_ent = N], the [T] whose bits the uninitialised nodes hold, and
    [T::operator==]. *)
Context (nr_ent : nat) (d : T) (eqT : T → T → bool).

Record Entry := mkEntry {
  sentinel : bool;
  next : option nat;
  prev : option nat;
  content : T
}.

Record Que := mkQue {
  invalid : T;
  head : option nat;
  tail : option nat;
  num : Z;
  entries : Lessor Entry
}.

(** Dereference and member assignment; NULL faults. *)
Definition deref (q : Que) (p : option nat) : res Entry :=
  match p with
  | None => Fault
  | Some i => match room (entries q) !! i with Some e => Ok e | None => Fault end
  end.

Definition upd (q : Que) (i : nat) (f : Entry → Entry) : Que :=
  mkQue (invalid q) (head q) (tail q) (num q)
    (mkLessor (alter f i (room (entries q))) (isFree (entries q))).

Definition store (q : Que) (p : option nat) (f : Entry → Entry) : res Que :=
  _ ← deref q p; match p with Some i => Ok (upd q i f) | None => Fault end.

Definition set_next (v : option nat) (e : Entry) : Entry :=
  mkEntry (sentinel e) v (prev e) (content e).
Definition set_prev (v : option nat) (e : Entry) : Entry :=
  mkEntry (sentinel e) (next e) v (content e).
Definition set_content (t : T) (e : Entry) : Entry :=
  mkEntry (sentinel e) (next e) (prev e) t.
Definition setSentinel (b : bool) (e : Entry) : Entry :=
  mkEntry b (next e) (prev e) (content e).

Definition with_num (q : Que) (n : Z) : Que :=
  mkQue (invalid q) (head q) (tail q) n (entries q).
Definition with_entries (q : Que) (r : Lessor Entry) : Que :=
  mkQue (invalid q) (head q) (tail q) (num q) r.

(** [Entry()]. *)
Definition Entry_new : Entry := mkEntry false None None d.

(** [Que(T invalid)]. *)
Definition Que_new (inv : T) : res Que :=
  let r0 := Lessor_new (nr_ent + 2) Entry_new in
  let '(h, r1) := get r0 in
  let '(t, r2) := get r1 in
  let q := mkQue inv h t 0 r2 in
  q ← store q h (setSentinel true);
  q ← store q t (setSentinel true);
  q ← store q h (set_next t);
  q ← store q t (set_prev h);
  q ← store q t (set_next None);
  q ← store q h (set_prev None);
  Ok (with_num q 0).

(** [void enque(const T &t)]. *)
Definition enque (q : Que) (t : T) : res Que :=
  if num q >? Z.of_nat nr_ent then Ok q
  else
    eh ← deref q (head q);
    let nHead := next eh in
    let '(aent, r) := get (entries q) in
    let q := with_entries q r in
    q ← store q aent (set_content t);
    q ← store q aent (set_next nHead);
    q ← store q aent (set_prev (head q));
    q ← store q (head q) (set_next aent);
    q ← store q nHead (set_prev aent);
    Ok (with_num q (num q + 1)).

(** [T deque()]. *)
Definition deque (q : Que) : res (T * Que) :=
  if num q =? 0 then Ok (invalid q, q)
  else
    et ← deref q (tail q);
    let pTail := prev et in
    ep ← deref q pTail;
    let ppTail := prev ep in
    let ret := content ep in
    q ← store q ppTail (set_next (tail q));
    q ← store q (tail q) (set_prev ppTail);
    let q := with_entries q (free (entries q) pTail) in
    Ok (ret, with_num q (num q - 1)).

(** The loop of [T deque(T a)]; [fuel] is the trip count [num]. *)
Fixpoint deque_loop (fuel : nat) (q : Que) (a : T) (curr : option nat) : res (T * Que) :=
  match fuel with
  | O => Ok (invalid q, q)
  | S fuel' =>
      ec ← deref q curr;
      if eqT (content ec) a then
        let pCurr := prev ec in
        let nCurr := next ec in
        let ret := content ec in
        q ← store q pCurr (set_next nCurr);
        q ← store q nCurr (set_prev pCurr);
        let q := with_entries q (free (entries q) curr) in
        Ok (ret, with_num q (num q - 1))
      else deque_loop fuel' q a (next ec)
  end.

(** [T deque(T a)]. *)
Definition deque_eq (q : Que) (a : T) : res (T * Que) :=
  eh ← deref q (head q);
  deque_loop (Z.to_nat (num q)) q a (next eh).

(** ** The abstract queue

    A list, newest element first: [enque] adds in front, [deque] takes the
    last, [deque(a)] takes the first element equal to [a]. *)

Fixpoint remove_first (a : T) (xs : list T) : option (T * list T) :=
  match xs with
  | [] => None
  | x :: xs' =>
      if eqT x a then Some (x, xs')
      else '(y, r) ← remove_first a xs'; Some (y, x :: r)
  end.

Definition ent (q : Que) (i : nat) : Entry := default Entry_new (room (entries q) !! i).
Definition nexts (q : Que) (i : nat) : option nat := next (ent q i).
Definition prevs (q : Que) (i : nat) : option nat := prev (ent q i).

(** The nodes [ids] between the sentinels [h] and [t], newest first. *)
Record Shape (q : Que) (h t : nat) (ids : list nat) : Prop := {
  shape_head : head q = Some h;
  shape_tail : tail q = Some t;
  shape_next : lseg (nexts q) (Some h) (h :: ids) (Some t);
  shape_prev : lseg (prevs q) (Some t) (t :: rev ids) (Some h);
  shape_nodup : NoDup (h :: t :: ids);
  shape_range : ∀ i, i ∈ h :: t :: ids → (i < nr_ent + 2)%nat;
  shape_num : num q = Z.of_nat (length ids);
  shape_len : length (room (entries q)) = (nr_ent + 2)%nat;
  shape_free : ∀ i, isFree (entries q) !! i =
    if decide (i < nr_ent + 2)%nat then Some (bool_decide (i ∉ h :: t :: ids)) else None
}.

Definition Repr (q : Que) (inv : T) (xs : list T) : Prop :=
  ∃ h t ids, Shape q h t ids ∧ invalid q = inv ∧ xs = (λ i, content (ent q i)) <$> ids.

End que.

Arguments Entry : clear implicits.
Arguments Que : clear implicits.

(** ** Lemmas *)

Section que_lemmas.
Context {T : Type} (nr_ent : nat) (d : T).
Implicit Types (q : Que T) (i j h t : nat) (ids : list nat).

Abbreviation ent := (ent d).
Abbreviation nexts := (nexts d).
Abbreviation prevs := (prevs d).
Abbreviation Shape := (Shape nr_ent d).
Abbreviation Repr := (Repr nr_ent d).

Lemma deref_some q i : (i < length (room (entries q)))%nat → deref q (Some i) = Ok (ent q i).
Proof.
  intros [e He]%lookup_lt_is_Some_2. cbn. unfold KType.ent. by rewrite He.
Qed.

Lemma store_some q i f : (i < length (room (entries q)))%nat → store q (Some i) f = Ok (upd q i f).
Proof. intros H; unfold store; by rewrite (deref_some _ _ H). Qed.

Lemma ent_upd_eq q i f : (i < length (room (entries q)))%nat → ent (upd q i f) i = f (ent q i).
Proof.
  intros [e He]%lookup_lt_is_Some_2. unfold KType.ent; cbn.
  by rewrite list_lookup_alter_eq, He.
Qed.

Lemma ent_upd_ne q i j f : i ≠ j → ent (upd q i f) j = ent q j.
Proof. intros H; unfold KType.ent; cbn. by rewrite list_lookup_alter_ne. Qed.

Lemma ent_with_entries q fl i :
  ent (with_entries q (mkLessor (room (entries q)) fl)) i = ent q i.
Proof. done. Qed.

Lemma upd_length q i f : length (room (entries (upd q i f))) = length (room (entries q)).
Proof. cbn; apply length_alter. Qed.

(** A shape depends on the state only through the fields it mentions. *)
Lemma shape_in_room q h t ids i :
  Shape q h t ids → i ∈ h :: t :: ids → (i < length (room (entries q)))%nat.
Proof. intros HS Hi. rewrite (shape_len _ _ _ _ _ _ HS). by eapply shape_range. Qed.

(** The state after unlinking the node [c] between [p] and [n]. *)
Definition unlinked q (c p n : nat) : Que T :=
  let q1 := upd (upd q p (set_next (Some n))) n (set_prev (Some p)) in
  with_num (with_entries q1 (free (entries q1) (Some c))) (num q - 1).

(** The state after leasing node [i] for [t'] and linking it behind [h]. *)
Definition linked q (i h n : nat) (v : T) : Que T :=
  let q0 := with_entries q (mkLessor (room (entries q)) (<[i := false]> (isFree (entries q)))) in
  let q1 := upd (upd (upd q0 i (set_content v)) i (set_next (Some n))) i (set_prev (Some h)) in
  with_num (upd (upd q1 h (set_next (Some i))) n (set_prev (Some i))) (num q + 1).

(** Which fields an update touches. *)
Lemma ent_same_room q q' j : room (entries q) = room (entries q') → ent q j = ent q' j.
Proof. unfold KType.ent; by intros ->. Qed.

Lemma room_free (r : Lessor (Entry T)) a : room (free r a) = room r.
Proof. unfold free; destruct a; [case_bool_decide|]; done. Qed.

Lemma proj_upd {B : Type} (pr : Entry T → B) q i f j :
  (∀ e, pr (f e) = pr e) → pr (ent (upd q i f) j) = pr (ent q j).
Proof.
  intros Hf. destruct (decide (i = j)) as [<-|]; [|by rewrite ent_upd_ne].
  destruct (decide (i < length (room (entries q)))%nat).
  - by rewrite ent_upd_eq.
  - unfold KType.ent; cbn. rewrite list_lookup_alter_eq. rewrite lookup_ge_None_2 by lia. done.
Qed.

Lemma nexts_set_next q i v j :
  (i < length (room (entries q)))%nat → nexts (upd q i (set_next v)) j = fset (nexts q) i v j.
Proof.
  intros Hi; unfold KType.nexts, fset. case_decide; subst.
  - by rewrite ent_upd_eq.
  - by rewrite ent_upd_ne.
Qed.

Lemma prevs_set_prev q i v j :
  (i < length (room (entries q)))%nat → prevs (upd q i (set_prev v)) j = fset (prevs q) i v j.
Proof.
  intros Hi; unfold KType.prevs, fset. case_decide; subst.
  - by rewrite ent_upd_eq.
  - by rewrite ent_upd_ne.
Qed.

Lemma nexts_set_other q i f j :
  (∀ e : Entry T, next (f e) = next e) → nexts (upd q i f) j = nexts q j.
Proof. intros; unfold KType.nexts; by apply proj_upd. Qed.

Lemma prevs_set_other q i f j :
  (∀ e : Entry T, prev (f e) = prev e) → prevs (upd q i f) j = prevs q j.
Proof. intros; unfold KType.prevs; by apply proj_upd. Qed.

Lemma fset_pointwise f g i v j : (∀ k, f k = g k) → fset f i v j = fset g i v j.
Proof. intros H; unfold fset; case_decide; auto. Qed.

Lemma unlinked_fields q c p n :
  (p < length (room (entries q)))%nat → (n < length (room (entries q)))%nat →
  (∀ j, nexts (unlinked q c p n) j = fset (nexts q) p (Some n) j) ∧
  (∀ j, prevs (unlinked q c p n) j = fset (prevs q) n (Some p) j) ∧
  (∀ j, content (ent (unlinked q c p n) j) = content (ent q j)).
Proof.
  intros Hp Hn.
  assert (E : ∀ j, ent (unlinked q c p n) j =
    ent (upd (upd q p (set_next (Some n))) n (set_prev (Some p))) j).
  { intros j; apply ent_same_room; unfold unlinked, with_num, with_entries; cbn [entries]; by rewrite room_free. }
  split_and!; intros j; unfold KType.nexts, KType.prevs; rewrite E.
  - change (next (ent ?x j)) with (nexts x j). rewrite nexts_set_other by done.
    by rewrite nexts_set_next.
  - change (prev (ent ?x j)) with (prevs x j).
    rewrite prevs_set_prev by by rewrite upd_length.
    apply fset_pointwise; intros; by apply prevs_set_other.
  - rewrite !proj_upd; done.
Qed.

Lemma linked_fields q i h n v :
  (i < length (room (entries q)))%nat → (h < length (room (entries q)))%nat →
  (n < length (room (entries q)))%nat →
  (∀ j, nexts (linked q i h n v) j = fset (fset (nexts q) i (Some n)) h (Some i) j) ∧
  (∀ j, prevs (linked q i h n v) j = fset (fset (prevs q) i (Some h)) n (Some i) j) ∧
  (∀ j, content (ent (linked q i h n v) j) = if decide (j = i) then v else content (ent q j)).
Proof.
  intros Hi Hh Hn. unfold linked.
  set (q0 := with_entries q _).
  assert (E0 : ∀ j, ent q0 j = ent q j) by (intros; apply ent_same_room; done).
  split_and!; intros j.
  - change (nexts (with_num ?x _) j) with (nexts x j).
    rewrite nexts_set_other by done.
    rewrite nexts_set_next by (rewrite !upd_length; done).
    apply fset_pointwise; intros k. rewrite nexts_set_other by done.
    rewrite nexts_set_next by (rewrite !upd_length; done).
    apply fset_pointwise; intros m. by rewrite nexts_set_other.
  - change (prevs (with_num ?x _) j) with (prevs x j).
    rewrite prevs_set_prev by (rewrite !upd_length; done).
    apply fset_pointwise; intros k. rewrite prevs_set_other by done.
    rewrite prevs_set_prev by (rewrite !upd_length; done).
    apply fset_pointwise; intros m. by rewrite !prevs_set_other.
  - change (ent (with_num ?x _) j) with (ent x j).
    rewrite (proj_upd content), (proj_upd content), (proj_upd content), (proj_upd content) by done.
    case_decide; subst.
    + by rewrite ent_upd_eq.
    + rewrite ent_upd_ne by done. by rewrite E0.
Qed.

(** The two orders in which the nodes of a shape are walked. *)
Lemma shape_nodup_fwd q h t ids : Shape q h t ids → NoDup (h :: ids).
Proof.
  intros HS. pose proof (shape_nodup _ _ _ _ _ _ HS) as (Hh & (Ht & Hi)%NoDup_cons)%NoDup_cons.
  apply NoDup_cons; set_solver.
Qed.

Lemma shape_nodup_bwd q h t ids : Shape q h t ids → NoDup (t :: rev ids).
Proof.
  intros HS. pose proof (shape_nodup _ _ _ _ _ _ HS) as (Hh & Hnd)%NoDup_cons.
  by rewrite <-(Permutation_rev ids).
Qed.

(** The lease bits after unlinking: only the node's own bit changes. *)
Lemma shape_free_unlink q h t l1 c l2 p n i :
  Shape q h t (l1 ++ c :: l2) →
  isFree (entries (unlinked q c p n)) !! i =
    if decide (i < nr_ent + 2)%nat then Some (bool_decide (i ∉ h :: t :: l1 ++ l2)) else None.
Proof.
  intros HS. pose proof (shape_free _ _ _ _ _ _ HS i) as Hf.
  pose proof (shape_free _ _ _ _ _ _ HS c) as Hfc.
  assert (Hc : (c < nr_ent + 2)%nat) by (apply (shape_range _ _ _ _ _ _ HS); set_solver).
  rewrite decide_True in Hfc by done. pose proof (lookup_lt_Some _ _ _ Hfc) as Hlt.
  unfold unlinked, with_num, with_entries; cbn [entries]. unfold free.
  rewrite bool_decide_eq_true_2 by done. cbn [isFree upd entries].
  destruct (decide (i = c)) as [->|Hne].
  + rewrite list_lookup_insert_eq by done. rewrite decide_True by done.
    rewrite bool_decide_eq_true_2; [done|].
    pose proof (shape_nodup _ _ _ _ _ _ HS) as H. rewrite <-Permutation_middle in H.
    rewrite !NoDup_cons in H. set_solver.
  + rewrite list_lookup_insert_ne, Hf by done. case_decide; [|done].
    f_equal. apply bool_decide_ext. set_solver.
Qed.

(** Unlinking a node removes it from the shape. *)
Lemma shape_unlink q h t l1 c l2 :
  Shape q h t (l1 ++ c :: l2) →
  ∃ p n, prevs q c = Some p ∧ nexts q c = Some n ∧
    p ∈ h :: l1 ∧ n ∈ t :: l2 ∧ (l2 = [] → n = t) ∧
    Shape (unlinked q c p n) h t (l1 ++ l2).
Proof.
  intros HS.
  destruct (cons_snoc h l1) as (ys & p & Eyp), (cons_snoc t (rev l2)) as (zs & n & Ezn).
  assert (Hp : p ∈ h :: l1) by (rewrite Eyp; set_solver).
  assert (Hn : n ∈ t :: l2).
  { assert (n ∈ t :: rev l2) as H by (rewrite Ezn; set_solver).
    rewrite elem_of_cons, elem_of_rev in H. by apply elem_of_cons. }
  pose proof (shape_next _ _ _ _ _ _ HS) as Hnx.
  pose proof (shape_nodup_fwd _ _ _ _ HS) as Hnd1.
  rewrite app_comm_cons, Eyp, <-app_assoc in Hnx, Hnd1.
  pose proof (shape_prev _ _ _ _ _ _ HS) as Hpv.
  pose proof (shape_nodup_bwd _ _ _ _ HS) as Hnd2.
  rewrite rev_app_distr in Hpv, Hnd2; cbn [rev] in Hpv, Hnd2.
  rewrite <-app_assoc, app_comm_cons, Ezn, <-app_assoc in Hpv, Hnd2. cbn [app] in *.
  assert (Enc : nexts q c = Some n).
  { apply lseg_app in Hnx as (r & _ & _ & _ & H). eapply lseg_first; [exact H|exact Ezn]. }
  assert (Epc : prevs q c = Some p).
  { apply lseg_app in Hpv as (r & _ & _ & _ & H). eapply lseg_first; [exact H|].
    by rewrite rev_involutive. }
  apply lseg_unlink in Hnx; [|done]. apply lseg_unlink in Hpv; [|done].
  rewrite Enc in Hnx; rewrite Epc in Hpv.
  exists p, n; split_and!; try done.
  { intros ->. by apply list_elem_of_singleton in Hn. }
  destruct (unlinked_fields q c p n) as (F1 & F2 & F3).
  { eapply shape_in_room; [exact HS|]. set_solver. }
  { eapply shape_in_room; [exact HS|]. set_solver. }
  constructor.
  - apply (shape_head _ _ _ _ _ _ HS).
  - apply (shape_tail _ _ _ _ _ _ HS).
  - rewrite app_comm_cons, Eyp, <-app_assoc. eapply lseg_ext; [|exact Hnx]. intros; apply F1.
  - rewrite rev_app_distr, app_comm_cons, Ezn, <-app_assoc.
    eapply lseg_ext; [|exact Hpv]. intros; apply F2.
  - pose proof (shape_nodup _ _ _ _ _ _ HS) as H. rewrite <-Permutation_middle in H.
    apply NoDup_cons in H as [? [? ?]%NoDup_cons]. rewrite NoDup_cons, NoDup_cons in *.
    set_solver.
  - intros i Hi. apply (shape_range _ _ _ _ _ _ HS). set_solver.
  - cbn. rewrite (shape_num _ _ _ _ _ _ HS), !length_app; cbn; lia.
  - pose proof (shape_len _ _ _ _ _ _ HS). unfold unlinked, with_num, with_entries; cbn [entries].
    by rewrite room_free, !upd_length.
  - intros i; by apply shape_free_unlink.
Qed.

Lemma NoDup_fresh h t ids i :
  NoDup (h :: t :: ids) → i ∉ h :: t :: ids →
  NoDup (h :: t :: i :: ids) ∧ NoDup (h :: i :: ids) ∧ NoDup (i :: t :: ids).
Proof.
  rewrite !NoDup_cons, !not_elem_of_cons.
  intros ((? & ?) & ? & ?) (? & ? & ?). split_and!; done.
Qed.

Lemma shape_free_link q h t ids i n v j :
  Shape q h t ids → (i < nr_ent + 2)%nat →
  isFree (entries (linked q i h n v)) !! j =
    if decide (j < nr_ent + 2)%nat then Some (bool_decide (j ∉ h :: t :: i :: ids)) else None.
Proof.
  intros HS Hi. pose proof (shape_free _ _ _ _ _ _ HS j) as Hf.
  pose proof (shape_free _ _ _ _ _ _ HS i) as Hfi. rewrite decide_True in Hfi by done.
  cbn. destruct (decide (j = i)) as [->|Hne].
  - rewrite list_lookup_insert_eq by by eapply lookup_lt_Some.
    rewrite decide_True, bool_decide_eq_false_2 by set_solver. done.
  - rewrite list_lookup_insert_ne, Hf by done. case_decide; [|done].
    f_equal. apply bool_decide_ext. set_solver.
Qed.

(** Linking a fresh node behind the head sentinel. *)
Lemma shape_link q h t ids i v :
  Shape q h t ids → (i < nr_ent + 2)%nat → i ∉ h :: t :: ids →
  ∃ n, nexts q h = Some n ∧ n ∈ t :: ids ∧ Shape (linked q i h n v) h t (i :: ids).
Proof.
  intros HS Hi Hfr.
  destruct (cons_snoc t (rev ids)) as (zs & n & Ezn).
  assert (Hn : n ∈ t :: ids).
  { assert (n ∈ t :: rev ids) as H by (rewrite Ezn; set_solver).
    rewrite elem_of_cons, elem_of_rev in H. by apply elem_of_cons. }
  pose proof (shape_next _ _ _ _ _ _ HS) as Hnx. pose proof (shape_prev _ _ _ _ _ _ HS) as Hpv.
  assert (En : nexts q h = Some n) by (destruct Hnx as [_ H]; by eapply lseg_first).
  rewrite Ezn in Hpv. assert (Ep : prevs q n = Some h) by by apply lseg_snoc in Hpv as [_ ?].
  pose proof (NoDup_fresh _ _ _ _ (shape_nodup _ _ _ _ _ _ HS) Hfr) as (Hnd & Hnd1 & Hnd2).
  exists n; split_and!; try done.
  destruct (linked_fields q i h n v) as (F1 & F2 & F3);
    [by rewrite (shape_len _ _ _ _ _ _ HS)|eapply shape_in_room; [exact HS|set_solver]..|].
  constructor; cbn [linked].
  - apply (shape_head _ _ _ _ _ _ HS).
  - apply (shape_tail _ _ _ _ _ _ HS).
  - eapply lseg_ext; [intros; apply F1|]. rewrite <-En.
    by apply (lseg_link _ _ _ [] h i ids).
  - cbn [rev]. rewrite app_comm_cons, Ezn, <-app_assoc.
    eapply lseg_ext; [intros; apply F2|].
    apply (lseg_link _ _ _ zs n i []) in Hpv; [by rewrite Ep in Hpv|].
    change (zs ++ [n; i]) with (zs ++ [n] ++ [i]). rewrite (assoc_L app zs [n] [i]), <-Ezn.
    rewrite (Permutation_app_comm _ [i]), <-(Permutation_rev ids). exact Hnd2.
  - exact Hnd.
  - intros j Hj. destruct (decide (j = i)) as [->|]; [done|].
    apply (shape_range _ _ _ _ _ _ HS). rewrite !elem_of_cons in *; tauto.
  - cbn. rewrite (shape_num _ _ _ _ _ _ HS). lia.
  - cbn. rewrite !length_alter. apply (shape_len _ _ _ _ _ _ HS).
  - intros j; by apply shape_free_link.
Qed.

(** A lessor with a room outside the shape still has a free room; with the
    shape covering every room it has none. *)
Lemma shape_get_ok q h t ids :
  Shape q h t ids → (length ids < nr_ent)%nat →
  ∃ i, get (entries q) =
    (Some i, mkLessor (room (entries q)) (<[i := false]> (isFree (entries q)))) ∧
    (i < nr_ent + 2)%nat ∧ i ∉ h :: t :: ids.
Proof.
  intros HS Hlen. destruct (get (entries q)) as [[i|] r'] eqn:E.
  - apply get_some in E as [Hi ->]. exists i; split; [done|].
    rewrite (shape_free _ _ _ _ _ _ HS) in Hi. case_decide; [|done].
    split; [done|]. simplify_eq. by bool_to_prop.
  - exfalso. apply get_none in E as [_ E].
    assert (Hsub : seq 0 (nr_ent + 2) ⊆+ h :: t :: ids).
    { apply NoDup_submseteq; [apply NoDup_seq|]. intros j Hj%elem_of_seq.
      specialize (E j). rewrite (shape_free _ _ _ _ _ _ HS), decide_True in E by lia.
      destruct (decide (j ∈ h :: t :: ids)); [done|]. by rewrite bool_decide_eq_true_2 in E. }
    apply submseteq_length in Hsub. rewrite length_seq in Hsub. cbn in Hsub. lia.
Qed.

Lemma shape_get_full q h t ids :
  Shape q h t ids → length ids = nr_ent → get (entries q) = (None, entries q).
Proof.
  intros HS Hlen. destruct (get (entries q)) as [[i|] r'] eqn:E.
  - exfalso. apply get_some in E as [Hi ->].
    rewrite (shape_free _ _ _ _ _ _ HS) in Hi. case_decide; [|done].
    injection Hi as Hi; bool_to_prop.
    assert (Hsub : i :: h :: t :: ids ⊆+ seq 0 (nr_ent + 2)).
    { apply NoDup_submseteq; [apply NoDup_cons; split; [done|apply (shape_nodup _ _ _ _ _ _ HS)]|].
      intros j [->|Hj]%elem_of_cons; apply elem_of_seq; [lia|].
      pose proof (shape_range _ _ _ _ _ _ HS j Hj). lia. }
    apply submseteq_length in Hsub. rewrite length_seq in Hsub. cbn in Hsub. lia.
  - by apply get_none in E as [-> _].
Qed.

Lemma repr_num q inv xs : Repr q inv xs → num q = Z.of_nat (length xs).
Proof.
  intros (h & t & ids & HS & _ & ->). by rewrite (shape_num _ _ _ _ _ _ HS), length_fmap.
Qed.

(** [enque] on a queue with room left adds the element. *)
Lemma enque_ok q inv xs v :
  Repr q inv xs → (length xs < nr_ent)%nat →
  ∃ q', enque nr_ent q v = Ok q' ∧ Repr q' inv (v :: xs).
Proof.
  intros HR Hlen. pose proof (repr_num _ _ _ HR) as Hnum.
  destruct HR as (h & t & ids & HS & Hinv & ->). rewrite length_fmap in Hlen, Hnum.
  destruct (shape_get_ok _ _ _ _ HS Hlen) as (i & Eg & Hi & Hfr).
  destruct (shape_link q h t ids i v HS Hi Hfr) as (n & En & Hn & HS').
  exists (linked q i h n v). split.
  - unfold enque. rewrite Hnum.
    replace (Z.of_nat (length ids) >? Z.of_nat nr_ent) with false by (symmetry; rewrite Z.gtb_ltb; lia).
    pose proof (shape_head _ _ _ _ _ _ HS) as Eh.
    assert (Hh : (h < length (room (entries q)))%nat) by (eapply shape_in_room; [done|left]).
    assert (Hi' : (i < length (room (entries q)))%nat) by by rewrite (shape_len _ _ _ _ _ _ HS).
    assert (Hn' : (n < length (room (entries q)))%nat)
      by (eapply shape_in_room; [done|by right]).
    rewrite Eh, (deref_some _ _ Hh); cbn [mbind res_bind]. rewrite Eg.
    change (next (ent q h)) with (nexts q h). rewrite En.
    rewrite store_some by done; cbn [mbind res_bind].
    rewrite store_some by (rewrite !upd_length; done); cbn [mbind res_bind].
    rewrite store_some by (rewrite !upd_length; done); cbn [mbind res_bind head upd with_entries].
    rewrite Eh.
    rewrite store_some by (cbn; rewrite !length_alter; done); cbn [mbind res_bind].
    rewrite store_some by (cbn; rewrite !length_alter; done); cbn [mbind res_bind]. done.
  - exists h, t, (i :: ids). split; [done|split; [done|]]. cbn [fmap list_fmap].
    destruct (linked_fields q i h n v) as (_ & _ & F);
      [by rewrite (shape_len _ _ _ _ _ _ HS)|eapply shape_in_room; [exact HS|set_solver]..|].
    rewrite F, decide_True by done. f_equal. apply list_fmap_ext.
    intros k x Hx%list_elem_of_lookup_2. rewrite F, decide_False; [done|].
    intros ->. apply Hfr; set_solver.
Qed.

(** A constructed queue is empty. *)
Lemma Que_new_repr inv : ∃ q, Que_new nr_ent d inv = Ok q ∧ Repr q inv [].
Proof.
  unfold Que_new. replace (nr_ent + 2)%nat with (S (S nr_ent)) by lia. cbn.
  eexists; split; [reflexivity|]. exists 0%nat, 1%nat, []. split; [|done].
  constructor; cbn; try done.
  - rewrite !NoDup_cons, not_elem_of_cons.
    split_and!; [done|by apply not_elem_of_nil..|constructor].
  - intros i Hi. rewrite !elem_of_cons, elem_of_nil in Hi. lia.
  - rewrite length_replicate. lia.
  - intros [|[|i]]; cbn; [by rewrite decide_True by lia|by rewrite decide_True by lia|].
    case_decide as Hlt; [|apply lookup_replicate_None; lia].
    etrans; [apply lookup_replicate_2; lia|]. rewrite bool_decide_eq_true_2; [done|]. rewrite !not_elem_of_cons.
    split_and!; [lia|lia|apply not_elem_of_nil].
Qed.

(** The free nodes of a full queue are exhausted: [get] returns NULL and the
    first member assignment goes through it. *)
Lemma enque_fault q inv xs v :
  Repr q inv xs → length xs = nr_ent → enque nr_ent q v = Fault.
Proof.
  intros HR Hlen. pose proof (repr_num _ _ _ HR) as Hnum.
  destruct HR as (h & t & ids & HS & Hinv & ->). rewrite length_fmap in Hlen, Hnum.
  unfold enque. rewrite Hnum, Z.gtb_ltb, (proj2 (Z.ltb_ge _ _)) by lia.
  rewrite (shape_head _ _ _ _ _ _ HS), (deref_some q h) by (eapply shape_in_room; [done|left]).
  cbn [mbind res_bind]. by rewrite (shape_get_full _ _ _ _ HS Hlen).
Qed.

(** The two stores of an unlink and the release of the node. *)
Lemma unlink_stores q h t l1 c l2 p n (v : T) :
  Shape q h t (l1 ++ c :: l2) → p ∈ h :: l1 → n ∈ t :: l2 →
  (q1 ← store q (Some p) (set_next (Some n));
   q2 ← store q1 (Some n) (set_prev (Some p));
   let q3 := with_entries q2 (free (entries q2) (Some c)) in
   Ok (v, with_num q3 (num q3 - 1))) = Ok (v, unlinked q c p n).
Proof.
  intros HS Hp Hn.
  assert ((p < length (room (entries q)))%nat) by (eapply shape_in_room; [exact HS|set_solver]).
  assert ((n < length (room (entries q)))%nat) by (eapply shape_in_room; [exact HS|set_solver]).
  rewrite store_some by done; cbn [mbind res_bind].
  by rewrite store_some by (rewrite upd_length; done).
Qed.

Lemma unlinked_repr q inv h t l1 c l2 p n :
  Shape q h t (l1 ++ c :: l2) → invalid q = inv → p ∈ h :: l1 → n ∈ t :: l2 →
  Shape (unlinked q c p n) h t (l1 ++ l2) →
  Repr (unlinked q c p n) inv
    (((λ i, content (ent q i)) <$> l1) ++ ((λ i, content (ent q i)) <$> l2)).
Proof.
  intros HS Hinv Hp Hn HS'. exists h, t, (l1 ++ l2). split; [done|split; [done|]].
  destruct (unlinked_fields q c p n) as (_ & _ & F);
    [eapply shape_in_room; [exact HS|set_solver]..|].
  rewrite <-fmap_app. apply list_fmap_ext. intros; by rewrite F.
Qed.

(** [deque()] returns the oldest element, or the invalid one when empty. *)
Lemma deque_nil q inv : Repr q inv [] → deque q = Ok (inv, q).
Proof.
  intros HR. unfold deque. rewrite (repr_num _ _ _ HR); cbn.
  by destruct HR as (h & t & ids & HS & <- & _).
Qed.

Lemma deque_snoc q inv xs x :
  Repr q inv (xs ++ [x]) → ∃ q', deque q = Ok (x, q') ∧ Repr q' inv xs.
Proof.
  intros HR. pose proof (repr_num _ _ _ HR) as Hnum.
  destruct HR as (h & t & ids & HS & Hinv & E).
  symmetry in E; apply fmap_app_inv in E as (l1 & l2 & -> & E2 & ->).
  destruct l2 as [|c [|]]; try done. cbn in E2; injection E2 as ->.
  destruct (shape_unlink q h t l1 c [] HS) as (p & n & Ep & En & Hp & Hn & Et & HS').
  rewrite (Et eq_refl) in *. clear Et.
  exists (unlinked q c p t). split.
  - unfold deque. rewrite Hnum, length_app; cbn [length].
    rewrite (proj2 (Z.eqb_neq _ _)) by lia.
    pose proof (shape_tail _ _ _ _ _ _ HS) as Htl.
    pose proof (shape_prev _ _ _ _ _ _ HS) as Hpv. rewrite rev_app_distr in Hpv. cbn in Hpv.
    destruct Hpv as (_ & Hpt & _).
    rewrite Htl, (deref_some q t) by (eapply shape_in_room; [done|set_solver]).
    cbn [mbind res_bind]. change (prev (ent q t)) with (prevs q t). rewrite Hpt.
    rewrite (deref_some q c) by (eapply shape_in_room; [done|set_solver]).
    cbn [mbind res_bind]. change (prev (ent q c)) with (prevs q c). rewrite Ep.
    etrans; [|by eapply unlink_stores].
    rewrite store_some by (eapply shape_in_room; [exact HS|set_solver]). cbn [mbind res_bind].
    change (tail (upd q p _)) with (tail q). by rewrite Htl.
  - eapply (unlinked_repr q inv h t l1 c []) in HS'; try done.
    by rewrite app_nil_r in HS'.
Qed.

Context (eqT : T → T → bool).

(** [deque(a)]: the loop, started at the first node of [l2]. *)
Lemma deque_loop_ok q inv h t l1 l2 a curr :
  Shape q h t (l1 ++ l2) → invalid q = inv → lseg (nexts q) curr l2 (Some t) →
  match remove_first eqT a ((λ i, content (ent q i)) <$> l2) with
  | None => deque_loop eqT (length l2) q a curr = Ok (inv, q)
  | Some (x, r) => ∃ q', deque_loop eqT (length l2) q a curr = Ok (x, q') ∧
      Repr q' inv (((λ i, content (ent q i)) <$> l1) ++ r)
  end.
Proof.
  intros HS Hinv. revert l1 curr HS; induction l2 as [|c l2 IH]; intros l1 curr HS Hseg.
  { cbn. by rewrite Hinv. }
  destruct Hseg as [-> Hseg]. cbn [fmap list_fmap remove_first length deque_loop].
  rewrite (deref_some q c) by (eapply shape_in_room; [done|set_solver]). cbn [mbind res_bind].
  destruct (eqT (content (ent q c)) a) eqn:E.
  - destruct (shape_unlink q h t l1 c l2 HS) as (p & n & Ep & En & Hp & Hn & _ & HS').
    exists (unlinked q c p n). split; [|by eapply unlinked_repr].
    change (prev (ent q c)) with (prevs q c). change (next (ent q c)) with (nexts q c).
    rewrite Ep, En. by eapply unlink_stores.
  - specialize (IH (l1 ++ [c]) (nexts q c)). rewrite <-app_assoc in IH.
    specialize (IH HS Hseg).
    destruct (remove_first eqT a ((λ i, content (ent q i)) <$> l2)) as [[x r]|]; [|exact IH].
    destruct IH as (q' & E' & HR'). exists q'; split; [exact E'|].
    by rewrite fmap_app, <-app_assoc in HR'.
Qed.

Lemma deque_eq_ok q inv xs a :
  Repr q inv xs →
  match remove_first eqT a xs with
  | None => deque_eq eqT q a = Ok (inv, q)
  | Some (x, r) => ∃ q', deque_eq eqT q a = Ok (x, q') ∧ Repr q' inv r
  end.
Proof.
  intros (h & t & ids & HS & Hinv & ->).
  pose proof (shape_next _ _ _ _ _ _ HS) as [_ Hnx].
  pose proof (deque_loop_ok q inv h t [] ids a _ HS Hinv Hnx) as H.
  unfold deque_eq. rewrite (shape_head _ _ _ _ _ _ HS), (deref_some q h)
    by (eapply shape_in_room; [done|left]). cbn [mbind res_bind].
  rewrite (shape_num _ _ _ _ _ _ HS), Nat2Z.id. exact H.
Qed.

End que_lemmas.

(** ** Sequences of queue operations *)

Section que_traces.
Context {T : Type} (nr_ent : nat) (d : T) (eqT : T → T → bool).

Inductive qop := OEnque (v : T) | ODeque | ODequeEq (a : T).

(** Run the operations of the code, collecting the values [deque] returned. *)
Fixpoint run_ops (ops : list qop) (q : Que T) : res (list T * Que T) :=
  match ops with
  | [] => Ok ([], q)
  | OEnque v :: ops' => q ← enque nr_ent q v; run_ops ops' q
  | ODeque :: ops' =>
      '(x, q) ← deque q; '(out, q) ← run_ops ops' q; Ok (x :: out, q)
  | ODequeEq a :: ops' =>
      '(x, q) ← deque_eq eqT q a; '(out, q) ← run_ops ops' q; Ok (x :: out, q)
  end.

(** The bounded FIFO the queue implements, newest element first; [None] when an
    element is added to a full queue. *)
Fixpoint spec_ops (inv : T) (ops : list qop) (xs : list T) : option (list T * list T) :=
  match ops with
  | [] => Some ([], xs)
  | OEnque v :: ops' =>
      if bool_decide (length xs < nr_ent)%nat then spec_ops inv ops' (v :: xs) else None
  | ODeque :: ops' =>
      let x := default inv (last xs) in
      '(out, r) ← spec_ops inv ops' (removelast xs); Some (x :: out, r)
  | ODequeEq a :: ops' =>
      let '(x, xs') := default (inv, xs) (remove_first eqT a xs) in
      '(out, r) ← spec_ops inv ops' xs'; Some (x :: out, r)
  end.

Lemma remove_first_length a xs x r :
  remove_first eqT a xs = Some (x, r) → length xs = S (length r).
Proof.
  revert x r; induction xs as [|y xs IH]; intros x r; cbn; [done|].
  destruct (eqT y a); [by intros [= -> ->]|].
  destruct (remove_first eqT a xs) as [[z r']|]; cbn; [|done].
  intros [= -> <-]. cbn. f_equal. by eapply IH.
Qed.

Lemma deque_ok q inv xs :
  Repr nr_ent d q inv xs →
  ∃ q', deque q = Ok (default inv (last xs), q') ∧ Repr nr_ent d q' inv (removelast xs).
Proof.
  destruct xs as [|x xs _] using rev_ind; intros HR.
  - exists q; split; [by apply (deque_nil nr_ent d)|done].
  - rewrite last_snoc, removelast_last. by apply (deque_snoc nr_ent d).
Qed.

Lemma run_ops_refines ops q inv xs :
  Repr nr_ent d q inv xs → (length xs ≤ nr_ent)%nat →
  match spec_ops inv ops xs with
  | Some (out, xs') => ∃ q', run_ops ops q = Ok (out, q') ∧ Repr nr_ent d q' inv xs'
  | None => run_ops ops q = Fault
  end.
Proof.
  revert q xs; induction ops as [|[v| |a] ops IH]; intros q xs HR Hlen; cbn [spec_ops run_ops].
  - by exists q.
  - case_bool_decide.
    + destruct (enque_ok nr_ent d q inv xs v HR) as (q' & E & HR'); [done|].
      rewrite E; cbn [mbind res_bind]. apply IH; [done|cbn; lia].
    + by rewrite (enque_fault nr_ent d q inv xs v HR) by lia.
  - destruct (deque_ok q inv xs HR) as (q' & E & HR'). rewrite E; cbn [mbind res_bind].
    assert (Hl : (length (removelast xs) ≤ nr_ent)%nat).
    { destruct xs as [|x xs _] using rev_ind; [done|].
      rewrite removelast_last. rewrite length_app in Hlen; cbn in Hlen; lia. }
    specialize (IH q' _ HR' Hl).
    destruct (spec_ops inv ops (removelast xs)) as [[out r]|]; cbn [mbind option_bind].
    + destruct IH as (q'' & -> & HR''). by exists q''.
    + by rewrite IH.
  - pose proof (deque_eq_ok nr_ent d eqT q inv xs a HR) as H.
    destruct (remove_first eqT a xs) as [[x r]|] eqn:Er; cbn [from_option id].
    + destruct H as (q' & -> & HR'); cbn [mbind res_bind].
      apply remove_first_length in Er. specialize (IH q' r HR' ltac:(lia)).
      destruct (spec_ops inv ops r) as [[out r']|]; cbn [mbind option_bind].
      * destruct IH as (q'' & -> & HR''). by exists q''.
      * by rewrite IH.
    + rewrite H; cbn [mbind res_bind]. specialize (IH q xs HR Hlen).
      destruct (spec_ops inv ops xs) as [[out r']|]; cbn [mbind option_bind].
      * destruct IH as (q'' & -> & HR''). by exists q''.
      * by rewrite IH.
Qed.

(** C24: every sequence of [enque], [deque()] and [deque(a)] on a freshly
    constructed queue returns exactly the values of a bounded FIFO of [N]
    elements ([deque(a)] taking the most recently enqueued match); the first
    [enque] on a full queue goes through a NULL node. *)
Theorem que_refines_fifo (inv : T) (ops : list qop) :
  ∃ q0, Que_new nr_ent d inv = Ok q0 ∧
  match spec_ops inv ops [] with
  | Some (out, xs) => ∃ q', run_ops ops q0 = Ok (out, q') ∧ Repr nr_ent d q' inv xs
  | None => run_ops ops q0 = Fault
  end.
Proof.
  destruct (Que_new_repr nr_ent d inv) as (q0 & E & HR). exists q0; split; [done|].
  apply run_ops_refines; [done|cbn; lia].
Qed.

(** a queue of type [Que<T,N>] that holds [N] elements passes the overflow
    guard of [enque] ([num>nr_ent] is false) and dereferences NULL. *)
Theorem que_enque_full_faults (q : Que T) (inv v : T) (xs : list T) :
  Repr nr_ent d q inv xs → length xs = nr_ent →
  (num q >? Z.of_nat nr_ent) = false ∧ enque nr_ent q v = Fault.
Proof.
  intros HR Hlen. split; [|by eapply enque_fault].
  rewrite (repr_num nr_ent d _ _ _ HR), Z.gtb_ltb. apply Z.ltb_ge. lia.
Qed.

End que_traces.
