(* ===== verification/PageFrames.v ===== *)
(** * PFAllocator.cpp: the page-frame allocator

    Physical memory is handed out in runs of 4 KiB chunks.  Each run is a [Seg]
    taken from a static array of [MaxNumSeg] descriptors; the free runs and the
    runs in use form two singly linked lists threaded through [Seg::np].  A
    [Seg *] is an index into the array, NULL is [None]; a [Seg **] is a location:
    the head variable of one of the two lists or the [np] field of a segment. *)

From S2P Require Import Prelude Chain Memory.

Module PFAllocator.

(** ** State *)

Definition MaxNumSeg : nat := 128.
Definition ChunkSize : Z := 4096.

Record Seg := mkSeg {
  free : bool;
  begin : Z;
  blocks : Z;
  np : option nat
}.

Record state := mkState {
  segs : list Seg;
  seg_free : option nat;
  seg_used : option nat
}.

Definition seg0 : Seg := mkSeg false 0 0 None.

(** [PFAllocator::PFAllocator()]; the object is static, so the other members
    start as zero. *)
Definition PFAllocator_new : state :=
  mkState (replicate MaxNumSeg (mkSeg true 0 0 None)) None None.

(** Member access through a [Seg *]. *)
Definition sg (s : state) (i : nat) : Seg := default seg0 (segs s !! i).
Definition nxt (s : state) (i : nat) : option nat := np (sg s i).

Definition upd_seg (s : state) (i : nat) (f : Seg → Seg) : state :=
  mkState (alter f i (segs s)) (seg_free s) (seg_used s).

Definition set_free (b : bool) (x : Seg) : Seg := mkSeg b (begin x) (blocks x) (np x).
Definition set_begin (v : Z) (x : Seg) : Seg := mkSeg (free x) v (blocks x) (np x).
Definition set_blocks (v : Z) (x : Seg) : Seg := mkSeg (free x) (begin x) v (np x).
Definition set_np (v : option nat) (x : Seg) : Seg := mkSeg (free x) (begin x) (blocks x) v.

(** The two lists and the [Seg **] locations of each. *)
Inductive which := HFree | HUsed.

Definition headp (s : state) (w : which) : option nat :=
  match w with HFree => seg_free s | HUsed => seg_used s end.

Definition deref (s : state) (w : which) (l : loc) : option nat :=
  loc_get (nxt s) (headp s w) l.

Definition assign (s : state) (w : which) (l : loc) (v : option nat) : state :=
  match l with
  | LHead =>
      match w with
      | HFree => mkState (segs s) v (seg_used s)
      | HUsed => mkState (segs s) (seg_free s) v
      end
  | LNext i => upd_seg s i (set_np v)
  end.

(** ** Segment descriptors *)

Fixpoint first_free_seg (l : list Seg) (i : nat) : option nat :=
  match l with
  | [] => None
  | x :: l' => if free x then Some i else first_free_seg l' (S i)
  end.

(** [Seg *getSeg()]. *)
Definition getSeg (s : state) : res (nat * state) :=
  match first_free_seg (segs s) 0 with
  | Some i => Ok (i, upd_seg s i (set_free false))
  | None => Panic "PFAllocator:cannot find free segment"
  end.

(** [void freeSeg(Seg *seg)]. *)
Definition freeSeg (s : state) (i : nat) : state := upd_seg s i (set_free true).

(** ** [void addChunk(Seg *seg)] *)

(** The end address [begin+blocks*ChunkSize] as the code computes it. *)
Definition seg_end (s : state) (i : nat) : Z :=
  u32 (begin (sg s i) + u32 (blocks (sg s i) * ChunkSize)).

(** One iteration per node: [fuel] bounds the number of iterations. *)
Fixpoint addChunk_loop (fuel : nat) (s : state) (cseg : loc) (seg : nat) : res state :=
  match fuel with
  | O => NoFuel
  | S fuel' =>
      match deref s HFree cseg with
      | None => Ok (assign s HFree cseg (Some seg))
      | Some c =>
          let nseg := LNext c in
          match deref s HFree nseg with
          | Some n =>
              if (begin (sg s c) <? begin (sg s seg)) && (begin (sg s seg) <? begin (sg s n)) then
                if seg_end s c =? begin (sg s seg) then
                  let s := upd_seg s c (set_blocks (u32 (blocks (sg s c) + blocks (sg s seg)))) in
                  let s := freeSeg s seg in
                  if seg_end s c =? begin (sg s n) then
                    let s := upd_seg s c (set_blocks (u32 (blocks (sg s c) + blocks (sg s n)))) in
                    let s := freeSeg s n in
                    Ok (upd_seg s c (set_np (np (sg s n))))
                  else Ok s
                else if seg_end s seg =? begin (sg s n) then
                  let s := upd_seg s n (set_blocks (u32 (blocks (sg s n) + blocks (sg s seg)))) in
                  let s := upd_seg s n (set_begin (begin (sg s seg))) in
                  Ok (freeSeg s seg)
                else
                  let s := upd_seg s seg (set_np (Some n)) in
                  Ok (upd_seg s c (set_np (Some seg)))
              else addChunk_loop fuel' s nseg seg
          | None =>
              if seg_end s c =? begin (sg s seg) then
                let s := upd_seg s c (set_blocks (u32 (blocks (sg s c) + blocks (sg s seg)))) in
                Ok (freeSeg s seg)
              else Ok (upd_seg s c (set_np (Some seg)))
          end
      end
  end.

(** A list visits each descriptor at most once. *)
Definition walk_fuel : nat := S MaxNumSeg.

Definition addChunk_seg (s : state) (seg : nat) : res state :=
  addChunk_loop walk_fuel s LHead seg.

(** [void addChunk(u32_t begin,u32_t end)]. *)
Definition addChunk (s : state) (begin_ end_ : Z) : res state :=
  let B := Z.land begin_ (u32 (Z.lnot (ChunkSize - 1))) in
  let E := Z.land end_ (u32 (Z.lnot (ChunkSize - 1))) in
  let block := u32 (E - B) / ChunkSize in
  '(seg, s) ← getSeg s;
  let s := upd_seg s seg (set_begin B) in
  let s := upd_seg s seg (set_blocks block) in
  let s := upd_seg s seg (set_np None) in
  addChunk_seg s seg.

(** ** [void usedChunk(Seg *seg)] *)

Fixpoint usedChunk_loop (fuel : nat) (s : state) (cseg : loc) (seg : nat) : res state :=
  match fuel with
  | O => NoFuel
  | S fuel' =>
      match deref s HUsed cseg with
      | None => Ok (assign s HUsed cseg (Some seg))
      | Some c =>
          let nseg := LNext c in
          match deref s HUsed nseg with
          | Some n =>
              if (begin (sg s c) <? begin (sg s seg)) && (begin (sg s seg) <? begin (sg s n)) then
                let s := upd_seg s seg (set_np (Some n)) in
                Ok (upd_seg s c (set_np (Some seg)))
              else usedChunk_loop fuel' s nseg seg
          | None => Ok (upd_seg s c (set_np (Some seg)))
          end
      end
  end.

Definition usedChunk (s : state) (seg : nat) : res state :=
  usedChunk_loop walk_fuel s LHead seg.

(** ** [u32_t *allocChunk(u16_t seriesNum)] *)

(** The body of the [if]: [seriesNum] chunks of the run [p] become the run of
    [useg], and [p], reached through [pp_seg], leaves the list when it is empty. *)
Definition allocChunk_cut (s : state) (p useg : nat) (seriesNum : Z) : state :=
  let s := upd_seg s useg (set_begin (begin (sg s p))) in
  let s := upd_seg s useg (set_blocks seriesNum) in
  let s := upd_seg s useg (set_np None) in
  let s := upd_seg s p (set_blocks (u32 (blocks (sg s p) - seriesNum))) in
  upd_seg s p (set_begin (u32 (begin (sg s p) + u32 (seriesNum * ChunkSize)))).

Definition allocChunk_split (s : state) (pp_seg : loc) (p useg : nat) (seriesNum : Z) : state :=
  let s := allocChunk_cut s p useg seriesNum in
  if blocks (sg s p) =? 0 then
    let s := freeSeg s p in
    assign s HFree pp_seg (np (sg s p))
  else s.

Fixpoint allocChunk_loop (fuel : nat) (s : state) (pp_seg : loc) (useg : nat) (seriesNum : Z)
    : res (Z * state) :=
  match fuel with
  | O => NoFuel
  | S fuel' =>
      match deref s HFree pp_seg with
      | None => Panic "PFAallocator::cannot allocate segment"
      | Some p =>
          if seriesNum <=? blocks (sg s p) then
            let s := allocChunk_split s pp_seg p useg seriesNum in
            s ← usedChunk s useg;
            Ok (begin (sg s useg), s)
          else allocChunk_loop fuel' s (LNext p) useg seriesNum
      end
  end.

Definition allocChunk (s : state) (seriesNum : Z) : res (Z * state) :=
  '(useg, s) ← getSeg s;
  allocChunk_loop walk_fuel s LHead useg seriesNum.

(** ** [removeChunk(u32_t bAddr_rm,u32_t eAddr_rm)] *)

Fixpoint removeChunk_loop (fuel : nat) (s : state) (pp_seg : loc) (bAddr_rm eAddr_rm : Z)
    : res state :=
  match fuel with
  | O => NoFuel
  | S fuel' =>
      match deref s HFree pp_seg with
      | None => Ok s
      | Some p =>
          let eAddr_chk := seg_end s p in
          let bAddr_chk := begin (sg s p) in
          s ←
            (if bAddr_chk <=? eAddr_rm then
               let chk_b := if bAddr_rm <=? bAddr_chk then bAddr_chk else bAddr_rm in
               let chk_e := if eAddr_chk <=? eAddr_rm then eAddr_chk else eAddr_rm in
               let lblk_begin := bAddr_chk in
               let rblk_end := eAddr_chk in
               let lblk_end := chk_b in
               let rblk_begin := chk_e in
               if lblk_begin <? lblk_end then
                 if rblk_begin <? rblk_end then
                   '(rSeg, s) ← getSeg s;
                   let s := upd_seg s p (set_begin lblk_begin) in
                   let s := upd_seg s p (set_blocks ((lblk_end - lblk_begin) / ChunkSize)) in
                   let s := upd_seg s rSeg (set_begin rblk_begin) in
                   let s := upd_seg s rSeg (set_blocks ((rblk_end - rblk_begin) / ChunkSize)) in
                   let s := upd_seg s rSeg (set_np (np (sg s p))) in
                   Ok (upd_seg s p (set_np (Some rSeg)))
                 else
                   let s := upd_seg s p (set_begin lblk_begin) in
                   Ok (upd_seg s p (set_blocks ((lblk_end - lblk_begin) / ChunkSize)))
               else if rblk_begin <? rblk_end then
                 let s := upd_seg s p (set_begin rblk_begin) in
                 Ok (upd_seg s p (set_blocks ((rblk_end - rblk_begin) / ChunkSize)))
               else Ok s
             else Ok s);
          removeChunk_loop fuel' s (LNext p) bAddr_rm eAddr_rm
      end
  end.

Definition removeChunk (s : state) (bAddr_rm eAddr_rm : Z) : res state :=
  let bAddr_rm := Z.land bAddr_rm (u32 (Z.lnot (ChunkSize - 1))) in
  let eAddr_rm := Z.land (u32 (eAddr_rm + (ChunkSize - 1))) (u32 (Z.lnot (ChunkSize - 1))) in
  removeChunk_loop walk_fuel s LHead bAddr_rm eAddr_rm.

(** ** [void freeChunk(u32_t *addr)] *)

Fixpoint freeChunk_loop (fuel : nat) (s : state) (pp_seg : loc) (addr : Z) : res state :=
  match fuel with
  | O => NoFuel
  | S fuel' =>
      match deref s HUsed pp_seg with
      | None => Panic "PFAallocator::Ivalid Chunk freed"
      | Some p =>
          if begin (sg s p) =? addr then
            let s := assign s HUsed pp_seg (np (sg s p)) in
            addChunk_seg s p
          else freeChunk_loop fuel' s (LNext p) addr
      end
  end.

Definition freeChunk (s : state) (addr : Z) : res state :=
  freeChunk_loop walk_fuel s LHead addr.

(** ** What the state stands for *)

(** The addresses of the run described by segment [i]. *)
Definition owns (s : state) (i : nat) (a : Z) : Prop :=
  begin (sg s i) ≤ a < begin (sg s i) + blocks (sg s i) * ChunkSize.

Definition covers (s : state) (l : list nat) (a : Z) : Prop :=
  ∃ i, i ∈ l ∧ owns s i a.

(** A run that the 32-bit arithmetic of the code describes exactly. *)
Definition seg_ok (s : state) (i : nat) : Prop :=
  0 ≤ begin (sg s i) ∧ 0 ≤ blocks (sg s i) ∧ begin (sg s i) `mod` ChunkSize = 0 ∧
  begin (sg s i) + blocks (sg s i) * ChunkSize < 4294967296.

(** The leased descriptors [L]: exactly those marked in use, describing runs
    that do not overlap. *)
Record Held (s : state) (L : list nat) : Prop := {
  held_len : length (segs s) = MaxNumSeg;
  held_range : ∀ i, i ∈ L → (i < MaxNumSeg)%nat;
  held_bits : ∀ i, (i < MaxNumSeg)%nat → free (sg s i) = true ↔ i ∉ L;
  held_ok : ∀ i, i ∈ L → seg_ok s i;
  held_excl : ∀ i j a, i ∈ L → j ∈ L → owns s i a → owns s j a → i = j
}.

(** [F] and [U] are the segments of the free and the used list, which share no
    segment and hold every leased descriptor. *)
Record Wf (s : state) (F U : list nat) : Prop := {
  wf_held : Held s (F ++ U);
  wf_free : chain (nxt s) (seg_free s) F;
  wf_used : chain (nxt s) (seg_used s) U;
  wf_nodup : NoDup (F ++ U)
}.

(** The number of chunks of the runs [l]. *)
Definition chunks (s : state) (l : list nat) : Z := foldr (λ i n, blocks (sg s i) + n) 0 l.

(** A run of [n] chunks at [addr]. *)
Definition in_run (addr n a : Z) : Prop := addr ≤ a < addr + n * ChunkSize.

(** ** Lemmas: member updates *)

Implicit Types (s : state) (i j c n : nat) (F U : list nat) (a : Z).

Lemma sg_upd s i f j :
  (i < length (segs s))%nat →
  sg (upd_seg s i f) j = if decide (j = i) then f (sg s i) else sg s j.
Proof.
  intros [x Hx]%lookup_lt_is_Some_2. unfold sg, upd_seg; cbn [segs]. case_decide as E; subst.
  - by rewrite list_lookup_alter_eq, Hx.
  - by rewrite list_lookup_alter_ne by done.
Qed.

Lemma sg_upd_ge s i f j : ¬ (i < length (segs s))%nat → sg (upd_seg s i f) j = sg s j.
Proof.
  intros Hi. unfold sg, upd_seg; cbn [segs]. destruct (decide (i = j)) as [->|].
  - rewrite list_lookup_alter_eq, lookup_ge_None_2 by lia. done.
  - by rewrite list_lookup_alter_ne.
Qed.

Lemma length_upd s i f : length (segs (upd_seg s i f)) = length (segs s).
Proof. apply length_alter. Qed.

Lemma assign_LNext s w i v : assign s w (LNext i) v = upd_seg s i (set_np v).
Proof. done. Qed.

Lemma length_assign s w l v : length (segs (assign s w l v)) = length (segs s).
Proof. destruct l, w; cbn; rewrite ?length_alter; done. Qed.

(** Fields other than [np] are untouched by an assignment through a [Seg **]. *)
Lemma sg_assign_field {B : Type} (pr : Seg → B) s w l v j :
  (∀ x, pr (set_np v x) = pr x) → pr (sg (assign s w l v) j) = pr (sg s j).
Proof.
  intros Hpr. destruct l as [|i]; [by destruct w|]. cbn.
  destruct (decide (i < length (segs s))%nat).
  - rewrite sg_upd by done. case_decide; subst; [apply Hpr|done].
  - by rewrite sg_upd_ge.
Qed.

Lemma nxt_assign s w l v j :
  (∀ i, l = LNext i → (i < length (segs s))%nat) →
  nxt (assign s w l v) j = loc_set_nxt (nxt s) l v j.
Proof.
  intros Hl. destruct l as [|i]; [by destruct w|]. cbn. unfold nxt, fset.
  rewrite sg_upd by by apply Hl. by case_decide; subst.
Qed.

Lemma headp_assign_same s w l v : headp (assign s w l v) w = loc_set_head (headp s w) l v.
Proof. by destruct l, w. Qed.

Lemma headp_assign_other s w w' l v : w ≠ w' → headp (assign s w l v) w' = headp s w'.
Proof. by destruct l, w, w'. Qed.

(** Updates that keep [np] keep every list. *)
Lemma nxt_upd_other s i f j : (∀ x, np (f x) = np x) → nxt (upd_seg s i f) j = nxt s j.
Proof.
  intros Hf. unfold nxt. destruct (decide (i < length (segs s))%nat).
  - rewrite sg_upd by done. case_decide; subst; [apply Hf|done].
  - by rewrite sg_upd_ge.
Qed.

Lemma first_free_seg_some (l : list Seg) (k i : nat) :
  first_free_seg l k = Some i → ∃ j x, i = (k + j)%nat ∧ l !! j = Some x ∧ free x = true.
Proof.
  revert k; induction l as [|x l IH]; intros k; cbn; [done|].
  destruct (free x) eqn:E.
  - intros [= <-]. exists 0%nat, x. split_and!; [lia|done|done].
  - intros (j & y & -> & Hj & Hy)%IH. exists (S j), y. split_and!; [lia|done|done].
Qed.

Lemma first_free_seg_none (l : list Seg) (k : nat) :
  first_free_seg l k = None → ∀ j x, l !! j = Some x → free x = false.
Proof.
  revert k; induction l as [|x l IH]; intros k; cbn; [done|].
  destruct (free x) eqn:E; [done|]. intros H [|j] y; cbn.
  - by intros [= <-].
  - by apply (IH (S k)).
Qed.

Lemma held_perm s L L' : (∀ i, i ∈ L' ↔ i ∈ L) → Held s L → Held s L'.
Proof.
  intros E [H1 H2 H3 H4 H5]. constructor; [done|..].
  - intros i Hi. by apply H2, E.
  - intros i Hi. by rewrite E, H3.
  - intros i Hi. by apply H4, E.
  - intros i j a Hi Hj. apply H5; by apply E.
Qed.

Lemma chunks_perm s L L' : L ≡ₚ L' → chunks s L = chunks s L'.
Proof. unfold chunks. induction 1; cbn; lia. Qed.

Lemma chunks_ext s s' L : (∀ j, j ∈ L → blocks (sg s' j) = blocks (sg s j)) → chunks s' L = chunks s L.
Proof.
  unfold chunks. induction L as [|i L IH]; intros H; cbn; [done|].
  rewrite (H i), IH; [done| |by left].
  intros j Hj. apply H. by right.
Qed.

Lemma chunks_pick s P p R : chunks s (P ++ p :: R) = blocks (sg s p) + chunks s (P ++ R).
Proof. by rewrite (chunks_perm s _ (p :: P ++ R)) by by rewrite Permutation_middle. Qed.

Lemma chunks_pos s L : 0 < chunks s L → ∃ i, i ∈ L ∧ 1 ≤ blocks (sg s i).
Proof.
  unfold chunks. induction L as [|i L IH]; cbn; [lia|]. intros H.
  destruct (decide (1 ≤ blocks (sg s i))) as [Hi|Hi]; [exists i; split; [by left|done]|].
  destruct IH as (j & Hj & Hb); [lia|]. exists j. split; [by right|done].
Qed.

(** Algebra of the covered addresses. *)
Lemma covers_ext s s' L a :
  (∀ j, j ∈ L → owns s' j a ↔ owns s j a) → covers s' L a ↔ covers s L a.
Proof. intros H. unfold covers. split; intros (i & Hi & Ho); exists i; split; try done; by apply H. Qed.

Lemma covers_perm s L L' a : L ≡ₚ L' → covers s L a ↔ covers s L' a.
Proof. intros E. unfold covers. by setoid_rewrite E. Qed.

Lemma covers_cons s i L a : covers s (i :: L) a ↔ owns s i a ∨ covers s L a.
Proof.
  unfold covers. setoid_rewrite elem_of_cons. split.
  - intros (j & [->|Hj] & Ho); eauto.
  - intros [Ho|(j & Hj & Ho)]; eauto.
Qed.

Lemma covers_pick s P p R a : covers s (P ++ p :: R) a ↔ owns s p a ∨ covers s (P ++ R) a.
Proof. by rewrite <-covers_cons, (covers_perm s _ (p :: P ++ R)) by by rewrite Permutation_middle. Qed.

(** [getSeg] leases a new descriptor, as long as one is left. *)
Lemma getSeg_ok s L :
  Held s L → (length L < MaxNumSeg)%nat →
  ∃ i, getSeg s = Ok (i, upd_seg s i (set_free false)) ∧ (i < MaxNumSeg)%nat ∧ i ∉ L.
Proof.
  intros HW Hlt. unfold getSeg. destruct (first_free_seg (segs s) 0) as [i|] eqn:E.
  - exists i. split; [done|]. apply first_free_seg_some in E as (j & x & -> & Hj & Hx). cbn.
    pose proof (lookup_lt_Some _ _ _ Hj) as Hjl. rewrite (held_len _ _ HW) in Hjl.
    pose proof (held_bits _ _ HW j Hjl) as Hb. unfold sg in Hb. rewrite Hj in Hb; cbn in Hb.
    split; [done|]. by apply Hb.
  - exfalso.
    assert (Hsub : seq 0 MaxNumSeg ⊆+ L).
    { apply NoDup_submseteq; [apply NoDup_seq|]. intros j Hj%elem_of_seq.
      destruct (lookup_lt_is_Some_2 (segs s) j) as [x Hx]; [rewrite (held_len _ _ HW); lia|].
      pose proof (first_free_seg_none _ _ E j x Hx) as Hf.
      pose proof (held_bits _ _ HW j ltac:(lia)) as Hb. unfold sg in Hb. rewrite Hx in Hb; cbn in Hb.
      destruct (decide (j ∈ L)); [done|]. rewrite (proj2 Hb) in Hf; done. }
    apply submseteq_length in Hsub. rewrite length_seq in Hsub. lia.
Qed.

Lemma held_length s L : Held s L → NoDup L → (length L ≤ MaxNumSeg)%nat.
Proof.
  intros HW Hnd. assert (Hs : L ⊆+ seq 0 MaxNumSeg).
  { apply NoDup_submseteq; [done|]. intros x Hx%(held_range _ _ HW). apply elem_of_seq; lia. }
  apply submseteq_length in Hs. by rewrite length_seq in Hs.
Qed.

Lemma wf_walk s F U : Wf s F U → (length F < walk_fuel)%nat ∧ (length U < walk_fuel)%nat.
Proof.
  intros HW. pose proof (held_length _ _ (wf_held _ _ _ HW) (wf_nodup _ _ _ HW)) as H.
  rewrite length_app in H. unfold walk_fuel. lia.
Qed.

(** Within a leased run the 32-bit end address is exact. *)
Lemma seg_end_exact s i :
  seg_ok s i → seg_end s i = begin (sg s i) + blocks (sg s i) * ChunkSize.
Proof.
  intros (H1 & H2 & H3 & H4). unfold seg_end, ChunkSize in *.
  rewrite (u32_id (_ * _)) by (unfold is_u32; lia). apply u32_id. unfold is_u32; lia.
Qed.

(** Adjacent runs [x] and [y] merged into the descriptor [z] of one of them. *)
Lemma held_merge s s' x y z w K :
  Held s (x :: y :: K) → NoDup (x :: y :: K) →
  (z = x ∧ w = y ∨ z = y ∧ w = x) →
  begin (sg s x) + blocks (sg s x) * ChunkSize = begin (sg s y) →
  length (segs s') = length (segs s) →
  free (sg s' z) = false → begin (sg s' z) = begin (sg s x) →
  blocks (sg s' z) = blocks (sg s x) + blocks (sg s y) → free (sg s' w) = true →
  (∀ j, j ≠ x → j ≠ y → free (sg s' j) = free (sg s j) ∧ begin (sg s' j) = begin (sg s j) ∧
    blocks (sg s' j) = blocks (sg s j)) →
  Held s' (z :: K) ∧ (∀ a, owns s' z a ↔ owns s x a ∨ owns s y a) ∧
  (∀ j a, j ∈ K → owns s' j a ↔ owns s j a).
Proof.
  intros HH Hnd Hzw Hadj Hlen Hzf Hzb Hzk Hwf Hoth.
  assert (Hx : seg_ok s x) by (apply (held_ok _ _ HH); set_solver).
  assert (Hy : seg_ok s y) by (apply (held_ok _ _ HH); set_solver).
  rewrite !NoDup_cons, not_elem_of_cons in Hnd. destruct Hnd as ((Hxy & HxK) & HyK & _).
  assert (Hz : ∀ a, owns s' z a ↔ owns s x a ∨ owns s y a).
  { intros a. unfold owns, seg_ok in *. rewrite Hzb, Hzk. unfold ChunkSize in *. lia. }
  assert (HK : ∀ j a, j ∈ K → owns s' j a ↔ owns s j a).
  { intros j a Hj. destruct (Hoth j) as (_ & Hb & Hk); [set_solver..|].
    unfold owns. by rewrite Hb, Hk. }
  split_and!; [|done|done]. constructor.
  - rewrite Hlen. apply (held_len _ _ HH).
  - intros i Hi. apply (held_range _ _ HH). set_solver.
  - intros i Hi. pose proof (held_bits _ _ HH i Hi) as Hb.
    destruct (decide (i = z)) as [->|Hiz]; [rewrite Hzf; set_solver|].
    destruct (decide (i = w)) as [->|Hiw]; [rewrite Hwf; set_solver|].
    destruct (Hoth i) as (-> & _); [naive_solver..|]. rewrite Hb. set_solver.
  - intros i [->|Hi]%elem_of_cons.
    + unfold seg_ok in *. rewrite Hzb, Hzk. unfold ChunkSize in *. lia.
    + destruct (Hoth i) as (_ & Hb & Hk); [set_solver..|]. unfold seg_ok. rewrite Hb, Hk.
      apply (held_ok _ _ HH). set_solver.
  - assert (Hex : ∀ j a, j ∈ K → owns s' z a → owns s j a → False).
    { intros j a Hj [Ha|Ha]%Hz Hja.
      - apply HxK. by rewrite (held_excl _ _ HH x j a) by set_solver.
      - apply HyK. by rewrite (held_excl _ _ HH y j a) by set_solver. }
    intros i j a [->|Hi]%elem_of_cons [->|Hj]%elem_of_cons Hoi Hoj; [done|..].
    + rewrite HK in Hoj by done. exfalso; eauto.
    + rewrite HK in Hoi by done. exfalso; eauto.
    + rewrite HK in Hoi, Hoj by done. apply (held_excl _ _ HH i j a); set_solver.
Qed.

(** ** Lemmas: the lists *)

(** Two states that differ at most in list pointers. *)
Definition same_data s s' : Prop :=
  length (segs s') = length (segs s) ∧
  ∀ j, free (sg s' j) = free (sg s j) ∧ begin (sg s' j) = begin (sg s j) ∧
    blocks (sg s' j) = blocks (sg s j).

Lemma same_data_refl s : same_data s s.
Proof. by split. Qed.

Lemma same_data_trans s1 s2 s3 : same_data s1 s2 → same_data s2 s3 → same_data s1 s3.
Proof.
  intros [E1 H1] [E2 H2]. split; [congruence|]. intros j.
  destruct (H2 j) as (-> & -> & ->), (H1 j) as (-> & -> & ->). done.
Qed.

Lemma same_data_assign s w l v : same_data s (assign s w l v).
Proof. split; [apply length_assign|]. intros j. by rewrite !sg_assign_field. Qed.

(** Assigning through the location after [P] splices a chain behind [P]. *)
Lemma assign_splice s w P q r zs :
  NoDup P → lseg (nxt s) (headp s w) P q → (∀ x, x ∈ P → (x < length (segs s))%nat) →
  (∀ z, z ∈ zs → z ∉ P) → chain (nxt s) r zs →
  chain (nxt (assign s w (loc_after P) r)) (headp (assign s w (loc_after P) r) w) (P ++ zs) ∧
  ∀ j, j ∉ P → nxt (assign s w (loc_after P) r) j = nxt s j.
Proof.
  intros Hnd Hseg Hr Hd Hz.
  assert (Hn : ∀ j, nxt (assign s w (loc_after P) r) j = loc_set_nxt (nxt s) (loc_after P) r j).
  { intros j; apply nxt_assign. intros i Hi%loc_after_in. by apply Hr. }
  split.
  - rewrite headp_assign_same. eapply lseg_ext; [intros; apply Hn|]. by eapply chain_splice.
  - intros j Hj. rewrite Hn. apply loc_set_nxt_ne. intros E%loc_after_in. done.
Qed.

(** Inserting [i] between [P] and [R]. *)
Lemma assign_insert s w P R i :
  chain (nxt s) (headp s w) (P ++ R) → (∀ x, x ∈ P → (x < length (segs s))%nat) →
  i ∉ P ++ R → chain (nxt s) (nxt s i) R →
  let s' := assign s w (loc_after P) (Some i) in
  chain (nxt s') (headp s' w) (P ++ i :: R) ∧ ∀ j, j ∉ P → nxt s' j = nxt s j.
Proof.
  intros Hch Hr Hi HR. pose proof (chain_NoDup _ _ _ Hch) as Hnd.
  apply NoDup_app in Hnd as (HP & HPR & _). apply lseg_app in Hch as (q & HPq & _).
  eapply assign_splice; [done..| |by split].
  rewrite not_elem_of_app in Hi. intros z [->|Hz]%elem_of_cons; [tauto|].
  intros HzP. by apply (HPR z).
Qed.

(** Unlinking [c] from between [P] and [R]. *)
Lemma assign_unlink s w P R c :
  chain (nxt s) (headp s w) (P ++ c :: R) → (∀ x, x ∈ P → (x < length (segs s))%nat) →
  let s' := assign s w (loc_after P) (nxt s c) in
  chain (nxt s') (headp s' w) (P ++ R) ∧ ∀ j, j ∉ P → nxt s' j = nxt s j.
Proof.
  intros Hch Hr. pose proof (chain_NoDup _ _ _ Hch) as Hnd.
  apply NoDup_app in Hnd as (HP & HPR & _). apply lseg_app in Hch as (q & HPq & -> & HR).
  eapply assign_splice; [done..| |done].
  intros z Hz HzP. apply (HPR z HzP). by right.
Qed.

Lemma deref_after s w P R :
  chain (nxt s) (headp s w) (P ++ R) → deref s w (loc_after P) = head R.
Proof.
  intros (q & HP & HR)%lseg_app. unfold deref. rewrite (loc_get_after _ _ _ _ HP).
  destruct R; [done|]. by destruct HR.
Qed.

Lemma Permutation_insert {A : Type} (P : list A) (c i : A) (R : list A) :
  P ++ [c] ++ i :: R ≡ₚ i :: P ++ c :: R.
Proof. cbn. rewrite (Permutation_swap i c R). by rewrite (Permutation_middle P (c :: R) i). Qed.

(** [s'] is [s] with node [i] inserted somewhere in list [w], which had the
    nodes [l]. *)
Definition inserted (w : which) s s' i (l : list nat) : Prop :=
  same_data s s' ∧ (∀ w', w' ≠ w → headp s' w' = headp s w') ∧
  (∀ j, j ∉ i :: l → nxt s' j = nxt s j) ∧
  ∃ l', l' ≡ₚ i :: l ∧ chain (nxt s') (headp s' w) l'.

Lemma inserted_end w s i l :
  chain (nxt s) (headp s w) l → (∀ x, x ∈ l → (x < length (segs s))%nat) → i ∉ l →
  nxt s i = None → inserted w s (assign s w (loc_after l) (Some i)) i l.
Proof.
  intros Hch Hr Hi Hnp. destruct (assign_insert s w l [] i) as [Hc Hn].
  { by rewrite app_nil_r. } { done. } { by rewrite app_nil_r. } { by rewrite Hnp. }
  split_and!; [apply same_data_assign| | |].
  - intros w' Hw. by apply headp_assign_other.
  - intros j Hj. apply Hn. set_solver.
  - eexists; split; [|exact Hc]. symmetry; apply Permutation_cons_append.
Qed.

Lemma inserted_middle w s i P c n R :
  chain (nxt s) (headp s w) (P ++ c :: n :: R) →
  (∀ x, x ∈ P ++ c :: n :: R → (x < length (segs s))%nat) →
  (i < length (segs s))%nat → i ∉ P ++ c :: n :: R →
  inserted w s (upd_seg (upd_seg s i (set_np (Some n))) c (set_np (Some i))) i (P ++ c :: n :: R).
Proof.
  intros Hch Hr Hil Hi. change (c :: n :: R) with ([c] ++ n :: R) in *.
  rewrite app_assoc in Hch, Hr, Hi |- *.
  rewrite <-(assign_LNext _ w), <-(loc_after_snoc P c).
  set (s1 := upd_seg s i (set_np (Some n))).
  assert (H1 : ∀ j, nxt s1 j = fset (nxt s) i (Some n) j).
  { intros j. unfold nxt, s1, fset. rewrite sg_upd by done. by case_decide. }
  assert (Hnx : chain (nxt s) (Some n) (n :: R)).
  { apply lseg_app in Hch as (q & _ & HR). by destruct HR as [-> HR]. }
  destruct (assign_insert s1 w (P ++ [c]) (n :: R) i) as [Hc Hn].
  { eapply lseg_ext; [intros; apply H1|]. apply lseg_fset_notin; [done|]. by destruct w. }
  { intros x Hx. unfold s1. rewrite length_upd. apply Hr. set_solver. }
  { done. }
  { rewrite H1, fset_eq. eapply lseg_ext; [intros; apply H1|].
    apply lseg_fset_notin; [set_solver|done]. }
  split_and!.
  - eapply same_data_trans; [|apply same_data_assign].
    apply (same_data_assign s w (LNext i) (Some n)).
  - intros w' Hw. rewrite headp_assign_other by done. by destruct w'.
  - intros j Hj. rewrite Hn by set_solver. rewrite H1. apply fset_ne. set_solver.
  - eexists; split; [|exact Hc]. by rewrite (Permutation_middle (P ++ [c])).
Qed.

(** ** [usedChunk] *)

Lemma usedChunk_loop_ok fuel s P R i :
  chain (nxt s) (seg_used s) (P ++ R) → (∀ x, x ∈ P ++ R → (x < length (segs s))%nat) →
  (i < length (segs s))%nat → i ∉ P ++ R → nxt s i = None → (length R < fuel)%nat →
  ∃ s', usedChunk_loop fuel s (loc_after P) i = Ok s' ∧ inserted HUsed s s' i (P ++ R).
Proof.
  revert P R; induction fuel as [|fuel IH]; intros P R Hch Hr Hil Hi Hnp Hf; [lia|].
  cbn [usedChunk_loop]. rewrite (deref_after s HUsed P R Hch).
  destruct R as [|c R]; cbn [head].
  { rewrite app_nil_r in *. eexists; split; [done|]. by apply inserted_end. }
  assert (Hch' : chain (nxt s) (headp s HUsed) ((P ++ [c]) ++ R)) by by rewrite <-app_assoc.
  pose proof (deref_after s HUsed (P ++ [c]) R Hch') as Ed. rewrite loc_after_snoc in Ed.
  rewrite Ed. destruct R as [|n R]; cbn [head].
  { eexists; split; [done|]. rewrite <-(assign_LNext _ HUsed), <-(loc_after_snoc P c).
    by apply inserted_end. }
  destruct (_ && _).
  - eexists; split; [done|]. by apply inserted_middle.
  - rewrite <-(loc_after_snoc P c).
    destruct (IH (P ++ [c]) (n :: R)) as (s' & E & H);
      [by rewrite <-?app_assoc..|done|cbn in *; lia|].
    rewrite <-app_assoc in H. by exists s'.
Qed.

Lemma usedChunk_ok s U i :
  chain (nxt s) (seg_used s) U → (∀ x, x ∈ U → (x < length (segs s))%nat) →
  (i < length (segs s))%nat → i ∉ U → nxt s i = None → (length U < walk_fuel)%nat →
  ∃ s', usedChunk s i = Ok s' ∧ inserted HUsed s s' i U.
Proof. intros. by apply (usedChunk_loop_ok walk_fuel s [] U i). Qed.

(** ** [allocChunk] *)

(** The run [p] cut in two: its first [m] chunks become the run of [u]. *)
Lemma held_split s s' u p m K :
  Held s (p :: K) → NoDup (p :: K) → u ∉ p :: K → (u < MaxNumSeg)%nat →
  0 ≤ m ≤ blocks (sg s p) → length (segs s') = length (segs s) →
  free (sg s' u) = false → begin (sg s' u) = begin (sg s p) → blocks (sg s' u) = m →
  free (sg s' p) = false → begin (sg s' p) = begin (sg s p) + m * ChunkSize →
  blocks (sg s' p) = blocks (sg s p) - m →
  (∀ j, j ≠ u → j ≠ p → free (sg s' j) = free (sg s j) ∧ begin (sg s' j) = begin (sg s j) ∧
    blocks (sg s' j) = blocks (sg s j)) →
  Held s' (u :: p :: K) ∧ (∀ a, owns s p a ↔ owns s' u a ∨ owns s' p a) ∧
  (∀ j a, j ∈ K → owns s' j a ↔ owns s j a).
Proof.
  intros HH [Hpk _]%NoDup_cons [Hup HuK]%not_elem_of_cons Hu Hm Hlen Huf Hub Huk Hpf Hpb Hpk' Hoth.
  assert (Hp : seg_ok s p) by (apply (held_ok _ _ HH); set_solver).
  assert (Ho : ∀ a, owns s p a ↔ owns s' u a ∨ owns s' p a).
  { intros a. unfold owns, seg_ok in *. rewrite Hub, Huk, Hpb, Hpk'. unfold ChunkSize in *. lia. }
  assert (HK : ∀ j a, j ∈ K → owns s' j a ↔ owns s j a).
  { intros j a Hj. destruct (Hoth j) as (_ & Hb & Hk); [set_solver..|].
    unfold owns. by rewrite Hb, Hk. }
  assert (Hex : ∀ j a, j ∈ K → owns s' j a → owns s p a → False).
  { intros j a Hj Hja Ha. apply Hpk. rewrite HK in Hja by done.
    by rewrite (held_excl _ _ HH p j a) by set_solver. }
  assert (Hup' : ∀ a, owns s' u a → owns s' p a → False).
  { intros a. unfold owns. rewrite Hub, Huk, Hpb. lia. }
  split_and!; [|done|done]. constructor.
  - rewrite Hlen. apply (held_len _ _ HH).
  - intros i [->|Hi]%elem_of_cons; [done|]. by apply (held_range _ _ HH).
  - intros i Hi. destruct (decide (i = u)) as [->|]; [rewrite Huf; set_solver|].
    destruct (decide (i = p)) as [->|]; [rewrite Hpf; set_solver|].
    destruct (Hoth i) as (-> & _); [done..|]. rewrite (held_bits _ _ HH i Hi). set_solver.
  - intros i [->|[->|Hi]%elem_of_cons]%elem_of_cons; unfold seg_ok in *.
    + rewrite Hub, Huk. unfold ChunkSize in *. lia.
    + rewrite Hpb, Hpk'. unfold ChunkSize in *. split_and!; try lia.
      rewrite Z.mod_add by lia. tauto.
    + destruct (Hoth i) as (_ & -> & ->); [set_solver..|]. apply (held_ok _ _ HH). set_solver.
  - intros i j a [->|[->|Hi]%elem_of_cons]%elem_of_cons [->|[->|Hj]%elem_of_cons]%elem_of_cons
      Hoi Hoj; try done.
    + exfalso; by apply (Hup' a).
    + exfalso; apply (Hex j a); [done..|]. apply Ho; by left.
    + exfalso; by apply (Hup' a).
    + exfalso; apply (Hex j a); [done..|]. apply Ho; by right.
    + exfalso; apply (Hex i a); [done..|]. apply Ho; by left.
    + exfalso; apply (Hex i a); [done..|]. apply Ho; by right.
    + apply (held_excl _ _ HH i j a); [set_solver..| |]; by apply HK.
Qed.

(** A run given up: its descriptor returns to the pool. *)
Lemma held_drop s s' p K :
  Held s (p :: K) → p ∉ K → length (segs s') = length (segs s) → free (sg s' p) = true →
  (∀ j, j ≠ p → free (sg s' j) = free (sg s j) ∧ begin (sg s' j) = begin (sg s j) ∧
    blocks (sg s' j) = blocks (sg s j)) →
  Held s' K ∧ (∀ j a, j ∈ K → owns s' j a ↔ owns s j a).
Proof.
  intros HH HpK Hlen Hpf Hoth.
  assert (HK : ∀ j a, j ∈ K → owns s' j a ↔ owns s j a).
  { intros j a Hj. destruct (Hoth j) as (_ & Hb & Hk); [set_solver..|].
    unfold owns. by rewrite Hb, Hk. }
  split; [|done]. constructor.
  - rewrite Hlen. apply (held_len _ _ HH).
  - intros i Hi. apply (held_range _ _ HH). set_solver.
  - intros i Hi. destruct (decide (i = p)) as [->|]; [rewrite Hpf; set_solver|].
    destruct (Hoth i) as (-> & _); [done..|]. rewrite (held_bits _ _ HH i Hi). set_solver.
  - intros i Hi. destruct (Hoth i) as (_ & Hb & Hk); [set_solver..|]. unfold seg_ok. rewrite Hb, Hk.
    apply (held_ok _ _ HH). set_solver.
  - intros i j a Hi Hj Hoi Hoj. apply (held_excl _ _ HH i j a); [set_solver..| |]; by apply HK.
Qed.

Lemma sg_allocChunk_cut s p u m j :
  length (segs s) = MaxNumSeg → (p < MaxNumSeg)%nat → (u < MaxNumSeg)%nat → u ≠ p →
  seg_ok s p → 0 ≤ m ≤ blocks (sg s p) →
  sg (allocChunk_cut (upd_seg s u (set_free false)) p u m) j =
    if decide (j = p) then
      mkSeg (free (sg s p)) (begin (sg s p) + m * ChunkSize) (blocks (sg s p) - m) (np (sg s p))
    else if decide (j = u) then mkSeg false (begin (sg s p)) m None else sg s j.
Proof.
  intros Hl Hp Hu Hne (H1 & H2 & _ & H4) Hm. unfold allocChunk_cut, ChunkSize in *.
  rewrite !sg_upd by (rewrite ?length_upd; lia).
  rewrite ?(decide_False (P := p = u)), ?(decide_True (P := p = p)), ?(decide_True (P := u = u)) by done.
  cbn.
  rewrite (u32_id (_ - _)), (u32_id (m * _)), u32_id by (unfold is_u32; lia).
  case_decide; [done|]. by case_decide.
Qed.

Lemma allocChunk_cut_frame s p u m :
  let s' := allocChunk_cut s p u m in
  length (segs s') = length (segs s) ∧ seg_free s' = seg_free s ∧ seg_used s' = seg_used s.
Proof. unfold allocChunk_cut. by rewrite !length_upd. Qed.

Lemma held_leased s L i : Held s L → i ∈ L → free (sg s i) = false.
Proof.
  intros HH Hi. apply not_true_iff_false.
  rewrite (held_bits _ _ HH) by (by eapply held_range). tauto.
Qed.

Lemma Permutation_pick (P R U : list nat) (p : nat) : (P ++ p :: R) ++ U ≡ₚ p :: (P ++ R) ++ U.
Proof. rewrite <-!app_assoc. symmetry. apply (Permutation_middle P (R ++ U) p). Qed.

Lemma wf_pick s P p R U :
  Wf s (P ++ p :: R) U → Held s (p :: (P ++ R) ++ U) ∧ NoDup (p :: (P ++ R) ++ U).
Proof.
  intros HW. pose proof (wf_nodup _ _ _ HW) as Hnd. rewrite Permutation_pick in Hnd.
  split; [|done]. eapply held_perm; [|apply (wf_held _ _ _ HW)].
  intros i. by rewrite Permutation_pick.
Qed.

Lemma allocChunk_cut_ok s U P p R u m :
  Wf s (P ++ p :: R) U → u ∉ (P ++ p :: R) ++ U → (u < MaxNumSeg)%nat →
  0 ≤ m ≤ blocks (sg s p) →
  let s' := allocChunk_cut (upd_seg s u (set_free false)) p u m in
  Held s' (u :: p :: (P ++ R) ++ U) ∧ (∀ a, owns s p a ↔ owns s' u a ∨ owns s' p a) ∧
  (∀ j a, j ∈ (P ++ R) ++ U → owns s' j a ↔ owns s j a) ∧
  (∀ j, j ≠ u → nxt s' j = nxt s j) ∧ seg_free s' = seg_free s ∧ seg_used s' = seg_used s ∧
  nxt s' u = None ∧ begin (sg s' u) = begin (sg s p) ∧ blocks (sg s' u) = m ∧
  (∀ j, j ≠ u → blocks (sg s' j) = if decide (j = p) then blocks (sg s p) - m else blocks (sg s j)).
Proof.
  intros HW Hu Hul Hm. rewrite Permutation_pick in Hu.
  destruct (wf_pick _ _ _ _ _ HW) as [HH Hnd].
  assert (Hup : u ≠ p) by (intros ->; apply Hu; by left).
  destruct (allocChunk_cut_frame (upd_seg s u (set_free false)) p u m) as (Hl & Ef & Eu).
  rewrite length_upd in Hl.
  pose proof (λ j, sg_allocChunk_cut s p u m j (held_len _ _ HH)
    (held_range _ _ HH p (list_elem_of_here _ _)) Hul Hup
    (held_ok _ _ HH p (list_elem_of_here _ _)) Hm) as Hf.
  set (s1 := allocChunk_cut _ _ _ _) in *.
  assert (Hu1 : sg s1 u = mkSeg false (begin (sg s p)) m None).
  { by rewrite Hf, decide_False, decide_True. }
  assert (Hp1 : sg s1 p = mkSeg (free (sg s p)) (begin (sg s p) + m * ChunkSize)
                            (blocks (sg s p) - m) (np (sg s p))).
  { by rewrite Hf, decide_True. }
  assert (Ho1 : ∀ j, j ≠ u → j ≠ p → sg s1 j = sg s j).
  { intros j Hju Hjp. by rewrite Hf, !decide_False. }
  clearbody s1. clear Hf.
  destruct (held_split s s1 u p m ((P ++ R) ++ U)) as (HH1 & Ho & HK);
    try (done || by rewrite ?Hu1, ?Hp1).
  { rewrite Hp1. eapply held_leased; [done|by left]. }
  { intros j Hju Hjp. by rewrite Ho1. }
  split_and!; try done; unfold nxt; [|by rewrite Hu1..|].
  - intros j Hj. destruct (decide (j = p)) as [->|]; [by rewrite Hp1|by rewrite Ho1].
  - intros j Hj. case_decide; subst; [by rewrite Hp1|by rewrite Ho1].
Qed.

(** Returning the descriptor [p] and unlinking it from the free list. *)
Lemma drop_free_ok s L P p R U :
  Held s (p :: L) → p ∉ L → (∀ x, x ∈ P → x ∈ p :: L) → (∀ x, x ∈ P → x ∉ U) →
  chain (nxt s) (seg_free s) (P ++ p :: R) → chain (nxt s) (seg_used s) U →
  let s1 := freeSeg s p in
  let s' := assign s1 HFree (loc_after P) (np (sg s1 p)) in
  Held s' L ∧ chain (nxt s') (seg_free s') (P ++ R) ∧ chain (nxt s') (seg_used s') U ∧
  (∀ j, j ∉ P → nxt s' j = nxt s j) ∧
  (∀ j, begin (sg s' j) = begin (sg s j) ∧ blocks (sg s' j) = blocks (sg s j)).
Proof.
  intros HH HpL HP HPU Hf Hu. cbv zeta.
  assert (Hlen : ∀ x, x ∈ p :: L → (x < length (segs s))%nat).
  { intros x Hx. rewrite (held_len _ _ HH). by apply (held_range _ _ HH). }
  set (s1 := freeSeg s p).
  assert (Hn1 : ∀ j, nxt s1 j = nxt s j) by (intros; by apply nxt_upd_other).
  destruct (assign_unlink s1 HFree P R p) as [Hc Hn].
  { eapply lseg_ext; [intros; apply Hn1|done]. }
  { intros x Hx. unfold s1, freeSeg. rewrite length_upd. auto. }
  fold (nxt s1 p). set (s2 := assign s1 HFree (loc_after P) (nxt s1 p)) in *.
  destruct (same_data_assign s1 HFree (loc_after P) (nxt s1 p)) as [E2 H2]. fold s2 in E2, H2.
  assert (Hs1 : ∀ j, sg s1 j = if decide (j = p) then set_free true (sg s p) else sg s j).
  { intros j. apply sg_upd. apply Hlen. by left. }
  assert (Hd : ∀ j, begin (sg s2 j) = begin (sg s j) ∧ blocks (sg s2 j) = blocks (sg s j)).
  { intros j. destruct (H2 j) as (_ & -> & ->). rewrite Hs1. by case_decide; subst. }
  split_and!; [|done| | |done].
  - destruct (held_drop s s2 p L) as [HL _]; try done.
    + rewrite E2. apply length_upd.
    + destruct (H2 p) as (-> & _). by rewrite Hs1, decide_True.
    + intros j Hj. destruct (H2 j) as (-> & -> & ->). by rewrite Hs1, decide_False.
  - assert (Hus : seg_used s2 = seg_used s).
    { apply (headp_assign_other s1 HFree HUsed). done. }
    rewrite Hus. eapply lseg_ext; [|done]. intros x Hx. rewrite Hn; [apply Hn1|].
    intros Hp. by apply (HPU x).
  - intros j Hj. by rewrite Hn, Hn1.
Qed.

(** A free run of [k] frames. *)
Definition has_run s F (k : Z) : Prop := ∃ i, i ∈ F ∧ k ≤ blocks (sg s i).

(** The free list after a split: [p] has left it when nothing of it is left. *)
Lemma allocChunk_split_ok s U P p R u m :
  Wf s (P ++ p :: R) U → u ∉ (P ++ p :: R) ++ U → (u < MaxNumSeg)%nat →
  0 ≤ m ≤ blocks (sg s p) →
  let s' := allocChunk_split (upd_seg s u (set_free false)) (loc_after P) p u m in
  ∃ F', Held s' (u :: F' ++ U) ∧ chain (nxt s') (seg_free s') F' ∧ chain (nxt s') (seg_used s') U ∧
    nxt s' u = None ∧ begin (sg s' u) = begin (sg s p) ∧ blocks (sg s' u) = m ∧ NoDup (u :: F' ++ U) ∧
    (∀ a, covers s (P ++ p :: R) a ↔ covers s' F' a ∨ owns s' u a) ∧
    (∀ a, covers s' U a ↔ covers s U a) ∧
    (length F' ≤ length (P ++ p :: R))%nat ∧ chunks s' F' = chunks s (P ++ p :: R) - m ∧
    (∀ k : Z, 0 < k → has_run s (P ++ p :: R) (k + m) → has_run s' F' k).
Proof.
  intros HW Hu Hul Hm.
  destruct (allocChunk_cut_ok s U P p R u m)
    as (HH & Ho & HK & Hn & Ef & Eu & Hun & Hub & Huk & Hbl);
    try done.
  unfold allocChunk_split. set (s1 := allocChunk_cut _ _ _ _) in *. clearbody s1.
  assert (Hc : ∀ L, u ∉ L → ∀ h, chain (nxt s) h L → chain (nxt s1) h L).
  { intros L HL h. apply lseg_ext. intros x Hx. apply Hn. by intros ->. }
  assert (Hch : chunks s1 (P ++ R) = chunks s (P ++ R) ∧ blocks (sg s1 p) = blocks (sg s p) - m).
  { destruct (wf_pick _ _ _ _ _ HW) as [_ [HpK _]%NoDup_cons]. rewrite Permutation_pick in Hu.
    rewrite not_elem_of_cons, not_elem_of_app in Hu. rewrite not_elem_of_app in HpK. split.
    - apply chunks_ext; intros j Hj. rewrite Hbl, decide_False; [done|..]; intros ->; tauto.
    - rewrite Hbl, decide_True; [done|done|]. intros ->; tauto. }
  assert (Hcf : chain (nxt s1) (seg_free s1) (P ++ p :: R)).
  { rewrite Ef. apply Hc; [set_solver|apply HW]. }
  assert (Hcu : chain (nxt s1) (seg_used s1) U).
  { rewrite Eu. apply Hc; [set_solver|apply HW]. }
  destruct (blocks (sg s1 p) =? 0) eqn:Eb; bool_to_prop.
  - (* nothing is left of [p] *)
    assert (Hp0 : ∀ a, ¬ owns s1 p a) by (intros a; unfold owns; rewrite Eb; lia).
    rewrite Permutation_pick, not_elem_of_cons in Hu. destruct Hu as [Hup HuK].
    destruct (wf_pick _ _ _ _ _ HW) as [_ [HpK HndK]%NoDup_cons].
    destruct (drop_free_ok s1 (u :: (P ++ R) ++ U) P p R U) as (HH2 & Hc2 & Hu2 & Hn2 & Hd2).
    { eapply held_perm; [|done]. intros i. by rewrite (Permutation_swap p u). }
    { set_solver. } { set_solver. }
    { rewrite <-app_assoc in HndK. apply NoDup_app in HndK as (_ & Hd & _). set_solver. }
    { done. } { done. }
    set (s2 := assign _ _ _ _) in *. clearbody s2. exists (P ++ R).
    assert (Ho2 : ∀ j a, owns s2 j a ↔ owns s1 j a).
    { intros j a. unfold owns. by destruct (Hd2 j) as [-> ->]. }
    destruct (Hd2 u) as [Hb2 Hk2]. split_and!; try done.
    + rewrite Hn2; [done|]. set_solver.
    + by rewrite Hb2.
    + by rewrite Hk2.
    + by constructor.
    + intros a. rewrite covers_pick, Ho, Ho2. rewrite (covers_ext s s2 (P ++ R) a); [naive_solver|].
      intros j Hj. rewrite Ho2. apply HK. set_solver.
    + intros a. apply covers_ext. intros j Hj. rewrite Ho2. apply HK. set_solver.
    + rewrite !length_app. cbn. lia.
    + rewrite (chunks_ext s1 s2), chunks_pick by (intros; apply Hd2). lia.
    + intros k Hk0 (j & Hj & Hkj). exists j. destruct (Hd2 j) as [_ ->].
      assert (j ∈ P ++ R ∨ j = p) as [Hj'| ->] by set_solver; [|lia]. clear Hj. split; [done|].
      rewrite Hbl by (intros ->; set_solver). rewrite decide_False by (intros ->; set_solver). lia.
  - rewrite not_elem_of_app in Hu. exists (P ++ p :: R). split_and!; try done.
    + eapply held_perm; [|done]. intros i. by rewrite Permutation_pick.
    + constructor; [set_solver|apply HW].
    + intros a. rewrite !covers_pick, Ho. setoid_rewrite (covers_ext s s1 (P ++ R) a); [tauto|].
      intros j Hj. apply HK. set_solver.
    + intros a. apply covers_ext. intros j Hj. apply HK. set_solver.
    + rewrite !chunks_pick. lia.
    + intros k Hk0 (j & Hj & Hkj). exists j. split; [done|]. rewrite Hbl by (intros ->; tauto). case_decide; subst; lia.
Qed.

(** The search of [allocChunk] stops at the first run that is long enough. *)
Lemma allocChunk_loop_found fuel s P R u m :
  chain (nxt s) (seg_free s) (P ++ R) → (∃ i, i ∈ R ∧ m ≤ blocks (sg s i)) →
  (length R < fuel)%nat →
  ∃ P' p R', P ++ R = P' ++ p :: R' ∧ m ≤ blocks (sg s p) ∧
    allocChunk_loop fuel s (loc_after P) u m =
      (s ← usedChunk (allocChunk_split s (loc_after P') p u m) u; Ok (begin (sg s u), s)).
Proof.
  revert P R; induction fuel as [|fuel IH]; intros P R Hch (i & Hi & Hm) Hf; [lia|].
  cbn [allocChunk_loop]. rewrite (deref_after s HFree P R Hch).
  destruct R as [|p R]; cbn [head]; [by apply elem_of_nil in Hi|].
  split_if; [by exists P, p, R|].
  rewrite <-(loc_after_snoc P p).
  destruct (IH (P ++ [p]) R) as (P' & p' & R' & EP & Hp' & El).
  { by rewrite <-app_assoc. }
  { apply elem_of_cons in Hi as [->|Hi]; [lia|eauto]. }
  { cbn in Hf. lia. }
  exists P', p', R'. by rewrite <-EP, <-app_assoc.
Qed.

(** ... and panics when no run is. *)
Lemma allocChunk_loop_none fuel s P R u m :
  chain (nxt s) (seg_free s) (P ++ R) → (∀ i, i ∈ R → blocks (sg s i) < m) →
  (length R < fuel)%nat →
  allocChunk_loop fuel s (loc_after P) u m = Panic "PFAallocator::cannot allocate segment".
Proof.
  revert P R; induction fuel as [|fuel IH]; intros P R Hch Hm Hf; [lia|].
  cbn [allocChunk_loop]. rewrite (deref_after s HFree P R Hch).
  destruct R as [|p R]; cbn [head]; [done|].
  pose proof (Hm p (list_elem_of_here _ _)). split_if; [lia|].
  rewrite <-(loc_after_snoc P p). apply (IH _ R); [by rewrite <-app_assoc| |cbn in Hf; lia].
  intros i Hi. apply Hm. by right.
Qed.

Lemma held_same_data s s' L : same_data s s' → Held s L → Held s' L.
Proof.
  intros [El Hd] [H1 H2 H3 H4 H5].
  assert (Ho : ∀ i a, owns s' i a ↔ owns s i a).
  { intros i a. unfold owns. by destruct (Hd i) as (_ & -> & ->). }
  constructor; [congruence|done|..].
  - intros i Hi. destruct (Hd i) as (-> & _ & _). auto.
  - intros i Hi. unfold seg_ok. destruct (Hd i) as (_ & -> & ->). by apply H4.
  - intros i j a Hi Hj. rewrite !Ho. by apply H5.
Qed.

Lemma covers_same_data s s' L a : same_data s s' → covers s' L a ↔ covers s L a.
Proof.
  intros [_ Hd]. apply covers_ext. intros j _. unfold owns. by destruct (Hd j) as (_ & -> & ->).
Qed.

(** Inserting a leased descriptor [u] that is in no list keeps the state well
    formed. *)
Lemma inserted_wf_used s s' F U u :
  inserted HUsed s s' u U → Held s (u :: F ++ U) → NoDup (u :: F ++ U) →
  chain (nxt s) (seg_free s) F → ∃ U', Wf s' F U' ∧ U' ≡ₚ u :: U.
Proof.
  intros (Hsd & Hh & Hnx & U' & HU' & Hc) HH Hnd Hf.
  assert (HP : F ++ U' ≡ₚ u :: F ++ U).
  { rewrite HU'. symmetry. apply Permutation_middle. }
  exists U'. split; [|done]. constructor; [|..|done|by rewrite HP].
  - eapply held_same_data; [done|]. eapply held_perm; [|done]. intros i. by rewrite HP.
  - replace (seg_free s') with (seg_free s) by (symmetry; by apply (Hh HFree)).
    apply NoDup_cons in Hnd as [HuK (_ & HFU & _)%NoDup_app].
    eapply lseg_ext; [|done]. intros x Hx. apply Hnx.
    rewrite not_elem_of_cons. split; [intros ->; apply HuK, elem_of_app; by left|by apply HFU].
Qed.

Lemma inserted_wf_free s s' F U u :
  inserted HFree s s' u F → Held s (u :: F ++ U) → NoDup (u :: F ++ U) →
  chain (nxt s) (seg_used s) U → ∃ F', Wf s' F' U ∧ F' ≡ₚ u :: F.
Proof.
  intros (Hsd & Hh & Hnx & F' & HF' & Hc) HH Hnd Hu.
  assert (HP : F' ++ U ≡ₚ u :: F ++ U) by by rewrite HF'.
  exists F'. split; [|done]. constructor; [|done|..|by rewrite HP].
  - eapply held_same_data; [done|]. eapply held_perm; [|done]. intros i. by rewrite HP.
  - replace (seg_used s') with (seg_used s) by (symmetry; by apply (Hh HUsed)).
    apply NoDup_cons in Hnd as [HuK (_ & HFU & _)%NoDup_app].
    eapply lseg_ext; [|done]. intros x Hx. apply Hnx.
    rewrite not_elem_of_cons. split; [intros ->; apply HuK, elem_of_app; by right|].
    intros HxF. by apply (HFU x).
Qed.

(** The state before [usedChunk] in [allocChunk]: the descriptor [u] is leased
    but in no list. *)
Lemma usedChunk_wf s F U u :
  Held s (u :: F ++ U) → NoDup (u :: F ++ U) → chain (nxt s) (seg_free s) F →
  chain (nxt s) (seg_used s) U → nxt s u = None →
  ∃ s' U', usedChunk s u = Ok s' ∧ Wf s' F U' ∧ U' ≡ₚ u :: U ∧ same_data s s'.
Proof.
  intros HH Hnd Hf Hu Hn.
  assert (Hr : ∀ x, x ∈ u :: F ++ U → (x < length (segs s))%nat).
  { intros x Hx. rewrite (held_len _ _ HH). by apply (held_range _ _ HH). }
  pose proof (held_length _ _ HH Hnd) as Hlen. cbn in Hlen. rewrite length_app in Hlen.
  destruct (usedChunk_ok s U u) as (s' & E & Hins); try done.
  { intros; apply Hr. set_solver. } { apply Hr. set_solver. }
  { apply NoDup_cons in Hnd as [HuK _]. set_solver. } { unfold walk_fuel. lia. }
  destruct (inserted_wf_used s s' F U u) as (U' & HW & HU'); try done.
  exists s', U'. split_and!; try done. apply Hins.
Qed.

Lemma allocChunk_spec s F U m :
  Wf s F U → 0 ≤ m < 65536 → (∃ i, i ∈ F ∧ m ≤ blocks (sg s i)) →
  (length (F ++ U) < MaxNumSeg)%nat →
  ∃ addr s' F' U', allocChunk s m = Ok (addr, s') ∧ Wf s' F' U' ∧ addr `mod` ChunkSize = 0 ∧
    (∀ a, covers s F a ↔ covers s' F' a ∨ in_run addr m a) ∧
    (∀ a, covers s' U' a ↔ covers s U a ∨ in_run addr m a) ∧
    (∀ a, covers s' F' a → ¬ in_run addr m a) ∧
    (∀ a, covers s U a → ¬ in_run addr m a) ∧ 0 ≤ addr ∧ addr + m * ChunkSize < 4294967296 ∧
    (length (F' ++ U') ≤ S (length (F ++ U)))%nat ∧ chunks s' F' = chunks s F - m ∧
    (∀ k : Z, 0 < k → has_run s F (k + m) → has_run s' F' k).
Proof.
  intros HW Hm Hfit Hspare. pose proof (wf_held _ _ _ HW) as HH.
  destruct (getSeg_ok s _ HH Hspare) as (u & Eg & Hul & Hu).
  unfold allocChunk. rewrite Eg. cbn [mbind res_bind].
  set (s0 := upd_seg s u (set_free false)).
  assert (Hs0 : ∀ j, j ∈ F → sg s0 j = sg s j).
  { intros j Hj. unfold s0. rewrite sg_upd by (by rewrite (held_len _ _ HH)).
    rewrite decide_False; [done|]. intros ->. apply Hu. set_solver. }
  destruct (allocChunk_loop_found walk_fuel s0 [] F u m) as (P & p & R & E & Hp & El).
  { eapply lseg_ext; [|apply (wf_free _ _ _ HW)]. intros x Hx. unfold nxt. by rewrite Hs0. }
  { destruct Hfit as (i & Hi & Hk). exists i. by rewrite Hs0. }
  { apply (wf_walk _ _ _ HW). }
  cbn [app] in E. subst F. rewrite Hs0 in Hp by (apply elem_of_app; right; by left).
  change (loc_after []) with LHead in El. rewrite El.
  destruct (allocChunk_split_ok s U P p R u m)
    as (F' & HH' & Hcf & Hcu & Hnu & Hb & Hk & Hnd & HcF & HcU & Hlen & Hchk & Hrun');
    [done..|lia|].
  fold s0 in HH', Hcf, Hcu, Hnu, Hb, Hk, HcF, HcU, Hchk, Hrun'. set (s1 := allocChunk_split s0 _ _ _ _) in *.
  destruct (usedChunk_wf s1 F' U u) as (s' & U' & Eu & HW' & HU' & Hsd); try done.
  rewrite Eu. cbn [mbind res_bind]. clearbody s1. clear El.
  assert (Hrun : ∀ a, owns s1 u a ↔ in_run (begin (sg s p)) m a).
  { intros a. unfold owns, in_run. by rewrite Hb, Hk. }
  assert (Hbeg : begin (sg s' u) = begin (sg s p)).
  { destruct Hsd as [_ Hd]. destruct (Hd u) as (_ & -> & _). done. }
  rewrite Hbeg. exists (begin (sg s p)), s', F', U'. split_and!; [done|done|..].
  - apply (held_ok _ _ HH). set_solver.
  - intros a. rewrite HcF, Hrun, (covers_same_data s1 s') by exact Hsd. reflexivity.
  - intros a. rewrite (covers_same_data s1 s'), (covers_perm _ _ (u :: U)), covers_cons, HcU, Hrun
      by assumption. tauto.
  - intros a Ha Hr. rewrite (covers_same_data s1 s') in Ha by exact Hsd. apply Hrun in Hr.
    destruct Ha as (i & Hi & Ha). apply NoDup_cons in Hnd as [HuN _]. apply HuN.
    rewrite (held_excl _ _ HH' u i a); [|set_solver..|done|done]. set_solver.
  - intros a Ha Hr. apply HcU in Ha as (i & Hi & Ha). apply Hrun in Hr.
    apply NoDup_cons in Hnd as [HuN _]. apply HuN.
    rewrite (held_excl _ _ HH' u i a); [|set_solver..|done|done]. set_solver.
  - apply (held_ok _ _ HH). set_solver.
  - destruct (held_ok _ _ HH p) as (H1 & H2 & _ & H4); [set_solver|]. unfold ChunkSize in *. lia.
  - rewrite !length_app, HU'. cbn. rewrite length_app in Hlen; cbn in Hlen. lia.
  - rewrite <-Hchk. apply chunks_ext. intros j _. apply Hsd.
  - intros k Hk0 Hr0. destruct (Hrun' k Hk0 Hr0) as (j & Hj & Hkj). exists j. split; [done|].
    destruct Hsd as [_ Hd]. by destruct (Hd j) as (_ & _ & ->).
Qed.

(** C1: [allocChunk] in a well-formed state with a long enough free run and a
    spare descriptor succeeds: it returns the page-aligned address of a run of
    exactly [m] chunks, all of which were free, takes exactly these addresses out
    of the free memory, adds exactly them to the memory in use, and leaves the
    allocator well formed (so runs in use never overlap each other or free
    memory). *)
Theorem allocChunk_correct s F U m :
  Wf s F U → 0 ≤ m < 65536 → (∃ i, i ∈ F ∧ m ≤ blocks (sg s i)) →
  (length (F ++ U) < MaxNumSeg)%nat →
  ∃ addr s' F' U', allocChunk s m = Ok (addr, s') ∧ Wf s' F' U' ∧ addr `mod` ChunkSize = 0 ∧
    (∀ a, covers s F a ↔ covers s' F' a ∨ in_run addr m a) ∧
    (∀ a, covers s' U' a ↔ covers s U a ∨ in_run addr m a) ∧
    (∀ a, covers s' F' a → ¬ in_run addr m a) ∧
    (∀ a, covers s U a → ¬ in_run addr m a).
Proof.
  intros HW Hm Hfit Hspare.
  destruct (allocChunk_spec s F U m) as (addr & s' & F' & U' & H); try done.
  exists addr, s', F', U'. tauto.
Qed.

(** [PFAllocator] implements the page-frame interface. *)

Lemma wf_det s F U F' U' : Wf s F U → Wf s F' U' → F = F' ∧ U = U'.
Proof. intros [_ H1 H2 _] [_ H3 H4 _]. split; by eapply chain_det. Qed.

Definition ready s (n : nat) : Prop :=
  ∃ F U, Wf s F U ∧ Z.of_nat n ≤ chunks s F ∧ (length (F ++ U) + n ≤ MaxNumSeg)%nat.

(** Memory that is not free: the allocated runs, and everything that the allocator was never
    given. *)
Definition used_addr s a : Prop := ∃ F U, Wf s F U ∧ ¬ covers s F a.

Lemma used_iff s F U a : Wf s F U → used_addr s a ↔ ¬ covers s F a.
Proof.
  intros HW. split; [|intros; by exists F, U]. intros (F1 & U1 & HW1 & Ha).
  by destruct (wf_det _ _ _ _ _ HW HW1) as [-> _].
Qed.

(** A run is taken out of the free memory. *)
Lemma used_alloc s F U s' F' U' (p m : Z) : Wf s F U → Wf s' F' U' →
  (∀ a, covers s F a ↔ covers s' F' a ∨ in_run p m a) → (∀ a, covers s' F' a → ¬ in_run p m a) →
  (∀ a, used_addr s' a ↔ used_addr s a ∨ p ≤ a < p + 4096 * m) ∧ (∀ a, p ≤ a < p + 4096 * m → ¬ used_addr s a).
Proof.
  intros HW HW' HF HX. assert (Hr : ∀ a, in_run p m a ↔ p ≤ a < p + 4096 * m) by (intros a; unfold in_run, ChunkSize; lia).
  split; intros a; rewrite (used_iff s F U) by done; [rewrite (used_iff s' F' U') by done|].
  - rewrite <- Hr. specialize (HF a). specialize (HX a).
    assert (in_run p m a ∨ ¬ in_run p m a) by (unfold in_run; lia). tauto.
  - rewrite <- Hr. specialize (HF a). tauto.
Qed.

Lemma ready_le s (n n' : nat) : (n' ≤ n)%nat → ready s n → ready s n'.
Proof. intros Hn (F & U & HW & Hc & Hl). exists F, U. split_and!; [done|lia|lia]. Qed.

Lemma alloc_page s (n : nat) :
  ready s (S n) →
  ∃ p s', allocChunk s 1 = Ok (p, s') ∧ ready s' n ∧ p `mod` 4096 = 0 ∧
    0 ≤ p ∧ p + 4096 < 4294967296 ∧
    (∀ a, used_addr s' a ↔ used_addr s a ∨ p ≤ a < p + 4096) ∧
    (∀ a, p ≤ a < p + 4096 → ¬ used_addr s a).
Proof.
  intros (F & U & HW & Hc & Hl).
  destruct (allocChunk_spec s F U 1)
    as (p & s' & F' & U' & E & HW' & Hal & HF & _ & HFd & _ & H0 & Hhi & Hlen & Hchk & _);
    [done|lia|by apply chunks_pos; lia|lia|].
  unfold ChunkSize in *. exists p, s'. split_and!; [done| |done|done|lia|..].
  - exists F', U'. split_and!; [done|lia|lia].
  - apply (used_alloc s F U s' F' U' p 1); done.
  - apply (used_alloc s F U s' F' U' p 1); done.
Qed.

Lemma chunks_nonneg s F : (∀ j, j ∈ F → 0 ≤ blocks (sg s j)) → 0 ≤ chunks s F.
Proof.
  unfold chunks. induction F as [|j F IH]; cbn; [lia|]. intros H. pose proof (H j (list_elem_of_here _ _)).
  specialize (IH ltac:(intros x Hx; apply H; by right)). lia.
Qed.

Lemma chunks_ge s F U i : Wf s F U → i ∈ F → blocks (sg s i) ≤ chunks s F.
Proof.
  intros HW Hi. assert (Hp : ∀ j, j ∈ F → 0 ≤ blocks (sg s j)).
  { intros j Hj. apply (held_ok _ _ (wf_held _ _ _ HW)). set_solver. }
  apply list_elem_of_split in Hi as (P & R & ->). rewrite chunks_pick.
  assert (0 ≤ chunks s (P ++ R)); [|lia]. apply chunks_nonneg. intros j Hj. apply Hp. set_solver.
Qed.

(** Runs of several frames: one free run of [k] frames is left, and descriptors for [n]
    allocations. *)
Definition run_ready s (k : Z) (n : nat) : Prop :=
  ∃ F U, Wf s F U ∧ has_run s F k ∧ (length (F ++ U) + n ≤ MaxNumSeg)%nat.

Lemma run_ready_ready s (k : Z) (n : nat) : run_ready s k n → Z.of_nat n ≤ k → ready s n.
Proof.
  intros (F & U & HW & (i & Hi & Hk) & Hl) Hn. exists F, U. split_and!; [done| |done].
  pose proof (chunks_ge s F U i HW Hi). lia.
Qed.

Lemma alloc_run s (m k : Z) (n : nat) : run_ready s (k + m) (S n) → 0 ≤ m < 65536 → 0 < k →
  ∃ p s', allocChunk s m = Ok (p, s') ∧ run_ready s' k n ∧ p `mod` 4096 = 0 ∧
    0 ≤ p ∧ p + 4096 * m < 4294967296 ∧
    (∀ a, used_addr s' a ↔ used_addr s a ∨ p ≤ a < p + 4096 * m) ∧
    (∀ a, p ≤ a < p + 4096 * m → ¬ used_addr s a).
Proof.
  intros (F & U & HW & Hr & Hl) Hm Hk.
  destruct (allocChunk_spec s F U m) as (p & s' & F' & U' & E & HW' & Hal & HF & _ & HFd & _ & H0 & Hhi & Hlen & _ & Hrun);
    [done|done| |lia|].
  { destruct Hr as (i & Hi & Hb). exists i. split; [done|lia]. }
  unfold ChunkSize in *. exists p, s'. split_and!; [done| |done|done|lia|..].
  - exists F', U'. split_and!; [done|by apply Hrun|lia].
  - by apply (used_alloc s F U s' F' U' p m).
  - by apply (used_alloc s F U s' F' U' p m).
Qed.

#[global] Instance PFAllocator_FrameAlloc : FrameAlloc state := {|
  fa_alloc := allocChunk;
  fa_ready := ready;
  fa_used := used_addr;
  fa_ready_le := ready_le;
  fa_alloc_spec := alloc_page
|}.

(** ** [addChunk] *)

(** What adding the run of the leased descriptor [i] to the free memory [F]
    means. *)
Definition added_as s s' i F U F' : Prop :=
  Wf s' F' U ∧ (∀ a, covers s' F' a ↔ covers s F a ∨ owns s i a) ∧
  (∀ a, covers s' U a ↔ covers s U a) ∧ (length F' ≤ S (length F))%nat.

Definition added s s' i F U : Prop := ∃ F', added_as s s' i F U F'.

Lemma added_insert s s' i F U :
  inserted HFree s s' i F → Held s (i :: F ++ U) → NoDup (i :: F ++ U) →
  chain (nxt s) (seg_used s) U → added s s' i F U.
Proof.
  intros Hins HH Hnd Hu. destruct (inserted_wf_free s s' F U i) as (F' & HW & HF'); try done.
  destruct Hins as [Hsd _]. exists F'. split_and!; [done|intros a..|by rewrite HF'].
  - rewrite (covers_same_data s s'), (covers_perm _ _ (i :: F)), covers_cons by assumption. tauto.
  - by apply covers_same_data.
Qed.

(** The blocks of two adjacent leased runs add up without overflow. *)
Lemma merge_blocks s x y :
  seg_ok s x → seg_ok s y → begin (sg s x) + blocks (sg s x) * ChunkSize = begin (sg s y) →
  u32 (blocks (sg s x) + blocks (sg s y)) = blocks (sg s x) + blocks (sg s y).
Proof. unfold seg_ok, ChunkSize. intros. apply u32_id. unfold is_u32. lia. Qed.

Lemma sg_free_upd s z w f j :
  (z < length (segs s))%nat → (w < length (segs s))%nat → z ≠ w →
  sg (freeSeg (upd_seg s z f) w) j =
    if decide (j = w) then set_free true (sg s w) else if decide (j = z) then f (sg s z) else sg s j.
Proof.
  intros Hz Hw Hne. unfold freeSeg. rewrite !sg_upd by (rewrite ?length_upd; done).
  by rewrite (decide_False (P := w = z)) by done.
Qed.

(** The descriptor [z] of one of two adjacent leased runs absorbs the other. *)
Lemma merge_ok s x y z w f K :
  Held s (x :: y :: K) → NoDup (x :: y :: K) → (z = x ∧ w = y ∨ z = y ∧ w = x) →
  begin (sg s x) + blocks (sg s x) * ChunkSize = begin (sg s y) →
  (∀ t, free (f t) = free t ∧ np (f t) = np t) → begin (f (sg s z)) = begin (sg s x) →
  blocks (f (sg s z)) = blocks (sg s x) + blocks (sg s y) →
  let s' := freeSeg (upd_seg s z f) w in
  Held s' (z :: K) ∧ (∀ a, owns s' z a ↔ owns s x a ∨ owns s y a) ∧
  (∀ j a, j ∈ K → owns s' j a ↔ owns s j a) ∧ (∀ j, nxt s' j = nxt s j).
Proof.
  intros HH Hnd Hzw Hadj Hf Hb Hk. cbv zeta.
  assert (Hr : ∀ v, v ∈ x :: y :: K → (v < length (segs s))%nat).
  { intros v Hv. rewrite (held_len _ _ HH). by apply (held_range _ _ HH). }
  assert (Hxy : x ≠ y) by (intros ->; apply NoDup_cons in Hnd as [Hn _]; apply Hn; by left).
  assert (Hz : z ∈ x :: y :: K) by (destruct Hzw as [[-> _]|[-> _]]; [by left|right; by left]).
  assert (Hw : w ∈ x :: y :: K) by (destruct Hzw as [[_ ->]|[_ ->]]; [right; by left|by left]).
  assert (Hne : z ≠ w) by (destruct Hzw as [[-> ->]|[-> ->]]; done).
  pose proof (λ j, sg_free_upd s z w f j (Hr _ Hz) (Hr _ Hw) Hne) as Hs.
  set (s' := freeSeg (upd_seg s z f) w) in *.
  assert (Hsz : sg s' z = f (sg s z)) by by rewrite Hs, decide_False, decide_True.
  destruct (held_merge s s' x y z w K) as (HH' & Ho & HK); try done.
  - unfold s', freeSeg. by rewrite !length_upd.
  - rewrite Hsz. destruct (Hf (sg s z)) as [-> _]. by eapply held_leased.
  - by rewrite Hsz.
  - by rewrite Hsz.
  - by rewrite Hs, decide_True.
  - intros j Hjx Hjy. rewrite Hs, !decide_False; [done|destruct Hzw as [[-> ->]|[-> ->]]; done..].
  - split_and!; [done..|]. intros j. unfold nxt. rewrite Hs.
    repeat case_decide; subst; [done|apply Hf|done].
Qed.

(** [c] absorbs the run [i] that starts where it ends. *)
Lemma merge_tail s c i K :
  Held s (c :: i :: K) → NoDup (c :: i :: K) → seg_end s c = begin (sg s i) →
  let s' := freeSeg (upd_seg s c (set_blocks (u32 (blocks (sg s c) + blocks (sg s i))))) i in
  Held s' (c :: K) ∧ (∀ a, owns s' c a ↔ owns s c a ∨ owns s i a) ∧
  (∀ j a, j ∈ K → owns s' j a ↔ owns s j a) ∧ (∀ j, nxt s' j = nxt s j).
Proof.
  intros HH Hnd He.
  assert (Hc : seg_ok s c) by (apply (held_ok _ _ HH); by left).
  assert (Hi : seg_ok s i) by (apply (held_ok _ _ HH); right; by left).
  rewrite seg_end_exact in He by done. rewrite (merge_blocks _ _ _ Hc Hi He).
  apply merge_ok; try done. by left.
Qed.

Lemma upd_upd s z f g : upd_seg (upd_seg s z f) z g = upd_seg s z (g ∘ f).
Proof. unfold upd_seg; cbn. by rewrite list_alter_alter_eq. Qed.

(** [n] absorbs the run [i] that ends where it starts. *)
Lemma merge_head s i n K :
  Held s (i :: n :: K) → NoDup (i :: n :: K) → seg_end s i = begin (sg s n) →
  let s1 := upd_seg s n (set_blocks (u32 (blocks (sg s n) + blocks (sg s i)))) in
  let s' := freeSeg (upd_seg s1 n (set_begin (begin (sg s1 i)))) i in
  Held s' (n :: K) ∧ (∀ a, owns s' n a ↔ owns s i a ∨ owns s n a) ∧
  (∀ j a, j ∈ K → owns s' j a ↔ owns s j a) ∧ (∀ j, nxt s' j = nxt s j).
Proof.
  intros HH Hnd He. cbv zeta.
  assert (Hn : seg_ok s n) by (apply (held_ok _ _ HH); right; by left).
  assert (Hi : seg_ok s i) by (apply (held_ok _ _ HH); by left).
  assert (Hin : i ≠ n) by (intros ->; apply NoDup_cons in Hnd as [Hn' _]; apply Hn'; by left).
  rewrite seg_end_exact in He by done.
  rewrite (Z.add_comm (blocks (sg s n))), (merge_blocks _ _ _ Hi Hn He).
  rewrite sg_upd by (rewrite (held_len _ _ HH); apply (held_range _ _ HH); right; by left).
  rewrite decide_False, upd_upd by done. apply merge_ok; try done. by right.
Qed.

(** A merge that keeps both lists. *)
Lemma added_merged s s' z i F G U :
  F ≡ₚ z :: G → NoDup (F ++ U) → chain (nxt s) (seg_free s) F → chain (nxt s) (seg_used s) U →
  seg_free s' = seg_free s → seg_used s' = seg_used s → Held s' (z :: G ++ U) →
  (∀ a, owns s' z a ↔ owns s z a ∨ owns s i a) →
  (∀ j a, j ∈ G ++ U → owns s' j a ↔ owns s j a) → (∀ j, nxt s' j = nxt s j) →
  added_as s s' i F U F.
Proof.
  intros HF Hnd Hf Hu Ef Eu HH Hz HK Hn. split_and!.
  - constructor; [|rewrite Ef|rewrite Eu|done].
    + eapply held_perm; [|done]. intros j. by rewrite HF.
    + eapply lseg_ext; [intros; apply Hn|done].
    + eapply lseg_ext; [intros; apply Hn|done].
  - intros a. rewrite !(covers_perm _ _ _ a HF), !covers_cons, Hz, (covers_ext s s' G); [tauto|].
    intros j Hj. apply HK, elem_of_app. by left.
  - intros a. apply covers_ext. intros j Hj. apply HK, elem_of_app. by right.
  - lia.
Qed.

(** [i] is leased and in neither of the two lists. *)
Record Loose s i F U : Prop := {
  loose_held : Held s (i :: F ++ U);
  loose_nodup : NoDup (i :: F ++ U);
  loose_free : chain (nxt s) (seg_free s) F;
  loose_used : chain (nxt s) (seg_used s) U
}.

Lemma loose_range s i F U x : Loose s i F U → x ∈ i :: F ++ U → (x < length (segs s))%nat.
Proof. intros [HH _ _ _] Hx. rewrite (held_len _ _ HH). by apply (held_range _ _ HH). Qed.

Lemma loose_pick s i P c R U :
  Loose s i (P ++ c :: R) U →
  Held s (c :: i :: (P ++ R) ++ U) ∧ NoDup (c :: i :: (P ++ R) ++ U) ∧ NoDup ((P ++ c :: R) ++ U).
Proof.
  intros [HH Hnd _ _].
  assert (E : i :: (P ++ c :: R) ++ U ≡ₚ c :: i :: (P ++ R) ++ U).
  { rewrite Permutation_pick. apply Permutation_swap. }
  split_and!; [|by rewrite <-E|by apply NoDup_cons in Hnd as [_ Hnd]].
  eapply held_perm; [|exact HH]. intros j. by rewrite E.
Qed.

Lemma added_tail s i P c R U :
  Loose s i (P ++ c :: R) U → seg_end s c = begin (sg s i) →
  added_as s (freeSeg (upd_seg s c (set_blocks (u32 (blocks (sg s c) + blocks (sg s i))))) i) i
    (P ++ c :: R) U (P ++ c :: R).
Proof.
  intros HL He. destruct (loose_pick _ _ _ _ _ _ HL) as (HH & Hnd & Hnd').
  destruct (merge_tail s c i ((P ++ R) ++ U)) as (HH' & Hc & HK & Hn); try done.
  eapply (added_merged _ _ c i _ (P ++ R)); try done; [|apply HL..].
  symmetry. apply Permutation_middle.
Qed.

Lemma added_head s i P n R U :
  Loose s i (P ++ n :: R) U → seg_end s i = begin (sg s n) →
  let s1 := upd_seg s n (set_blocks (u32 (blocks (sg s n) + blocks (sg s i)))) in
  added_as s (freeSeg (upd_seg s1 n (set_begin (begin (sg s1 i)))) i) i
    (P ++ n :: R) U (P ++ n :: R).
Proof.
  intros HL He. destruct (loose_pick _ _ _ _ _ _ HL) as (HH & Hnd & Hnd').
  destruct (merge_head s i n ((P ++ R) ++ U)) as (HH' & Hc & HK & Hn); try done.
  { eapply held_perm; [|exact HH]. intros j. by rewrite (Permutation_swap i n). }
  { by rewrite (Permutation_swap n i). }
  eapply (added_merged _ _ n i _ (P ++ R)); try done; [|apply HL..|].
  - symmetry. apply Permutation_middle.
  - intros a. rewrite Hc. tauto.
Qed.

(** After the run before it grew, the run [n] is absorbed as well and leaves
    the list. *)
Lemma absorb_next s P c n R U :
  Wf s (P ++ c :: n :: R) U → seg_end s c = begin (sg s n) →
  let s1 := freeSeg (upd_seg s c (set_blocks (u32 (blocks (sg s c) + blocks (sg s n))))) n in
  let s' := upd_seg s1 c (set_np (np (sg s1 n))) in
  Wf s' (P ++ c :: R) U ∧ (∀ a, covers s' (P ++ c :: R) a ↔ covers s (P ++ c :: n :: R) a) ∧
  (∀ a, covers s' U a ↔ covers s U a).
Proof.
  intros HW He. cbv zeta. destruct (wf_pick _ _ _ _ _ HW) as [HH Hnd].
  assert (E : c :: (P ++ n :: R) ++ U ≡ₚ c :: n :: (P ++ R) ++ U) by by rewrite Permutation_pick.
  apply (held_perm _ _ (c :: n :: (P ++ R) ++ U)) in HH; [|intros j; by rewrite E].
  rewrite E in Hnd.
  destruct (merge_tail s c n ((P ++ R) ++ U)) as (HH1 & Hc & HK & Hn); try done.
  set (s1 := freeSeg _ _) in *. fold (nxt s1 n).
  assert (Ef : seg_free s1 = seg_free s) by done. assert (Eu : seg_used s1 = seg_used s) by done.
  clearbody s1. rewrite <-(assign_LNext _ HFree), <-(loc_after_snoc P c).
  destruct (assign_unlink s1 HFree (P ++ [c]) R n) as [Hcf Hn2].
  { rewrite <-app_assoc. cbn [headp]. rewrite Ef. eapply lseg_ext; [intros; apply Hn|apply HW]. }
  { intros x Hx. rewrite (held_len _ _ HH1). apply (held_range _ _ HH1). set_solver. }
  pose proof (same_data_assign s1 HFree (loc_after (P ++ [c])) (nxt s1 n)) as Hsd.
  pose proof (headp_assign_other s1 HFree HUsed (loc_after (P ++ [c])) (nxt s1 n)) as Hhu.
  set (s2 := assign _ _ _ _) in *. clearbody s2. rewrite <-app_assoc in Hcf. cbn [app] in Hcf.
  split_and!; [constructor|..].
  - eapply held_same_data; [exact Hsd|]. eapply held_perm; [|exact HH1].
    intros j. by rewrite Permutation_pick.
  - exact Hcf.
  - cbn [headp] in Hhu. rewrite Hhu, Eu by done. eapply lseg_ext; [|apply HW].
    intros x Hx. rewrite Hn2, Hn; [done|].
    pose proof (wf_nodup _ _ _ HW) as (_ & Hd & _)%NoDup_app. intros Hx'. apply (Hd x); set_solver.
  - rewrite Permutation_pick. rewrite !NoDup_cons in Hnd. rewrite NoDup_cons. set_solver.
  - intros a. rewrite (covers_same_data s1 s2), !covers_pick, Hc, (covers_ext s s1 (P ++ R))
      by (try exact Hsd; intros; apply HK; set_solver). tauto.
  - intros a. rewrite (covers_same_data s1 s2) by exact Hsd. apply covers_ext.
    intros j Hj. apply HK. set_solver.
Qed.

Lemma added_both s s1 s' i F U F1 F' :
  added_as s s1 i F U F1 → Wf s' F' U → (∀ a, covers s' F' a ↔ covers s1 F1 a) →
  (∀ a, covers s' U a ↔ covers s1 U a) → (length F' ≤ length F1)%nat → added s s' i F U.
Proof.
  intros (_ & HF & HU & Hl) HW' HF' HU' Hl'. exists F'. split_and!; [done|intros a..|lia].
  - by rewrite HF', HF.
  - by rewrite HU', HU.
Qed.

Lemma addChunk_loop_ok fuel s P R i U :
  Loose s i (P ++ R) U → nxt s i = None → (length R < fuel)%nat →
  ∃ s', addChunk_loop fuel s (loc_after P) i = Ok s' ∧ added s s' i (P ++ R) U.
Proof.
  revert P R; induction fuel as [|fuel IH]; intros P R HL Hnp Hf; [lia|].
  assert (Hins : ∀ s', inserted HFree s s' i (P ++ R) → added s s' i (P ++ R) U)
    by (intros; apply added_insert; by try apply HL).
  assert (Hr : ∀ x, x ∈ P ++ R → (x < length (segs s))%nat).
  { intros x Hx. apply (loose_range _ _ _ _ _ HL). right. apply elem_of_app. by left. }
  assert (Hir : (i < length (segs s))%nat) by (apply (loose_range _ _ _ _ _ HL); by left).
  assert (Hi : i ∉ P ++ R).
  { pose proof (loose_nodup _ _ _ _ HL) as [Hni _]%NoDup_cons. intros H. apply Hni, elem_of_app. by left. }
  pose proof (loose_free _ _ _ _ HL) as Hch.
  cbn [addChunk_loop]. rewrite (deref_after s HFree P R Hch).
  destruct R as [|c R]; cbn [head].
  { eexists; split; [done|]. apply Hins. rewrite app_nil_r in *. by apply inserted_end. }
  assert (Hch' : chain (nxt s) (headp s HFree) ((P ++ [c]) ++ R)) by by rewrite <-app_assoc.
  pose proof (deref_after s HFree (P ++ [c]) R Hch') as Ed. rewrite loc_after_snoc in Ed.
  rewrite Ed. destruct R as [|n R]; cbn [head].
  { split_if; eexists; (split; [done|]).
    - eexists; by apply added_tail.
    - apply Hins. rewrite <-(assign_LNext _ HFree), <-(loc_after_snoc P c). by apply inserted_end. }
  assert (HL' : Loose s i ((P ++ [c]) ++ n :: R) U) by by rewrite <-app_assoc.
  destruct (_ && _).
  - destruct (seg_end s c =? begin (sg s i)) eqn:E1; bool_to_prop.
    + pose proof (added_tail s i P c (n :: R) U HL E1) as Ha. set (s1 := freeSeg _ _) in *.
      clearbody s1. split_if; eexists; (split; [done|]); [|by eexists].
      destruct (absorb_next s1 P c n R U) as (HW2 & HF2 & HU2); [apply Ha|done|].
      eapply added_both; try done. rewrite !length_app. cbn. lia.
    + split_if; eexists; (split; [done|]); [|by apply Hins, inserted_middle].
      pose proof (added_head s i (P ++ [c]) n R U HL' E) as Ha. rewrite <-app_assoc in Ha.
      eexists; exact Ha.
  - rewrite <-(loc_after_snoc P c).
    destruct (IH (P ++ [c]) (n :: R)) as (s' & El & H); [done|done|cbn in *; lia|].
    rewrite <-app_assoc in H. by exists s'.
Qed.

Lemma addChunk_seg_ok s i F U :
  Loose s i F U → nxt s i = None → ∃ s', addChunk_seg s i = Ok s' ∧ added s s' i F U.
Proof.
  intros HL Hn. apply (addChunk_loop_ok walk_fuel s [] F i U HL Hn).
  pose proof (held_length _ _ (loose_held _ _ _ _ HL) (loose_nodup _ _ _ _ HL)) as Hlen.
  cbn in Hlen. rewrite length_app in Hlen. unfold walk_fuel. lia.
Qed.

(** A spare descriptor [i] made to describe a new run. *)
Lemma held_new s s' i L :
  Held s L → i ∉ L → (i < MaxNumSeg)%nat → length (segs s') = length (segs s) →
  free (sg s' i) = false → seg_ok s' i → (∀ j, j ≠ i → sg s' j = sg s j) →
  (∀ a, owns s' i a → ¬ covers s L a) → Held s' (i :: L).
Proof.
  intros HH Hi Hir Hl Hf Hok Ho Hd.
  assert (HL : ∀ j, j ∈ L → sg s' j = sg s j) by (intros j Hj; apply Ho; by intros ->).
  constructor.
  - by rewrite Hl, (held_len _ _ HH).
  - intros j [->|Hj]%elem_of_cons; [done|by apply (held_range _ _ HH)].
  - intros j Hj. destruct (decide (j = i)) as [->|]; [rewrite Hf; set_solver|].
    rewrite Ho by done. rewrite (held_bits _ _ HH) by done. set_solver.
  - intros j [->|Hj]%elem_of_cons; [done|]. unfold seg_ok. rewrite HL by done.
    by apply (held_ok _ _ HH).
  - intros j k a [->|Hj]%elem_of_cons [->|Hk]%elem_of_cons Hoj Hok'; [done|..].
    + exfalso. apply (Hd a Hoj). exists k. split; [done|]. unfold owns in *. by rewrite <-HL.
    + exfalso. apply (Hd a Hok'). exists j. split; [done|]. unfold owns in *. by rewrite <-HL.
    + apply (held_excl _ _ HH j k a); [done..| |]; unfold owns in *; by rewrite <-HL.
Qed.

(** The whole pages of the address range from [b] to [e] as the code rounds
    them. *)
Definition in_pages (b e a : Z) : Prop := b / ChunkSize * ChunkSize ≤ a < e / ChunkSize * ChunkSize.

Lemma addChunk_new_seg s L i b e :
  Held s L → i ∉ L → (i < MaxNumSeg)%nat → 0 ≤ b ≤ e → e < 4294967296 →
  (∀ a, in_pages b e a → ¬ covers s L a) →
  let B := b / ChunkSize * ChunkSize in
  let s' := upd_seg (upd_seg (upd_seg (upd_seg s i (set_free false)) i (set_begin B)) i
              (set_blocks ((e / ChunkSize * ChunkSize - B) / ChunkSize))) i (set_np None) in
  Held s' (i :: L) ∧ (∀ a, owns s' i a ↔ in_pages b e a) ∧ nxt s' i = None ∧
  (∀ j, j ≠ i → sg s' j = sg s j).
Proof.
  intros HH Hi Hir Hb He Hd. cbv zeta. rewrite !upd_upd.
  set (f := _ ∘ _).
  assert (Hil : (i < length (segs s))%nat) by by rewrite (held_len _ _ HH).
  pose proof (λ j, sg_upd s i f j Hil) as Hs. set (s' := upd_seg s i f) in *.
  assert (Hsi : sg s' i = f (sg s i)) by by rewrite Hs, decide_True.
  assert (Hso : ∀ j, j ≠ i → sg s' j = sg s j) by (intros; by rewrite Hs, decide_False).
  assert (Hrun : ∀ a, owns s' i a ↔ in_pages b e a).
  { intros a. unfold owns, in_pages. rewrite Hsi. unfold f, ChunkSize; cbn.
    Z.div_mod_to_equations; lia. }
  split_and!; [|done|unfold nxt; by rewrite Hsi|done].
  apply (held_new s); try done.
  - apply length_upd.
  - by rewrite Hsi.
  - unfold seg_ok. rewrite Hsi. unfold f, ChunkSize; cbn. rewrite Z_mod_mult.
    Z.div_mod_to_equations; lia.
  - intros a Ha. apply Hd. by apply Hrun.
Qed.

Lemma addChunk_spec s F U b e :
  Wf s F U → 0 ≤ b ≤ e → e < 4294967296 → (length (F ++ U) < MaxNumSeg)%nat →
  (∀ a, in_pages b e a → ¬ covers s (F ++ U) a) →
  ∃ s' F', addChunk s b e = Ok s' ∧ Wf s' F' U ∧
    (∀ a, covers s' F' a ↔ covers s F a ∨ in_pages b e a) ∧
    (∀ a, covers s' U a ↔ covers s U a) ∧ (length F' ≤ S (length F))%nat.
Proof.
  intros HW Hb He Hspare Hd. pose proof (wf_held _ _ _ HW) as HH.
  destruct (getSeg_ok s _ HH Hspare) as (i & Eg & Hil & Hi).
  unfold addChunk. rewrite Eg. cbn [mbind res_bind].
  change (u32 (Z.lnot (ChunkSize - 1))) with 4294963200.
  rewrite !land_page_mask by (unfold is_u32; lia). fold ChunkSize.
  rewrite u32_id by (unfold is_u32, ChunkSize; Z.div_mod_to_equations; lia).
  destruct (addChunk_new_seg s (F ++ U) i b e) as (HH' & Hrun & Hn & Ho); try done.
  set (s1 := upd_seg _ _ (set_np None)) in *.
  assert (Hnx : ∀ x, x ∈ F ++ U → nxt s1 x = nxt s x).
  { intros x Hx. unfold nxt. rewrite Ho; [done|]. by intros ->. }
  assert (Ef : seg_free s1 = seg_free s) by done. assert (Eu : seg_used s1 = seg_used s) by done.
  clearbody s1.
  assert (Hcov : ∀ L a, (∀ j, j ∈ L → j ∈ F ++ U) → covers s1 L a ↔ covers s L a).
  { intros L a HL. apply covers_ext. intros j Hj%HL. unfold owns. rewrite Ho; [done|]. by intros ->. }
  destruct (addChunk_seg_ok s1 i F U) as (s' & E & F' & HW' & HF & HU & Hlen); [|done|].
  { constructor; [done|constructor; [done|apply HW]|rewrite Ef|rewrite Eu].
    - eapply lseg_ext; [|apply HW]. intros; apply Hnx. set_solver.
    - eapply lseg_ext; [|apply HW]. intros; apply Hnx. set_solver. }
  exists s', F'. split_and!; [done|done|intros a..|done].
  - rewrite HF, Hrun, Hcov by set_solver. tauto.
  - rewrite HU, Hcov by set_solver. tauto.
Qed.

(** C31: [addChunk(begin,end)] of a range whose whole pages are not yet known to
    the allocator succeeds and adds exactly the pages between the two addresses
    rounded down to 4 KiB to the free memory, merging them with the free runs
    they touch; the memory in use is unchanged and the allocator stays well
    formed. *)
Theorem addChunk_correct s F U b e :
  Wf s F U → 0 ≤ b ≤ e → e < 4294967296 → (length (F ++ U) < MaxNumSeg)%nat →
  (∀ a, in_pages b e a → ¬ covers s (F ++ U) a) →
  ∃ s' F', addChunk s b e = Ok s' ∧ Wf s' F' U ∧
    (∀ a, covers s' F' a ↔ covers s F a ∨ in_pages b e a) ∧
    (∀ a, covers s' U a ↔ covers s U a) ∧ (length F' ≤ S (length F))%nat.
Proof. apply addChunk_spec. Qed.

(** ** [freeChunk] *)

Lemma freeChunk_loop_found fuel s P R p R' addr :
  chain (nxt s) (seg_used s) (P ++ R ++ p :: R') → (∀ j, j ∈ R → begin (sg s j) ≠ addr) →
  begin (sg s p) = addr → (length R < fuel)%nat →
  freeChunk_loop fuel s (loc_after P) addr =
    addChunk_seg (assign s HUsed (loc_after (P ++ R)) (np (sg s p))) p.
Proof.
  revert P R; induction fuel as [|fuel IH]; intros P R Hch Hne Hp Hf; [lia|].
  cbn [freeChunk_loop]. rewrite (deref_after s HUsed P _ Hch).
  destruct R as [|c R]; cbn [head app].
  - rewrite Hp, Z.eqb_refl, app_nil_r. done.
  - pose proof (Hne c (list_elem_of_here _ _)). split_if; [done|].
    rewrite <-(loc_after_snoc P c), (IH (P ++ [c]) R), <-app_assoc; try done.
    + by rewrite <-app_assoc.
    + intros j Hj. apply Hne. by right.
    + cbn in Hf. lia.
Qed.

Lemma freeChunk_loop_none fuel s P R addr :
  chain (nxt s) (seg_used s) (P ++ R) → (∀ j, j ∈ R → begin (sg s j) ≠ addr) →
  (length R < fuel)%nat →
  freeChunk_loop fuel s (loc_after P) addr = Panic "PFAallocator::Ivalid Chunk freed".
Proof.
  revert P R; induction fuel as [|fuel IH]; intros P R Hch Hne Hf; [lia|].
  cbn [freeChunk_loop]. rewrite (deref_after s HUsed P _ Hch).
  destruct R as [|c R]; cbn [head]; [done|].
  pose proof (Hne c (list_elem_of_here _ _)). split_if; [done|].
  rewrite <-(loc_after_snoc P c). apply (IH _ R); [by rewrite <-app_assoc| |cbn in Hf; lia].
  intros j Hj. apply Hne. by right.
Qed.

(** freeing the run that is last in the list of runs in use moves exactly
    its addresses from the memory in use to the free memory and leaves the
    allocator well formed. *)
Theorem freeChunk_last_correct s F P p :
  Wf s F (P ++ [p]) → (∀ j, j ∈ P → begin (sg s j) ≠ begin (sg s p)) →
  ∃ s' F', freeChunk s (begin (sg s p)) = Ok s' ∧ Wf s' F' P ∧
    (∀ a, covers s' F' a ↔ covers s F a ∨ owns s p a) ∧
    (∀ a, covers s' P a ↔ covers s P a).
Proof.
  intros HW Hne. pose proof (wf_held _ _ _ HW) as HH. pose proof (wf_nodup _ _ _ HW) as Hnd.
  pose proof (wf_walk _ _ _ HW) as [_ Hw]. rewrite length_app in Hw; cbn in Hw.
  unfold freeChunk. rewrite (freeChunk_loop_found walk_fuel s [] P p []); try done;
    [|apply HW|lia].
  cbn [app]. fold (nxt s p).
  assert (HnF : ∀ x, x ∈ F → x ∉ P).
  { apply NoDup_app in Hnd as (_ & Hd & _). intros x Hx HxP. apply (Hd x Hx). set_solver. }
  assert (HpP : p ∉ P).
  { apply NoDup_app in Hnd as (_ & _ & (_ & Hd & _)%NoDup_app). intros Hp. apply (Hd p Hp). by left. }
  destruct (assign_unlink s HUsed P [] p) as [Hc Hn].
  { apply HW. }
  { intros x Hx. rewrite (held_len _ _ HH). apply (held_range _ _ HH). set_solver. }
  pose proof (same_data_assign s HUsed (loc_after P) (nxt s p)) as Hsd.
  pose proof (headp_assign_other s HUsed HFree (loc_after P) (nxt s p)) as Hhf.
  set (s1 := assign _ _ _ _) in *. clearbody s1. rewrite app_nil_r in Hc. cbn [headp] in *.
  assert (E : F ++ P ++ [p] ≡ₚ p :: F ++ P).
  { rewrite app_assoc. symmetry. apply Permutation_cons_append. }
  destruct (addChunk_seg_ok s1 p F P) as (s' & Ea & F' & HW' & HF & HU & _).
  { constructor; [|by rewrite <-E|rewrite Hhf by done|done].
    - eapply held_same_data; [exact Hsd|]. eapply held_perm; [|exact HH]. intros j. by rewrite E.
    - eapply lseg_ext; [|apply HW]. intros x Hx. apply Hn. by apply HnF. }
  { rewrite Hn by done. by apply (lseg_snoc (nxt s) (seg_used s) None P p), HW. }
  exists s', F'. split_and!; [done|done|..]; intros a.
  - rewrite HF, (covers_same_data s s1) by exact Hsd. unfold owns at 1.
    destruct Hsd as [_ Hsd]. destruct (Hsd p) as (_ & -> & ->). done.
  - by rewrite HU, (covers_same_data s s1) by exact Hsd.
Qed.

(** requests that cannot be served end in [panic]: an allocation larger than
    every free run, and the release of an address that no run in use starts at. *)
Theorem invalid_requests_panic s F U m addr :
  Wf s F U → (length (F ++ U) < MaxNumSeg)%nat →
  (∀ i, i ∈ F → blocks (sg s i) < m) → (∀ j, j ∈ U → begin (sg s j) ≠ addr) →
  allocChunk s m = Panic "PFAallocator::cannot allocate segment" ∧
  freeChunk s addr = Panic "PFAallocator::Ivalid Chunk freed".
Proof.
  intros HW Hspare Hm Hne. pose proof (wf_held _ _ _ HW) as HH.
  pose proof (wf_walk _ _ _ HW) as [Hwf Hwu]. split.
  - destruct (getSeg_ok s _ HH Hspare) as (u & Eg & Hul & Hu).
    unfold allocChunk. rewrite Eg. cbn [mbind res_bind].
    assert (Hs0 : ∀ j, j ∈ F → sg (upd_seg s u (set_free false)) j = sg s j).
    { intros j Hj. rewrite sg_upd by (by rewrite (held_len _ _ HH)).
      rewrite decide_False; [done|]. intros ->. apply Hu, elem_of_app. by left. }
    apply (allocChunk_loop_none walk_fuel _ [] F); [|intros i Hi; rewrite Hs0; auto|done].
    eapply lseg_ext; [|apply HW]. intros x Hx. unfold nxt. by rewrite Hs0.
  - apply (freeChunk_loop_none walk_fuel s [] U); [apply HW|done..].
Qed.

(** ** Concrete states *)

(** The state after [addChunk(0x100000,0x105000)] and [allocChunk(1)]. *)
Definition ex : state :=
  mkState ([mkSeg false 1052672 4 None; mkSeg false 1048576 1 None] ++
           replicate 126 (mkSeg true 0 0 None)) (Some 0%nat) (Some 1%nat).

Example ex_reached :
  (s ← addChunk PFAllocator_new 1048576 1069056; allocChunk s 1) = Ok (1048576, ex).
Proof. vm_compute. reflexivity. Qed.

Lemma sg_ex_tail i : (2 ≤ i < MaxNumSeg)%nat → sg ex i = mkSeg true 0 0 None.
Proof.
  intros Hi. unfold sg, ex; cbn [segs]. rewrite lookup_app_r by (cbn; lia).
  rewrite lookup_replicate_2; [done|]. cbn. unfold MaxNumSeg in Hi. lia.
Qed.

Lemma wf_ex : Wf ex [0%nat] [1%nat].
Proof.
  assert (H01 : ∀ i, i ∈ [0%nat; 1%nat] ↔ i = 0%nat ∨ i = 1%nat) by (intros; set_solver).
  constructor; [|done|done|by apply (bool_decide_unpack _); vm_compute].
  constructor; cbn [app].
  - done.
  - intros i [-> | ->]%H01; unfold MaxNumSeg; lia.
  - intros [|[|i]] Hi; [split; set_solver..|]. rewrite sg_ex_tail by lia. cbn.
    split; [|done]. intros _. rewrite H01. lia.
  - intros i [-> | ->]%H01; unfold seg_ok, sg, ex, ChunkSize; cbn; split_and!; lia || reflexivity.
  - intros i j a [-> | ->]%H01 [-> | ->]%H01; unfold owns, sg, ex, ChunkSize; cbn; lia.
Qed.

Lemma ex_covers a : covers ex ([0%nat] ++ [1%nat]) a ↔ 1048576 ≤ a < 1069056.
Proof.
  cbn [app]. rewrite !covers_cons. unfold covers, owns, sg, ex, ChunkSize; cbn.
  setoid_rewrite elem_of_nil. split; [intros [?|[?|(? & [] & _)]]; lia|lia].
Qed.

Lemma allocChunk_correct_witness :
  ∃ addr s' F' U', allocChunk ex 3 = Ok (addr, s') ∧ Wf s' F' U' ∧ addr `mod` ChunkSize = 0.
Proof.
  destruct (allocChunk_correct ex [0%nat] [1%nat] 3) as (addr & s' & F' & U' & H1 & H2 & H3 & _).
  - exact wf_ex.
  - lia.
  - exists 0%nat. split; [by left|]. unfold sg, ex; cbn. lia.
  - cbn. unfold MaxNumSeg. lia.
  - exists addr, s', F', U'. done.
Defined.

Lemma addChunk_correct_witness :
  ∃ s' F', addChunk ex 1069056 1073152 = Ok s' ∧ Wf s' F' [1%nat].
Proof.
  destruct (addChunk_correct ex [0%nat] [1%nat] 1069056 1073152) as (s' & F' & H1 & H2 & _).
  - exact wf_ex.
  - lia.
  - lia.
  - cbn. unfold MaxNumSeg. lia.
  - intros a Ha. rewrite ex_covers. change (1069056 ≤ a < 1073152) in Ha. lia.
  - exists s', F'. done.
Defined.

Lemma freeChunk_last_correct_witness :
  ∃ s' F', freeChunk ex 1048576 = Ok s' ∧ Wf s' F' [].
Proof.
  destruct (freeChunk_last_correct ex [0%nat] [] 1%nat) as (s' & F' & H1 & H2 & _).
  - exact wf_ex.
  - intros j Hj. by apply elem_of_nil in Hj.
  - exists s', F'. done.
Defined.

Lemma invalid_requests_panic_witness :
  allocChunk ex 5 = Panic "PFAallocator::cannot allocate segment" ∧
  freeChunk ex 4096 = Panic "PFAallocator::Ivalid Chunk freed".
Proof.
  apply (invalid_requests_panic ex [0%nat] [1%nat] 5 4096).
  - exact wf_ex.
  - cbn. unfold MaxNumSeg. lia.
  - intros i ->%list_elem_of_singleton. unfold sg, ex; cbn. lia.
  - intros i ->%list_elem_of_singleton. unfold sg, ex; cbn. lia.
Defined.

(** ** Runs that break the lists *)

(** [freeChunk] leaves [np] of the freed segment as it was in the list of
    runs in use, so freeing a run that is not last in that list links runs in use
    into the free list: after three one-page allocations and the release of the
    first page, the second allocation from then on returns a page that is still
    in use. *)
Theorem freeChunk_keeps_np_double_allocation :
  (s ← addChunk PFAllocator_new 1048576 1060864;
   '(a, s) ← allocChunk s 1; '(b, s) ← allocChunk s 1; '(c, s) ← allocChunk s 1;
   s ← freeChunk s a;
   '(d, s) ← allocChunk s 1; '(e, s) ← allocChunk s 1;
   Ok (a, b, c, d, e)) = Ok (1048576, 1052672, 1056768, 1048576, 1052672).
Proof. vm_compute. reflexivity. Qed.

(** [removeChunk] of a range that lies above a free run does not leave that
    run alone: its end is moved up to the start of the removed range, so memory
    that was never added (here the pages from 0x9f000 to 0x100000, the video
    memory and BIOS) becomes free; and a run that lies inside the removed range
    is not removed. *)
Theorem removeChunk_extends_lower_run :
  (s1 ← addChunk PFAllocator_new 0 651264; s2 ← removeChunk s1 1048576 2097152;
   Ok (seg_free s2, blocks (sg s1 0), blocks (sg s2 0))) = Ok (Some 0%nat, 159, 256) ∧
  (s1 ← addChunk PFAllocator_new 1048576 1052672; s2 ← removeChunk s1 1048576 1052672;
   Ok (seg_free s2, begin (sg s2 0), blocks (sg s2 0))) = Ok (Some 0%nat, 1048576, 1).
Proof. split; vm_compute; reflexivity. Qed.

End PFAllocator.
