(* ===== verification/FrameRemoval.v ===== *)
(** * Removing frames ([PFAllocator::removeChunk] of [src/kernel/PFAllocator.cpp])

    [removeChunk] takes a range of addresses out of the free memory. It does so when every
    free run that begins at or below the end of the range reaches up to it, and none lies
    inside of it ([cuttable]); [PageFrames.v] shows what it does otherwise. *)

From S2P Require Import Prelude Chain Memory PageFrames.

Module FrameRemoval.
Import PFAllocator.

Implicit Types (s : state) (i j p r : nat) (P R F U L : list nat) (a : Z).

(** ** Runs that get smaller *)

Lemma held_sub s s' L : Held s L → length (segs s') = length (segs s) → (∀ j, free (sg s' j) = free (sg s j)) →
  (∀ j, j ∈ L → seg_ok s' j ∧ ∀ a, owns s' j a → owns s j a) → Held s' L.
Proof.
  intros [H1 H2 H3 H4 H5] Hl Hf Hs. constructor; [by rewrite Hl|done|intros i Hi; rewrite Hf; by apply H3|by intros i Hi; apply Hs|].
  intros i j a Hi Hj Ha Hb. apply (H5 i j a); [done|done|by apply Hs|by apply Hs].
Qed.

(** The run of a descriptor as an interval. *)
Definition run_is s i (b e : Z) : Prop := begin (sg s i) = b ∧ b + blocks (sg s i) * ChunkSize = e.

Lemma run_owns s i b e a : run_is s i b e → owns s i a ↔ b ≤ a < e.
Proof. intros [<- <-]. done. Qed.

(** Whole chunks. *)
Definition pages (b e : Z) : Prop := 0 ≤ b ≤ e ∧ e < 4294967296 ∧ b `mod` ChunkSize = 0 ∧ e `mod` ChunkSize = 0.

Lemma run_of s i : seg_ok s i → ∃ b e, run_is s i b e ∧ pages b e ∧ seg_end s i = e ∧ begin (sg s i) = b.
Proof.
  intros Hok. exists (begin (sg s i)), (begin (sg s i) + blocks (sg s i) * ChunkSize). rewrite seg_end_exact by done.
  destruct Hok as (H1 & H2 & H3 & H4). split_and!; try done. unfold pages. split_and!; try lia; [unfold ChunkSize in *; lia|].
  by rewrite Z_mod_plus_full.
Qed.

Lemma run_seg_ok s i b e : run_is s i b e → pages b e → seg_ok s i.
Proof. intros [<- <-] (H1 & H2 & H3 & H4). unfold seg_ok, ChunkSize in *. lia. Qed.

(** The descriptor [p] set to the pages from [b] to [e]. *)
Definition shrink s p (b e : Z) : state := upd_seg (upd_seg s p (set_begin b)) p (set_blocks ((e - b) / ChunkSize)).

Lemma sg_shrink s p b e j : (p < length (segs s))%nat →
  sg (shrink s p b e) j = if decide (j = p) then mkSeg (free (sg s p)) b ((e - b) / ChunkSize) (np (sg s p)) else sg s j.
Proof. intros Hp. unfold shrink. rewrite upd_upd, sg_upd by done. by case_decide. Qed.

Lemma run_mk s i f b e n : sg s i = mkSeg f b ((e - b) / ChunkSize) n → pages b e → run_is s i b e.
Proof. intros E (_ & _ & H1 & H2). split; rewrite E; [done|]. cbn. unfold ChunkSize in *. Z.div_mod_to_equations; lia. Qed.

Lemma shrink_wf s P p R U b e : Wf s (P ++ p :: R) U → pages b e → (∀ a, b ≤ a < e → owns s p a) →
  Wf (shrink s p b e) (P ++ p :: R) U ∧ run_is (shrink s p b e) p b e ∧
  ∀ j a, j ≠ p → owns (shrink s p b e) j a ↔ owns s j a.
Proof.
  intros HW Hbe Hown. pose proof (wf_held _ _ _ HW) as HH.
  assert (Hp : (p < length (segs s))%nat) by (rewrite (held_len _ _ HH); apply (held_range _ _ HH); set_solver).
  pose proof (λ j, sg_shrink s p b e j Hp) as Hs. set (s' := shrink s p b e) in *.
  assert (Hr : run_is s' p b e) by (eapply run_mk; [|done]; by rewrite Hs, decide_True).
  assert (Ho : ∀ j, j ≠ p → sg s' j = sg s j) by (intros j Hj; by rewrite Hs, decide_False).
  assert (Hn : ∀ j, nxt s' j = nxt s j) by (intros j; unfold nxt; rewrite Hs; by case_decide; subst).
  split_and!; [|done|by intros j a Hj; unfold owns; rewrite Ho].
  split; [|by eapply lseg_ext; [|apply HW]..|apply HW].
  eapply held_sub; [exact HH|unfold s', shrink; by rewrite !length_upd|intros j; rewrite Hs; by case_decide; subst|].
  intros j Hj. destruct (decide (j = p)) as [->|Hjp].
  - split; [by eapply run_seg_ok|]. intros a. rewrite (run_owns _ _ _ _ _ Hr). apply Hown.
  - unfold seg_ok, owns. rewrite Ho by done. split; [by apply (held_ok _ _ HH)|done].
Qed.

(** The run of [p] cut in two, the upper part of which goes to the new descriptor [r]. *)
Definition split_run s p r (b m n e : Z) : state :=
  let s := upd_seg s r (set_free false) in
  let s := upd_seg s p (set_begin b) in
  let s := upd_seg s p (set_blocks ((m - b) / ChunkSize)) in
  let s := upd_seg s r (set_begin n) in
  let s := upd_seg s r (set_blocks ((e - n) / ChunkSize)) in
  let s := upd_seg s r (set_np (np (sg s p))) in
  upd_seg s p (set_np (Some r)).

Lemma sg_split s p r b m n e j : (p < length (segs s))%nat → (r < length (segs s))%nat → p ≠ r →
  sg (split_run s p r b m n e) j =
    if decide (j = p) then mkSeg (free (sg s p)) b ((m - b) / ChunkSize) (Some r)
    else if decide (j = r) then mkSeg false n ((e - n) / ChunkSize) (np (sg s p)) else sg s j.
Proof.
  intros Hp Hr Hpr. unfold split_run. cbv zeta.
  rewrite !sg_upd by (by rewrite ?length_upd). destruct (decide (j = p)) as [->|Hjp].
  - rewrite !(decide_False (P := p = r)) by done. by rewrite !decide_True by done.
  - destruct (decide (j = r)) as [->|Hjr]; [|done].
    rewrite !(decide_True (P := r = r)), !(decide_True (P := p = p)), !(decide_False (P := r = p)), !(decide_False (P := p = r)) by done.
    done.
Qed.

Lemma split_chain s s' P p R h r : chain (nxt s) h (P ++ p :: R) → r ∉ P ++ p :: R → nxt s' p = Some r → nxt s' r = nxt s p →
  (∀ j, j ≠ p → j ≠ r → nxt s' j = nxt s j) → chain (nxt s') h (P ++ p :: r :: R).
Proof.
  intros Hch Hr Ep Er Ho. pose proof (chain_NoDup _ _ _ Hch) as Hnd.
  apply NoDup_app in Hnd as (_ & HPp & [Hp _]%NoDup_cons).
  apply lseg_app in Hch as (x & HP & -> & HR). apply lseg_app. exists (Some p). split.
  - eapply lseg_ext; [|exact HP]. intros j Hj. apply Ho; [|set_solver]. intros ->. apply (HPp p Hj). by left.
  - split; [done|]. rewrite Ep. split; [done|]. rewrite Er. eapply lseg_ext; [|exact HR]. intros j Hj. apply Ho; set_solver.
Qed.

Lemma split_wf s P p R U r b m n e : Wf s (P ++ p :: R) U → r ∉ (P ++ p :: R) ++ U → (r < MaxNumSeg)%nat →
  run_is s p b e → pages b m → pages n e → m ≤ n →
  let s' := split_run s p r b m n e in
  Wf s' (P ++ p :: r :: R) U ∧ run_is s' p b m ∧ run_is s' r n e ∧ ∀ j a, j ≠ p → j ≠ r → owns s' j a ↔ owns s j a.
Proof.
  intros HW Hr Hrl Hrun Hbm Hne Hmn s'. pose proof (wf_held _ _ _ HW) as HH.
  assert (Hp : (p < length (segs s))%nat) by (rewrite (held_len _ _ HH); apply (held_range _ _ HH); set_solver).
  assert (Hr' : (r < length (segs s))%nat) by (by rewrite (held_len _ _ HH)). assert (Hpr : p ≠ r) by set_solver.
  pose proof (λ j, sg_split s p r b m n e j Hp Hr' Hpr) as Hs. fold s' in Hs.
  assert (Ep : run_is s' p b m) by (eapply run_mk; [|done]; by rewrite Hs, decide_True).
  assert (Er : run_is s' r n e) by (eapply run_mk; [|done]; by rewrite Hs, decide_False, decide_True).
  assert (Ho : ∀ j, j ≠ p → j ≠ r → sg s' j = sg s j) by (intros j H1 H2; by rewrite Hs, !decide_False).
  destruct (shrink_wf s P p R U b m HW Hbm) as (HW1 & Hr1 & Ho1).
  { intros a Ha. apply (run_owns _ _ _ _ _ Hrun). destruct Hbm, Hne. lia. }
  pose proof (λ j, sg_shrink s p b m j Hp) as Hs1. set (s1 := shrink s p b m) in *.
  assert (Hnx : ∀ j, nxt s' j = if decide (j = p) then Some r else if decide (j = r) then nxt s p else nxt s j)
    by (intros j; unfold nxt; rewrite Hs; by repeat case_decide).
  assert (Hheads : seg_free s' = seg_free s ∧ seg_used s' = seg_used s) by done.
  split_and!; [|done|done|by intros j a H1 H2; unfold owns; rewrite Ho].
  assert (HP : (P ++ p :: r :: R) ++ U ≡ₚ r :: (P ++ p :: R) ++ U) by (cbn; solve_Permutation).
  split.
  - eapply held_perm; [intros j; by rewrite HP|]. pose proof (same_data_assign s1 HFree (LNext p) (Some r)) as Hsd.
    apply (held_new (upd_seg s1 p (set_np (Some r)))); try done.
    + eapply held_same_data; [exact Hsd|apply HW1].
    + unfold s', split_run, s1, shrink. by rewrite !length_upd.
    + by rewrite Hs, decide_False, decide_True.
    + by eapply run_seg_ok.
    + intros j Hj. rewrite sg_upd by (unfold s1, shrink; by rewrite !length_upd). rewrite Hs, !Hs1. by repeat case_decide; subst.
    + intros a Ha Hc. apply (covers_same_data _ _ _ _ Hsd) in Hc as (j & Hj & Hjo). apply (run_owns _ _ _ _ _ Er) in Ha.
      destruct (decide (j = p)) as [->|Hjp]; [apply (run_owns _ _ _ _ _ Hr1) in Hjo; lia|].
      rewrite Ho1 in Hjo by done. apply Hjp. apply (held_excl _ _ HH j p a Hj); [set_solver|done|].
      apply (run_owns _ _ _ _ _ Hrun). destruct Hbm. lia.
  - rewrite (proj1 Hheads). apply (split_chain s); [apply HW|set_solver|by rewrite Hnx, decide_True|by rewrite Hnx, decide_False, decide_True|].
    intros j H1 H2. by rewrite Hnx, !decide_False.
  - rewrite (proj2 Hheads). eapply lseg_ext; [|apply HW]. intros j Hj. rewrite Hnx, !decide_False; [done|set_solver|].
    intros ->. pose proof (wf_nodup _ _ _ HW) as Hnd. apply NoDup_app in Hnd as (_ & Hd & _). apply (Hd p); [set_solver|done].
  - rewrite HP. apply NoDup_cons. split; [done|apply HW].
Qed.

(** ** The loop *)

(** The run of [p] is above the range, or reaches up to it and is not inside of it. *)
Definition cuttable s p (B E : Z) : Prop :=
  let b := begin (sg s p) in let e := b + blocks (sg s p) * ChunkSize in
  E < b ∨ B ≤ e ∧ (b < B ∨ E < e ∨ blocks (sg s p) = 0).

Definition in_range (B E a : Z) : Prop := B ≤ a < E.

Lemma covers_nil s a : ¬ covers s [] a.
Proof. intros (j & Hj & _). by apply not_elem_of_nil in Hj. Qed.

Lemma covers_mid s P p R a : covers s (P ++ p :: R) a ↔ covers s P a ∨ owns s p a ∨ covers s R a.
Proof. unfold covers. setoid_rewrite elem_of_app. setoid_rewrite elem_of_cons. naive_solver. Qed.

(** What the loop makes of the runs [R] behind [P]. *)
Definition Removed s s' P R U (B E : Z) : Prop := ∃ F', Wf s' F' U ∧
  (∀ a, covers s' F' a ↔ covers s P a ∨ covers s R a ∧ ¬ in_range B E a) ∧ (∀ a, covers s' U a ↔ covers s U a).

(** A step that cuts [c], into [c] or into [c] and [X]. *)
Lemma Removed_step s s1 s' P c X R U B E : Removed s1 s' (P ++ [c]) (X ++ R) U B E →
  (∀ j a, j ∈ P ++ R ++ U → owns s1 j a ↔ owns s j a) →
  (∀ a, owns s c a ∧ ¬ in_range B E a ↔ owns s1 c a ∨ covers s1 X a ∧ ¬ in_range B E a) → Removed s s' P (c :: R) U B E.
Proof.
  intros (F' & HW & HF & HU) Ho Hc. exists F'. split_and!; [done|..]; intros a.
  - rewrite HF. rewrite (covers_mid s1 P c []), (covers_cons s).
    assert (HXR : covers s1 (X ++ R) a ↔ covers s1 X a ∨ covers s1 R a) by (unfold covers; setoid_rewrite elem_of_app; naive_solver).
    rewrite HXR. rewrite (covers_ext s s1 P), (covers_ext s s1 R) by (intros j Hj; apply Ho; set_solver).
    pose proof (covers_nil s1 a). specialize (Hc a). tauto.
  - rewrite HU. apply covers_ext. intros j Hj. apply Ho. set_solver.
Qed.

(** One run: the value of the loop's body for the run [c] from [b] to [e]. *)
Definition cut_run s c (b e B E : Z) : res state :=
  if b <=? E then
    let chk_b := if B <=? b then b else B in
    let chk_e := if e <=? E then e else E in
    if b <? chk_b then
      if chk_e <? e then
        '(rSeg, s) ← getSeg s;
        let s := upd_seg s c (set_begin b) in
        let s := upd_seg s c (set_blocks ((chk_b - b) / ChunkSize)) in
        let s := upd_seg s rSeg (set_begin chk_e) in
        let s := upd_seg s rSeg (set_blocks ((e - chk_e) / ChunkSize)) in
        let s := upd_seg s rSeg (set_np (np (sg s c))) in
        Ok (upd_seg s c (set_np (Some rSeg)))
      else Ok (shrink s c b chk_b)
    else if chk_e <? e then Ok (shrink s c chk_e e)
    else Ok s
  else Ok s.

(** What a step leaves of the run. *)
Record Cut s s1 P c X R U (B E : Z) : Prop := {
  cut_wf : Wf s1 ((P ++ [c]) ++ X ++ R) U;
  cut_others : ∀ j a, j ∈ P ++ R ++ U → owns s1 j a ↔ owns s j a;
  cut_owns : ∀ a, owns s c a ∧ ¬ in_range B E a ↔ owns s1 c a ∨ covers s1 X a ∧ ¬ in_range B E a;
  cut_more : ∀ j, j ∈ X → cuttable s1 j B E ∧ ¬ owns s1 j (B - 1);
  cut_data : ∀ j, j ∈ R → begin (sg s1 j) = begin (sg s j) ∧ blocks (sg s1 j) = blocks (sg s j);
  cut_split : X ≠ [] → owns s c (B - 1) ∧ length X = 1%nat
}.

Lemma owns_data s s1 j a : begin (sg s1 j) = begin (sg s j) → blocks (sg s1 j) = blocks (sg s j) → owns s1 j a ↔ owns s j a.
Proof. unfold owns. by intros -> ->. Qed.

(** The parts that do not depend on how [c] was cut. *)
Lemma cut_in_place s b e P c R U B E : Wf s (P ++ c :: R) U → pages b e → (∀ a, b ≤ a < e ↔ owns s c a ∧ ¬ in_range B E a) →
  Cut s (shrink s c b e) P c [] R U B E.
Proof.
  intros HW Hbe Hr. destruct (shrink_wf s P c R U b e HW Hbe) as (HW1 & Hrun & Ho); [intros a Ha; by apply Hr|].
  destruct (wf_pick _ _ _ _ _ HW) as [HH Hnd]. apply NoDup_cons in Hnd as [Hc _].
  assert (Hp : (c < length (segs s))%nat) by (rewrite (held_len _ _ HH); apply (held_range _ _ HH); by left).
  split; [by rewrite <- app_assoc|intros j a Hj; apply Ho; set_solver| |set_solver| |done].
  - intros a. rewrite <- Hr, (run_owns _ _ _ _ _ Hrun). pose proof (covers_nil (shrink s c b e) a). tauto.
  - intros j Hj. rewrite sg_shrink, decide_False; [done|set_solver|done].
Qed.

Lemma cut_run_ok s P c R U b e B E : Wf s (P ++ c :: R) U → run_is s c b e → pages b e → pages B E → cuttable s c B E →
  (owns s c (B - 1) → (length ((P ++ c :: R) ++ U) < MaxNumSeg)%nat) →
  ∃ s1 X, cut_run s c b e B E = Ok s1 ∧ Cut s s1 P c X R U B E.
Proof.
  intros HW Hrun Hbe HBE Hcut Hspare. pose proof (λ a, run_owns s c b e a Hrun) as Hown. unfold cuttable in Hcut.
  destruct Hrun as [Eb Ee]. rewrite Eb, Ee in Hcut. assert (He : blocks (sg s c) = 0 ↔ e ≤ b) by (unfold ChunkSize in *; destruct Hbe; lia).
  assert (Hnil : (∀ a, owns s c a → ¬ in_range B E a) → Cut s s P c [] R U B E).
  { intros Hno. split; [by rewrite <- app_assoc|done| |set_solver|done|done]. intros a. specialize (Hno a). pose proof (covers_nil s a). tauto. }
  assert (Hin : ∀ b' e', pages b' e' → (∀ a, b' ≤ a < e' ↔ b ≤ a < e ∧ ¬ in_range B E a) →
    ∃ s1 X, Ok (shrink s c b' e') = Ok s1 ∧ Cut s s1 P c X R U B E).
  { intros b' e' H1 H2. exists (shrink s c b' e'), []. split; [done|]. apply cut_in_place; [done|done|]. intros a. by rewrite Hown. }
  destruct Hbe as (b0 & b1 & b2 & b3), HBE as (B0 & B1 & B2 & B3). unfold cut_run, in_range in *. cbv zeta.
  destruct (Z.leb_spec b E); cycle 1.
  { exists s, []. split; [done|]. apply Hnil. intros a. rewrite Hown. lia. }
  destruct Hcut as [|[Hc1 Hc2]]; [lia|].
  destruct (Z.leb_spec B b), (Z.leb_spec e E).
  - rewrite (proj2 (Z.ltb_ge b b)), (proj2 (Z.ltb_ge e e)) by lia. exists s, []. split; [done|]. apply Hnil. intros a. rewrite Hown. lia.
  - rewrite (proj2 (Z.ltb_ge b b)), (proj2 (Z.ltb_lt E e)) by lia. apply Hin; [by unfold pages; lia|intros; lia].
  - rewrite (proj2 (Z.ltb_lt b B)), (proj2 (Z.ltb_ge e e)) by lia. apply Hin; [by unfold pages; lia|intros; lia].
  - rewrite (proj2 (Z.ltb_lt b B)), (proj2 (Z.ltb_lt E e)) by lia. clear Hin Hnil.
    assert (Ho : owns s c (B - 1)) by (apply Hown; lia).
    destruct (getSeg_ok s _ (wf_held _ _ _ HW) (Hspare Ho)) as (r & -> & Hr & Hrn). cbn [mbind res_bind].
    destruct (split_wf s P c R U r b B E e HW Hrn Hr) as (HW1 & Hrc & Hrr & Hoth); [done|unfold pages; lia|unfold pages; lia|lia|].
    destruct (wf_pick _ _ _ _ _ HW) as [HH Hnd]. apply NoDup_cons in Hnd as [Hc _].
    exists (split_run s c r b B E e), [r]. split; [reflexivity|]. pose proof (λ a, run_owns _ _ _ _ a Hrc) as Hoc.
    pose proof (λ a, run_owns _ _ _ _ a Hrr) as Hor.
    split; [by rewrite <- app_assoc|intros j a Hj; apply Hoth; set_solver| | | |done].
    + intros a. rewrite Hown, Hoc, covers_cons, Hor. pose proof (covers_nil (split_run s c r b B E e) a).
      unfold in_range. intuition lia.
    + intros j ->%list_elem_of_singleton. rewrite Hor. split; [|lia]. unfold cuttable. destruct Hrr as [-> ->]. lia.
    + intros j Hj. rewrite sg_split; [rewrite !decide_False; [done|set_solver..]|..|set_solver];
        rewrite (held_len _ _ HH); [apply (held_range _ _ HH); by left|done].
Qed.

Lemma removeChunk_loop_ok fuel s P R U B E : Wf s (P ++ R) U → pages B E → (∀ j, j ∈ R → cuttable s j B E) →
  ((∃ j, j ∈ R ∧ owns s j (B - 1)) → (length ((P ++ R) ++ U) < MaxNumSeg)%nat ∧ (S (length R) < fuel)%nat) →
  (length R < fuel)%nat →
  ∃ s', removeChunk_loop fuel s (loc_after P) B E = Ok s' ∧ Removed s s' P R U B E.
Proof.
  revert s P R. induction fuel as [|fuel IH]; intros s P R HW HBE Hcut Hspare Hf; [lia|].
  cbn [removeChunk_loop]. rewrite (deref_after s HFree P R) by apply HW. destruct R as [|c R]; cbn [head].
  { exists s. split; [done|]. exists (P ++ []). split_and!; [done|..]; intros a; [|done]. rewrite app_nil_r.
    pose proof (covers_nil s a). tauto. }
  pose proof (wf_held _ _ _ HW) as HH. destruct (wf_pick _ _ _ _ _ HW) as [HHp Hnd]. apply NoDup_cons in Hnd as [Hc _].
  destruct (run_of s c) as (b & e & Hrun & Hbe & Eend & Ebeg); [apply (held_ok _ _ HH); set_solver|].
  destruct (cut_run_ok s P c R U b e B E HW Hrun Hbe HBE) as (s1 & X & Ecut & HC); [apply Hcut; by left| |].
  { intros Ho. apply Hspare. exists c. split; [by left|done]. }
  fold (shrink s c) in Ecut. rewrite Eend, Ebeg. match goal with |- context [mbind _ ?x] => change x with (cut_run s c b e B E) end.
  rewrite Ecut. cbn [mbind res_bind]. rewrite <- (loc_after_snoc P c). destruct HC as [C1 C2 C3 C4 C5 C6].
  assert (HX : ∀ j, j ∈ R → owns s1 j (B - 1) → X = [] ∧ owns s j (B - 1)).
  { intros j Hj Ho. destruct (C5 j Hj) as [D1 D2]. apply (owns_data s s1 j _ D1 D2) in Ho. split; [|done].
    destruct X; [done|]. destruct (C6 ltac:(done)) as [Hoc _]. exfalso. apply Hc.
    rewrite <- (held_excl _ _ HH j c (B - 1)); [set_solver|set_solver|set_solver|done|done]. }
  destruct (IH s1 (P ++ [c]) (X ++ R)) as (s' & E' & HR); [done|done|..].
  - intros j [Hj|Hj]%elem_of_app; [by apply C4|]. destruct (C5 j Hj) as [D1 D2]. unfold cuttable. rewrite D1, D2. apply Hcut. by right.
  - intros (j & [Hj|Hj]%elem_of_app & Ho); [by destruct (C4 j Hj)|]. destruct (HX j Hj Ho) as [-> Ho'].
    destruct Hspare as [S1 S2]; [exists j; split; [by right|done]|]. rewrite ?length_app in *. cbn in *. rewrite ?length_app in *. cbn in *. lia.
  - destruct X as [|r X]; [cbn in *; lia|]. destruct (C6 ltac:(done)) as [Ho Hl]. destruct Hspare as [_ S2]; [exists c; split; [by left|done]|].
    rewrite length_app. cbn in *. lia.
  - exists s'. split; [done|]. by eapply Removed_step.
Qed.

(** C32: [removeChunk] takes a range of addresses, extended to whole pages, out of the free
    memory and leaves the memory in use alone, when each free run that begins at or below
    the end of the range reaches up to it and is not inside of it, and a descriptor is left
    for the case that the range splits a run. *)
Theorem removeChunk_correct s F U b e : Wf s F U → 0 ≤ b ≤ e → e + 4095 < 4294967296 → (length (F ++ U) < MaxNumSeg)%nat →
  let B := b / ChunkSize * ChunkSize in let E := (e + 4095) / ChunkSize * ChunkSize in
  (∀ j, j ∈ F → cuttable s j B E) →
  ∃ s' F', removeChunk s b e = Ok s' ∧ Wf s' F' U ∧ (∀ a, covers s' F' a ↔ covers s F a ∧ ¬ (B ≤ a < E)) ∧
    (∀ a, covers s' U a ↔ covers s U a).
Proof.
  intros HW Hb He Hspare B E Hcut. pose proof (wf_walk _ _ _ HW) as [Hw _]. unfold removeChunk. cbv zeta.
  change (u32 (Z.lnot (ChunkSize - 1))) with 4294963200. change (ChunkSize - 1) with 4095.
  rewrite (u32_id (e + 4095)) by (unfold is_u32; lia). rewrite !land_page_mask by (unfold is_u32; lia).
  destruct (removeChunk_loop_ok walk_fuel s [] F U B E HW) as (s' & Eq & F' & HW' & HF & HU); [|done| |done|].
  - unfold pages, B, E, ChunkSize. rewrite !Z_mod_mult. Z.div_mod_to_equations; lia.
  - intros _. cbn. split; [done|]. rewrite length_app in Hspare. unfold walk_fuel. lia.
  - exists s', F'. split_and!; [exact Eq|done| |done]. intros a. rewrite HF. pose proof (covers_nil s a). unfold in_range. tauto.
Qed.

(** A page out of the middle of the free run of [PageFrames.v]. *)
Lemma removeChunk_correct_witness : ∃ s' F', removeChunk ex 1056768 1060864 = Ok s' ∧ Wf s' F' [1%nat] ∧
  ¬ covers s' F' 1056768 ∧ covers s' F' 1060864.
Proof.
  destruct (removeChunk_correct ex [0%nat] [1%nat] 1056768 1060864) as (s' & F' & E & HW & HF & _).
  - exact wf_ex.
  - lia.
  - lia.
  - cbn. unfold MaxNumSeg. lia.
  - intros j ->%list_elem_of_singleton. right. vm_compute. intuition congruence.
  - exists s', F'. split_and!; [exact E|exact HW|..]; rewrite HF.
    + intros [_ H]. apply H. vm_compute. intuition congruence.
    + split; [exists 0%nat; split; [by left|]|]; vm_compute; [split; congruence|intuition congruence].
Defined.

End FrameRemoval.
