(* ===== verification/Boot.v ===== *)
(** * The memory map of the boot loader ([src/kernel/mbi_read.cpp])

    [mbi_read] walks the memory map of the boot loader, gives each available range to the
    page-frame allocator and records the end of the memory; then it takes the sections of
    the kernel out of the free memory. The structures of [multiboot.h] are read at their
    offsets in byte memory; the output on the console is left out. *)

From S2P Require Import Prelude Memory PageFrames FrameRemoval.

Module Boot.
Import PFAllocator FrameRemoval.

(** ** The code *)

Definition MULTIBOOT_BOOTLOADER_MAGIC : Z := 732803074.

(** [CHECK_FLAG(flags,bit)]. *)
Definition CHECK_FLAG (flags bit : Z) : bool := negb (Z.land flags (Z.shiftl 1 bit) =? 0).

Section fields.
Context (m : mem).

(** [struct multiboot_info]. *)
Definition flags (mbi : Z) : Z := load32 m mbi.
Definition elf_num (mbi : Z) : Z := load32 m (mbi + 28).
Definition elf_addr (mbi : Z) : Z := load32 m (mbi + 36).
Definition mmap_length (mbi : Z) : Z := load32 m (mbi + 44).
Definition mmap_addr (mbi : Z) : Z := load32 m (mbi + 48).

(** [struct multiboot_mmap_entry]. *)
Definition e_size (mmap : Z) : Z := load32 m mmap.
Definition addr_low (mmap : Z) : Z := load32 m (mmap + 4).
Definition len_low (mmap : Z) : Z := load32 m (mmap + 12).
Definition e_type (mmap : Z) : Z := load32 m (mmap + 20).

(** [Elf32_Shdr]. *)
Definition sizeof_Shdr : Z := 40.
Definition sh_addr (entry : Z) : Z := load32 m (entry + 12).
Definition sh_size (entry : Z) : Z := load32 m (entry + 20).

(** The loop over the memory map, with the allocator and [bootinfo.mem_size]. *)
Fixpoint mmap_loop (fuel : nat) (s : state) (mem_size mmap last : Z) : res (state * Z) :=
  match fuel with
  | O => NoFuel
  | S fuel' =>
    if mmap <? last then
      '(s, mem_size) ←
        (if (e_type mmap =? 1) || (e_type mmap =? 3) then
           let addr_end := u32 (addr_low mmap + len_low mmap) in
           let mem_size := if mem_size <? addr_end then addr_end else mem_size in
           s ← addChunk s (addr_low mmap) (u32 (addr_low mmap + len_low mmap));
           Ok (s, mem_size)
         else Ok (s, mem_size));
      mmap_loop fuel' s mem_size (u32 (u32 (mmap + e_size mmap) + 4)) last
    else Ok (s, mem_size)
  end.

(** The loop over the section headers. *)
Fixpoint section_loop (n : nat) (s : state) (entry : Z) : res state :=
  match n with
  | O => Ok s
  | S n' =>
    s ← removeChunk s (sh_addr entry) (u32 (sh_addr entry + sh_size entry));
    section_loop n' s (u32 (entry + sizeof_Shdr))
  end.

(** [void mbi_read(void *addr,unsigned int magic)]. *)
Definition mbi_read (fuel : nat) (s : state) (mem_size addr magic : Z) : res (state * Z) :=
  if negb (magic =? MULTIBOOT_BOOTLOADER_MAGIC) then Ok (s, mem_size)
  else if CHECK_FLAG (flags addr) 4 && CHECK_FLAG (flags addr) 5 then Ok (s, mem_size)
  else
    '(s, mem_size) ←
      (if CHECK_FLAG (flags addr) 6 then
         mmap_loop fuel s 0 (mmap_addr addr) (u32 (mmap_addr addr + mmap_length addr))
       else Ok (s, mem_size));
    s ← (if CHECK_FLAG (flags addr) 5 then section_loop (Z.to_nat (elf_num addr)) s (elf_addr addr)
         else Ok s);
    Ok (s, mem_size).

End fields.

(** ** The memory map *)

Section map.
Context (m : mem) (Hm : bytes_ok m).

(** The entries from [a] on are at the addresses [es]. *)
Fixpoint mmap_at (a last : Z) (es : list Z) : Prop :=
  match es with
  | [] => last ≤ a
  | x :: es => x = a ∧ a < last ∧ a + e_size m a + 4 < 4294967296 ∧ mmap_at (a + e_size m a + 4) last es
  end.

(** The entries that hold memory for the kernel, and the pages of an entry. *)
Definition usable (x : Z) : Prop := e_type m x = 1 ∨ e_type m x = 3.
Definition usable_entries (es : list Z) : list Z := filter usable es.
Definition entry_end (x : Z) : Z := addr_low m x + len_low m x.
Definition in_entry (x a : Z) : Prop := in_pages (addr_low m x) (entry_end x) a.

(** Usable entries below 4 GiB that do not share a page. *)
Fixpoint good_map (us : list Z) : Prop :=
  match us with
  | [] => True
  | x :: us => entry_end x < 4294967296 ∧ (∀ y a, y ∈ us → in_entry x a → ¬ in_entry y a) ∧ good_map us
  end.

Lemma mmap_loop_ok es : ∀ fuel s F mem_size a last, mmap_at a last es → 0 ≤ a → (length es < fuel)%nat →
  Wf s F [] → good_map (usable_entries es) → (length F + length (usable_entries es) ≤ MaxNumSeg)%nat →
  (∀ x a, x ∈ usable_entries es → in_entry x a → ¬ covers s F a) →
  ∃ s' F' ms, mmap_loop m fuel s mem_size a last = Ok (s', ms) ∧ Wf s' F' [] ∧
    (length F' ≤ length F + length (usable_entries es))%nat ∧
    (∀ a, covers s' F' a ↔ covers s F a ∨ ∃ x, x ∈ usable_entries es ∧ in_entry x a) ∧
    mem_size ≤ ms ∧ (∀ x, x ∈ usable_entries es → entry_end x ≤ ms) ∧
    (ms = mem_size ∨ ∃ x, x ∈ usable_entries es ∧ ms = entry_end x).
Proof.
  induction es as [|x es IH]; intros [|fuel] s F mem_size a last; cbn [mmap_at length mmap_loop]; try lia.
  { intros Hl _ _ HW _ _ _. rewrite (proj2 (Z.ltb_ge _ _)) by done. exists s, F, mem_size.
    split_and!; try done; [cbn; lia|set_solver|set_solver|by left]. }
  intros (-> & Hlt & Hend & Hes) H0 Hf HW Hg Hl Hd. rewrite (proj2 (Z.ltb_lt _ _)) by done.
  pose proof (load32_range m a Hm) as Hsz. fold (e_size m a) in Hsz. unfold is_u32 in Hsz.
  rewrite (u32_id (a + e_size m a)), (u32_id (a + e_size m a + 4)) by (unfold is_u32; lia).
  unfold usable_entries in *. rewrite filter_cons in *. destruct (decide (usable a)) as [Hu|Hu].
  - assert (Eu : (e_type m a =? 1) || (e_type m a =? 3) = true) by (unfold usable in Hu; lia). rewrite Eu. clear Eu.
    destruct Hg as (He & Hdis & Hg). pose proof (load32_range m (a + 4) Hm) as Hlo. pose proof (load32_range m (a + 12) Hm) as Hle.
    fold (addr_low m a) in Hlo. fold (len_low m a) in Hle. unfold is_u32 in Hlo, Hle. cbn [length] in Hl.
    rewrite (u32_id (addr_low m a + len_low m a)) by (unfold is_u32; unfold entry_end in He; lia). fold (entry_end a).
    destruct (addChunk_spec s F [] (addr_low m a) (entry_end a) HW) as (s1 & F1 & -> & HW1 & HF1 & _ & Hl1);
      [unfold entry_end; lia|done|rewrite length_app; cbn; lia| |].
    { intros b Hb. rewrite app_nil_r. apply (Hd a b); [by left|done]. }
    cbn [mbind res_bind]. set (ms1 := if mem_size <? entry_end a then _ else _).
    destruct (IH fuel s1 F1 ms1 _ last Hes) as (s' & F' & ms & E & HW' & Hl' & HF' & M1 & M2 & M3); try done; try lia.
    { intros y b Hy Hb. rewrite HF1. intros [Hc|Hc]; [by apply (Hd y b); [right|..]|]. by apply (Hdis y b Hy Hc). }
    exists s', F', ms. split_and!; [exact E|done|cbn [length]; lia|..].
    + intros b. rewrite HF', HF1. setoid_rewrite elem_of_cons. unfold in_entry. naive_solver.
    + unfold ms1 in M1. destruct (Z.ltb_spec mem_size (entry_end a)); lia.
    + intros y [->|Hy]%elem_of_cons; [|by apply M2]. unfold ms1 in M1. destruct (Z.ltb_spec mem_size (entry_end a)); lia.
    + destruct M3 as [->|(y & Hy & ->)]; [|right; exists y; split; [by right|done]]. unfold ms1. destruct (_ <? _); [|by left].
      right. exists a. split; [by left|done].
  - assert (Eu : (e_type m a =? 1) || (e_type m a =? 3) = false) by (unfold usable in Hu; lia). rewrite Eu. cbn [mbind res_bind].
    apply IH; try done; lia.
Qed.

End map.

Lemma new_frames_wf : Wf PFAllocator_new [] [].
Proof.
  constructor; [|done|done|constructor]. constructor; cbn [app].
  - apply length_replicate.
  - intros i Hi. by apply not_elem_of_nil in Hi.
  - intros i Hi. split; [intros _; apply not_elem_of_nil|intros _]. unfold sg. cbn [segs PFAllocator_new].
    by rewrite lookup_replicate_2.
  - intros i Hi. by apply not_elem_of_nil in Hi.
  - intros i j a Hi. by apply not_elem_of_nil in Hi.
Qed.

(** C33: [mbi_read] with a memory map whose usable ranges (of type 1 or 3) end below 4 GiB
    and share no page: in front of the loop over the section headers the free memory is exactly
    the whole pages of the usable ranges, nothing is in use, the allocator is well formed, and
    [bootinfo.mem_size] is the end of the highest usable range. *)
Theorem mbi_read_correct fuel m addr es mem_size : bytes_ok m →
  CHECK_FLAG (flags m addr) 4 && CHECK_FLAG (flags m addr) 5 = false → CHECK_FLAG (flags m addr) 6 = true →
  mmap_addr m addr + mmap_length m addr < 4294967296 →
  mmap_at m (mmap_addr m addr) (mmap_addr m addr + mmap_length m addr) es → (length es < fuel)%nat →
  good_map m (usable_entries m es) → (length (usable_entries m es) ≤ MaxNumSeg)%nat →
  ∃ s F ms, Wf s F [] ∧ (length F ≤ length (usable_entries m es))%nat ∧
    (∀ a, covers s F a ↔ ∃ x, x ∈ usable_entries m es ∧ in_entry m x a) ∧
    (∀ x, x ∈ usable_entries m es → entry_end m x ≤ ms) ∧ (ms = 0 ∨ ∃ x, x ∈ usable_entries m es ∧ ms = entry_end m x) ∧
    mbi_read m fuel PFAllocator_new mem_size addr MULTIBOOT_BOOTLOADER_MAGIC =
      (s ← (if CHECK_FLAG (flags m addr) 5 then section_loop m (Z.to_nat (elf_num m addr)) s (elf_addr m addr) else Ok s);
       Ok (s, ms)).
Proof.
  intros Hm E45 E6 Hend Hes Hf Hg Hl. pose proof (load32_range m (addr + 48) Hm) as H1. pose proof (load32_range m (addr + 44) Hm) as H2.
  fold (mmap_addr m addr) in H1. fold (mmap_length m addr) in H2. unfold is_u32 in H1, H2.
  destruct (mmap_loop_ok m Hm es fuel PFAllocator_new [] 0 (mmap_addr m addr) (mmap_addr m addr + mmap_length m addr))
    as (s & F & ms & E & HW & Hl' & HF & _ & M2 & M3); try done; [lia|apply new_frames_wf| |].
  { intros x a _ _. apply covers_nil. }
  exists s, F, ms. split_and!; try done.
  - intros a. rewrite HF. pose proof (covers_nil PFAllocator_new a). tauto.
  - unfold mbi_read. rewrite Z.eqb_refl, E45, E6. cbn [negb]. rewrite (u32_id (_ + _)) by (unfold is_u32; lia). by rewrite E.
Qed.

(** ** A PC with the kernel at 1 MiB *)

(** Conventional memory below 0x9fc00 and 127 MiB from 0x100000; two sections, the text at
    0x100000 and the data behind it. *)
Definition ex_words (l : list (Z * Z)) : mem := foldr (λ '(a, v) m, store32 m a v) ∅ l.

Definition ex_mbi : mem := ex_words
  [(4096, 96); (4096 + 28, 2); (4096 + 36, 8192); (4096 + 44, 48); (4096 + 48, 12288);
   (12288, 20); (12288 + 4, 0); (12288 + 12, 654336); (12288 + 20, 1);
   (12312, 20); (12312 + 4, 1048576); (12312 + 12, 133169152); (12312 + 20, 1);
   (8192 + 12, 1048576); (8192 + 20, 20480); (8232 + 12, 1069056); (8232 + 20, 4096)].

(** After [mbi_read] the lower run of free memory ends at 0x105000: it has the video memory, the
    BIOS and the text of the kernel, because [removeChunk] moves the end of a run
    below the section up to it. *)
Theorem mbi_read_frees_kernel_text :
  match mbi_read ex_mbi 3 PFAllocator_new 0 4096 MULTIBOOT_BOOTLOADER_MAGIC with
  | Ok (s, ms) => seg_free s = Some 0%nat ∧ begin (sg s 0) = 0 ∧ blocks (sg s 0) * ChunkSize = 1069056 ∧ ms = 134217728
  | _ => False
  end.
Proof. vm_compute. repeat split. Qed.

Lemma ex_usable : usable_entries ex_mbi [12288; 12312] = [12288; 12312].
Proof. vm_compute. reflexivity. Qed.

Ltac ex_eval :=
  change (entry_end ex_mbi 12288 / ChunkSize * ChunkSize) with 651264;
  change (addr_low ex_mbi 12288 / ChunkSize * ChunkSize) with 0;
  change (entry_end ex_mbi 12312 / ChunkSize * ChunkSize) with 134217728;
  change (addr_low ex_mbi 12312 / ChunkSize * ChunkSize) with 1048576;
  change (entry_end ex_mbi 12288) with 654336;
  change (entry_end ex_mbi 12312) with 134217728.

Lemma mbi_read_correct_witness : ∃ s ms F, mbi_read ex_mbi 3 PFAllocator_new 0 4096 MULTIBOOT_BOOTLOADER_MAGIC =
    (s ← section_loop ex_mbi 2 s 8192; Ok (s, ms)) ∧ Wf s F [] ∧ covers s F 1048576.
Proof.
  destruct (mbi_read_correct 3 ex_mbi 4096 [12288; 12312] 0) as (s & F & ms & HW & _ & HF & _ & _ & E).
  - unfold ex_mbi, ex_words. cbn [foldr]. repeat apply bytes_ok_store32. apply bytes_ok_empty.
  - vm_compute. reflexivity.
  - vm_compute. reflexivity.
  - vm_compute. reflexivity.
  - vm_compute. repeat split; congruence.
  - cbn. lia.
  - rewrite ex_usable. cbn [good_map]. unfold in_entry, in_pages. ex_eval. repeat split; try lia.
    + intros y a ->%list_elem_of_singleton. ex_eval. lia.
    + intros y a Hy. by apply not_elem_of_nil in Hy.
  - rewrite ex_usable. cbn. unfold MaxNumSeg. lia.
  - exists s, ms, F. split_and!; [exact E|exact HW|]. apply HF. exists 12312. rewrite ex_usable. split; [by right; left|].
    unfold in_entry, in_pages. ex_eval. lia.
Defined.

End Boot.
