(* ===== verification/VarMem.v ===== *)
(** * VarMem.cpp: page directories and page tables

    The two-level page tables of the 486 live in physical memory: a directory
    and each table is a 4 KiB page of 1024 little-endian words.  The kernel
    accesses them at their physical addresses (the straight mapping), so the
    operations work on the physical memory [vm_mem] and on the page-frame
    allocator [vm_pf], which is known only through the interface [FrameAlloc]. *)

From S2P Require Import Prelude Memory PageFrames.

Module VarMem.

(** ** Constants ([VarMem.h]) *)

Definition nrEntry : Z := 1024.
Definition dir_entrySize : Z := 4194304.
Definition page_entrySize : Z := 4096.
Definition invalidpage : Z := 0.
Definition kernelpage : Z := 17.
Definition systempage : Z := 19.
Definition userpage : Z := 23.

(** The fixed addresses of the initial stacks ([enum memmap]). *)
Definition sys_stack_begin_init : Z := 1073733632.
Definition sys_stack_end : Z := 1073741824.
Definition user_stack_begin_init : Z := 2147475456.
Definition user_stack_end : Z := 2147483648.

(** ** Entries *)

Definition isEntryExist (entry : Z) : bool := Z.land entry 1 =? 1.

Definition caddrEntry (entry : Z) : Z := Z.land entry (u32 (Z.lnot 4095)).

(** [void editEntry(entry_t *entry,const u32_t pointer,const u16_t type)]: two
    writes to the entry. *)
Definition editEntry (m : mem) (entry pointer type : Z) : mem :=
  let m := store32 m entry (Z.land pointer 4294963200) in
  store32 m entry (Z.lor (load32 m entry) (Z.land type 4095)).

(** [void disableAllEntry(entry_t *table)]. *)
Definition disableAllEntry (m : mem) (table : Z) : mem :=
  for_loop (Z.to_nat nrEntry) 0
    (λ i m, store32 m (table + 4 * i) (Z.land (load32 m (table + 4 * i)) 0)) m.

(** [entry_t *mapP2V_4k(u32_t *var,u8_t nb)]: the window [nb] behind
    [0xffc00000] shows the page of [var]; the result is the address of [var]
    in the window. *)
Definition mapP2V_4k (m : mem) (v2ptable var nb : Z) : Z * mem :=
  let page := ALIGN_4K var in
  let offset := MOD_4K var in
  let m := editEntry m (u32 (v2ptable + 4 * nb)) page systempage in
  (u32 (4290772992 + 4096 * nb + offset), m).

(** ** [u32_t *vir2phy(u32_t *virAddr,entry_t *pdir)] *)

(** NULL is 0; [cr3] is the directory of the running process, which is used when
    no directory is given. *)
Definition vir2phy (m : mem) (cr3 virAddr pdir : Z) : Z :=
  let pdir := if pdir =? 0 then cr3 else pdir in
  let where_ := virAddr / 4194304 in
  let entryD := pdir + 4 * where_ in
  if negb (isEntryExist (load32 m entryD)) then 0
  else
    let table := caddrEntry (load32 m entryD) in
    let entryT := table + 4 * (virAddr `mod` 4194304 / 4096) in
    if negb (isEntryExist (load32 m entryT)) then 0
    else u32 (caddrEntry (load32 m entryT) + Z.land virAddr 4095).

(** ** Mapping *)

Section mapping.
Context {A : Type} `{!FrameAlloc A}.

Record vm := mkVM { vm_mem : mem; vm_pf : A }.

(** The entry of the directory for [where]: the table it refers to, which is
    created (and cleared) when there is none. *)
Definition get_table (st : vm) (where_ pdir type : Z) : res (Z * vm) :=
  let entryD := pdir + 4 * (where_ / 4194304) in
  if negb (isEntryExist (load32 (vm_mem st) entryD)) then
    '(table, pf) ← fa_alloc (vm_pf st) 1;
    let m := editEntry (vm_mem st) entryD table type in
    let m := disableAllEntry m table in
    Ok (table, mkVM m pf)
  else Ok (caddrEntry (load32 (vm_mem st) entryD), st).

(** One iteration of the loop of [enableSpace]. *)
Definition enable_page (st : vm) (where_ pdir type : Z) : res vm :=
  '(table, st) ← get_table st where_ pdir type;
  let entryT := table + 4 * (where_ `mod` 4194304 / 4096) in
  if negb (isEntryExist (load32 (vm_mem st) entryT)) then
    '(s4k, pf) ← fa_alloc (vm_pf st) 1;
    Ok (mkVM (editEntry (vm_mem st) entryT s4k type) pf)
  else Ok st.

(** [void enableSpace(u32_t *virAddr_r,u32_t size,entry_t *pdir,u16_t type)]. *)
Definition enableSpace (st : vm) (virAddr_r size pdir type : Z) : res vm :=
  let begin := FLOOR virAddr_r 4096 in
  let end_ := CEIL (u32 (virAddr_r + size)) 4096 in
  let page_num := s32 (u32 (end_ - begin) / 4096) in
  for_loop_res (Z.to_nat page_num) 0
    (λ i st, enable_page st (u32 (begin + i * 4096)) pdir type) st.

(** [void mapping_pmem(u32_t phyAddr,u32_t virAddr,size_t size,entry_t *pdir,
    u16_t type)]. *)
Definition mapping_pmem (st : vm) (phyAddr virAddr size pdir type : Z) : res vm :=
  let aligned_size := CEIL size 4096 in
  for_loop_res (Z.to_nat (aligned_size / 4096)) 0
    (λ i st,
       let where_ := u32 (virAddr + i * 4096) in
       '(table, st) ← get_table st where_ pdir type;
       let entryT := table + 4 * (where_ `mod` 4194304 / 4096) in
       if negb (isEntryExist (load32 (vm_mem st) entryT)) then
         let s4k := u32 (phyAddr + 4 * (i * 1024)) in
         Ok (mkVM (editEntry (vm_mem st) entryT s4k type) (vm_pf st))
       else Ok st) st.

(** [void initPaging(void)]: the state after [paging_on_asm(kPdir)], with
    [kPdir] and [kPtables]; [mem_size] is [bootinfo.mem_size].  The pointer
    [v2ptable] is not set by the code, so it is 0 (static storage). *)
Definition initPaging (st : vm) (mem_size v2ptable : Z) : res (Z * Z * vm) :=
  '(kPdir, pf) ← fa_alloc (vm_pf st) 1;
  '(kPtables, pf) ← fa_alloc pf 1;
  let nr_valid_pages := mem_size / dir_entrySize in
  '(big_frame, pf) ← fa_alloc pf (u16 nr_valid_pages);
  let n := Z.to_nat nr_valid_pages in
  let m := for_loop n 0
    (λ i m, store32 m (kPtables + 4 * i) (u32 (big_frame + 4096 * i))) (vm_mem st) in
  let m := disableAllEntry m kPdir in
  let m := for_loop n 0
    (λ i m,
       let table := load32 m (kPtables + 4 * i) in
       let m := disableAllEntry m table in
       let m := editEntry m (kPdir + 4 * i) table systempage in
       for_loop (Z.to_nat nrEntry) 0
         (λ j m, editEntry m (table + 4 * j) (j * 4096) systempage) m) m in
  st ← mapping_pmem (mkVM m pf) 3758096384 3758096384 2097152 kPdir systempage;
  Ok (kPdir, kPtables,
      mkVM (editEntry (vm_mem st) (kPdir + 4 * 1023) v2ptable systempage) (vm_pf st)).

(** [void copyKernelDir(entry_t *pdir)]. *)
Definition copyKernelDir (m : mem) (kPdir mem_size pdir : Z) : mem :=
  let copy i m := store32 m (pdir + 4 * i) (load32 m (kPdir + 4 * i)) in
  let m := disableAllEntry m pdir in
  let nr_valid_pages := mem_size / dir_entrySize in
  let m := for_loop (Z.to_nat nr_valid_pages) 0 copy m in
  let i_begin := 3758096384 / dir_entrySize in
  let i_end := 3760193536 / dir_entrySize in
  for_loop (Z.to_nat (i_end - i_begin + 1)) i_begin copy m.

End mapping.

Arguments vm A : clear implicits.

(** ** What the tables mean

    The translation that the paging unit performs with the directory at
    [pdir]: the frame and the offset, or nothing when an entry is absent. *)
Definition dirE (m : mem) (pdir i : Z) : Z := load32 m (pdir + 4 * i).

Definition dir_entry (m : mem) (pdir va : Z) : Z := dirE m pdir (va / 4194304).

Definition table_entry (m : mem) (pdir va : Z) : Z :=
  load32 m (caddrEntry (dir_entry m pdir va) + 4 * (va `mod` 4194304 / 4096)).

Definition translate (m : mem) (pdir va : Z) : option Z :=
  if isEntryExist (dir_entry m pdir va) then
    if isEntryExist (table_entry m pdir va) then
      Some (caddrEntry (table_entry m pdir va) + va `mod` 4096)
    else None
  else None.

(** ** Lemmas: entries *)

(** The value [editEntry] leaves in the entry. *)
Definition pte (pointer type : Z) : Z := Z.lor (Z.land pointer 4294963200) (Z.land type 4095).

Lemma land_mask_range z : is_u32 z → is_u32 (Z.land z 4294963200).
Proof. intros Hz. rewrite land_page_mask by done. mlia. Qed.

Lemma pte_sum pointer type :
  is_u32 pointer → pte pointer type = pointer / 4096 * 4096 + type `mod` 4096.
Proof.
  intros Hp. unfold pte. rewrite land_page_mask by done.
  change 4095 with (Z.ones 12). rewrite Z.land_ones by lia. change (2 ^ 12) with 4096.
  assert (Hd : Z.land (pointer / 4096 * 4096) (type `mod` 4096) = 0).
  { apply Z.bits_inj'; intros n Hn. rewrite Z.land_spec, Z.bits_0. change 4096 with (2 ^ 12).
    destruct (Z.lt_ge_cases n 12).
    - by rewrite Z.mul_pow2_bits_low by lia.
    - rewrite (Z.mod_pow2_bits_high type 12 n) by lia. apply andb_false_r. }
  by rewrite (Z.add_nocarry_lxor _ _ Hd), (Z.lxor_lor _ _ Hd).
Qed.

Lemma pte_range pointer type : is_u32 pointer → is_u32 (pte pointer type).
Proof. intros Hp. rewrite pte_sum by done. mlia. Qed.

Lemma caddr_spec e : is_u32 e → caddrEntry e = e / 4096 * 4096.
Proof. exact (land_page_mask e). Qed.

Lemma caddr_pte pointer type :
  is_u32 pointer → pointer `mod` 4096 = 0 → caddrEntry (pte pointer type) = pointer.
Proof.
  intros Hp Ha. rewrite caddr_spec by (by apply pte_range). rewrite pte_sum by done. mlia.
Qed.

Lemma isEntryExist_odd e : isEntryExist e = Z.odd e.
Proof.
  unfold isEntryExist. change 1 with (Z.ones 1) at 1. rewrite Z.land_ones by lia.
  change (2 ^ 1) with 2. rewrite Zmod_odd. by destruct (Z.odd e).
Qed.

Lemma exist_pte pointer type : is_u32 pointer → isEntryExist (pte pointer type) = Z.odd type.
Proof.
  intros Hp. rewrite isEntryExist_odd, pte_sum by done.
  rewrite Z.odd_add, Z.odd_mul, andb_false_r, xorb_false_l.
  rewrite (Z.div_mod type 4096) at 2 by lia. rewrite Z.odd_add, Z.odd_mul. done.
Qed.

Lemma caddr_aligned e : is_u32 e → caddrEntry e `mod` 4096 = 0 ∧ 0 ≤ caddrEntry e ≤ 4294963200.
Proof. intros He. rewrite caddr_spec by done. mlia. Qed.

(** ** Lemmas: writes to directories and tables *)

Lemma editEntry_eq m e pointer type :
  is_u32 pointer → load32 (editEntry m e pointer type) e = pte pointer type.
Proof.
  intros Hp. unfold editEntry.
  rewrite (load32_store32_eq m e (Z.land _ _)) by (by apply land_mask_range).
  apply load32_store32_eq. by apply pte_range.
Qed.

Lemma editEntry_ne m e pointer type b :
  b + 4 ≤ e ∨ e + 4 ≤ b → load32 (editEntry m e pointer type) b = load32 m b.
Proof. intros H. unfold editEntry. by rewrite !load32_store32_ne. Qed.

Lemma editEntry_bytes m e pointer type : bytes_ok m → bytes_ok (editEntry m e pointer type).
Proof. intros H. unfold editEntry. auto with machine. Qed.

Lemma disableAllEntry_spec m table :
  (∀ k, 0 ≤ k < 1024 → load32 (disableAllEntry m table) (table + 4 * k) = 0) ∧
  (∀ b, b + 4 ≤ table ∨ table + 4096 ≤ b → load32 (disableAllEntry m table) b = load32 m b) ∧
  (bytes_ok m → bytes_ok (disableAllEntry m table)).
Proof.
  pose (P := λ (i : Z) (m' : mem),
    (∀ k, 0 ≤ k < i → load32 m' (table + 4 * k) = 0) ∧
    (∀ b, b + 4 ≤ table ∨ table + 4096 ≤ b → load32 m' b = load32 m b) ∧
    (bytes_ok m → bytes_ok m')).
  enough (H : P (0 + Z.of_nat (Z.to_nat nrEntry)) (disableAllEntry m table)) by exact H.
  apply (for_loop_ind P); unfold P; clear P.
  - split_and!; [lia|done|done].
  - intros j t Hj (H0 & Hb & Hok). unfold nrEntry in Hj. rewrite Z.land_0_r. split_and!.
    + intros k Hk. destruct (decide (k = j)) as [->|]; [by apply load32_store32_eq|].
      rewrite load32_store32_ne by lia. apply H0. lia.
    + intros b H. rewrite load32_store32_ne by lia. by apply Hb.
    + auto with machine.
Qed.

Lemma page_disjoint p q :
  p `mod` 4096 = 0 → q `mod` 4096 = 0 → p ≠ q → p + 4096 ≤ q ∨ q + 4096 ≤ p.
Proof. intros. Z.div_mod_to_equations; lia. Qed.

#[local] Opaque disableAllEntry editEntry.

(** ** Address spaces *)

Section space.
Context {A : Type} `{!FrameAlloc A}.
Implicit Types (st : vm A) (m : mem) (va p : Z).

Definition page_used st p : Prop := ∀ a, p ≤ a < p + 4096 → fa_used (vm_pf st) a.

(** The directory and the tables it refers to are distinct allocated frames. *)
Record Space st pdir : Prop := {
  sp_bytes : bytes_ok (vm_mem st);
  sp_aligned : pdir `mod` 4096 = 0;
  sp_used : page_used st pdir;
  sp_table : ∀ i, 0 ≤ i < 1024 → isEntryExist (dirE (vm_mem st) pdir i) = true →
    page_used st (caddrEntry (dirE (vm_mem st) pdir i)) ∧
    caddrEntry (dirE (vm_mem st) pdir i) ≠ pdir;
  sp_inj : ∀ i j, 0 ≤ i < 1024 → 0 ≤ j < 1024 →
    isEntryExist (dirE (vm_mem st) pdir i) = true →
    isEntryExist (dirE (vm_mem st) pdir j) = true →
    caddrEntry (dirE (vm_mem st) pdir i) = caddrEntry (dirE (vm_mem st) pdir j) → i = j
}.

Definition is_va va : Prop := 0 ≤ va < 4294967296.

Lemma slot_range va : is_va va → 0 ≤ va / 4194304 < 1024.
Proof. unfold is_va. intros. Z.div_mod_to_equations; lia. Qed.

Lemma idx_range va : 0 ≤ va `mod` 4194304 / 4096 < 1024.
Proof. Z.div_mod_to_equations; lia. Qed.

Lemma table_aligned st pdir i : Space st pdir → caddrEntry (dirE (vm_mem st) pdir i) `mod` 4096 = 0.
Proof. intros HS. apply caddr_aligned. unfold dirE. apply load32_range, HS. Qed.

(** A frame that was free before is none of the frames in use. *)
Lemma fresh_ne st p q : (∀ a, p ≤ a < p + 4096 → ¬ fa_used (vm_pf st) a) → page_used st q → p ≠ q.
Proof. intros Hf Hu ->. apply (Hf q); [lia|]. apply Hu. lia. Qed.

(** Writes that keep the directory and every table keep every translation. *)
Lemma translate_ext m m' pdir va :
  dir_entry m' pdir va = dir_entry m pdir va →
  (isEntryExist (dir_entry m pdir va) = true → table_entry m' pdir va = table_entry m pdir va) →
  translate m' pdir va = translate m pdir va.
Proof.
  intros Ed Et. unfold translate. rewrite Ed. destruct (isEntryExist _); [|done]. by rewrite Et.
Qed.

(** A new, cleared table behind the absent entry [i] of the directory. *)
Definition new_table m pdir i table type : mem :=
  disableAllEntry (editEntry m (pdir + 4 * i) table type) table.

Lemma new_table_dir m pdir i table type j :
  0 ≤ i < 1024 → 0 ≤ j < 1024 → is_u32 table → pdir + 4096 ≤ table ∨ table + 4096 ≤ pdir →
  dirE (new_table m pdir i table type) pdir j =
    if decide (j = i) then pte table type else dirE m pdir j.
Proof.
  intros Hi Hj Ht Hd. unfold dirE, new_table.
  destruct (disableAllEntry_spec (editEntry m (pdir + 4 * i) table type) table) as (_ & Hne & _).
  rewrite Hne by lia. case_decide; subst; [by apply editEntry_eq|]. apply editEntry_ne. lia.
Qed.

Lemma new_table_other m pdir i table type q k :
  0 ≤ i < 1024 → 0 ≤ k < 1024 → q + 4096 ≤ table ∨ table + 4096 ≤ q →
  q + 4096 ≤ pdir ∨ pdir + 4096 ≤ q →
  load32 (new_table m pdir i table type) (q + 4 * k) = load32 m (q + 4 * k).
Proof.
  intros Hi Hk Ht Hp. unfold new_table.
  destruct (disableAllEntry_spec (editEntry m (pdir + 4 * i) table type) table) as (_ & Hne & _).
  rewrite Hne by lia. apply editEntry_ne. lia.
Qed.

Lemma new_table_space st pf' pdir i table type :
  Space st pdir → 0 ≤ i < 1024 → isEntryExist (dirE (vm_mem st) pdir i) = false →
  Z.odd type = true → table `mod` 4096 = 0 → 0 ≤ table → table + 4096 < 4294967296 →
  (∀ a, fa_used pf' a ↔ fa_used (vm_pf st) a ∨ table ≤ a < table + 4096) →
  (∀ a, table ≤ a < table + 4096 → ¬ fa_used (vm_pf st) a) →
  Space (mkVM (new_table (vm_mem st) pdir i table type) pf') pdir.
Proof.
  intros HS Hi Hex Hty Hal H0 Hhi Hus Hfr.
  assert (Ht : is_u32 table) by (unfold is_u32; lia).
  assert (Htp : table ≠ pdir) by (apply (fresh_ne st); [done|apply HS]).
  assert (Hd : pdir + 4096 ≤ table ∨ table + 4096 ≤ pdir).
  { apply page_disjoint; [apply HS|done|done]. }
  assert (Hm : ∀ p, page_used st p → page_used (mkVM (new_table (vm_mem st) pdir i table type) pf') p).
  { intros p Hp a Ha. apply Hus. left. by apply Hp. }
  constructor; cbn [vm_mem].
  - apply disableAllEntry_spec, editEntry_bytes, HS.
  - apply HS.
  - apply Hm, HS.
  - intros j Hj. rewrite new_table_dir by done. case_decide as Hji.
    + rewrite caddr_pte by done. intros _. split; [|done]. intros a Ha. apply Hus. by right.
    + intros Hj'. destruct (sp_table _ _ HS j Hj Hj') as [Hu Hne]. split; [by apply Hm|done].
  - assert (Hfresh : ∀ j, 0 ≤ j < 1024 → isEntryExist (dirE (vm_mem st) pdir j) = true →
      caddrEntry (dirE (vm_mem st) pdir j) ≠ table).
    { intros j Hj Hx E. apply (fresh_ne st table table); [done| |done].
      rewrite <-E. by apply (sp_table _ _ HS). }
    intros j k Hj Hk. rewrite !new_table_dir by done.
    repeat case_decide; subst; rewrite ?caddr_pte by done; try done.
    + intros _ Hx E. by destruct (Hfresh k).
    + intros Hx _ E. by destruct (Hfresh j).
    + by apply (sp_inj _ _ HS).
Qed.

Lemma new_table_translate st pdir i table type va :
  Space st pdir → 0 ≤ i < 1024 → isEntryExist (dirE (vm_mem st) pdir i) = false →
  table `mod` 4096 = 0 → 0 ≤ table → table + 4096 < 4294967296 →
  (∀ a, table ≤ a < table + 4096 → ¬ fa_used (vm_pf st) a) → is_va va →
  translate (new_table (vm_mem st) pdir i table type) pdir va = translate (vm_mem st) pdir va.
Proof.
  intros HS Hi Hex Hal H0 Hhi Hfr Hva. pose proof (slot_range va Hva) as Hs.
  assert (Ht : is_u32 table) by (unfold is_u32; lia).
  assert (Htp : table ≠ pdir) by (apply (fresh_ne st); [done|apply HS]).
  assert (Hd : pdir + 4096 ≤ table ∨ table + 4096 ≤ pdir).
  { apply page_disjoint; [apply HS|done|done]. }
  assert (Ed : dir_entry (new_table (vm_mem st) pdir i table type) pdir va =
    if decide (va / 4194304 = i) then pte table type else dir_entry (vm_mem st) pdir va).
  { exact (new_table_dir (vm_mem st) pdir i table type _ Hi Hs Ht Hd). }
  case_decide as Esl.
  - (* the slot was empty: every entry of the new table is absent *)
    assert (E0 : dir_entry (vm_mem st) pdir va = dirE (vm_mem st) pdir i).
    { unfold dir_entry, dirE. by rewrite Esl. }
    unfold translate. rewrite E0, Hex. destruct (isEntryExist (dir_entry _ _ _)); [|done].
    unfold table_entry. rewrite Ed, caddr_pte by done. unfold new_table.
    destruct (disableAllEntry_spec (editEntry (vm_mem st) (pdir + 4 * i) table type) table) as (Hz & _).
    rewrite Hz by apply idx_range. done.
  - apply translate_ext; [exact Ed|]. intros Hx. unfold table_entry. rewrite Ed.
    destruct (sp_table _ _ HS _ Hs Hx) as [Hu Hne].
    apply new_table_other; [done|apply idx_range|..].
    + apply page_disjoint; [by apply table_aligned|done|]. intros E. symmetry in E. revert E.
      apply (fresh_ne st); done.
    + apply page_disjoint; [by apply table_aligned|apply HS|done].
Qed.

(** [get_table] finds or makes the table of the slot and changes no
    translation. *)
Lemma get_table_ok st pdir va type n :
  Space st pdir → fa_ready (vm_pf st) (S n) → is_va va → Z.odd type = true →
  ∃ st', get_table st va pdir type = Ok (caddrEntry (dir_entry (vm_mem st') pdir va), st') ∧
    Space st' pdir ∧ fa_ready (vm_pf st') n ∧
    isEntryExist (dir_entry (vm_mem st') pdir va) = true ∧
    (∀ va', is_va va' → translate (vm_mem st') pdir va' = translate (vm_mem st) pdir va') ∧
    (∀ a, fa_used (vm_pf st) a → fa_used (vm_pf st') a).
Proof.
  intros HS Hr Hva Hty. pose proof (slot_range va Hva) as Hs.
  unfold get_table. fold (dirE (vm_mem st) pdir (va / 4194304)).
  fold (dir_entry (vm_mem st) pdir va).
  destruct (isEntryExist (dir_entry (vm_mem st) pdir va)) eqn:Ex; cbn [negb].
  { exists st. split_and!; try done. eapply fa_ready_le; [|done]. lia. }
  destruct (fa_alloc_spec _ _ Hr) as (p & pf' & E & Hr' & Hal & H0 & Hhi & Hus & Hfr).
  rewrite E. cbn [mbind res_bind].
  pose proof (new_table_space st pf' pdir (va / 4194304) p type
    HS Hs Ex Hty Hal H0 Hhi Hus Hfr) as HS'.
  set (st' := mkVM (new_table (vm_mem st) pdir (va / 4194304) p type) pf') in *.
  assert (Ed : dir_entry (vm_mem st') pdir va = pte p type).
  { unfold dir_entry, st'; cbn [vm_mem]. rewrite new_table_dir, decide_True; try done.
    - unfold is_u32; lia.
    - apply page_disjoint; [apply HS|done|]. intros E'. symmetry in E'. revert E'.
      apply (fresh_ne st); [done|apply HS]. }
  assert (Hp : is_u32 p) by (unfold is_u32; lia).
  exists st'. split_and!.
  - rewrite Ed, caddr_pte by assumption. reflexivity.
  - exact HS'.
  - exact Hr'.
  - rewrite Ed, exist_pte by assumption. exact Hty.
  - intros va' Hva'. by apply new_table_translate.
  - intros a Ha. apply Hus. by left.
Qed.

(** Setting an entry of a table. *)
Lemma set_entry_ok st pf' pdir va p type :
  Space st pdir → is_va va → isEntryExist (dir_entry (vm_mem st) pdir va) = true →
  is_u32 p → p `mod` 4096 = 0 → Z.odd type = true →
  (∀ a, fa_used (vm_pf st) a → fa_used pf' a) →
  let st' := mkVM (editEntry (vm_mem st) (caddrEntry (dir_entry (vm_mem st) pdir va) +
                     4 * (va `mod` 4194304 / 4096)) p type) pf' in
  Space st' pdir ∧
  (∀ va', is_va va' → translate (vm_mem st') pdir va' =
     if decide (va' / 4096 = va / 4096) then Some (p + va' `mod` 4096)
     else translate (vm_mem st) pdir va').
Proof.
  intros HS Hva Hex Hp Hal Hty Hmono. pose proof (slot_range va Hva) as Hs.
  pose proof (idx_range va) as Hk.
  pose proof (table_aligned st pdir (va / 4194304) HS) as Hta.
  destruct (sp_table _ _ HS _ Hs Hex) as [Htu Htp].
  unfold dir_entry in Hex |- *. set (t := caddrEntry (dirE (vm_mem st) pdir (va / 4194304))) in *.
  assert (Hpd : t + 4096 ≤ pdir ∨ pdir + 4096 ≤ t) by (apply page_disjoint; [done|apply HS|done]).
  set (st' := mkVM _ pf').
  assert (Hdir : ∀ i, 0 ≤ i < 1024 → dirE (vm_mem st') pdir i = dirE (vm_mem st) pdir i).
  { intros i Hi. unfold dirE, st'; cbn [vm_mem]. apply editEntry_ne. lia. }
  split.
  - constructor; [apply editEntry_bytes, HS|apply HS|..].
    + intros a Ha. apply Hmono. by apply (sp_used _ _ HS).
    + intros i Hi. rewrite Hdir by done. intros Hx. destruct (sp_table _ _ HS i Hi Hx) as [Hu Hn].
      split; [|done]. intros a Ha. by apply Hmono, Hu.
    + intros i j Hi Hj. rewrite !Hdir by done. by apply (sp_inj _ _ HS).
  - intros va' Hva'. pose proof (slot_range va' Hva') as Hs'.
    unfold translate, table_entry, dir_entry. rewrite !Hdir by done.
    unfold st'; cbn [vm_mem]. case_decide as Epg.
    + assert (Esl : va' / 4194304 = va / 4194304) by (unfold is_va in *; Z.div_mod_to_equations; lia).
      assert (Eix : va' `mod` 4194304 / 4096 = va `mod` 4194304 / 4096)
        by (unfold is_va in *; Z.div_mod_to_equations; lia).
      rewrite Esl, Eix, Hex. fold t. rewrite editEntry_eq by done.
      by rewrite exist_pte, Hty, caddr_pte by done.
    + destruct (isEntryExist (dirE (vm_mem st) pdir (va' / 4194304))) eqn:Ex'; [|done].
      rewrite editEntry_ne; [done|]. pose proof (idx_range va') as Hk'.
      destruct (decide (va' / 4194304 = va / 4194304)) as [Esl|Esl].
      * rewrite Esl. fold t. unfold is_va in *. Z.div_mod_to_equations; lia.
      * assert (Hne : caddrEntry (dirE (vm_mem st) pdir (va' / 4194304)) ≠ t).
        { intros E. apply Esl. by apply (sp_inj _ _ HS). }
        apply page_disjoint in Hne; [lia|by apply table_aligned|done].
Qed.

(** An address that was mapped is mapped as before; one that was not now refers
    to a frame that was free. *)
Definition kept_or_new st st' pdir va : Prop :=
  match translate (vm_mem st) pdir va with
  | Some x => translate (vm_mem st') pdir va = Some x
  | None => ∃ p, translate (vm_mem st') pdir va = Some (p + va `mod` 4096) ∧ p `mod` 4096 = 0 ∧
      (∀ a, p ≤ a < p + 4096 → ¬ fa_used (vm_pf st) a) ∧ page_used st' p
  end.

(** Addresses of one page are mapped or unmapped together. *)
Lemma translate_same_page m pdir va va' :
  is_va va → is_va va' → va' / 4096 = va / 4096 →
  translate m pdir va = None → translate m pdir va' = None.
Proof.
  intros Hva Hva' E. unfold translate, table_entry, dir_entry.
  assert (Esl : va' / 4194304 = va / 4194304) by (unfold is_va in *; Z.div_mod_to_equations; lia).
  assert (Eix : va' `mod` 4194304 / 4096 = va `mod` 4194304 / 4096)
    by (unfold is_va in *; Z.div_mod_to_equations; lia).
  rewrite Esl, Eix. destruct (isEntryExist _); [|done]. by destruct (isEntryExist _).
Qed.

Lemma enable_page_ok st pdir va type n :
  Space st pdir → fa_ready (vm_pf st) (S (S n)) → is_va va → Z.odd type = true →
  ∃ st', enable_page st va pdir type = Ok st' ∧ Space st' pdir ∧ fa_ready (vm_pf st') n ∧
    (∀ a, fa_used (vm_pf st) a → fa_used (vm_pf st') a) ∧
    (∀ va', is_va va' → va' / 4096 ≠ va / 4096 →
       translate (vm_mem st') pdir va' = translate (vm_mem st) pdir va') ∧
    (∀ va', is_va va' → va' / 4096 = va / 4096 → kept_or_new st st' pdir va').
Proof.
  intros HS Hr Hva Hty.
  destruct (get_table_ok st pdir va type (S n)) as (st1 & E1 & HS1 & Hr1 & Hx1 & Htr1 & Hm1);
    try assumption.
  unfold enable_page. rewrite E1. cbn [mbind res_bind]. clear E1.
  fold (table_entry (vm_mem st1) pdir va).
  destruct (isEntryExist (table_entry (vm_mem st1) pdir va)) eqn:Ex; cbn [negb].
  - exists st1. split_and!; try assumption; [reflexivity|..].
    + eapply fa_ready_le; [|exact Hr1]. lia.
    + intros va' Hva' _. by apply Htr1.
    + intros va' Hva' E. unfold kept_or_new. rewrite <-Htr1 by done.
      destruct (translate (vm_mem st1) pdir va') eqn:Et; [done|].
      apply (translate_same_page _ _ va' va) in Et; [|done..].
      unfold translate in Et. by rewrite Hx1, Ex in Et.
  - destruct (fa_alloc_spec _ _ Hr1) as (p & pf' & E & Hr' & Hal & H0 & Hhi & Hus & Hfr).
    rewrite E. cbn [mbind res_bind].
    destruct (set_entry_ok st1 pf' pdir va p type) as [HS' Htr']; try assumption.
    { unfold is_u32; lia. } { intros a Ha. apply Hus. by left. }
    eexists. split_and!; [reflexivity|exact HS'|exact Hr'|..].
    + intros a Ha. apply Hus. left. by apply Hm1.
    + intros va' Hva' Hne. rewrite Htr', decide_False by done. by apply Htr1.
    + intros va' Hva' Heq. unfold kept_or_new. rewrite <-Htr1 by done.
      rewrite (translate_same_page (vm_mem st1) pdir va va'); try done.
      2: { unfold translate. by rewrite Hx1, Ex. }
      exists p. rewrite Htr', decide_True by done. split_and!; [done|done|..].
      * intros a Ha Hu. apply (Hfr a Ha). by apply Hm1.
      * intros a Ha. apply Hus. by right.
Qed.

(** What the first [j] iterations of [enableSpace] from the page at [begin] have
    done. *)
Record Enabled st st' pdir (begin j : Z) : Prop := {
  en_space : Space st' pdir;
  en_used : ∀ a, fa_used (vm_pf st) a → fa_used (vm_pf st') a;
  en_other : ∀ va, is_va va → ¬ (begin ≤ va < begin + j * 4096) →
    translate (vm_mem st') pdir va = translate (vm_mem st) pdir va;
  en_mapped : ∀ va, is_va va → begin ≤ va < begin + j * 4096 → kept_or_new st st' pdir va;
  en_distinct : ∀ va1 va2 p, is_va va1 → is_va va2 →
    begin ≤ va1 < begin + j * 4096 → begin ≤ va2 < begin + j * 4096 →
    translate (vm_mem st) pdir va1 = None → translate (vm_mem st) pdir va2 = None →
    translate (vm_mem st') pdir va1 = Some (p + va1 `mod` 4096) →
    translate (vm_mem st') pdir va2 = Some (p + va2 `mod` 4096) → va1 / 4096 = va2 / 4096
}.

Lemma Enabled_0 st pdir begin : Space st pdir → Enabled st st pdir begin 0.
Proof. intros HS. constructor; [done|done|done|lia|lia]. Qed.

Lemma Enabled_step st st1 st2 pdir begin j :
  begin `mod` 4096 = 0 → 0 ≤ j → 0 ≤ begin → begin + j * 4096 < 4294967296 →
  Enabled st st1 pdir begin j → Space st2 pdir →
  (∀ a, fa_used (vm_pf st1) a → fa_used (vm_pf st2) a) →
  (∀ va, is_va va → va / 4096 ≠ (begin + j * 4096) / 4096 →
     translate (vm_mem st2) pdir va = translate (vm_mem st1) pdir va) →
  (∀ va, is_va va → va / 4096 = (begin + j * 4096) / 4096 → kept_or_new st1 st2 pdir va) →
  Enabled st st2 pdir begin (j + 1).
Proof.
  intros Hal Hj Hb Hhi [HS1 Hu1 Ho1 Hm1 Hd1] HS2 Hu2 Ho2 Hm2.
  assert (Hpg : ∀ va, va / 4096 = (begin + j * 4096) / 4096 ↔
    begin + j * 4096 ≤ va < begin + (j + 1) * 4096) by (intros; Z.div_mod_to_equations; lia).
  assert (Hold : ∀ va, is_va va → ¬ (begin + j * 4096 ≤ va < begin + (j + 1) * 4096) →
    translate (vm_mem st2) pdir va = translate (vm_mem st1) pdir va).
  { intros va Hva Hn. apply Ho2; [done|]. by rewrite Hpg. }
  (* the frame of a page mapped by an earlier iteration is in use before this one *)
  assert (Hfr : ∀ va1 va2 p, is_va va1 → is_va va2 → begin ≤ va1 < begin + j * 4096 →
    begin + j * 4096 ≤ va2 < begin + (j + 1) * 4096 →
    translate (vm_mem st) pdir va1 = None → translate (vm_mem st) pdir va2 = None →
    translate (vm_mem st2) pdir va1 = Some (p + va1 `mod` 4096) →
    translate (vm_mem st2) pdir va2 = Some (p + va2 `mod` 4096) → False).
  { intros va1 va2 p Hv1 Hv2 Hr1 Hr2 Hn1 Hn2 E1 E2. rewrite Hold in E1 by (done || lia).
    specialize (Hm1 va1 Hv1 Hr1). specialize (Hm2 va2 Hv2 (proj2 (Hpg va2) Hr2)).
    unfold kept_or_new in Hm1, Hm2. rewrite Hn1 in Hm1. rewrite Ho1, Hn2 in Hm2 by (done || lia).
    destruct Hm1 as (p1 & E1' & _ & _ & Hpu). destruct Hm2 as (p2 & E2' & _ & Hf2 & _).
    rewrite E1 in E1'. rewrite E2 in E2'. injection E1' as E1'. injection E2' as E2'.
    apply (Hf2 p2); [lia|]. apply Hpu. lia. }
  constructor; [done|auto|..].
  - intros va Hva Hn. rewrite Hold by (done || lia). apply Ho1; [done|lia].
  - intros va Hva Hr. destruct (decide (va < begin + j * 4096)).
    + specialize (Hm1 va Hva ltac:(lia)). unfold kept_or_new in *.
      rewrite Hold by (done || lia). destruct (translate (vm_mem st) pdir va); [done|].
      destruct Hm1 as (p & E & Ha & Hf & Hpu). exists p. split_and!; try done.
      intros a Ha'. by apply Hu2, Hpu.
    + assert (Hr' : begin + j * 4096 ≤ va < begin + (j + 1) * 4096) by lia.
      specialize (Hm2 va Hva (proj2 (Hpg va) Hr')). unfold kept_or_new in *.
      rewrite Ho1 in Hm2 by (done || lia). destruct (translate (vm_mem st) pdir va); [done|].
      destruct Hm2 as (p & E & Ha & Hf & Hpu). exists p. split_and!; try done.
      intros a Ha' Hu. by apply (Hf a Ha'), Hu1.
  - intros va1 va2 p Hv1 Hv2 Hr1 Hr2 Hn1 Hn2 E1 E2.
    destruct (decide (va1 < begin + j * 4096)), (decide (va2 < begin + j * 4096)).
    + rewrite Hold in E1, E2 by (done || lia). apply (Hd1 va1 va2 p); (done || lia).
    + exfalso. apply (Hfr va1 va2 p); (done || lia).
    + exfalso. apply (Hfr va2 va1 p); (done || lia).
    + transitivity ((begin + j * 4096) / 4096); [|symmetry]; apply Hpg; lia.
Qed.

Lemma enableSpace_spec st pdir va size type n :
  Space st pdir → Z.odd type = true → 0 ≤ va → 0 ≤ size → va + size + 4095 < 4294967296 →
  let begin := va / 4096 * 4096 in
  let pages := (va + size + 4095) / 4096 - va / 4096 in
  fa_ready (vm_pf st) (2 * Z.to_nat pages + n) →
  ∃ st', enableSpace st va size pdir type = Ok st' ∧ fa_ready (vm_pf st') n ∧
    Enabled st st' pdir begin pages ∧
    (∀ a, va ≤ a < va + size → is_Some (translate (vm_mem st') pdir a)).
Proof.
  intros HS Hty Hva Hsz Hhi begin pages Hr.
  assert (Hpg : 0 ≤ pages ∧ begin + pages * 4096 = (va + size + 4095) / 4096 * 4096).
  { unfold pages, begin. Z.div_mod_to_equations; lia. }
  assert (Hbeg : 0 ≤ begin ≤ va ∧ begin `mod` 4096 = 0).
  { unfold begin. split; [Z.div_mod_to_equations; lia|by rewrite Z_mod_mult]. }
  assert (Hend : va + size ≤ begin + pages * 4096 < 4294967296).
  { destruct Hpg as [_ ->]. Z.div_mod_to_equations; lia. }
  unfold enableSpace.
  rewrite FLOOR_4K, (u32_id (va + size)), CEIL_4K by (unfold is_u32; lia). fold begin.
  rewrite <-(proj2 Hpg). replace (begin + pages * 4096 - begin) with (pages * 4096) by lia.
  rewrite u32_id, Z.div_mul, s32_id by (unfold is_u32, is_s32; lia). clearbody pages begin.
  pose (P := λ (j : Z) (st' : vm A), Enabled st st' pdir begin j ∧
    fa_ready (vm_pf st') (2 * Z.to_nat (pages - j) + n)).
  destruct (for_loop_res_ind P (Z.to_nat pages) 0
    (λ i st, enable_page st (u32 (begin + i * 4096)) pdir type) st) as (st' & E & HE & Hr').
  - split; [by apply Enabled_0|]. by rewrite Z.sub_0_r.
  - intros j st1 Hj [HE1 Hr1]. rewrite u32_id by (unfold is_u32; lia).
    destruct (enable_page_ok st1 pdir (begin + j * 4096) type (2 * Z.to_nat (pages - (j + 1)) + n))
      as (st2 & E2 & HS2 & Hr2 & Hu2 & Ho2 & Hm2); try done.
    { apply HE1. }
    { replace (S (S _)) with (2 * Z.to_nat (pages - j) + n)%nat by lia. done. }
    { unfold is_va. lia. }
    exists st2. split; [done|]. split; [|done].
    eapply Enabled_step; try done; lia.
  - rewrite E. replace (0 + Z.of_nat (Z.to_nat pages)) with pages in HE, Hr' by lia.
    exists st'. split_and!; [done| |done|].
    + eapply fa_ready_le; [|exact Hr']. lia.
    + intros a Ha. assert (Hr1 : begin ≤ a < begin + pages * 4096) by lia.
      pose proof (en_mapped _ _ _ _ _ HE a ltac:(unfold is_va; lia) Hr1) as Hk.
      unfold kept_or_new in Hk. destruct (translate (vm_mem st) pdir a); [by eexists|].
      destruct Hk as (p & Hk & _). by eexists.
Qed.

(** What was mapped stays mapped. *)
Lemma Enabled_keeps st st' pdir begin j a : Enabled st st' pdir begin j → is_va a →
  is_Some (translate (vm_mem st) pdir a) → is_Some (translate (vm_mem st') pdir a).
Proof.
  intros HE Ha Hm. destruct (decide (begin ≤ a < begin + j * 4096)) as [Hin|Hout].
  - pose proof (en_mapped _ _ _ _ _ HE a Ha Hin) as Hk. unfold kept_or_new in Hk.
    destruct (translate (vm_mem st) pdir a); [by eexists|]. by destruct Hm.
  - by rewrite (en_other _ _ _ _ _ HE) by done.
Qed.

(** C2: [enableSpace] on an address space whose directory and tables are
    distinct allocated frames, with enough free frames (two per page suffice),
    succeeds.  Afterwards every address of the pages from [FLOOR(va)] up to
    [CEIL(va+size)] is mapped: where it was mapped before it is mapped as before,
    otherwise to a frame that was free, and different new pages get different
    frames; every address outside the range is mapped as before, and the
    directory and tables are still distinct allocated frames. *)
Theorem enableSpace_correct st pdir va size type n :
  Space st pdir → Z.odd type = true → 0 ≤ va → 0 ≤ size → va + size + 4095 < 4294967296 →
  let begin := va / 4096 * 4096 in
  let pages := (va + size + 4095) / 4096 - va / 4096 in
  fa_ready (vm_pf st) (2 * Z.to_nat pages + n) →
  ∃ st', enableSpace st va size pdir type = Ok st' ∧ fa_ready (vm_pf st') n ∧
    Enabled st st' pdir begin pages ∧
    (∀ a, va ≤ a < va + size → is_Some (translate (vm_mem st') pdir a)).
Proof. apply enableSpace_spec. Qed.

Lemma vir2phy_spec st pdir cr3 va :
  Space st pdir → pdir ≠ 0 → is_va va →
  vir2phy (vm_mem st) cr3 va pdir = default 0 (translate (vm_mem st) pdir va).
Proof.
  intros HS Hp Hva. unfold vir2phy, translate, table_entry, dir_entry, dirE.
  rewrite (proj2 (Z.eqb_neq pdir 0) Hp).
  destruct (isEntryExist (load32 _ (pdir + _))); cbn [negb]; [|done].
  set (e := load32 (vm_mem st) (caddrEntry _ + _)).
  destruct (isEntryExist e); cbn [negb default]; [|done].
  pose proof (caddr_aligned e (load32_range _ _ (sp_bytes _ _ HS))) as [Ha Hr].
  change 4095 with (Z.ones 12). rewrite Z.land_ones by lia. change (2 ^ 12) with 4096.
  pose proof (Z.mod_pos_bound va 4096). unfold default, id. apply u32_id. unfold is_u32. lia.
Qed.

(** [vir2phy] returns the address that the paging unit would use, and NULL
    where the address is not mapped. *)
Theorem vir2phy_translate st pdir cr3 va :
  Space st pdir → pdir ≠ 0 → is_va va →
  vir2phy (vm_mem st) cr3 va pdir = default 0 (translate (vm_mem st) pdir va).
Proof. apply vir2phy_spec. Qed.

End space.

(** ** [copyKernelDir] *)

Lemma copy_loop_spec m kPdir pdir lo (n : nat) :
  bytes_ok m → 0 ≤ lo → lo + Z.of_nat n ≤ 1024 → kPdir + 4096 ≤ pdir ∨ pdir + 4096 ≤ kPdir →
  let m' := for_loop n lo (λ i m, store32 m (pdir + 4 * i) (load32 m (kPdir + 4 * i))) m in
  bytes_ok m' ∧
  (∀ b, b + 4 ≤ pdir ∨ pdir + 4096 ≤ b → load32 m' b = load32 m b) ∧
  (∀ k, 0 ≤ k < 1024 → dirE m' pdir k =
     if decide (lo ≤ k < lo + Z.of_nat n) then dirE m kPdir k else dirE m pdir k).
Proof.
  intros Hok Hlo Hhi Hd m'.
  pose (P := λ (i : Z) (m' : mem), bytes_ok m' ∧
    (∀ b, b + 4 ≤ pdir ∨ pdir + 4096 ≤ b → load32 m' b = load32 m b) ∧
    (∀ k, 0 ≤ k < 1024 → dirE m' pdir k =
       if decide (lo ≤ k < i) then dirE m kPdir k else dirE m pdir k)).
  enough (H : P (lo + Z.of_nat n) m') by exact H.
  apply (for_loop_ind P); unfold P; clear P.
  - split_and!; [done|done|]. intros k Hk. by rewrite decide_False by lia.
  - intros j t Hj (Ht & Hb & He). split_and!; [by apply bytes_ok_store32|..].
    + intros b H. rewrite load32_store32_ne by lia. by apply Hb.
    + intros k Hk. unfold dirE in *. destruct (decide (k = j)) as [->|].
      * rewrite load32_store32_eq, decide_True by (lia || by apply load32_range). apply Hb. lia.
      * rewrite load32_store32_ne, He by lia. by repeat case_decide; (done || lia).
Qed.

Lemma copyKernelDir_spec m kPdir mem_size pdir :
  bytes_ok m → kPdir + 4096 ≤ pdir ∨ pdir + 4096 ≤ kPdir → 0 ≤ mem_size < 3758096384 →
  let m' := copyKernelDir m kPdir mem_size pdir in
  (∀ i, 0 ≤ i < 1024 → dirE m' pdir i =
     if decide (i < mem_size / dir_entrySize ∨ i = 896) then dirE m kPdir i else 0) ∧
  (∀ b, b + 4 ≤ pdir ∨ pdir + 4096 ≤ b → load32 m' b = load32 m b) ∧ bytes_ok m'.
Proof.
  intros Hok Hd Hsz. unfold copyKernelDir. cbv zeta.
  destruct (disableAllEntry_spec m pdir) as (Hz & Hne & Hb). set (m0 := disableAllEntry m pdir) in *.
  clearbody m0. assert (Hnr : 0 ≤ mem_size / dir_entrySize < 896).
  { unfold dir_entrySize. Z.div_mod_to_equations; lia. }
  destruct (copy_loop_spec m0 kPdir pdir 0 (Z.to_nat (mem_size / dir_entrySize)))
    as (Hok1 & Hne1 & He1); [auto|lia|lia|done|].
  set (m1 := for_loop _ 0 _ m0) in *. clearbody m1.
  destruct (copy_loop_spec m1 kPdir pdir 896 1) as (Hok2 & Hne2 & He2); [done|lia|lia|done|].
  change (3758096384 / dir_entrySize) with 896. change (3760193536 / dir_entrySize) with 896.
  change (Z.to_nat (896 - 896 + 1)) with 1%nat. set (m2 := for_loop 1 896 _ m1) in *. clearbody m2.
  assert (Hk : ∀ i, 0 ≤ i < 1024 → dirE m1 kPdir i = dirE m kPdir i ∧ dirE m0 kPdir i = dirE m kPdir i).
  { intros i Hi. unfold dirE. rewrite Hne1, Hne by lia. done. }
  split_and!; [| |exact Hok2].
  - intros i Hi. rewrite He2, He1 by done. destruct (Hk i Hi) as [-> ->].
    assert (E0 : dirE m0 pdir i = 0) by by apply Hz. rewrite E0.
    by repeat case_decide; (done || lia).
  - intros b H. by rewrite Hne2, Hne1, Hne.
Qed.

(** [copyKernelDir] gives a new directory the kernel's straight-mapped
    slots (4 MiB each, up to the memory size) and the slot of the video memory,
    clears every other slot, and changes no memory outside the new directory. *)
Theorem copyKernelDir_correct m kPdir mem_size pdir :
  bytes_ok m → kPdir + 4096 ≤ pdir ∨ pdir + 4096 ≤ kPdir → 0 ≤ mem_size < 3758096384 →
  let m' := copyKernelDir m kPdir mem_size pdir in
  (∀ i, 0 ≤ i < 1024 → dirE m' pdir i =
     if decide (i < mem_size / dir_entrySize ∨ i = 896) then dirE m kPdir i else 0) ∧
  (∀ b, b + 4 ≤ pdir ∨ pdir + 4096 ≤ b → load32 m' b = load32 m b).
Proof.
  intros Hok Hd Hsz. destruct (copyKernelDir_spec m kPdir mem_size pdir Hok Hd Hsz) as (H1 & H2 & _). by split.
Qed.

Lemma copyKernelDir_correct_witness :
  dirE (copyKernelDir (store32 ∅ 4096 8211) 4096 4194304 8192) 8192 0 = 8211.
Proof.
  destruct (copyKernelDir_correct (store32 ∅ 4096 8211) 4096 4194304 8192) as [H _].
  - apply bytes_ok_store32, bytes_ok_empty.
  - lia.
  - lia.
  - rewrite (H 0) by lia. reflexivity.
Defined.

#[local] Transparent disableAllEntry editEntry.

(** ** Concrete runs with [PFAllocator] *)

Definition ex_vm : vm PFAllocator.state := mkVM ∅ PFAllocator.ex.

Lemma ex_space : Space ex_vm 1048576.
Proof.
  assert (Hz : ∀ i, dirE (vm_mem ex_vm) 1048576 i = 0) by done.
  constructor; try (intros i; rewrite Hz); [apply bytes_ok_empty|reflexivity| |done|].
  - intros a Ha. exists [0%nat], [1%nat]. split; [apply PFAllocator.wf_ex|].
    intros (i & ->%list_elem_of_singleton & Ho). unfold PFAllocator.owns in Ho. cbn in Ho. lia.
  - intros j _ _. by rewrite Hz.
Qed.

Lemma ex_ready : fa_ready (vm_pf ex_vm) 4.
Proof.
  exists [0%nat], [1%nat]. split_and!; [apply PFAllocator.wf_ex|reflexivity|].
  cbn. unfold PFAllocator.MaxNumSeg. lia.
Qed.

Lemma enableSpace_correct_witness :
  ∃ st', enableSpace ex_vm sys_stack_begin_init 8192 1048576 userpage = Ok st' ∧
    is_Some (translate (vm_mem st') 1048576 1073741820).
Proof.
  destruct (enableSpace_correct ex_vm 1048576 sys_stack_begin_init 8192 userpage 0)
    as (st' & E & _ & _ & Hm).
  - exact ex_space.
  - reflexivity.
  - unfold sys_stack_begin_init; lia.
  - lia.
  - unfold sys_stack_begin_init; lia.
  - exact ex_ready.
  - exists st'. split; [exact E|]. apply Hm. unfold sys_stack_begin_init; lia.
Defined.

Lemma vir2phy_translate_witness :
  vir2phy (vm_mem ex_vm) 0 4096 1048576 = default 0 (translate (vm_mem ex_vm) 1048576 4096).
Proof. apply (vir2phy_translate ex_vm 1048576 0 4096); [exact ex_space|lia|unfold is_va; lia]. Defined.

(** the straight mapping of [initPaging] is wrong above 4 MiB: each page
    table maps its 1024 pages to the first 4 MiB of memory, so with 8 MiB the
    address 0x401000 is translated to 0x1000, while below 4 MiB and in the video
    memory addresses are translated to themselves. *)
Theorem initPaging_maps_only_first_4M :
  (pf ← PFAllocator.addChunk PFAllocator.PFAllocator_new 1048576 2097152;
   '(kPdir, _, st) ← initPaging (mkVM ∅ pf) 8388608 0;
   Ok (translate (vm_mem st) kPdir 4096, translate (vm_mem st) kPdir 4198400,
       translate (vm_mem st) kPdir 3758100480)) = Ok (Some 4096, Some 4096, Some 3758100480).
Proof. vm_compute. reflexivity. Qed.

End VarMem.
