(* ===== verification/Timer.v ===== *)
(** * Timer.cpp: the timer list

    [Timer::head] is a singly linked list of heap-allocated entries, ordered by
    the remaining clocks.  The entries are reachable only through this list, so
    the state holds the entries in list order; a walk with [entry **p] is a
    recursion over the list.  ([reset_quantum] and [timerHandler] read the [next]
    field of an entry just after [kfree]; [kfree] writes block headers only, so
    the field is still intact.)  The interrupt handler [timerHandler] is in
    [Sched.v], because it wakes processes. *)

From S2P Require Import Prelude.
From Stdlib Require Import Sorting.Sorted.

Module Timer.

Definition interval : Z := 10.

(** [enum type{INVALID,WatchDog,TaskSwitch,Wakeup}]. *)
Inductive type := INVALID | WatchDog | TaskSwitch | Wakeup.

#[global] Instance type_eq_dec : EqDecision type.
Proof. solve_decision. Defined.

Record entry := mkEntry {
  clocks : Z;
  ty : type;
  pr_id : Z
}.

Record Timer := mkTimer {
  head : list entry;
  quantum_exceeded : bool;
  msecond : Z;
  second : Z
}.

(** [Timer::Timer()]. *)
Definition Timer_new : Timer := mkTimer [] false 0 0.

Definition with_head (t : Timer) (l : list entry) : Timer :=
  mkTimer l (quantum_exceeded t) (msecond t) (second t).

Definition with_quantum (t : Timer) (b : bool) : Timer :=
  mkTimer (head t) b (msecond t) (second t).

(** The walk of [set]: in front of the first entry with more clocks. *)
Fixpoint set_walk (a : entry) (l : list entry) : list entry :=
  match l with
  | [] => [a]
  | p :: l' => if clocks p >? clocks a then a :: p :: l' else p :: set_walk a l'
  end.

(** [void Timer::set(int clocks,type t,u32_t pr_id)]. *)
Definition set (t : Timer) (clocks_ : Z) (ty_ : type) (pr_id_ : Z) : Timer :=
  with_head t (set_walk (mkEntry (s32 clocks_) ty_ (u32 pr_id_)) (head t)).

(** [void Timer::passClocks(u16_t clocks)]. *)
Definition pass_entry (n : Z) (e : entry) : entry := mkEntry (s32 (clocks e - n)) (ty e) (pr_id e).

Definition passClocks (t : Timer) (n : Z) : Timer := with_head t (pass_entry n <$> head t).

(** The deletion loop of [reset_quantum]. *)
Fixpoint drop_switches (l : list entry) : list entry :=
  match l with
  | [] => []
  | p :: l' => if bool_decide (ty p = TaskSwitch) then drop_switches l' else p :: drop_switches l'
  end.

(** [void Timer::reset_quantum(int clocks,u32_t pr_id)]. *)
Definition reset_quantum (t : Timer) (clocks_ pr_id_ : Z) : Timer :=
  set (with_head t (drop_switches (head t))) clocks_ TaskSwitch pr_id_.

(** The clock part of [timerHandler]: [msecond] is a [u8_t], [second] a [u32_t]. *)
Definition tick_clock (t : Timer) : Timer :=
  let ms := u8 (msecond t + interval) in
  if ms >? 1000 then mkTimer (head t) (quantum_exceeded t) 0 (u32 (second t + 1))
  else mkTimer (head t) (quantum_exceeded t) ms (second t).

(** ** Properties *)

(** Entries in order of their remaining clocks. *)
Definition ordered (l : list entry) : Prop := StronglySorted Z.le (clocks <$> l).

(** Clock values far enough from the smallest [int] that [k] more ticks do not
    wrap. *)
Definition no_wrap (k : Z) (l : list entry) : Prop :=
  ∀ e, e ∈ l → -2147483648 + k ≤ clocks e < 2147483648.

Lemma set_walk_perm a l : set_walk a l ≡ₚ a :: l.
Proof.
  induction l as [|p l IH]; cbn; [done|]. split_if; [done|]. rewrite IH. apply Permutation_swap.
Qed.

Lemma set_walk_ordered a l : ordered l → ordered (set_walk a l).
Proof.
  unfold ordered. induction l as [|p l IH]; intros H; cbn.
  { repeat constructor. }
  inversion_clear H as [|? ? Hs Hf]. split_if.
  - constructor; [by constructor|]. cbn. constructor; [lia|].
    eapply Forall_impl; [exact Hf|]. cbn. intros; lia.
  - cbn. constructor; [by apply IH|]. rewrite Forall_forall in *. intros x Hx.
    apply list_elem_of_fmap in Hx as (e & -> & He). rewrite set_walk_perm in He.
    apply elem_of_cons in He as [->|He]; [lia|]. apply Hf.
    apply list_elem_of_fmap. eauto.
Qed.

(** [set] is stable: the new entry goes behind the entries with as many clocks. *)
Lemma set_walk_split a l :
  ordered l → ∃ l1 l2, l = l1 ++ l2 ∧ set_walk a l = l1 ++ a :: l2 ∧
    (∀ e, e ∈ l1 → clocks e ≤ clocks a) ∧ (∀ e, e ∈ l2 → clocks a < clocks e).
Proof.
  unfold ordered. induction l as [|p l IH]; intros H; cbn.
  { exists [], []. split_and!; try done; intros e He; by apply elem_of_nil in He. }
  inversion_clear H as [|? ? Hs Hf]. split_if.
  - exists [], (p :: l). split_and!; try done.
    { intros e He; by apply elem_of_nil in He. }
    rewrite Forall_forall in Hf. intros e [->|He]%elem_of_cons; [lia|].
    assert (clocks p ≤ clocks e) by (apply Hf, list_elem_of_fmap; eauto). lia.
  - destruct (IH Hs) as (l1 & l2 & -> & E2 & H1 & H2). exists (p :: l1), l2.
    rewrite E2. split_and!; try done. intros e [->|He]%elem_of_cons; [lia|auto].
Qed.

Lemma drop_switches_filter l : drop_switches l = filter (λ e, ty e ≠ TaskSwitch) l.
Proof.
  induction l as [|p l IH]; [done|]. rewrite filter_cons, <-IH. cbn [drop_switches].
  case_bool_decide; case_decide; done.
Qed.

Lemma ordered_filter (P : entry → Prop) {dP : ∀ x, Decision (P x)} l :
  ordered l → ordered (filter P l).
Proof.
  unfold ordered. induction l as [|p l IH]; intros H; [done|]. inversion_clear H as [|? ? Hs Hf].
  rewrite filter_cons. case_decide; [|by apply IH]. cbn. constructor; [by apply IH|].
  rewrite Forall_forall in *. intros x Hx. apply Hf.
  apply list_elem_of_fmap in Hx as (e & -> & He). apply list_elem_of_filter in He as [_ He].
  apply list_elem_of_fmap. eauto.
Qed.

Lemma pass_ordered k l : 0 ≤ k → no_wrap k l → ordered l → ordered (pass_entry k <$> l).
Proof.
  unfold ordered. intros Hk. induction l as [|p l IH]; intros Hw H; cbn; [constructor|].
  inversion_clear H as [|? ? Hs Hf].
  assert (Hw' : no_wrap k l) by (intros e He; apply Hw; by right).
  constructor; [by apply IH|]. rewrite Forall_forall in *. intros x Hx.
  rewrite <-list_fmap_compose in Hx. apply list_elem_of_fmap in Hx as (e & -> & He). cbn.
  assert (clocks p ≤ clocks e) by (apply Hf, list_elem_of_fmap; eauto).
  pose proof (Hw p (list_elem_of_here _ _)). pose proof (Hw' e He).
  rewrite !s32_id by (unfold is_s32; lia). lia.
Qed.

(** the timer list stays ordered by remaining clocks under every operation
    ([passClocks] as long as no counter wraps), so the entry that expires first
    is always at the head. *)
Theorem timer_list_ordered t n c k id :
  ordered (head t) → 0 ≤ n → no_wrap n (head t) →
  ordered (head (set t c k id)) ∧ ordered (head (passClocks t n)) ∧
  ordered (head (reset_quantum t c id)).
Proof.
  intros Ho Hn Hw. split_and!.
  - by apply set_walk_ordered.
  - by apply pass_ordered.
  - apply set_walk_ordered. cbn. rewrite drop_switches_filter. by apply ordered_filter.
Qed.

Lemma timer_list_ordered_witness :
  let t := set (set Timer_new 5 Wakeup 1) 3 Wakeup 2 in
  ordered (head (passClocks t 1)).
Proof.
  apply (timer_list_ordered (set (set Timer_new 5 Wakeup 1) 3 Wakeup 2) 1 0 Wakeup 0).
  - change (StronglySorted Z.le [3; 5]). repeat constructor; lia.
  - lia.
  - intros e He. change (e ∈ [mkEntry 3 Wakeup 2; mkEntry 5 Wakeup 1]) in He.
    rewrite !elem_of_cons in He.
    destruct He as [->|[->|He%elem_of_nil]]; [cbn; lia|cbn; lia|done].
Defined.

Lemma no_switch_filter l :
  (∀ e, e ∈ l → ty e ≠ TaskSwitch) →
  filter (λ e, ty e = TaskSwitch) l = [] ∧ filter (λ e, ty e ≠ TaskSwitch) l = l.
Proof.
  induction l as [|p l IH]; intros H; [done|].
  destruct IH as [E1 E2]; [intros e He; apply H; by right|].
  pose proof (H p (list_elem_of_here _ _)).
  rewrite filter_cons_False, filter_cons_True by tauto. by rewrite E1, E2.
Qed.

Lemma set_walk_filter a l :
  ty a = TaskSwitch → (∀ e, e ∈ l → ty e ≠ TaskSwitch) →
  filter (λ e, ty e = TaskSwitch) (set_walk a l) = [a] ∧
  filter (λ e, ty e ≠ TaskSwitch) (set_walk a l) = l.
Proof.
  intros Ha. induction l as [|p l IH]; intros H; cbn [set_walk].
  { rewrite filter_cons_True, filter_cons_False by tauto. done. }
  pose proof (H p (list_elem_of_here _ _)). split_if.
  - rewrite (filter_cons_True _ a), (filter_cons_False _ a) by tauto.
    by destruct (no_switch_filter _ H) as [-> ->].
  - destruct IH as [E1 E2]; [intros e He; apply H; by right|].
    rewrite filter_cons_False, filter_cons_True by tauto. by rewrite E1, E2.
Qed.

(** after [reset_quantum] exactly one task-switch timer is pending, the one
    just set, and all other timers are unchanged and in the same order. *)
Theorem reset_quantum_single t c id :
  filter (λ e, ty e = TaskSwitch) (head (reset_quantum t c id)) =
    [mkEntry (s32 c) TaskSwitch (u32 id)] ∧
  filter (λ e, ty e ≠ TaskSwitch) (head (reset_quantum t c id)) =
    filter (λ e, ty e ≠ TaskSwitch) (head t).
Proof.
  unfold reset_quantum, set, with_head; cbn [head]. rewrite drop_switches_filter.
  apply set_walk_filter; [done|]. intros e [He _]%list_elem_of_filter. exact He.
Qed.

(** The clock after [n] interrupts. *)
Fixpoint ticks (n : nat) (t : Timer) : Timer :=
  match n with
  | O => t
  | S n' => ticks n' (tick_clock t)
  end.

(** the seconds counter never moves: [msecond] is an 8-bit counter, so the
    test [msecond > 1000] is never true, whatever the number of interrupts. *)
Theorem seconds_never_advance n t : second (ticks n t) = second t.
Proof.
  revert t; induction n as [|n IH]; intros t; [done|]. cbn [ticks]. rewrite IH.
  unfold tick_clock. pose proof (u8_range (msecond t + interval)) as Hr. unfold is_u8 in Hr.
  split_if; [lia|done].
Qed.

End Timer.
