(* ===== verification/Process.v ===== *)
(** * Process.cpp: processes and run queues

    The process table is a [Lessor<Proc,32>]; the run queues are four singly
    linked lists threaded through [Proc::next], one per level.  A [Proc *] is an
    index into the table, NULL is [None]; a [Proc **] is the head of a level or
    the [next] field of a process.  The scheduler itself is in [Task.v]. *)

From S2P Require Import Prelude Chain KType.

Module Process.

(** ** Messages ([include/Ipc.h]) *)

(** The union of the two message bodies is its larger member. *)
Record Message := mkMessage {
  m_id : Z;
  m_type : Z;
  isValid : bool;
  m_p1 : Z;
  m_p2 : Z;
  m_p3 : Z
}.

(** The constructors leave the other members as they are in memory: 0 here. *)
Definition Message_new : Message := mkMessage 0 0 true 0 0 0.
Definition Message_id (id : Z) : Message := mkMessage id 0 true 0 0 0.
Definition Message_valid (b : bool) : Message := mkMessage 0 0 b 0 0 0.

(** [bool operator==(Message &rh)]. *)
Definition Message_eqb (a b : Message) : bool := m_id a =? m_id b.

(** [Message invMessage(false)]. *)
Definition invMessage : Message := Message_valid false.

(** ** Processes ([Process.h]) *)

Inductive STATUS := TASK_INIT | TASK_SLEEP | TASK_RUNNING | TASK_STOPPED.

#[global] Instance STATUS_eq_dec : EqDecision STATUS.
Proof. solve_decision. Defined.

(** The functions a [ret_from] pointer can hold. *)
Inductive callback := kernel2user | ret_from_fork | recv_later | no_callback.

#[global] Instance callback_eq_dec : EqDecision callback.
Proof. solve_decision. Defined.

Record mm_region := mkRegion {
  r_flags : Z;
  r_begin : Z;
  r_size : Z
}.

Definition SYSTEM : Z := 1.
Definition READABLE : Z := 2.
Definition WRITABLE : Z := 4.
Definition EXECUTABLE : Z := 8.

(** The list behind the sentinel [head], in order; its nodes are heap cells that
    only this structure refers to. *)
Record mm_struct := mkMM {
  cr3 : Z;
  regions : list mm_region
}.

(** [void mm_struct::init()]. *)
Definition mm_init (mm : mm_struct) : mm_struct := mkMM (cr3 mm) [].

(** [void mm_struct::add_region(u32_t *begin,u32_t size,u32_t flags)]: behind the
    last region. *)
Definition add_region (mm : mm_struct) (begin size flags : Z) : mm_struct :=
  mkMM (cr3 mm) (regions mm ++ [mkRegion flags begin size]).

(** [void mm_struct::add_region(const mm_region *region)]. *)
Definition add_region_copy (mm : mm_struct) (r : mm_region) : mm_struct :=
  mkMM (cr3 mm) (regions mm ++ [r]).

Record kernel_info_s := mkKInfo {
  stack_top : Z;
  k_ss : Z;
  k_sp : Z;
  ret_from : callback;
  k_cs : Z
}.

Definition nrMessage : nat := 32.

Record Proc := mkProc {
  p_id : Z;
  p_next : option nat;
  prior : Z;
  status : STATUS;
  mm : option mm_struct;
  kernel_info : kernel_info_s;
  recvQ : Que Message;
  sendQ : Que Message;
  recv_anyQ : Que Message
}.

(** [enum priority{Pker,Psys,Papp}]. *)
Definition Pker : Z := 0.
Definition Psys : Z := 1.
Definition Papp : Z := 2.

(** [Proc::Proc()], given the empty queue that [Que(invMessage)] builds. *)
Definition Proc_new (q : Que Message) : Proc :=
  mkProc 0 None Papp TASK_INIT None (mkKInfo 0 0 0 no_callback 0) q q q.

Definition set_next (v : option nat) (p : Proc) : Proc :=
  mkProc (p_id p) v (prior p) (status p) (mm p) (kernel_info p) (recvQ p) (sendQ p) (recv_anyQ p).
Definition set_status (v : STATUS) (p : Proc) : Proc :=
  mkProc (p_id p) (p_next p) (prior p) v (mm p) (kernel_info p) (recvQ p) (sendQ p) (recv_anyQ p).

(** ** The process manager *)

Definition nr_Proc : nat := 32.
Definition nr_Level : nat := 4.

Record PManager := mkPM {
  interval : list Z;
  pPrev : option nat;
  pCurrent : option nat;
  pHead : list (option nat);
  pid_num : Z;
  ProcL : Lessor Proc
}.

(** [PManager::PManager()] with the constructors of its members. *)
Definition PManager_new (q : Que Message) : PManager :=
  mkPM [0; 1; 2; 3] None None (replicate nr_Level None) 100 (Lessor_new nr_Proc (Proc_new q)).

(** [int PID_GEN::operator()()]. *)
Definition pid_gen (k : PManager) : Z * PManager :=
  (s32 (u32 (u32 (pid_num k + 1) - 1)),
   mkPM (interval k) (pPrev k) (pCurrent k) (pHead k) (u32 (pid_num k + 1)) (ProcL k)).

(** Member access through a [Proc *]; the default is never used for an index of
    the table. *)
Definition proc0 : Proc :=
  Proc_new (mkQue invMessage None None 0 (mkLessor [] [])).

Definition pr (k : PManager) (i : nat) : Proc := default proc0 (room (ProcL k) !! i).
Definition nxt (k : PManager) (i : nat) : option nat := p_next (pr k i).
Definition leased (k : PManager) (i : nat) : Prop := isFree (ProcL k) !! i = Some false.

Definition upd_proc (k : PManager) (i : nat) (f : Proc → Proc) : PManager :=
  mkPM (interval k) (pPrev k) (pCurrent k) (pHead k) (pid_num k)
    (mkLessor (alter f i (room (ProcL k))) (isFree (ProcL k))).

Definition with_head (k : PManager) (lvl : nat) (v : option nat) : PManager :=
  mkPM (interval k) (pPrev k) (pCurrent k) (<[lvl := v]> (pHead k)) (pid_num k) (ProcL k).

Definition headp (k : PManager) (lvl : nat) : option nat := default None (pHead k !! lvl).

Definition deref (k : PManager) (lvl : nat) (l : loc) : option nat := loc_get (nxt k) (headp k lvl) l.

Definition assign (k : PManager) (lvl : nat) (l : loc) (v : option nat) : PManager :=
  match l with
  | LHead => with_head k lvl v
  | LNext i => upd_proc k i (set_next v)
  end.

(** The scan of [PLOCL::findProc]. *)
Fixpoint find_proc (rooms : list Proc) (frees : list bool) (id : Z) (i : nat) : option nat :=
  match rooms, frees with
  | p :: rooms', b :: frees' =>
      if negb b && (p_id p =? id) then Some i else find_proc rooms' frees' id (S i)
  | _, _ => None
  end.

(** [Proc *PManager::getProc(pid_t id)]. *)
Definition getProc (k : PManager) (id : Z) : option nat :=
  find_proc (room (ProcL k)) (isFree (ProcL k)) id 0.

(** [Proc *PManager::allocProc()]. *)
Definition allocProc (k : PManager) : option nat * PManager :=
  let '(p, r) := get (ProcL k) in
  (p, mkPM (interval k) (pPrev k) (pCurrent k) (pHead k) (pid_num k) r).

(** ** [void PManager::enque(class Proc *proc,u8_t level)] *)

(** [while(NULL is not reached) pp=&pp[0]->next]; each process is visited at most
    once. *)
Fixpoint enque_walk (fuel : nat) (k : PManager) (lvl : nat) (pp : loc) : res loc :=
  match fuel with
  | O => NoFuel
  | S fuel' =>
      match deref k lvl pp with
      | None => Ok pp
      | Some c => enque_walk fuel' k lvl (LNext c)
      end
  end.

Definition walk_fuel : nat := S nr_Proc.

(** An index behind the array [pHead] is a fault. *)
Definition enque (k : PManager) (proc : nat) (level : Z) : res PManager :=
  match status (pr k proc) with
  | TASK_RUNNING => Ok k
  | TASK_STOPPED =>
      lvl ←
        (if level =? 0 then Ok (Z.to_nat (prior (pr k proc)))
         else if level >? Z.of_nat nr_Level then Panic "enque(): wrong level"
         else Ok (Z.to_nat level));
      if bool_decide (nr_Level ≤ lvl)%nat then Fault
      else
        pp ← enque_walk walk_fuel k lvl LHead;
        let k := upd_proc k proc (set_next None) in
        let k := assign k lvl pp (Some proc) in
        Ok (upd_proc k proc (set_status TASK_RUNNING))
  | _ => Panic "enque wrong process"
  end.

(** ** [void PManager::deque(class Proc *proc)] *)

Fixpoint deque_walk (fuel : nat) (k : PManager) (proc lvl : nat) (pp : loc) : res (option PManager) :=
  match fuel with
  | O => NoFuel
  | S fuel' =>
      match deref k lvl pp with
      | None => Ok None
      | Some c =>
          if bool_decide (c = proc) then
            let k := upd_proc k proc (set_status TASK_STOPPED) in
            Ok (Some (assign k lvl pp (nxt k c)))
          else deque_walk fuel' k proc lvl (LNext c)
      end
  end.

(** The loop over the levels from [lvl]; a process in none of them is reported
    and nothing changes. *)
Fixpoint deque_levels (n : nat) (k : PManager) (proc lvl : nat) : res PManager :=
  match n with
  | O => Ok k
  | S n' =>
      r ← deque_walk walk_fuel k proc lvl LHead;
      match r with
      | Some k' => Ok k'
      | None => deque_levels n' k proc (S lvl)
      end
  end.

Definition deque (k : PManager) (proc : nat) : res PManager :=
  match status (pr k proc) with
  | TASK_RUNNING => deque_levels nr_Level k proc 0
  | TASK_STOPPED => Ok k
  | _ => Panic "enque wrong process"
  end.

(** ** The run queues as lists *)

(** [Q] gives the processes of each level in order.  A process is in exactly one
    queue when its status is [TASK_RUNNING] and in none otherwise. *)
Record Wf (k : PManager) (Q : list (list nat)) : Prop := {
  wf_levels : length Q = nr_Level;
  wf_heads : length (pHead k) = nr_Level;
  wf_rooms : length (room (ProcL k)) = nr_Proc;
  wf_chain : ∀ lvl l, Q !! lvl = Some l → chain (nxt k) (headp k lvl) l;
  wf_nodup : NoDup (concat Q);
  wf_range : ∀ i, i ∈ concat Q → (i < nr_Proc)%nat;
  wf_status : ∀ i, (i < nr_Proc)%nat → status (pr k i) = TASK_RUNNING ↔ i ∈ concat Q
}.

(** ** Lemmas: lists of lists *)

Lemma concat_insert {A : Type} (Q : list (list A)) (lvl : nat) (l : list A) :
  Q !! lvl = Some l →
  ∃ X Y, concat Q = X ++ l ++ Y ∧ ∀ l', concat (<[lvl := l']> Q) = X ++ l' ++ Y.
Proof.
  intros H. pose proof (lookup_lt_Some _ _ _ H) as Hl.
  exists (concat (take lvl Q)), (concat (drop (S lvl) Q)). split.
  - rewrite <-(take_drop_middle Q lvl l H) at 1. by rewrite concat_app.
  - intros l'. rewrite insert_take_drop by done. by rewrite concat_app.
Qed.

Lemma elem_of_concat {A : Type} (Q : list (list A)) (x : A) :
  x ∈ concat Q ↔ ∃ lvl l, Q !! lvl = Some l ∧ x ∈ l.
Proof.
  rewrite list_elem_of_In, in_concat. split.
  - intros (l & Hl & Hx). apply list_elem_of_In, list_elem_of_lookup in Hl as [lvl Hl].
    exists lvl, l. split; [done|]. by apply list_elem_of_In.
  - intros (lvl & l & Hl & Hx). exists l. split; apply list_elem_of_In; [|done].
    by eapply list_elem_of_lookup_2.
Qed.

Lemma concat_level_disjoint {A : Type} (Q : list (list A)) (i j : nat) (l1 l2 : list A) (x : A) :
  NoDup (concat Q) → Q !! i = Some l1 → Q !! j = Some l2 → x ∈ l1 → x ∈ l2 → i = j.
Proof.
  intros Hnd Hi Hj H1 H2. destruct (decide (i = j)) as [|Hne]; [done|exfalso].
  destruct (concat_insert Q i l1 Hi) as (X & Y & E & E').
  rewrite E in Hnd. specialize (E' []). cbn in E'.
  assert (Hx : x ∈ concat (<[i := []]> Q)).
  { apply elem_of_concat. exists j, l2. split; [by rewrite list_lookup_insert_ne|done]. }
  rewrite E' in Hx. apply NoDup_app in Hnd as (_ & Hd1 & (_ & Hd2 & _)%NoDup_app).
  apply elem_of_app in Hx as [Hx|Hx].
  - apply (Hd1 x Hx). apply elem_of_app. by left.
  - by apply (Hd2 x H1).
Qed.

(** ** Lemmas: member updates *)

Implicit Types (k : PManager) (Q : list (list nat)) (i j lvl : nat) (l : list nat).

Lemma pr_upd k i f j :
  (i < length (room (ProcL k)))%nat →
  pr (upd_proc k i f) j = if decide (j = i) then f (pr k i) else pr k j.
Proof.
  intros [x Hx]%lookup_lt_is_Some_2. unfold pr, upd_proc; cbn. case_decide as E; subst.
  - by rewrite list_lookup_alter_eq, Hx.
  - by rewrite list_lookup_alter_ne by done.
Qed.

Lemma pr_upd_ne k i f j : i ≠ j → pr (upd_proc k i f) j = pr k j.
Proof. intros H. unfold pr, upd_proc; cbn. by rewrite list_lookup_alter_ne. Qed.

Lemma pr_upd_field {B : Type} (g : Proc → B) k i f j : (∀ p, g (f p) = g p) → g (pr (upd_proc k i f) j) = g (pr k j).
Proof.
  intros Hg. unfold pr, upd_proc; cbn. destruct (decide (i = j)) as [->|].
  - rewrite list_lookup_alter_eq. by destruct (room (ProcL k) !! j); cbn.
  - by rewrite list_lookup_alter_ne.
Qed.

Lemma procs_length_upd k i f : length (room (ProcL (upd_proc k i f))) = length (room (ProcL k)).
Proof. apply length_alter. Qed.

Lemma headp_upd k i f lvl : headp (upd_proc k i f) lvl = headp k lvl.
Proof. done. Qed.

Lemma headp_with_head k lvl v lvl' :
  (lvl < length (pHead k))%nat →
  headp (with_head k lvl v) lvl' = if decide (lvl' = lvl) then v else headp k lvl'.
Proof.
  intros Hl. unfold headp, with_head; cbn. case_decide; subst.
  - by rewrite list_lookup_insert_eq by done.
  - by rewrite list_lookup_insert_ne by done.
Qed.

Lemma procs_length_assign k lvl lo v : length (room (ProcL (assign k lvl lo v))) = length (room (ProcL k)).
Proof. destruct lo; cbn; [done|apply length_alter]. Qed.

Lemma heads_assign k lvl lo v : length (pHead (assign k lvl lo v)) = length (pHead k).
Proof. destruct lo; cbn; [apply length_insert|done]. Qed.

Lemma runq_nxt_assign k lvl lo v j :
  (∀ i, lo = LNext i → (i < length (room (ProcL k)))%nat) →
  nxt (assign k lvl lo v) j = loc_set_nxt (nxt k) lo v j.
Proof.
  intros Hl. destruct lo as [|i]; [done|]. unfold nxt, fset; cbn. unfold fset.
  rewrite pr_upd by (by apply Hl). by case_decide; subst.
Qed.

Lemma headp_assign k lvl lo v lvl' :
  (lvl < length (pHead k))%nat →
  headp (assign k lvl lo v) lvl' =
    if decide (lvl' = lvl) then loc_set_head (headp k lvl) lo v else headp k lvl'.
Proof.
  intros Hl. destruct lo; cbn; [by apply headp_with_head|]. rewrite headp_upd. by case_decide; subst.
Qed.

(** A field other than [next] is untouched by an assignment through a
    [Proc **]. *)
Lemma pr_assign_field {B : Type} (f : Proc → B) k lvl lo v j :
  (∀ p, f (set_next v p) = f p) → f (pr (assign k lvl lo v) j) = f (pr k j).
Proof.
  intros Hf. destruct lo as [|i]; [done|]. by apply pr_upd_field.
Qed.

Lemma runq_deref_after k lvl P R :
  chain (nxt k) (headp k lvl) (P ++ R) → deref k lvl (loc_after P) = list.head R.
Proof.
  intros (q & HP & HR)%lseg_app. unfold deref. rewrite (loc_get_after _ _ _ _ HP).
  destruct R; [done|]. by destruct HR.
Qed.

(** Changing one level. *)
Lemma wf_update k k' Q lvl l l' :
  Wf k Q → Q !! lvl = Some l → length (pHead k') = length (pHead k) →
  length (room (ProcL k')) = length (room (ProcL k)) →
  chain (nxt k') (headp k' lvl) l' → (∀ lvl', lvl' ≠ lvl → headp k' lvl' = headp k lvl') →
  (∀ j, j ∈ concat Q → j ∉ l → nxt k' j = nxt k j) →
  NoDup (concat (<[lvl := l']> Q)) → (∀ i, i ∈ l' → (i < nr_Proc)%nat) →
  (∀ i, (i < nr_Proc)%nat → status (pr k' i) = TASK_RUNNING ↔ i ∈ concat (<[lvl := l']> Q)) →
  Wf k' (<[lvl := l']> Q).
Proof.
  intros HW Hl Eh Er Hc Ho Hn Hnd Hr Hs. pose proof (lookup_lt_Some _ _ _ Hl) as Hlt.
  constructor; [rewrite length_insert; apply HW|rewrite Eh; apply HW|rewrite Er; apply HW|..].
  - intros lvl' m Hm. destruct (decide (lvl' = lvl)) as [->|Hne].
    + rewrite list_lookup_insert_eq in Hm by done. by injection Hm as <-.
    + rewrite list_lookup_insert_ne in Hm by done. rewrite Ho by done.
      eapply lseg_ext; [|by apply (wf_chain _ _ HW)]. intros x Hx. apply Hn.
      * apply elem_of_concat. eauto.
      * intros Hx'. apply Hne. by eapply (concat_level_disjoint Q); [apply HW|..].
  - done.
  - intros i (lvl' & m & Hm & Hi)%elem_of_concat. destruct (decide (lvl' = lvl)) as [->|Hne].
    + rewrite list_lookup_insert_eq in Hm by done. injection Hm as <-. by apply Hr.
    + rewrite list_lookup_insert_ne in Hm by done. apply (wf_range _ _ HW).
      apply elem_of_concat. eauto.
  - done.
Qed.

Lemma wf_level_lookup k Q lvl : Wf k Q → (lvl < nr_Level)%nat → ∃ l, Q !! lvl = Some l.
Proof. intros HW Hl. apply lookup_lt_is_Some_2. by rewrite (wf_levels _ _ HW). Qed.

(** The walks are short enough: a level holds at most [nr_Proc] processes. *)
Lemma wf_level_length k Q lvl l : Wf k Q → Q !! lvl = Some l → (length l < walk_fuel)%nat.
Proof.
  intros HW Hl. unfold walk_fuel.
  assert (Hs : l ⊆+ seq 0 nr_Proc).
  { apply NoDup_submseteq.
    - destruct (concat_insert Q lvl l Hl) as (X & Y & E & _).
      pose proof (wf_nodup _ _ HW) as Hnd. rewrite E in Hnd.
      by apply NoDup_app in Hnd as (_ & _ & (Hnd & _ & _)%NoDup_app).
    - intros x Hx. apply elem_of_seq. split; [lia|]. cbn. apply (wf_range _ _ HW).
      apply elem_of_concat. eauto. }
  apply submseteq_length in Hs. rewrite length_seq in Hs. lia.
Qed.

(** ** [enque] *)

Lemma enque_walk_ok fuel k lvl P R :
  chain (nxt k) (headp k lvl) (P ++ R) → (length R < fuel)%nat →
  enque_walk fuel k lvl (loc_after P) = Ok (loc_after (P ++ R)).
Proof.
  revert P R; induction fuel as [|fuel IH]; intros P R Hch Hf; [lia|].
  cbn [enque_walk]. rewrite (runq_deref_after k lvl P R Hch).
  destruct R as [|c R]; cbn [list.head]; [by rewrite app_nil_r|].
  rewrite <-(loc_after_snoc P c), (IH (P ++ [c]) R), <-app_assoc; [done| |cbn in Hf; lia].
  by rewrite <-app_assoc.
Qed.

(** The state after the three writes of [enque] at the end of level [lvl]. *)
Definition linked_last k lvl l i : PManager :=
  upd_proc (assign (upd_proc k i (set_next None)) lvl (loc_after l) (Some i)) i
    (set_status TASK_RUNNING).

Lemma nxt_set_status k i v j : nxt (upd_proc k i (set_status v)) j = nxt k j.
Proof.
  unfold nxt, pr, upd_proc; cbn. destruct (decide (i = j)) as [->|].
  - rewrite list_lookup_alter_eq. by destruct (room (ProcL k) !! j).
  - by rewrite list_lookup_alter_ne.
Qed.

Lemma linked_last_chain k lvl l i :
  chain (nxt k) (headp k lvl) l → (∀ x, x ∈ l → (x < length (room (ProcL k)))%nat) →
  (i < length (room (ProcL k)))%nat → (lvl < length (pHead k))%nat → i ∉ l →
  chain (nxt (linked_last k lvl l i)) (headp (linked_last k lvl l i) lvl) (l ++ [i]) ∧
  (∀ j, j ∉ i :: l → nxt (linked_last k lvl l i) j = nxt k j) ∧
  (∀ lvl', lvl' ≠ lvl → headp (linked_last k lvl l i) lvl' = headp k lvl').
Proof.
  intros Hch Hr Hi Hlv Hil. unfold linked_last.
  set (k1 := upd_proc k i (set_next None)). set (k2 := assign k1 lvl (loc_after l) (Some i)).
  assert (Hn1 : ∀ j, nxt k1 j = fset (nxt k) i None j).
  { intros j. unfold nxt, k1, fset. rewrite pr_upd by done. by case_decide. }
  assert (Hn2 : ∀ j, nxt k2 j = loc_set_nxt (nxt k1) (loc_after l) (Some i) j).
  { intros j. apply runq_nxt_assign. intros x Hx%loc_after_in. unfold k1. rewrite procs_length_upd. auto. }
  split_and!.
  - rewrite headp_upd. unfold k2. rewrite headp_assign, decide_True by done.
    eapply lseg_ext; [intros; rewrite nxt_set_status; apply Hn2|].
    apply (chain_splice (nxt k1) (headp k1 lvl) l None).
    + by eapply chain_NoDup.
    + eapply lseg_ext; [intros; apply Hn1|]. by apply lseg_fset_notin.
    + intros z ->%list_elem_of_singleton. done.
    + split; [done|]. by rewrite Hn1, fset_eq.
  - intros j [Hji Hjl]%not_elem_of_cons. rewrite nxt_set_status, Hn2, loc_set_nxt_ne, Hn1.
    + by apply fset_ne.
    + intros E%loc_after_in. done.
  - intros lvl' Hne. rewrite headp_upd. unfold k2. by rewrite headp_assign, decide_False.
Qed.

Lemma linked_last_status k lvl l i j :
  (i < length (room (ProcL k)))%nat →
  status (pr (linked_last k lvl l i) j) =
    if decide (j = i) then TASK_RUNNING else status (pr k j).
Proof.
  intros Hi. unfold linked_last. rewrite pr_upd by (by rewrite procs_length_assign, procs_length_upd).
  case_decide as E; [done|]. rewrite (pr_assign_field status) by done.
  rewrite pr_upd by done. by rewrite decide_False.
Qed.

(** [enque] of a stopped process puts it at the end of its level. *)
Lemma runq_enque_ok k Q i level lvl l :
  Wf k Q → (i < nr_Proc)%nat → status (pr k i) = TASK_STOPPED →
  lvl = Z.to_nat (if level =? 0 then prior (pr k i) else level) → (lvl < nr_Level)%nat →
  0 ≤ level → Q !! lvl = Some l →
  enque k i level = Ok (linked_last k lvl l i) ∧
  Wf (linked_last k lvl l i) (<[lvl := l ++ [i]]> Q).
Proof.
  intros HW Hi Hst Elvl Hlvl Hlev Hl. pose proof (wf_chain _ _ HW lvl l Hl) as Hch.
  assert (Hroom : (i < length (room (ProcL k)))%nat) by (by rewrite (wf_rooms _ _ HW)).
  assert (HiQ : i ∉ concat Q).
  { rewrite <-(wf_status _ _ HW i Hi), Hst. done. }
  assert (Hrl : ∀ x, x ∈ l → (x < nr_Proc)%nat).
  { intros x Hx. apply (wf_range _ _ HW), elem_of_concat. eauto. }
  split.
  - unfold enque. rewrite Hst.
    assert (E : (if level =? 0 then Ok (Z.to_nat (prior (pr k i)))
      else if level >? Z.of_nat nr_Level then Panic "enque(): wrong level"
      else Ok (Z.to_nat level)) = Ok lvl).
    { subst lvl. destruct (level =? 0); [done|]. split_if; [|done].
      unfold nr_Level in *. lia. }
    rewrite E. cbn [mbind res_bind]. rewrite bool_decide_eq_false_2 by lia.
    change LHead with (loc_after []). rewrite (enque_walk_ok _ k lvl [] l); [done|done|].
    by eapply wf_level_length.
  - destruct (linked_last_chain k lvl l i) as (Hc & Hn & Hh); try done.
    { intros x Hx. rewrite (wf_rooms _ _ HW). auto. } { by rewrite (wf_heads _ _ HW). }
    { intros Hil. apply HiQ, elem_of_concat. eauto. }
    destruct (concat_insert Q lvl l Hl) as (X & Y & E & E').
    assert (HP : concat (<[lvl := l ++ [i]]> Q) ≡ₚ i :: concat Q).
    { rewrite E', E, <-app_assoc, (app_assoc l). cbn.
      rewrite <-Permutation_cons_append. cbn. rewrite <-Permutation_middle. done. }
    eapply wf_update; try done.
    + unfold linked_last; cbn. by rewrite heads_assign.
    + unfold linked_last. by rewrite procs_length_upd, procs_length_assign, procs_length_upd.
    + intros j Hj Hjl. apply Hn. rewrite not_elem_of_cons. split; [|done]. by intros ->.
    + rewrite HP. constructor; [done|apply HW].
    + intros x [Hx| ->%list_elem_of_singleton]%elem_of_app; auto.
    + intros j Hj. rewrite HP, elem_of_cons, linked_last_status by done.
      case_decide; [tauto|]. rewrite (wf_status _ _ HW) by done. tauto.
Qed.

(** ** [deque] *)

(** The state after [proc->status = TASK_STOPPED] and the unlinking through
    [pp]. *)
Definition unlinked k lvl P i : PManager :=
  let k1 := upd_proc k i (set_status TASK_STOPPED) in
  assign k1 lvl (loc_after P) (nxt k1 i).

Lemma unlinked_status k lvl P i j :
  (i < length (room (ProcL k)))%nat →
  status (pr (unlinked k lvl P i) j) = if decide (j = i) then TASK_STOPPED else status (pr k j).
Proof.
  intros Hi. unfold unlinked. rewrite (pr_assign_field status) by done.
  rewrite pr_upd by done. by case_decide.
Qed.

Lemma unlinked_chain k lvl P i R :
  chain (nxt k) (headp k lvl) (P ++ i :: R) →
  (∀ x, x ∈ P → (x < length (room (ProcL k)))%nat) → (lvl < length (pHead k))%nat →
  chain (nxt (unlinked k lvl P i)) (headp (unlinked k lvl P i) lvl) (P ++ R) ∧
  (∀ j, j ∉ P → nxt (unlinked k lvl P i) j = nxt k j) ∧
  (∀ lvl', lvl' ≠ lvl → headp (unlinked k lvl P i) lvl' = headp k lvl').
Proof.
  intros Hch Hr Hlv. unfold unlinked. set (k1 := upd_proc k i (set_status TASK_STOPPED)).
  assert (Hn1 : ∀ j, nxt k1 j = nxt k j) by apply nxt_set_status.
  assert (Hn2 : ∀ j, nxt (assign k1 lvl (loc_after P) (nxt k1 i)) j =
    loc_set_nxt (nxt k1) (loc_after P) (nxt k1 i) j).
  { intros j. apply runq_nxt_assign. intros x Hx%loc_after_in. unfold k1. rewrite procs_length_upd. auto. }
  pose proof (chain_NoDup _ _ _ Hch) as (HndP & HPR & _)%NoDup_app.
  apply lseg_app in Hch as (q & HP & -> & HR). split_and!.
  - rewrite headp_assign, decide_True by done. eapply lseg_ext; [intros; apply Hn2|].
    apply (chain_splice (nxt k1) (headp k1 lvl) P (Some i)).
    + done.
    + eapply lseg_ext; [intros; apply Hn1|done].
    + intros z Hz HzP. apply (HPR z HzP). by right.
    + rewrite Hn1. eapply lseg_ext; [intros; apply Hn1|done].
  - intros j Hj. rewrite Hn2, loc_set_nxt_ne; [apply Hn1|]. by intros E%loc_after_in.
  - intros lvl' Hne. by rewrite headp_assign, decide_False.
Qed.

Lemma unlinked_wf k Q lvl P i R :
  Wf k Q → Q !! lvl = Some (P ++ i :: R) → Wf (unlinked k lvl P i) (<[lvl := P ++ R]> Q).
Proof.
  intros HW Hl. pose proof (wf_chain _ _ HW _ _ Hl) as Hch.
  assert (Hin : ∀ x, x ∈ P ++ i :: R → x ∈ concat Q) by (intros; apply elem_of_concat; eauto).
  assert (Hr : ∀ x, x ∈ P ++ i :: R → (x < nr_Proc)%nat) by (intros; by apply (wf_range _ _ HW), Hin).
  assert (Hi : (i < nr_Proc)%nat) by (apply Hr, elem_of_app; right; by left).
  destruct (unlinked_chain k lvl P i R) as (Hc & Hn & Hh); [done|..].
  { intros x Hx. rewrite (wf_rooms _ _ HW). apply Hr, elem_of_app. by left. }
  { rewrite (wf_heads _ _ HW), <-(wf_levels _ _ HW). by eapply lookup_lt_Some. }
  destruct (concat_insert Q lvl _ Hl) as (X & Y & E & E').
  assert (HP : concat Q ≡ₚ i :: concat (<[lvl := P ++ R]> Q)).
  { rewrite E', E. rewrite <-!app_assoc. cbn.
    rewrite (app_assoc X P (i :: R ++ Y)), (app_assoc X P (R ++ Y)).
    symmetry. apply Permutation_middle. }
  pose proof (wf_nodup _ _ HW) as Hnd. rewrite HP in Hnd. apply NoDup_cons in Hnd as [HiQ Hnd].
  eapply wf_update; try done.
  - unfold unlinked. by rewrite heads_assign.
  - unfold unlinked. by rewrite procs_length_assign, procs_length_upd.
  - intros j Hj Hjl. apply Hn. intros HjP. apply Hjl, elem_of_app. by left.
  - intros x [Hx|Hx]%elem_of_app; apply Hr, elem_of_app; [by left|right; by right].
  - intros j Hj. rewrite unlinked_status by (by rewrite (wf_rooms _ _ HW)).
    case_decide as Eji; [subst; done|]. rewrite (wf_status _ _ HW), HP, elem_of_cons by done. tauto.
Qed.

Lemma deque_walk_found fuel k i lvl P R R' :
  chain (nxt k) (headp k lvl) (P ++ R ++ i :: R') → i ∉ R → (length R < fuel)%nat →
  deque_walk fuel k i lvl (loc_after P) = Ok (Some (unlinked k lvl (P ++ R) i)).
Proof.
  revert P R; induction fuel as [|fuel IH]; intros P R Hch Hi Hf; [lia|].
  cbn [deque_walk]. rewrite (runq_deref_after k lvl P _ Hch). destruct R as [|c R]; cbn [app list.head].
  - by rewrite bool_decide_eq_true_2, app_nil_r.
  - apply not_elem_of_cons in Hi as [Hic Hi]. rewrite bool_decide_eq_false_2 by done.
    rewrite <-(loc_after_snoc P c), (IH (P ++ [c]) R), <-app_assoc; [done| |done|cbn in Hf; lia].
    by rewrite <-app_assoc.
Qed.

Lemma deque_walk_none fuel k i lvl P R :
  chain (nxt k) (headp k lvl) (P ++ R) → i ∉ R → (length R < fuel)%nat →
  deque_walk fuel k i lvl (loc_after P) = Ok None.
Proof.
  revert P R; induction fuel as [|fuel IH]; intros P R Hch Hi Hf; [lia|].
  cbn [deque_walk]. rewrite (runq_deref_after k lvl P _ Hch). destruct R as [|c R]; cbn [list.head]; [done|].
  apply not_elem_of_cons in Hi as [Hic Hi]. rewrite bool_decide_eq_false_2 by done.
  rewrite <-(loc_after_snoc P c). apply (IH _ R); [by rewrite <-app_assoc|done|cbn in Hf; lia].
Qed.

Lemma deque_levels_ok n k Q lvl0 i lvl P R :
  Wf k Q → Q !! lvl = Some (P ++ i :: R) → i ∉ P → (lvl0 ≤ lvl < lvl0 + n)%nat →
  deque_levels n k i lvl0 = Ok (unlinked k lvl P i).
Proof.
  intros HW Hl HiP. revert lvl0; induction n as [|n IH]; intros lvl0 Hr; [lia|].
  cbn [deque_levels]. change LHead with (loc_after []). destruct (decide (lvl0 = lvl)) as [->|Hne].
  - pose proof (wf_level_length _ _ _ _ HW Hl) as Hlen. rewrite length_app in Hlen.
    rewrite (deque_walk_found walk_fuel k i lvl [] P R); [done|by apply (wf_chain _ _ HW)|done|lia].
  - pose proof (lookup_lt_Some _ _ _ Hl) as Hlt. rewrite (wf_levels _ _ HW) in Hlt.
    destruct (wf_level_lookup k Q lvl0 HW) as [m Hm]; [lia|].
    rewrite (deque_walk_none walk_fuel k i lvl0 [] m); [|by apply (wf_chain _ _ HW)| |].
    + cbn [mbind res_bind]. apply IH. lia.
    + intros Him. apply Hne. eapply (concat_level_disjoint Q lvl0 lvl m (P ++ i :: R) i);
        [apply HW|done|done|done|]. apply elem_of_app; right; by left.
    + by eapply wf_level_length.
Qed.

(** [deque] of a running process takes it out of its queue. *)
Lemma runq_deque_ok k Q i :
  Wf k Q → (i < nr_Proc)%nat → status (pr k i) = TASK_RUNNING →
  ∃ lvl P R, Q !! lvl = Some (P ++ i :: R) ∧ deque k i = Ok (unlinked k lvl P i) ∧
    Wf (unlinked k lvl P i) (<[lvl := P ++ R]> Q).
Proof.
  intros HW Hi Hst. pose proof Hst as HiQ. rewrite (wf_status _ _ HW i Hi) in HiQ.
  apply elem_of_concat in HiQ as (lvl & l & Hl & Hil).
  apply list_elem_of_split in Hil as (P & R & ->). exists lvl, P, R.
  split_and!; [done| |by apply unlinked_wf]. unfold deque. rewrite Hst.
  apply (deque_levels_ok _ _ Q _ _ _ P R); [done|done| |].
  - pose proof (chain_NoDup _ _ _ (wf_chain _ _ HW _ _ Hl)) as (_ & Hd & _)%NoDup_app.
    intros HiP. apply (Hd i HiP). by left.
  - apply lookup_lt_Some in Hl. rewrite (wf_levels _ _ HW) in Hl. lia.
Qed.

(** ** [getProc] *)

Lemma find_proc_some rooms frees id d i :
  find_proc rooms frees id d = Some i →
  ∃ n p, i = (d + n)%nat ∧ rooms !! n = Some p ∧ frees !! n = Some false ∧ p_id p = id.
Proof.
  revert frees d; induction rooms as [|p rooms IH]; intros [|b frees] d; cbn; try done.
  destruct (negb b && (p_id p =? id)) eqn:E.
  - intros [= <-]. bool_to_prop. exists 0%nat, p. split_and!; [lia|done|by destruct b|done].
  - intros (n & q & -> & H1 & H2 & H3)%IH. exists (S n), q. split_and!; [lia|done..].
Qed.

(** The result depends only on the ids and on which entries are leased. *)
Lemma find_proc_ext rooms rooms' frees id d :
  p_id <$> rooms = p_id <$> rooms' → find_proc rooms frees id d = find_proc rooms' frees id d.
Proof.
  revert rooms' frees d; induction rooms as [|p rooms IH]; intros [|p' rooms'] [|b frees] d;
    cbn; try done.
  intros [= E1 E2]. rewrite E1. destruct (negb b && _); [done|]. by apply IH.
Qed.

Lemma getProc_leased k id i :
  getProc k id = Some i → (i < length (room (ProcL k)))%nat ∧ leased k i ∧ p_id (pr k i) = id.
Proof.
  intros (n & p & -> & H1 & H2 & H3)%find_proc_some. cbn. split_and!.
  - by eapply lookup_lt_Some.
  - done.
  - unfold pr. by rewrite H1.
Qed.

Lemma ids_alter f i (l : list Proc) : (∀ p, p_id (f p) = p_id p) → p_id <$> alter f i l = p_id <$> l.
Proof.
  intros Hf. apply list_eq. intros j. rewrite !list_lookup_fmap.
  destruct (decide (i = j)) as [->|]; [|by rewrite list_lookup_alter_ne].
  rewrite list_lookup_alter_eq. destruct (l !! j); cbn; [by rewrite Hf|done].
Qed.

Lemma getProc_linked_last k lvl l i id : getProc (linked_last k lvl l i) id = getProc k id.
Proof.
  unfold getProc, linked_last. destruct (loc_after l); cbn; apply find_proc_ext;
    by rewrite !ids_alter.
Qed.

(** A process that [wakeup] accepts. *)
Definition wakeable k i : Prop :=
  (i < nr_Proc)%nat ∧ (status (pr k i) = TASK_STOPPED ∨ status (pr k i) = TASK_RUNNING) ∧
  0 ≤ prior (pr k i) < Z.of_nat nr_Level.

(** Waking: a stopped process is put at the end of the level of its priority, a
    running one stays where it is. *)
Lemma enque_wake k Q i :
  Wf k Q → wakeable k i →
  ∃ k' Q', enque k i 0 = Ok k' ∧ Wf k' Q' ∧
    (∀ j, j ∈ concat Q' ↔ j ∈ concat Q ∨ j = i) ∧
    (∀ id, getProc k' id = getProc k id) ∧ (∀ j, wakeable k j → wakeable k' j) ∧
    pCurrent k' = pCurrent k.
Proof.
  intros HW (Hi & Hst & Hpr). destruct Hst as [Hst|Hst].
  - destruct (wf_level_lookup k Q (Z.to_nat (prior (pr k i))) HW) as [l Hl]; [unfold nr_Level in *; lia|].
    destruct (runq_enque_ok k Q i 0 (Z.to_nat (prior (pr k i))) l) as [E HW']; try done.
    { unfold nr_Level in *; lia. }
    set (lvl := Z.to_nat (prior (pr k i))) in *.
    assert (Hroom : (i < length (room (ProcL k)))%nat) by (by rewrite (wf_rooms _ _ HW)).
    eexists _, _. split_and!; [exact E|exact HW'|..].
    + intros j. destruct (concat_insert Q lvl l Hl) as (X & Y & E1 & E2). rewrite E2, E1.
      rewrite !elem_of_app, list_elem_of_singleton. tauto.
    + intros id. apply getProc_linked_last.
    + intros j (Hj & Hsj & Hpj). split; [done|]. split.
      * rewrite linked_last_status by done. case_decide; tauto.
      * unfold linked_last. rewrite pr_upd by (by rewrite procs_length_assign, procs_length_upd).
        assert (Hp : ∀ j, prior (pr (assign (upd_proc k i (set_next None)) lvl (loc_after l) (Some i)) j)
          = prior (pr k j)).
        { intros j'. rewrite (pr_assign_field prior) by done. rewrite pr_upd by done.
          by case_decide; subst. }
        case_decide; cbn; rewrite Hp; [by subst|done].
    + unfold linked_last. by destruct (loc_after l).
  - exists k, Q. unfold enque. rewrite Hst. split_and!; try done. intros j. split; [tauto|].
    intros [?| ->]; [done|]. by apply (wf_status _ _ HW).
Qed.

(** C28: [enque] of a stopped process puts it at the end of the queue of its
    priority (or of the level given) and marks it running; [deque] then takes it
    out again and leaves every run queue as it was. *)
Theorem enque_deque_roundtrip k Q i level lvl l :
  Wf k Q → (i < nr_Proc)%nat → status (pr k i) = TASK_STOPPED → 0 ≤ level →
  lvl = Z.to_nat (if level =? 0 then prior (pr k i) else level) → (lvl < nr_Level)%nat →
  Q !! lvl = Some l →
  ∃ k1 k2, enque k i level = Ok k1 ∧ Wf k1 (<[lvl := l ++ [i]]> Q) ∧
    status (pr k1 i) = TASK_RUNNING ∧
    deque k1 i = Ok k2 ∧ Wf k2 Q ∧ status (pr k2 i) = TASK_STOPPED.
Proof.
  intros HW Hi Hst Hlev Elvl Hlvl Hl.
  destruct (runq_enque_ok k Q i level lvl l) as [E1 HW1]; try done.
  assert (Hroom : (i < length (room (ProcL k)))%nat) by (by rewrite (wf_rooms _ _ HW)).
  assert (Hs1 : status (pr (linked_last k lvl l i) i) = TASK_RUNNING).
  { by rewrite linked_last_status, decide_True. }
  destruct (runq_deque_ok _ _ i HW1 Hi Hs1) as (lvl' & P & R & Hl' & E2 & HW2).
  pose proof (lookup_lt_Some _ _ _ Hl) as Hlt.
  assert (El : lvl' = lvl).
  { eapply (concat_level_disjoint _ lvl' lvl _ (l ++ [i]) i); [apply HW1|exact Hl'|..].
    - by apply list_lookup_insert_eq.
    - apply elem_of_app; right; by left.
    - apply elem_of_app; right; by left. }
  subst lvl'. rewrite list_lookup_insert_eq in Hl' by done. injection Hl' as El.
  assert (HQ : P ++ R = l).
  { destruct R as [|y R _] using rev_ind.
    - apply app_inj_tail in El as [-> _]. by rewrite app_nil_r.
    - exfalso. change (P ++ i :: R ++ [y]) with (P ++ (i :: R) ++ [y]) in El. rewrite app_assoc in El.
      apply app_inj_tail in El as [-> <-].
      assert (Hil : i ∈ concat Q).
      { apply elem_of_concat. exists lvl, (P ++ i :: R). split; [done|]. apply elem_of_app; right; by left. }
      apply (wf_status _ _ HW i Hi) in Hil. congruence. }
  rewrite HQ, list_insert_insert_eq, list_insert_id in HW2 by done.
  eexists _, _. split_and!; [exact E1|exact HW1|exact Hs1|exact E2|exact HW2|].
  rewrite unlinked_status, decide_True by (done || by rewrite (wf_rooms _ _ HW1)). done.
Qed.

(** the level check of [enque] is off by one: level 4 of a four-level array
    passes it, so the write goes behind [pHead]; only larger levels are refused. *)
Theorem enque_level_check k i level :
  status (pr k i) = TASK_STOPPED →
  (level = Z.of_nat nr_Level → enque k i level = Fault) ∧
  (Z.of_nat nr_Level < level → enque k i level = Panic "enque(): wrong level").
Proof.
  intros Hst. unfold enque. rewrite Hst. split.
  - intros ->. done.
  - intros Hl. rewrite (proj2 (Z.eqb_neq level 0)) by (unfold nr_Level in *; lia).
    rewrite (proj2 (Z.gtb_lt _ _) Hl). done.
Qed.

(** Process 0 stopped, all queues empty. *)
Definition ex : PManager :=
  mkPM [0; 1; 2; 3] None None (replicate nr_Level None) 100
    (mkLessor (set_status TASK_STOPPED proc0 :: replicate 31 proc0) (false :: replicate 31 true)).

Lemma ex_runq_wf : Wf ex [[]; []; []; []].
Proof.
  constructor; try done.
  - intros [|[|[|[|lvl]]]] l; cbn; intros [= <-]; done.
  - constructor.
  - intros i Hi. by apply elem_of_nil in Hi.
  - intros i Hi. rewrite elem_of_nil. split; [|done]. destruct i as [|i]; [done|].
    change (pr ex (S i)) with (default proc0 (replicate 31 proc0 !! i)).
    destruct (replicate 31 proc0 !! i) as [p|] eqn:E; [|done].
    by apply lookup_replicate_1 in E as [-> _].
Qed.

Lemma enque_deque_roundtrip_witness :
  ∃ k1 k2, enque ex 0 0 = Ok k1 ∧ deque k1 0 = Ok k2 ∧ Wf k2 [[]; []; []; []].
Proof.
  destruct (enque_deque_roundtrip ex [[]; []; []; []] 0 0 2 []) as (k1 & k2 & E1 & _ & _ & E2 & HW & _).
  - exact ex_runq_wf.
  - unfold nr_Proc. lia.
  - reflexivity.
  - lia.
  - reflexivity.
  - unfold nr_Level. lia.
  - reflexivity.
  - exists k1, k2. split_and!; assumption.
Defined.

Lemma enque_level_check_witness : enque ex 0 4 = Fault.
Proof. apply (enque_level_check ex 0 4); reflexivity. Defined.

End Process.
