(* ===== verification/Task.v ===== *)
(** * task.cpp and timerHandler.cpp: the scheduler

    The state [K] joins the process manager, the timer, the scheduling request
    flag, the queue of processes waiting for interrupts, and the machine state
    that a task switch changes: the stack and address-space registers, the
    [ss0]/[esp0] fields of the TSS, and the physical memory with the page-frame
    allocator.  Console output has no effect on this state and is left out. *)

From S2P Require Import Prelude Chain Memory KType PageFrames VarMem Timer Process.

Module Task.
Import Process.

(** ** State *)

(** [struct entry] of [task.cpp]: a process waiting for an interrupt; [==]
    compares the interrupt number. *)
Record irq_entry := mkIrq { irq : Z; irq_pid : Z }.
Definition irq_eqb (a b : irq_entry) : bool := irq a =? irq b.
Definition PID_INVALID : Z := -2.
Definition PID_KERNEL : Z := -1.
Definition PID_INIT : Z := 1.
Definition PID_SYSTASK : Z := 2.
Definition PID_PMAN : Z := 3.
Definition PID_IDLE : Z := 4.
Definition PID_ANY : Z := 5.
Definition invalid_entry : irq_entry := mkIrq (-1) PID_INVALID.
Definition nr_irq : nat := 64.

Record K := mkK {
  pm : PManager;
  timer : Timer.Timer;
  sched_req : bool;
  irqQue : Que irq_entry;
  tss_ss0 : Z;
  tss_esp0 : Z;
  cr3_reg : Z;
  esp : Z;
  ebp : Z;
  vm : VarMem.vm PFAllocator.state
}.

Definition with_pm (k : K) (p : PManager) : K :=
  mkK p (timer k) (sched_req k) (irqQue k) (tss_ss0 k) (tss_esp0 k) (cr3_reg k) (esp k) (ebp k)
    (vm k).
Definition with_timer (k : K) (t : Timer.Timer) : K :=
  mkK (pm k) t (sched_req k) (irqQue k) (tss_ss0 k) (tss_esp0 k) (cr3_reg k) (esp k) (ebp k)
    (vm k).
Definition with_req (k : K) (b : bool) : K :=
  mkK (pm k) (timer k) b (irqQue k) (tss_ss0 k) (tss_esp0 k) (cr3_reg k) (esp k) (ebp k)
    (vm k).
Definition with_irqQue (k : K) (q : Que irq_entry) : K :=
  mkK (pm k) (timer k) (sched_req k) q (tss_ss0 k) (tss_esp0 k) (cr3_reg k) (esp k) (ebp k)
    (vm k).
Definition with_cr3 (k : K) (v : Z) : K :=
  mkK (pm k) (timer k) (sched_req k) (irqQue k) (tss_ss0 k) (tss_esp0 k) v (esp k) (ebp k) (vm k).
Definition with_esp (k : K) (v : Z) : K :=
  mkK (pm k) (timer k) (sched_req k) (irqQue k) (tss_ss0 k) (tss_esp0 k) (cr3_reg k) v (ebp k) (vm k).
Definition with_vm (k : K) (v : VarMem.vm PFAllocator.state) : K :=
  mkK (pm k) (timer k) (sched_req k) (irqQue k) (tss_ss0 k) (tss_esp0 k) (cr3_reg k) (esp k)
    (ebp k) v.
Definition with_ebp (k : K) (v : Z) : K :=
  mkK (pm k) (timer k) (sched_req k) (irqQue k) (tss_ss0 k) (tss_esp0 k) (cr3_reg k) (esp k) v (vm k).

(** [void Tss::setFrame2TSS(const struct kernel_info_s &ki)]. *)
Definition setFrame2TSS (k : K) (ki : kernel_info_s) : K :=
  mkK (pm k) (timer k) (sched_req k) (irqQue k) (k_ss ki) (stack_top ki) (cr3_reg k) (esp k) (ebp k)
    (vm k).

Definition with_current (p : PManager) (prev cur : option nat) : PManager :=
  mkPM (Process.interval p) prev cur (pHead p) (pid_num p) (ProcL p).

Definition set_ret_from (cb : callback) (p : Proc) : Proc :=
  let ki := kernel_info p in
  mkProc (p_id p) (p_next p) (prior p) (status p) (mm p)
    (mkKInfo (stack_top ki) (k_ss ki) (k_sp ki) cb (k_cs ki)) (recvQ p) (sendQ p) (recv_anyQ p).

Definition set_sp (v : Z) (p : Proc) : Proc :=
  let ki := kernel_info p in
  mkProc (p_id p) (p_next p) (prior p) (status p) (mm p)
    (mkKInfo (stack_top ki) (k_ss ki) v (ret_from ki) (k_cs ki)) (recvQ p) (sendQ p) (recv_anyQ p).

Definition set_sendQ (q : Que Message) (p : Proc) : Proc :=
  mkProc (p_id p) (p_next p) (prior p) (status p) (mm p) (kernel_info p) (recvQ p) q (recv_anyQ p).

(** The running process; a NULL [pCurrent] faults. *)
Definition current (k : K) : res nat :=
  match pCurrent (pm k) with Some i => Ok i | None => Fault end.

(** ** Returning to user mode *)

(** [sizeof(stack_frame_s)] and the offsets of the members used in C++. *)
Definition frame_size : Z := 68.
Definition frame_ax : Z := 44.
Definition frame_pc : Z := 48.

Definition frame_of (p : Proc) : Z := u32 (stack_top (kernel_info p) - frame_size).

(** [void after_exec(u32_t ret_addr)]. *)
Definition after_exec (k : K) (ret_addr : Z) : res K :=
  c ← current k;
  let a := u32 (frame_of (pr (pm k) c) + frame_pc) in
  Ok (with_vm k (VarMem.mkVM (store32 (VarMem.vm_mem (vm k)) a ret_addr) (VarMem.vm_pf (vm k)))).

(** [void ret_to_user(void)]: the stack pointer is moved to the saved frame. *)
Definition ret_to_user (k : K) : res K :=
  c ← current k;
  Ok (with_esp k (frame_of (pr (pm k) c))).

(** [pid_t ret_from_fork(void)] up to its [ret_to_user]. *)
Definition do_ret_from_fork (k : K) : res K :=
  c ← current k;
  let a := u32 (frame_of (pr (pm k) c) + frame_ax) in
  Ok (with_vm k (VarMem.mkVM (store32 (VarMem.vm_mem (vm k)) a 0) (VarMem.vm_pf (vm k)))).

(** [void recv_later()] of [Ipc.cpp]: the message is taken from the queue and
    dropped. *)
Definition do_recv_later (k : K) : res K :=
  c ← current k;
  '(message, q) ← KType.deque (sendQ (pr (pm k) c));
  if isValid message then Ok (with_pm k (upd_proc (pm k) c (set_sendQ q)))
  else Panic "invalid message error at recv_later()".

(** The call [func()]. *)
Definition run_callback (k : K) (cb : callback) : res K :=
  match cb with
  | kernel2user => Ok k
  | ret_from_fork => do_ret_from_fork k
  | recv_later => do_recv_later k
  | no_callback => Fault
  end.

(** The macro [swap_esp(esp_prev,esp_next)] of [asmfunc.h], with
    [p_prev->kernel_info.sp] for [esp_prev]: three moves between [ebp], [esp] and
    the operands. *)
Definition swap_esp (k : K) (i_prev : nat) (esp_next : Z) : K :=
  let k := with_pm k (upd_proc (pm k) i_prev (set_sp (ebp k))) in
  let k := with_ebp k esp_next in
  with_ebp k (esp k).

(** ** [void schedule()] *)

(** [schedule] returns to its caller or leaves for user mode. *)
Inductive outcome := Returns | ToUser.

(** The block [if(p_curr != p_prev)] and the call [func()] it leads to. *)
Definition change_process (k : K) (p_prev : option nat) (p_curr : nat) (func : callback) : res K :=
  if bool_decide (Some p_curr = p_prev) then Ok k
  else
    let k := with_pm k (with_current (pm k) p_prev (Some p_curr)) in
    let k := setFrame2TSS k (kernel_info (pr (pm k) p_curr)) in
    let k := with_pm k (upd_proc (pm k) p_curr (set_ret_from kernel2user)) in
    match mm (pr (pm k) p_curr), p_prev with
    | Some m, Some i_prev =>
        let k := with_cr3 k (cr3 m) in
        let k := swap_esp k i_prev (k_sp (kernel_info (pr (pm k) p_curr))) in
        run_callback k func
    | _, _ => Fault
    end.

(** The switch to the process at the head of level [lvl]. *)
Definition switch_to (k : K) (lvl p_curr : nat) : res (K * outcome) :=
  let p_prev := pCurrent (pm k) in
  let nlevel := if bool_decide (lvl < nr_Level - 1)%nat then S lvl else (nr_Level - 1)%nat in
  let p := upd_proc (pm k) p_curr (set_status TASK_STOPPED) in
  let p := with_head p lvl (nxt p p_curr) in
  p ← enque p p_curr (Z.of_nat nlevel);
  let k := with_pm k p in
  let k := with_timer k (Timer.reset_quantum (timer k)
             (default 0 (Process.interval p !! nlevel)) (p_id (pr p p_curr))) in
  let func := ret_from (kernel_info (pr p p_curr)) in
  k ← change_process k p_prev p_curr func;
  k ← ret_to_user k;
  Ok (k, ToUser).

Fixpoint schedule_levels (n : nat) (k : K) (lvl : nat) : res (K * outcome) :=
  match n with
  | O => Ok (k, Returns)
  | S n' =>
      match headp (pm k) lvl with
      | Some p_curr => switch_to k lvl p_curr
      | None => schedule_levels n' k (S lvl)
      end
  end.

Definition schedule (k : K) : res (K * outcome) :=
  if negb (sched_req k) && negb (Timer.quantum_exceeded (timer k)) then Ok (k, Returns)
  else
    let k := with_req (with_timer k (Timer.with_quantum (timer k) false)) false in
    schedule_levels nr_Level k 0.

(** [void reschedule()]. *)
Definition reschedule (k : K) : K := with_req k true.

(** ** Sleeping and waking *)

(** [void sleep(int pid,int millisec)]. *)
Definition sleep_pid (k : K) (pid millisec : Z) : res K :=
  match getProc (pm k) pid with
  | None => Panic "sleep()::cannot find process"
  | Some proc =>
      p ← deque (pm k) proc;
      let k := with_pm k p in
      let k :=
        if millisec >? 0 then
          with_timer k (Timer.set (timer k) (millisec / Timer.interval) Timer.Wakeup (p_id (pr p proc)))
        else k in
      Ok (reschedule k)
  end.

(** [void sleep(int millisec)]. *)
Definition sleep (k : K) (millisec : Z) : res K :=
  c ← current k;
  sleep_pid k (p_id (pr (pm k) c)) millisec.

(** [void sleep(void ( *callback)(void))]. *)
Definition sleep_callback (k : K) (cb : callback) : res K :=
  c ← current k;
  let k := with_pm k (upd_proc (pm k) c (set_ret_from cb)) in
  sleep_pid k (p_id (pr (pm k) c)) (-1).

(** [void wakeup(int pid)]. *)
Definition wakeup (k : K) (pid : Z) : res K :=
  match getProc (pm k) pid with
  | None => Panic "sleep()::cannot find process "
  | Some proc => p ← enque (pm k) proc 0; Ok (reschedule (with_pm k p))
  end.

(** [void wakeup()]. *)
Definition wakeup_current (k : K) : res K :=
  c ← current k;
  wakeup k (p_id (pr (pm k) c)).

(** ** Waiting for interrupts *)

(** [void wait_interrupt(int irq)]. *)
Definition wait_interrupt (k : K) (n : Z) : res K :=
  c ← current k;
  q ← KType.enque nr_irq (irqQue k) (mkIrq n (p_id (pr (pm k) c)));
  sleep (with_irqQue k q) (-1).

(** [void notify(int irq)]. *)
Definition notify (k : K) (n : Z) : res K :=
  '(e, q) ← KType.deque_eq irq_eqb (irqQue k) (mkIrq n 0);
  let k := with_irqQue k q in
  if irq_eqb e invalid_entry then Ok k else wakeup k (irq_pid e).

(** ** [void timerHandler(void *args)] *)

(** The loop over the expired entries; the rest becomes the new list. *)
Fixpoint expire (k : K) (l : list Timer.entry) : res (K * list Timer.entry) :=
  match l with
  | [] => Ok (k, [])
  | p :: l' =>
      if Timer.clocks p >? 0 then Ok (k, p :: l')
      else
        k ←
          match Timer.ty p with
          | Timer.TaskSwitch => Ok (with_timer k (Timer.with_quantum (timer k) true))
          | Timer.Wakeup => wakeup k (s32 (Timer.pr_id p))
          | _ => Ok k
          end;
        expire k l'
  end.

Definition timerHandler (k : K) : res K :=
  let t := Timer.passClocks (Timer.tick_clock (timer k)) 1 in
  let k := with_timer k t in
  '(k, rest) ← expire k (Timer.head t);
  Ok (with_timer k (Timer.with_head (timer k) rest)).

(** ** [void init_tasks()], from the two processes it makes *)

(** After [makeSysProc] made [pinit] and [pkernel]: the state on entry to the
    init task. *)
Definition init_tasks (k : K) (pinit pkernel : nat) : res K :=
  let set_id v p := mkProc v (p_next p) (prior p) (status p) (mm p) (kernel_info p)
                      (recvQ p) (sendQ p) (recv_anyQ p) in
  let p := upd_proc (pm k) pkernel (set_id PID_KERNEL) in
  let p := upd_proc p pinit (set_id PID_INIT) in
  p ← enque p pinit 0;
  let p := with_current p (pPrev p) (Some pinit) in
  let k := setFrame2TSS (with_pm k p) (kernel_info (pr p pinit)) in
  match mm (pr p pinit) with
  | None => Fault
  | Some m =>
      let k := with_cr3 k (cr3 m) in
      Ok (with_timer k (Timer.reset_quantum (timer k) (default 0 (Process.interval p !! 0%nat))
            (p_id (pr p pinit))))
  end.

(** ** The abstract scheduler

    The run queues as lists, one per level: the first process of the first
    non-empty level runs and moves to the end of the next level down. *)

Definition next_level (lvl : nat) : nat :=
  if bool_decide (lvl < nr_Level - 1)%nat then S lvl else (nr_Level - 1)%nat.

Fixpoint first_level (Q : list (list nat)) (lvl : nat) : option (nat * nat * list nat) :=
  match Q with
  | [] => None
  | [] :: Q' => first_level Q' (S lvl)
  | (x :: l) :: _ => Some (lvl, x, l)
  end.

Definition sched_step (Q : list (list nat)) : option (nat * list (list nat)) :=
  match first_level Q 0 with
  | Some (lvl, x, l) => Some (x, alter (λ m, m ++ [x]) (next_level lvl) (<[lvl := l]> Q))
  | None => None
  end.

(** ** Lemmas *)

Implicit Types (k : K) (p : PManager) (Q : list (list nat)) (i x lvl : nat).

Lemma first_level_spec Q d lvl x l :
  first_level Q d = Some (lvl, x, l) →
  ∃ n, lvl = (d + n)%nat ∧ Q !! n = Some (x :: l) ∧ ∀ n', (n' < n)%nat → Q !! n' = Some [].
Proof.
  revert d; induction Q as [|[|y m] Q IH]; intros d; cbn; [done|..].
  - intros (n & -> & Hn & Hlt)%IH. exists (S n). split_and!; [lia|done|].
    intros [|n'] H; [done|]. apply Hlt. lia.
  - intros [= <- <- <-]. exists 0%nat. split_and!; [lia|done|lia].
Qed.

Lemma first_level_none Q d : first_level Q d = None ↔ ∀ n l, Q !! n = Some l → l = [].
Proof.
  revert d; induction Q as [|[|y m] Q IH]; intros d; cbn.
  - split; [|done]. intros _ n l. by rewrite lookup_nil.
  - rewrite IH. split.
    + intros H [|n] l; cbn; [by intros [= <-]|apply H].
    + intros H n l Hn. by apply (H (S n)).
  - split; [done|]. intros H. by specialize (H 0%nat _ eq_refl).
Qed.

(** Updates that touch neither [next] nor [status] keep the queues. *)
Lemma wf_upd_other p Q i f :
  (∀ q, p_next (f q) = p_next q ∧ status (f q) = status q) → Wf p Q → Wf (upd_proc p i f) Q.
Proof.
  intros Hf HW.
  assert (Hp : ∀ j, p_next (pr (upd_proc p i f) j) = p_next (pr p j) ∧
    status (pr (upd_proc p i f) j) = status (pr p j)).
  { intros j. by rewrite (pr_upd_field p_next), (pr_upd_field status) by apply Hf. }
  constructor; try apply HW.
  - cbn. rewrite length_alter. apply HW.
  - intros lvl l Hl. eapply lseg_ext; [|by apply (wf_chain _ _ HW)]. intros j _. apply Hp.
  - intros j Hj. destruct (Hp j) as [_ ->]. by apply (wf_status _ _ HW).
Qed.

Lemma wf_with_current p Q a b : Wf p Q → Wf (with_current p a b) Q.
Proof. intros [H1 H2 H3 H4 H5 H6 H7]. by constructor. Qed.

Lemma next_level_lt lvl : (next_level lvl < nr_Level)%nat.
Proof. unfold next_level, nr_Level. case_bool_decide; lia. Qed.

(** The requeueing part of [switch_to]. *)
Lemma requeue_ok p Q lvl x l :
  Wf p Q → Q !! lvl = Some (x :: l) →
  let p1 := upd_proc p x (set_status TASK_STOPPED) in
  ∃ p', enque (with_head p1 lvl (nxt p1 x)) x (Z.of_nat (next_level lvl)) = Ok p' ∧
    Wf p' (alter (λ m, m ++ [x]) (next_level lvl) (<[lvl := l]> Q)) ∧
    Process.interval p' = Process.interval p ∧ pCurrent p' = pCurrent p ∧
    (∀ B (f : Proc → B), (∀ v q, f (set_next v q) = f q) → (∀ v q, f (set_status v q) = f q) →
       ∀ j, f (pr p' j) = f (pr p j)) ∧
    isFree (ProcL p') = isFree (ProcL p) ∧ ∀ j, status (pr p' j) = status (pr p j).
Proof.
  intros HW Hl p1. pose proof (unlinked_wf p Q lvl [] x l HW Hl) as HW1.
  change (with_head p1 lvl (nxt p1 x)) with (unlinked p lvl [] x).
  assert (Hx : (x < nr_Proc)%nat).
  { apply (wf_range _ _ HW), elem_of_concat. exists lvl, (x :: l). split; [done|by left]. }
  assert (Hxr : (x < length (room (ProcL p)))%nat) by (by rewrite (wf_rooms _ _ HW)).
  pose proof (next_level_lt lvl) as Hn.
  destruct (wf_level_lookup _ _ (next_level lvl) HW1 Hn) as [m Hm].
  destruct (runq_enque_ok (unlinked p lvl [] x) _ x (Z.of_nat (next_level lvl)) (next_level lvl) m HW1 Hx)
    as [E HW2]; [|..|done|lia|done|].
  { rewrite unlinked_status, decide_True by done. done. }
  { rewrite (proj2 (Z.eqb_neq _ 0)), Nat2Z.id; [done|].
    unfold next_level, nr_Level. case_bool_decide; lia. }
  exists (linked_last (unlinked p lvl [] x) (next_level lvl) m x). split_and!; [exact E|..].
  - cbn [app] in *. replace (alter (λ m0, m0 ++ [x]) (next_level lvl) (<[lvl:=l]> Q)) with
      (<[next_level lvl := m ++ [x]]> (<[lvl:=l]> Q)); [exact HW2|].
    apply list_eq. intros j. destruct (decide (j = next_level lvl)) as [->|].
    + rewrite list_lookup_alter_eq, Hm, list_lookup_insert_eq; [done|]. by eapply lookup_lt_Some.
    + by rewrite list_lookup_alter_ne, list_lookup_insert_ne.
  - unfold linked_last; cbn. by destruct (loc_after m).
  - unfold linked_last; cbn. by destruct (loc_after m).
  - intros B f Hf1 Hf2 j. unfold linked_last.
    assert (Hlen : length (room (ProcL (unlinked p lvl [] x))) = length (room (ProcL p))).
    { cbn. by rewrite length_alter. }
    rewrite pr_upd by (by rewrite procs_length_assign, procs_length_upd, Hlen).
    assert (Hj : ∀ j, f (pr (assign (upd_proc (unlinked p lvl [] x) x (set_next None))
      (next_level lvl) (loc_after m) (Some x)) j) = f (pr p j)).
    { intros j'. rewrite (pr_assign_field f) by (intros; apply Hf1). rewrite pr_upd by (by rewrite Hlen).
      assert (Hu : ∀ j, f (pr (unlinked p lvl [] x) j) = f (pr p j)).
      { intros j2. unfold unlinked. rewrite (pr_assign_field f) by (intros; apply Hf1).
        rewrite pr_upd by done. case_decide; subst; [apply Hf2|done]. }
      case_decide; subst; [rewrite Hf1|]; apply Hu. }
    case_decide; subst; [rewrite Hf2|]; apply Hj.
  - unfold linked_last, assign, unlinked. cbn. by destruct (loc_after m).
  - intros j. assert (Hxs : status (pr p x) = TASK_RUNNING).
    { apply (wf_status _ _ HW x Hx), elem_of_concat. exists lvl, (x :: l). split; [done|by left]. }
    rewrite linked_last_status, unlinked_status by (cbn; by rewrite ?length_alter).
    case_decide; [by subst|]. done.
Qed.

Lemma schedule_levels_found n k Q lvl0 lvl x l :
  Wf (pm k) Q → Q !! lvl = Some (x :: l) → (lvl0 ≤ lvl < lvl0 + n)%nat →
  (∀ j, (lvl0 ≤ j < lvl)%nat → Q !! j = Some []) →
  schedule_levels n k lvl0 = switch_to k lvl x.
Proof.
  intros HW Hl. revert lvl0; induction n as [|n IH]; intros lvl0 Hr He; [lia|].
  cbn [schedule_levels]. destruct (decide (lvl0 = lvl)) as [->|Hne].
  - pose proof (wf_chain _ _ HW _ _ Hl) as [-> _]. done.
  - pose proof (wf_chain _ _ HW _ _ (He lvl0 ltac:(lia))) as Hc.
    unfold chain in Hc; cbn in Hc. rewrite Hc. apply IH; [lia|]. intros j Hj. apply He. lia.
Qed.

Lemma schedule_levels_empty n k Q lvl0 :
  Wf (pm k) Q → (∀ j l, Q !! j = Some l → l = []) → (lvl0 + n ≤ nr_Level)%nat →
  schedule_levels n k lvl0 = Ok (k, Returns).
Proof.
  intros HW He. revert lvl0; induction n as [|n IH]; intros lvl0 Hr; [done|].
  cbn [schedule_levels]. destruct (wf_level_lookup _ _ lvl0 HW) as [l Hl]; [lia|].
  pose proof (wf_chain _ _ HW _ _ Hl) as Hc. rewrite (He _ _ Hl) in Hc.
  unfold chain in Hc; cbn in Hc. rewrite Hc. apply IH. lia.
Qed.

(** A process that [schedule] can switch to: it has an address space, and its
    callback is the one of [makeSysProc] or of [fork] (it was not put to sleep by
    [recv] since it last ran). *)
Definition ready_to_run k x (m : mm_struct) : Prop :=
  mm (pr (pm k) x) = Some m ∧
  (ret_from (kernel_info (pr (pm k) x)) = kernel2user ∨ ret_from (kernel_info (pr (pm k) x)) = ret_from_fork).

(** The memory after the switch from [c] to [x]: a new process finds 0 in [ax]. *)
Definition resumed k (c x : nat) : mem :=
  if bool_decide (x = c) then VarMem.vm_mem (vm k)
  else match ret_from (kernel_info (pr (pm k) x)) with
       | ret_from_fork => store32 (VarMem.vm_mem (vm k)) (u32 (frame_of (pr (pm k) x) + frame_ax)) 0
       | _ => VarMem.vm_mem (vm k)
       end.

(** What a switch from [c] to [x] leaves alone: the process table but for the place of the
    processes in the run queues, the stack pointer saved for [c], and the callback of [x]. *)
Record Switched k k' (c x : nat) : Prop := {
  sw_free : isFree (ProcL (pm k')) = isFree (ProcL (pm k));
  sw_interval : Process.interval (pm k') = Process.interval (pm k);
  sw_irq : irqQue k' = irqQue k;
  sw_field : ∀ (B : Type) (g : Proc → B), (∀ v q, g (set_next v q) = g q) → (∀ v q, g (set_status v q) = g q) →
    (∀ v q, g (set_sp v q) = g q) → (∀ v q, g (set_ret_from v q) = g q) → ∀ j, g (pr (pm k') j) = g (pr (pm k) j);
  sw_status : ∀ j, status (pr (pm k') j) = status (pr (pm k) j);
  sw_ret : ∀ j, ret_from (kernel_info (pr (pm k') j)) =
    if decide (j = x ∧ x ≠ c) then kernel2user else ret_from (kernel_info (pr (pm k) j))
}.

Lemma change_process_ok k Q c x m :
  Wf (pm k) Q → (x < nr_Proc)%nat → pCurrent (pm k) = Some c → ready_to_run k x m →
  ∃ k', change_process k (Some c) x (ret_from (kernel_info (pr (pm k) x))) = Ok k' ∧ Wf (pm k') Q ∧
    vm k' = VarMem.mkVM (resumed k c x) (VarMem.vm_pf (vm k)) ∧
    pCurrent (pm k') = Some x ∧ sched_req k' = sched_req k ∧ timer k' = timer k ∧
    cr3_reg k' = (if decide (x = c) then cr3_reg k else cr3 m) ∧
    tss_esp0 k' = (if decide (x = c) then tss_esp0 k else stack_top (kernel_info (pr (pm k) x))) ∧
    stack_top (kernel_info (pr (pm k') x)) = stack_top (kernel_info (pr (pm k) x)) ∧ Switched k k' c x.
Proof.
  intros HW Hx Hc [Hmm Hcb]. unfold change_process, resumed. destruct (decide (x = c)) as [->|Hne].
  { rewrite !bool_decide_eq_true_2 by done. exists k. split_and!; try done; [by destruct (vm k)|].
    split; try done. intros j. rewrite decide_False by tauto. done. }
  rewrite !bool_decide_eq_false_2 by congruence. cbv zeta.
  set (p1 := with_current (pm k) (Some c) (Some x)).
  set (p2 := upd_proc p1 x (set_ret_from kernel2user)).
  assert (Hp2 : pr p2 x = set_ret_from kernel2user (pr (pm k) x)).
  { assert (Hr : (x < length (room (ProcL p1)))%nat) by (cbn; by rewrite (wf_rooms _ _ HW)).
    unfold p2. rewrite pr_upd by done. by rewrite decide_True by done. }
  cbn [setFrame2TSS with_pm pm]. fold p2. rewrite Hp2. cbn [set_ret_from mm]. rewrite Hmm.
  set (k2 := swap_esp _ _ _). assert (HW2 : Wf (pm k2) Q).
  { apply wf_upd_other; [done|]. apply wf_upd_other; [done|]. by apply wf_with_current. }
  assert (Hst : stack_top (kernel_info (pr (pm k2) x)) = stack_top (kernel_info (pr (pm k) x))).
  { unfold k2. cbn [swap_esp with_cr3 with_pm with_ebp pm]. rewrite pr_upd_ne by done. fold p2. by rewrite Hp2. }
  assert (HSw : Switched k k2 c x).
  { assert (Hr : (x < length (room (ProcL p1)))%nat) by (cbn; by rewrite (wf_rooms _ _ HW)).
    split; [done|done|done|..].
    - intros B g _ _ G1 G2 j. change (pm k2) with (upd_proc p2 c (set_sp (ebp k))).
      rewrite pr_upd_field by apply G1. by unfold p2; rewrite pr_upd_field by apply G2.
    - intros j. change (pm k2) with (upd_proc p2 c (set_sp (ebp k))). rewrite (pr_upd_field status) by done.
      by unfold p2; rewrite (pr_upd_field status).
    - intros j. change (pm k2) with (upd_proc p2 c (set_sp (ebp k))).
      rewrite (pr_upd_field (λ q, ret_from (kernel_info q))) by done. unfold p2. rewrite pr_upd by done.
      destruct (decide (j = x)); [by rewrite decide_True|]. by rewrite decide_False by tauto. }
  destruct Hcb as [-> | ->]; cbn [run_callback].
  - exists k2. split_and!; try done. by destruct (vm k) eqn:E; cbn; rewrite <- E.
  - unfold do_ret_from_fork, current. change (pCurrent (pm k2)) with (Some x). cbn [mbind res_bind].
    eexists. split; [reflexivity|]. split_and!; try done; [|by destruct HSw].
    cbn [vm with_vm]. unfold frame_of. by rewrite Hst.
Qed.

Lemma switch_to_ok k Q lvl x l c m :
  Wf (pm k) Q → Q !! lvl = Some (x :: l) → pCurrent (pm k) = Some c → ready_to_run k x m →
  ∃ k', switch_to k lvl x = Ok (k', ToUser) ∧
    Wf (pm k') (alter (λ m, m ++ [x]) (next_level lvl) (<[lvl := l]> Q)) ∧
    pCurrent (pm k') = Some x ∧ sched_req k' = sched_req k ∧
    timer k' = Timer.reset_quantum (timer k)
                 (default 0 (Process.interval (pm k) !! next_level lvl)) (p_id (pr (pm k) x)) ∧
    cr3_reg k' = (if decide (x = c) then cr3_reg k else cr3 m) ∧
    tss_esp0 k' = (if decide (x = c) then tss_esp0 k else stack_top (kernel_info (pr (pm k) x))) ∧
    esp k' = frame_of (pr (pm k) x) ∧ vm k' = VarMem.mkVM (resumed k c x) (VarMem.vm_pf (vm k)) ∧ Switched k k' c x.
Proof.
  intros HW Hl Hc [Hmm Hcb].
  destruct (requeue_ok (pm k) Q lvl x l HW Hl) as (p' & E & HW' & Ei & Ec & Hf & Efr & Hfs).
  unfold switch_to. fold (next_level lvl). rewrite E. cbn [mbind res_bind].
  rewrite Hc, Ei, (Hf _ p_id) by done.
  set (k1 := with_timer _ _).
  assert (Hx : (x < nr_Proc)%nat).
  { apply (wf_range _ _ HW), elem_of_concat. exists lvl, (x :: l). split; [done|by left]. }
  destruct (change_process_ok k1 _ c x m HW' Hx) as (k2 & E2 & HW2 & Hvm & Hcur & Hr & Ht & H3 & H4 & H5 & [S1 S2 S3 S4 S5 S6]).
  { by transitivity (pCurrent (pm k)). }
  { split; [by rewrite <-Hmm, <-(Hf _ mm)|]. change (pm k1) with p'. by rewrite (Hf _ kernel_info). }
  change (pm k1) with p' in E2. rewrite E2. cbn [mbind res_bind]. unfold ret_to_user, current. rewrite Hcur. cbn [mbind res_bind].
  assert (Hst : stack_top (kernel_info (pr (pm k1) x)) = stack_top (kernel_info (pr (pm k) x))).
  { change (pm k1) with p'. by rewrite (Hf _ kernel_info). }
  eexists. split; [reflexivity|]. split_and!; try assumption.
  - rewrite <-Hst. exact H4.
  - change (frame_of (pr (pm k2) x) = frame_of (pr (pm k) x)).
    unfold frame_of. by rewrite H5, Hst.
  - cbn [with_esp vm]. rewrite Hvm. unfold resumed, frame_of. change (pm k1) with p'. by rewrite (Hf _ kernel_info).
  - change (pm k1) with p' in S1, S2, S4, S5, S6. split; cbn [with_esp pm].
    + by rewrite S1.
    + by rewrite S2.
    + exact S3.
    + intros B g G1 G2 G3 G4 j. cbn [with_esp pm]. by rewrite (S4 B g), (Hf B g) by assumption.
    + intros j. by rewrite S5, Hfs.
    + intros j. by rewrite S6, (Hf _ kernel_info).
Qed.

Lemma schedule_spec k Q c x Q' m :
  Wf (pm k) Q → sched_req k || Timer.quantum_exceeded (timer k) = true →
  sched_step Q = Some (x, Q') → pCurrent (pm k) = Some c → ready_to_run k x m →
  ∃ k' lvl, schedule k = Ok (k', ToUser) ∧ Wf (pm k') Q' ∧ pCurrent (pm k') = Some x ∧
    sched_req k' = false ∧ Timer.quantum_exceeded (timer k') = false ∧
    x ∈ default [] (Q !! lvl) ∧ (∀ j, (j < lvl)%nat → Q !! j = Some []) ∧
    Timer.head (timer k') = Timer.head (Timer.reset_quantum (timer k)
      (default 0 (Process.interval (pm k) !! next_level lvl)) (p_id (pr (pm k) x))) ∧
    cr3_reg k' = (if decide (x = c) then cr3_reg k else cr3 m) ∧
    tss_esp0 k' = (if decide (x = c) then tss_esp0 k else stack_top (kernel_info (pr (pm k) x))) ∧
    esp k' = frame_of (pr (pm k) x) ∧ vm k' = VarMem.mkVM (resumed k c x) (VarMem.vm_pf (vm k)) ∧ Switched k k' c x.
Proof.
  intros HW Hreq Hst Hc Hrdy. unfold sched_step in Hst.
  destruct (first_level Q 0) as [[[lvl y] l]|] eqn:Ef; [|done]. injection Hst as -> <-.
  apply first_level_spec in Ef as (n & -> & Hl & He). cbn in *.
  unfold schedule. destruct (negb (sched_req k) && _) eqn:En.
  { destruct (sched_req k), (Timer.quantum_exceeded (timer k)); done. }
  set (k1 := with_req _ false).
  destruct (switch_to_ok k1 Q n x l c m) as (k' & E & HW' & Hcur & Hr & Ht & H3 & H4 & H5 & H6 & [S1 S2 S3 S4 S5 S6]); try done.
  rewrite (schedule_levels_found nr_Level k1 Q 0 n x l); [|done|done| |intros; apply He; lia].
  2: { apply lookup_lt_Some in Hl. rewrite (wf_levels _ _ HW) in Hl. lia. }
  exists k', n. split_and!; try done.
  - by rewrite Ht.
  - rewrite Hl. by left.
  - by rewrite Ht.
Qed.

(** C4: a requested [schedule] refines the abstract multi-level scheduler: the
    first process of the first non-empty level becomes current and moves to the
    end of the next level, all run queues stay well formed, both request flags
    are cleared, the quantum timer is restarted for the new process with the
    interval of its new level, and when the process changes, the address space
    and the kernel stack in the TSS become those of the new process; the stack
    pointer ends at its saved user frame. Memory does not change, except that a process
    that [fork] made finds 0 in its saved [ax] when it is started. *)
Theorem schedule_refines k Q c x Q' m :
  Wf (pm k) Q → sched_req k || Timer.quantum_exceeded (timer k) = true →
  sched_step Q = Some (x, Q') → pCurrent (pm k) = Some c → ready_to_run k x m →
  ∃ k' lvl, schedule k = Ok (k', ToUser) ∧ Wf (pm k') Q' ∧ pCurrent (pm k') = Some x ∧
    sched_req k' = false ∧ Timer.quantum_exceeded (timer k') = false ∧
    x ∈ default [] (Q !! lvl) ∧ (∀ j, (j < lvl)%nat → Q !! j = Some []) ∧
    Timer.head (timer k') = Timer.head (Timer.reset_quantum (timer k)
      (default 0 (Process.interval (pm k) !! next_level lvl)) (p_id (pr (pm k) x))) ∧
    cr3_reg k' = (if decide (x = c) then cr3_reg k else cr3 m) ∧
    tss_esp0 k' = (if decide (x = c) then tss_esp0 k else stack_top (kernel_info (pr (pm k) x))) ∧
    esp k' = frame_of (pr (pm k) x) ∧ vm k' = VarMem.mkVM (resumed k c x) (VarMem.vm_pf (vm k)).
Proof.
  intros H1 H2 H3 H4 H5.
  destruct (schedule_spec k Q c x Q' m H1 H2 H3 H4 H5) as (k' & lvl & ? & ? & ? & ? & ? & ? & ? & ? & ? & ? & ? & ? & _).
  exists k', lvl. split_and!; assumption.
Qed.

(** when no process is runnable, a requested [schedule] clears the request
    and returns to its caller: the process that just went to sleep goes on
    running. *)
Theorem schedule_idle_returns k Q :
  Wf (pm k) Q → concat Q = [] →
  sched_req k || Timer.quantum_exceeded (timer k) = true →
  ∃ k', schedule k = Ok (k', Returns) ∧ pm k' = pm k ∧ sched_req k' = false ∧
    Timer.quantum_exceeded (timer k') = false.
Proof.
  intros HW He Hreq. unfold schedule. destruct (negb (sched_req k) && _) eqn:En.
  { destruct (sched_req k), (Timer.quantum_exceeded (timer k)); done. }
  eexists. rewrite (schedule_levels_empty _ _ Q); [split_and!; done|done| |lia].
  intros j l Hl. destruct l as [|y l]; [done|].
  assert (Hy : y ∈ concat Q) by (apply elem_of_concat; exists j, (y :: l); split; [done|by left]).
  rewrite He in Hy. by apply elem_of_nil in Hy.
Qed.

(** ** Fairness *)

(** The processes chosen by [n] successive scheduling decisions. *)
Fixpoint sched_run (n : nat) (Q : list (list nat)) : list nat :=
  match n with
  | O => []
  | S n' =>
      match sched_step Q with
      | Some (x, Q') => x :: sched_run n' Q'
      | None => []
      end
  end.

(** The lowest level is served round robin. *)
Lemma sched_run_round_robin x (l1 l2 : list nat) (n : nat) :
  (length l1 < n)%nat → x ∈ sched_run n [[]; []; []; l1 ++ x :: l2].
Proof.
  revert l2 n; induction l1 as [|y l1 IH]; intros l2 [|n] Hn; cbn in Hn; try lia; [by left|].
  right. change (x ∈ sched_run n [[]; []; []; (l1 ++ x :: l2) ++ [y]]).
  rewrite <-app_assoc. apply IH. lia.
Qed.

(** Scheduling decisions left until every process is in the lowest level. *)
Definition potential (a b c : list nat) : nat := 3 * length a + 2 * length b + length c.

Lemma sched_step_higher (a b c d : list nat) :
  (0 < potential a b c)%nat →
  ∃ x a' b' c' d', sched_step [a; b; c; d] = Some (x, [a'; b'; c'; d']) ∧
    (potential a' b' c' < potential a b c)%nat ∧
    concat [a'; b'; c'; d'] ≡ₚ concat [a; b; c; d].
Proof.
  unfold potential. intros H. destruct a as [|x a].
  - destruct b as [|x b].
    + destruct c as [|x c]; [cbn in H; lia|].
      exists x, [], [], c, (d ++ [x]). split_and!; [done|cbn; lia|].
      cbn. rewrite !app_nil_r, app_assoc. symmetry. apply Permutation_cons_append.
    + exists x, [], b, (c ++ [x]), d. split_and!; [done|cbn; rewrite length_app; cbn; lia|].
      cbn. rewrite !app_nil_r, <-!app_assoc. cbn. rewrite !app_assoc. symmetry. apply Permutation_middle.
  - exists x, a, (b ++ [x]), c, d. split_and!; [done|cbn; rewrite length_app; cbn; lia|].
    cbn. rewrite !app_nil_r, <-!app_assoc. cbn. rewrite !app_assoc. symmetry. rewrite <-app_assoc.
    cbn. rewrite <-Permutation_middle. by rewrite app_assoc.
Qed.

Lemma sched_run_fair (f : nat) (a b c d : list nat) x :
  x ∈ concat [a; b; c; d] → (potential a b c + length (concat [a; b; c; d]) ≤ f)%nat →
  x ∈ sched_run f [a; b; c; d].
Proof.
  revert a b c d; induction f as [|f IH]; intros a b c d Hx Hf.
  { assert (E : length (concat [a; b; c; d]) = 0%nat) by lia. apply nil_length_inv in E.
    rewrite E in Hx. by apply elem_of_nil in Hx. }
  destruct (decide (0 < potential a b c)%nat) as [Hp|Hp].
  - destruct (sched_step_higher a b c d Hp) as (y & a' & b' & c' & d' & E & Hlt & HP).
    change (x ∈ match sched_step [a; b; c; d] with
                | Some (x, Q') => x :: sched_run f Q' | None => [] end). rewrite E.
    right. apply IH; [by rewrite HP|]. rewrite HP. lia.
  - unfold potential in *. destruct a, b, c; cbn in Hp; try lia. cbn in Hx, Hf. rewrite app_nil_r in *.
    apply list_elem_of_split in Hx as (l1 & l2 & ->). apply sched_run_round_robin.
    rewrite length_app in Hf. cbn in Hf. lia.
Qed.



(** ** Sleeping, waking and the clock interrupt *)

Lemma wakeup_ok k Q pid i :
  Wf (pm k) Q → getProc (pm k) pid = Some i → wakeable (pm k) i →
  ∃ k' Q', wakeup k pid = Ok k' ∧ Wf (pm k') Q' ∧
    (∀ j, j ∈ concat Q' ↔ j ∈ concat Q ∨ j = i) ∧
    (∀ id, getProc (pm k') id = getProc (pm k) id) ∧
    (∀ j, wakeable (pm k) j → wakeable (pm k') j) ∧ timer k' = timer k ∧ sched_req k' = true.
Proof.
  intros HW Hg Hw. unfold wakeup. rewrite Hg.
  destruct (enque_wake (pm k) Q i HW Hw) as (p' & Q' & E & HW' & HQ & Hid & Hwk & _).
  rewrite E. cbn [mbind res_bind]. exists (reschedule (with_pm k p')), Q'. done.
Qed.

(** C27: [sleep(pid,ms)] of a runnable process takes it out of its run queue
    (and no other process), requests rescheduling, and sets a wakeup timer of
    [ms/10] clocks when [ms] is positive; a later [wakeup(pid)] puts the process
    at the end of the queue of its priority. *)
Theorem sleep_wakeup_correct k Q pid ms i :
  Wf (pm k) Q → getProc (pm k) pid = Some i → status (pr (pm k) i) = TASK_RUNNING →
  0 ≤ prior (pr (pm k) i) < Z.of_nat nr_Level →
  ∃ k1 lvl P R Q1, sleep_pid k pid ms = Ok k1 ∧ Q !! lvl = Some (P ++ i :: R) ∧
    Q1 = <[lvl := P ++ R]> Q ∧ Wf (pm k1) Q1 ∧ status (pr (pm k1) i) = TASK_STOPPED ∧
    sched_req k1 = true ∧
    timer k1 = (if decide (0 < ms) then Timer.set (timer k) (ms / 10) Timer.Wakeup pid
                else timer k) ∧
    ∃ k2 l, wakeup k1 pid = Ok k2 ∧ Q1 !! Z.to_nat (prior (pr (pm k) i)) = Some l ∧
      Wf (pm k2) (<[Z.to_nat (prior (pr (pm k) i)) := l ++ [i]]> Q1).
Proof.
  intros HW Hg Hst Hpr. destruct (getProc_leased _ _ _ Hg) as (Hi & Hl & Hid).
  rewrite (wf_rooms _ _ HW) in Hi.
  destruct (runq_deque_ok _ Q i HW Hi Hst) as (lvl & P & R & HQ & E & HW1).
  assert (Hf : ∀ B (f : Proc → B), (∀ v q, f (Process.set_next v q) = f q) →
    (∀ v q, f (set_status v q) = f q) → f (pr (unlinked (pm k) lvl P i) i) = f (pr (pm k) i)).
  { intros B f H1 H2. unfold unlinked. rewrite (pr_assign_field f) by (intros; apply H1).
    rewrite pr_upd by (by rewrite (wf_rooms _ _ HW)). by rewrite decide_True, H2. }
  assert (Hg1 : getProc (unlinked (pm k) lvl P i) pid = Some i).
  { rewrite <-Hg. unfold getProc, unlinked. destruct (loc_after P); cbn; apply find_proc_ext;
      by rewrite !ids_alter. }
  unfold sleep_pid. rewrite Hg, E. cbn [mbind res_bind]. rewrite (Hf _ p_id), Hid by done.
  set (k1 := reschedule _). exists k1, lvl, P, R, (<[lvl := P ++ R]> Q).
  assert (Ep : pm k1 = unlinked (pm k) lvl P i) by (unfold k1; by destruct (ms >? 0)).
  assert (Hs1 : status (pr (pm k1) i) = TASK_STOPPED).
  { rewrite Ep, unlinked_status by (by rewrite (wf_rooms _ _ HW)). by rewrite decide_True. }
  rewrite <-Ep in HW1, Hg1, Hf. split_and!; try done.
  - unfold k1. destruct (ms >? 0) eqn:Em; bool_to_prop; case_decide; (done || lia).
  - set (pl := Z.to_nat (prior (pr (pm k) i))).
    assert (Hpl : (pl < nr_Level)%nat) by (unfold pl, nr_Level in *; lia).
    destruct (wf_level_lookup _ _ pl HW1 Hpl) as [l Hlk].
    destruct (runq_enque_ok (pm k1) _ i 0 pl l HW1 Hi Hs1) as [E2 HW2]; try done.
    { change (pl = Z.to_nat (prior (pr (pm k1) i))). by rewrite (Hf _ prior). }
    eexists _, l. split_and!; [|exact Hlk|].
    + unfold wakeup. rewrite Hg1, E2. reflexivity.
    + exact HW2.
Qed.

(** Entry [e] expires with the next clock interrupt. *)
Definition expiring (e : Timer.entry) : Prop := Timer.clocks e ≤ 1.

#[global] Instance expiring_dec e : Decision (expiring e) := _ : Decision (_ ≤ _).

(** Every pending wakeup that is due names a process that can be woken. *)
Definition wakeups_ok p (l : list Timer.entry) : Prop :=
  ∀ e, e ∈ l → Timer.ty e = Timer.Wakeup → Timer.clocks e ≤ 0 →
  ∃ i, getProc p (s32 (Timer.pr_id e)) = Some i ∧ wakeable p i.

(** The processes woken by the entries [l]. *)
Definition woken p (l : list Timer.entry) j : Prop :=
  ∃ e, e ∈ l ∧ Timer.ty e = Timer.Wakeup ∧ Timer.clocks e ≤ 0 ∧
    getProc p (s32 (Timer.pr_id e)) = Some j.

Lemma woken_cons p (e : Timer.entry) l j : woken p (e :: l) j ↔ woken p [e] j ∨ woken p l j.
Proof.
  unfold woken. setoid_rewrite elem_of_cons. split.
  - intros (e' & [->|He] & H); [left|right]; eauto.
  - intros [(e' & [->|He] & H)|(e' & He & H)]; [eauto|by apply elem_of_nil in He|eauto].
Qed.

Lemma woken_ext p p' l j : (∀ id, getProc p' id = getProc p id) → woken p' l j ↔ woken p l j.
Proof. intros H. unfold woken. by setoid_rewrite H. Qed.

(** The [switch] on the type of one due entry. *)
Definition expire_one k (e : Timer.entry) : res K :=
  match Timer.ty e with
  | Timer.TaskSwitch => Ok (with_timer k (Timer.with_quantum (timer k) true))
  | Timer.Wakeup => wakeup k (s32 (Timer.pr_id e))
  | _ => Ok k
  end.

Lemma expire_one_ok k Q (e : Timer.entry) :
  Wf (pm k) Q → Timer.clocks e ≤ 0 → wakeups_ok (pm k) [e] →
  ∃ k' Q', expire_one k e = Ok k' ∧ Wf (pm k') Q' ∧
    (∀ j, j ∈ concat Q' ↔ j ∈ concat Q ∨ woken (pm k) [e] j) ∧
    (Timer.quantum_exceeded (timer k') = true ↔
       Timer.quantum_exceeded (timer k) = true ∨ Timer.ty e = Timer.TaskSwitch) ∧
    Timer.msecond (timer k') = Timer.msecond (timer k) ∧
    Timer.second (timer k') = Timer.second (timer k) ∧
    (∀ id, getProc (pm k') id = getProc (pm k) id) ∧
    (∀ j, wakeable (pm k) j → wakeable (pm k') j).
Proof.
  intros HW Hc Hok.
  assert (Hno : Timer.ty e ≠ Timer.Wakeup → ∀ j, ¬ woken (pm k) [e] j).
  { intros Hne j (e' & ->%list_elem_of_singleton & ? & _). done. }
  unfold expire_one. destruct (Timer.ty e) eqn:Et.
  1,2: exists k, Q; split_and!; try done; [intros j; specialize (Hno ltac:(done) j); tauto|].
  1,2: split; [tauto|]; by intros [?|?].
  - eexists _, Q. split_and!; [reflexivity|done|..]; try done.
    + intros j. specialize (Hno ltac:(done) j). tauto.
    + cbn. tauto.
  - destruct (Hok e (list_elem_of_here _ _) Et Hc) as (i & Hg & Hwk).
    destruct (wakeup_ok k Q _ i HW Hg Hwk) as (k' & Q' & E & HW' & HQ & Hid & Hwk' & Ht & _).
    exists k', Q'. rewrite E, Ht. split_and!; try done.
    + intros j. rewrite HQ. split; (intros [?|Hj]; [by left|right]).
      * subst. exists e. split_and!; [by left|done|done|done].
      * destruct Hj as (e' & ->%list_elem_of_singleton & _ & _ & Hj). congruence.
    + split; [tauto|]. by intros [?|?].
Qed.

Lemma filter_all_true (P : Timer.entry → Prop) {dP : ∀ e : Timer.entry, Decision (P e)}
    (l : list Timer.entry) :
  (∀ e, e ∈ l → P e) → filter P l = l.
Proof.
  induction l as [|e l IH]; intros H; [done|]. rewrite filter_cons_True by (apply H; by left).
  f_equal. apply IH. intros; apply H; by right.
Qed.

Lemma expire_ok k Q (l : list Timer.entry) :
  Wf (pm k) Q → Timer.ordered l → wakeups_ok (pm k) l →
  ∃ k' Q', expire k l = Ok (k', filter (λ e, 0 < Timer.clocks e) l) ∧ Wf (pm k') Q' ∧
    (∀ j, j ∈ concat Q' ↔ j ∈ concat Q ∨ woken (pm k) l j) ∧
    (Timer.quantum_exceeded (timer k') = true ↔ Timer.quantum_exceeded (timer k) = true ∨
       ∃ e, e ∈ l ∧ Timer.ty e = Timer.TaskSwitch ∧ Timer.clocks e ≤ 0) ∧
    Timer.msecond (timer k') = Timer.msecond (timer k) ∧
    Timer.second (timer k') = Timer.second (timer k).
Proof.
  revert k Q; induction l as [|e l IH]; intros k Q HW Ho Hok.
  { exists k, Q. split_and!; try done; [intros j|]; split; try tauto; intros [?|(e & He & _)];
      try done; by apply elem_of_nil in He. }
  unfold Timer.ordered in Ho. inversion_clear Ho as [|? ? Hs Hf]. cbn [expire]. fold (expire_one k e).
  assert (Hf' : ∀ e', e' ∈ l → Timer.clocks e ≤ Timer.clocks e').
  { rewrite Forall_forall in Hf. intros e' He'. apply Hf, list_elem_of_fmap. eauto. }
  destruct (Timer.clocks e >? 0) eqn:Ec; bool_to_prop.
  { assert (Hpos : ∀ e', e' ∈ e :: l → 0 < Timer.clocks e').
    { intros e' [->|He]%elem_of_cons; [lia|]. specialize (Hf' e' He). lia. }
    exists k, Q. rewrite filter_all_true by done. split_and!; try done.
    - intros j. split; [tauto|]. intros [?|(e' & He & _ & Hc & _)]; [done|]. specialize (Hpos e' He). lia.
    - split; [tauto|]. intros [?|(e' & He & _ & Hc)]; [done|]. specialize (Hpos e' He). lia. }
  rewrite filter_cons_False by lia.
  destruct (expire_one_ok k Q e HW Ec) as (k1 & Q1 & E1 & HW1 & HQ1 & Hq1 & Hm1 & Hs1 & Hid1 & Hwk1).
  { intros e' ->%list_elem_of_singleton. apply Hok. by left. }
  rewrite E1. cbn [mbind res_bind].
  destruct (IH k1 Q1 HW1 Hs) as (k' & Q' & E' & HW' & HQ' & Hq' & Hm' & Hs').
  { intros e' He Ht Hc. destruct (Hok e' ltac:(by right) Ht Hc) as (i & Hg & Hw).
    exists i. rewrite Hid1. auto. }
  exists k', Q'. split_and!; [done|done|..|congruence|congruence].
  - intros j. rewrite HQ', HQ1, (woken_ext (pm k) (pm k1)), (woken_cons (pm k) e l) by done. tauto.
  - rewrite Hq', Hq1. setoid_rewrite elem_of_cons. split.
    + intros [[?|?]|(e' & He & H)]; [by left|right; exists e; auto|right; exists e'; tauto].
    + intros [?|(e' & [->|He] & Ht & Hc)]; [by left; left|left; by right|right; eauto].
Qed.

Lemma timerHandler_spec k Q :
  Wf (pm k) Q → Timer.ordered (Timer.head (timer k)) → Timer.no_wrap 1 (Timer.head (timer k)) →
  wakeups_ok (pm k) (Timer.pass_entry 1 <$> Timer.head (timer k)) →
  ∃ k' Q', timerHandler k = Ok k' ∧ Wf (pm k') Q' ∧
    Timer.head (timer k') =
      filter (λ e, 0 < Timer.clocks e) (Timer.pass_entry 1 <$> Timer.head (timer k)) ∧
    (∀ j, j ∈ concat Q' ↔ j ∈ concat Q ∨
       woken (pm k) (Timer.pass_entry 1 <$> Timer.head (timer k)) j) ∧
    (Timer.quantum_exceeded (timer k') = true ↔ Timer.quantum_exceeded (timer k) = true ∨
       ∃ e, e ∈ Timer.pass_entry 1 <$> Timer.head (timer k) ∧ Timer.ty e = Timer.TaskSwitch ∧
         Timer.clocks e ≤ 0).
Proof.
  intros HW Ho Hw Hok. unfold timerHandler.
  assert (Eh : Timer.head (Timer.passClocks (Timer.tick_clock (timer k)) 1) =
    Timer.pass_entry 1 <$> Timer.head (timer k)).
  { unfold Timer.passClocks, Timer.tick_clock. by destruct (_ >? _). }
  assert (Eq : Timer.quantum_exceeded (Timer.passClocks (Timer.tick_clock (timer k)) 1) =
    Timer.quantum_exceeded (timer k)).
  { unfold Timer.passClocks, Timer.tick_clock. by destruct (_ >? _). }
  set (t := Timer.passClocks _ 1) in *. clearbody t. rewrite Eh.
  destruct (expire_ok (with_timer k t) Q (Timer.pass_entry 1 <$> Timer.head (timer k)))
    as (k' & Q' & E & HW' & HQ & Hq & _); [done|by apply Timer.pass_ordered|done|].
  rewrite E. cbn [mbind res_bind]. eexists _, Q'. split_and!; [reflexivity|done|done|done|].
  rewrite <-Eq. exact Hq.
Qed.

(** C26: one clock interrupt on an ordered timer list: every timer loses one
    clock; exactly the timers that had at most one clock left are removed, the
    others stay in order; every process with a due wakeup timer becomes runnable
    and no other process changes; the quantum flag is raised exactly when a
    task-switch timer was due. *)
Theorem timerHandler_correct k Q :
  Wf (pm k) Q → Timer.ordered (Timer.head (timer k)) → Timer.no_wrap 1 (Timer.head (timer k)) →
  wakeups_ok (pm k) (Timer.pass_entry 1 <$> Timer.head (timer k)) →
  ∃ k' Q', timerHandler k = Ok k' ∧ Wf (pm k') Q' ∧
    Timer.head (timer k') =
      filter (λ e, 0 < Timer.clocks e) (Timer.pass_entry 1 <$> Timer.head (timer k)) ∧
    (∀ j, j ∈ concat Q' ↔ j ∈ concat Q ∨
       woken (pm k) (Timer.pass_entry 1 <$> Timer.head (timer k)) j) ∧
    (Timer.quantum_exceeded (timer k') = true ↔ Timer.quantum_exceeded (timer k) = true ∨
       ∃ e, e ∈ Timer.pass_entry 1 <$> Timer.head (timer k) ∧ Timer.ty e = Timer.TaskSwitch ∧
         Timer.clocks e ≤ 0).
Proof. apply timerHandler_spec. Qed.

(** ** A concrete state

    Process 0 (init, running), process 1 (id 100, runnable) and process 2 (id
    101, asleep with one clock left), all of priority 1. *)

Definition ex_proc (id : Z) (nx : option nat) (st : STATUS) (dir stk : Z) : Proc :=
  mkProc id nx Psys st (Some (mkMM dir [])) (mkKInfo stk 16 0 kernel2user 8)
    (recvQ proc0) (sendQ proc0) (recv_anyQ proc0).

Definition ex_procs (st : STATUS) : list Proc :=
  [ex_proc PID_INIT (Some 1%nat) st 1048576 1060860;
   ex_proc 100 None st 1052672 1064956;
   ex_proc 101 None TASK_STOPPED 1056768 1069052] ++ replicate 29 proc0.

Definition ex_k (st : STATUS) (h : option nat) (req : bool) : K :=
  mkK (mkPM [0; 1; 2; 3] None (Some 0%nat) [None; h; None; None] 102
         (mkLessor (ex_procs st) ([false; false; false] ++ replicate 29 true)))
    (Timer.mkTimer [Timer.mkEntry 1 Timer.Wakeup 101] false 0 0) req
    (mkQue invalid_entry None None 0 (mkLessor [] [])) 16 1060860 1048576 0 0
    (VarMem.mkVM ∅ PFAllocator.ex).

Lemma ex_status st h req i :
  status (pr (pm (ex_k st h req)) i) = TASK_RUNNING ↔
    st = TASK_RUNNING ∧ (i = 0%nat ∨ i = 1%nat).
Proof.
  destruct i as [|[|[|i]]]; [cbn; tauto|cbn; tauto|cbn; split; [done|lia]|].
  change (pr (pm (ex_k st h req)) (S (S (S i)))) with (default proc0 (replicate 29 proc0 !! i)).
  destruct (replicate 29 proc0 !! i) as [p|] eqn:E.
  - apply lookup_replicate_1 in E as [-> _]. split; [done|lia].
  - split; [done|lia].
Qed.

Lemma ex_wf req : Wf (pm (ex_k TASK_RUNNING (Some 0%nat) req)) [[]; [0%nat; 1%nat]; []; []].
Proof.
  assert (Hin : ∀ i, i ∈ concat [[]; [0%nat; 1%nat]; []; []] ↔ i = 0%nat ∨ i = 1%nat)
    by (intros; cbn; set_solver).
  constructor; try done.
  - intros [|[|[|[|lvl]]]] l; cbn; intros [= <-]; repeat split.
  - apply (bool_decide_unpack _). vm_compute. exact I.
  - intros i Hi%Hin. unfold nr_Proc. lia.
  - intros i Hi. rewrite Hin, ex_status. tauto.
Qed.

Lemma ex_idle_wf : Wf (pm (ex_k TASK_STOPPED None true)) [[]; []; []; []].
Proof.
  constructor; try done.
  - intros [|[|[|[|lvl]]]] l; cbn; intros [= <-]; repeat split.
  - constructor.
  - intros i Hi. by apply elem_of_nil in Hi.
  - intros i Hi. rewrite ex_status. split; [by intros []|].
    intros Hx. by apply elem_of_nil in Hx.
Qed.

Lemma schedule_refines_witness :
  ∃ k', schedule (ex_k TASK_RUNNING (Some 0%nat) true) = Ok (k', ToUser) ∧
    Wf (pm k') [[]; [1%nat]; [0%nat]; []] ∧ pCurrent (pm k') = Some 0%nat.
Proof.
  destruct (schedule_refines (ex_k TASK_RUNNING (Some 0%nat) true) [[]; [0%nat; 1%nat]; []; []]
    0%nat 0%nat [[]; [1%nat]; [0%nat]; []] (mkMM 1048576 [])) as (k' & lvl & E & HW & Hc & _).
  - apply ex_wf.
  - reflexivity.
  - reflexivity.
  - reflexivity.
  - split; [reflexivity|left; reflexivity].
  - exists k'. split_and!; assumption.
Defined.

Lemma schedule_idle_returns_witness :
  ∃ k', schedule (ex_k TASK_STOPPED None true) = Ok (k', Returns).
Proof.
  destruct (schedule_idle_returns (ex_k TASK_STOPPED None true) [[]; []; []; []]) as (k' & E & _).
  - exact ex_idle_wf.
  - reflexivity.
  - reflexivity.
  - exists k'. exact E.
Defined.

Lemma sleep_wakeup_correct_witness :
  ∃ k1, sleep_pid (ex_k TASK_RUNNING (Some 0%nat) false) 100 50 = Ok k1 ∧
    status (pr (pm k1) 1) = TASK_STOPPED.
Proof.
  destruct (sleep_wakeup_correct (ex_k TASK_RUNNING (Some 0%nat) false)
    [[]; [0%nat; 1%nat]; []; []] 100 50 1%nat) as (k1 & _ & _ & _ & _ & E & _ & _ & _ & Hs & _).
  - apply ex_wf.
  - reflexivity.
  - reflexivity.
  - change (0 ≤ 1 < 4). lia.
  - exists k1. split; assumption.
Defined.

Lemma timerHandler_correct_witness :
  ∃ k' Q', timerHandler (ex_k TASK_RUNNING (Some 0%nat) false) = Ok k' ∧ Wf (pm k') Q' ∧
    2%nat ∈ concat Q'.
Proof.
  destruct (timerHandler_correct (ex_k TASK_RUNNING (Some 0%nat) false) [[]; [0%nat; 1%nat]; []; []])
    as (k' & Q' & E & HW & _ & HQ & _).
  - apply ex_wf.
  - repeat constructor.
  - intros e ->%list_elem_of_singleton. cbn. lia.
  - intros e ->%list_elem_of_singleton _ _. exists 2%nat. split; [reflexivity|].
    split; [unfold nr_Proc; lia|]. split; [by left|]. change (0 ≤ 1 < 4). lia.
  - exists k', Q'. split_and!; [exact E|exact HW|]. apply HQ. right.
    exists (Timer.mkEntry 0 Timer.Wakeup 101). split_and!; [by left|reflexivity|cbn; lia|reflexivity].
Defined.

End Task.
