(* ===== verification/Ipc.v ===== *)
(** * Ipc.cpp: synchronous message passing

    A process that waits to receive from [X] leaves a message with its own id in
    [X->recvQ] (or, for any sender, in its own [recv_anyQ]); a sender puts the
    message in the receiver's [sendQ] and sleeps unless the receiver was waiting.
    The callback [recv_later] is [do_recv_later] of [Task.v]. *)

From S2P Require Import Prelude Chain Memory KType PageFrames VarMem Timer Process Task.

Module Ipc.
Import Process Task.

Definition set_recvQ (q : Que Message) (p : Proc) : Proc :=
  mkProc (p_id p) (p_next p) (prior p) (status p) (mm p) (kernel_info p) q (sendQ p) (recv_anyQ p).
Definition set_recv_anyQ (q : Que Message) (p : Proc) : Proc :=
  mkProc (p_id p) (p_next p) (prior p) (status p) (mm p) (kernel_info p) (recvQ p) (sendQ p) q.
Definition set_m_id (id : Z) (m : Message) : Message :=
  mkMessage id (m_type m) (isValid m) (m_p1 m) (m_p2 m) (m_p3 m).

Definition upd (k : K) (i : nat) (f : Proc → Proc) : K := with_pm k (upd_proc (pm k) i f).

(** Dereference of a [Proc *]. *)
Definition must (p : option nat) : res nat :=
  match p with Some i => Ok i | None => Fault end.

(** [int send(pid_t id,Message &mess)]; the second component is the message as
    the caller sees it afterwards. *)
Definition send (k : K) (id : Z) (mess : Message) : res (K * Message) :=
  myself ← current k;
  let psent := getProc (pm k) id in
  '(tmess, q) ← deque_eq Message_eqb (recvQ (pr (pm k) myself)) (Message_id id);
  let k := upd k myself (set_recvQ q) in
  let mess := set_m_id (p_id (pr (pm k) myself)) mess in
  if isValid tmess then
    psent ← must psent;
    q ← KType.enque nrMessage (sendQ (pr (pm k) psent)) mess;
    let k := upd k psent (set_sendQ q) in
    k ← wakeup k id;
    Ok (k, mess)
  else
    psent ← must psent;
    '(anym, q) ← KType.deque (recv_anyQ (pr (pm k) psent));
    let k := upd k psent (set_recv_anyQ q) in
    q ← KType.enque nrMessage (sendQ (pr (pm k) psent)) mess;
    let k := upd k psent (set_sendQ q) in
    k ← (if isValid anym then wakeup k id else sleep k (-1));
    Ok (k, mess).

(** [int recv(pid_t id,Message &mess)]. *)
Definition recv (k : K) (id : Z) (mess : Message) : res (K * Message) :=
  myself ← current k;
  let precv := getProc (pm k) id in
  '(tmess, q) ←
    (if id =? PID_ANY then KType.deque (sendQ (pr (pm k) myself))
     else deque_eq Message_eqb (sendQ (pr (pm k) myself)) (Message_id id));
  let k := upd k myself (set_sendQ q) in
  if isValid tmess then
    k ← wakeup k id;
    Ok (k, tmess)
  else
    k ←
      (if id =? PID_ANY then
         q ← KType.enque nrMessage (recv_anyQ (pr (pm k) myself)) mess;
         Ok (upd k myself (set_recv_anyQ q))
       else
         precv ← must precv;
         q ← KType.enque nrMessage (recvQ (pr (pm k) precv)) mess;
         Ok (upd k precv (set_recvQ q)));
    k ← sleep_callback k recv_later;
    Ok (k, mess).

(** ** Lemmas *)

Implicit Types (k : K) (Q : list (list nat)) (i : nat) (m : Message).

(** Contents of a message queue, newest first. *)
Definition Msgs (q : Que Message) (xs : list Message) : Prop :=
  Repr nrMessage Message_new q invMessage xs.

(** No message of [xs] is from [id]. *)
Definition none_from (id : Z) (xs : list Message) : Prop := ∀ m, m ∈ xs → m_id m ≠ id.

Lemma remove_first_none id xs :
  none_from id xs → remove_first Message_eqb (Message_id id) xs = None.
Proof.
  induction xs as [|x xs IH]; intros H; cbn; [done|].
  pose proof (H x (list_elem_of_here _ _)) as Hx. unfold Message_eqb at 1; cbn.
  rewrite (proj2 (Z.eqb_neq _ _) Hx), IH; [done|]. intros m Hm. apply H. by right.
Qed.

Lemma deque_eq_none q xs id :
  Msgs q xs → none_from id xs → deque_eq Message_eqb q (Message_id id) = Ok (invMessage, q).
Proof.
  intros HR Hn. pose proof (deque_eq_ok nrMessage Message_new Message_eqb q invMessage xs
    (Message_id id) HR) as H. by rewrite remove_first_none in H.
Qed.

(** [m] is the newest message from [id] in [xs], and [ys] are the others. *)
Definition newest_from (id : Z) (xs : list Message) (m : Message) (ys : list Message) : Prop :=
  remove_first Message_eqb (Message_id id) xs = Some (m, ys).

Lemma newest_cons id x xs m ys :
  newest_from id (x :: xs) m ys ↔
    (m_id x = id ∧ m = x ∧ ys = xs) ∨ (m_id x ≠ id ∧ ∃ zs, newest_from id xs m zs ∧ ys = x :: zs).
Proof.
  unfold newest_from. cbn. unfold Message_eqb at 1; cbn. destruct (Z.eqb_spec (m_id x) id) as [E|E].
  - split; [intros [= <- <-]; by left|]. by intros [(_ & -> & ->)|[? _]].
  - destruct (remove_first Message_eqb (Message_id id) xs) as [[y zs]|]; cbn.
    + split; [intros [= <- <-]; right; split; [done|by exists zs]|].
      by intros [[? _]|(_ & ? & [= -> <-] & ->)].
    + split; [done|]. by intros [[? _]|(_ & ? & ? & _)].
Qed.

Lemma newest_head m xs : newest_from (m_id m) (m :: xs) m xs.
Proof. apply newest_cons. by left. Qed.

Lemma newest_id id xs m ys : newest_from id xs m ys → m_id m = id.
Proof.
  revert ys; induction xs as [|x xs IH]; intros ys; [done|].
  intros [(H & -> & _)|(_ & zs & H & _)]%newest_cons; [done|by eapply IH].
Qed.

(** Taking a message of another sender leaves the newest one of [id]. *)
Lemma newest_other id id' xs m ys m' xs' :
  id' ≠ id → newest_from id xs m ys → newest_from id' xs m' xs' → ∃ zs, newest_from id xs' m zs.
Proof.
  intros Hne. revert ys xs'; induction xs as [|x xs IH]; intros ys xs'; [done|].
  intros [(H & -> & _)|(H & zs & Hz & _)]%newest_cons [(H' & _ & ->)|(H' & zs' & Hz' & ->)]%newest_cons.
  - congruence.
  - exists zs'. apply newest_cons. by left.
  - by exists zs.
  - destruct (IH _ _ Hz Hz') as [ws Hw]. exists (x :: ws). apply newest_cons. right. split; [done|by exists ws].
Qed.

Lemma deque_eq_newest q id xs m ys :
  Msgs q xs → newest_from id xs m ys →
  ∃ q', deque_eq Message_eqb q (Message_id id) = Ok (m, q') ∧ Msgs q' ys.
Proof.
  intros HR Hn. pose proof (deque_eq_ok nrMessage Message_new Message_eqb q invMessage xs
    (Message_id id) HR) as H. by rewrite Hn in H.
Qed.

(** Updating a message queue of a process keeps the run queues, the ids and the
    other fields. *)
Definition queue_update (f : Proc → Proc) : Prop :=
  ∀ p, p_id (f p) = p_id p ∧ p_next (f p) = p_next p ∧ prior (f p) = prior p ∧
    status (f p) = status p ∧ kernel_info (f p) = kernel_info p ∧ mm (f p) = mm p.

Lemma upd_wf k Q i f : queue_update f → Wf (pm k) Q → Wf (pm (upd k i f)) Q.
Proof. intros Hf. apply wf_upd_other. intros p. split; apply Hf. Qed.

Lemma upd_getProc k i f id : queue_update f → getProc (pm (upd k i f)) id = getProc (pm k) id.
Proof. intros Hf. apply find_proc_ext. apply ids_alter. intros p. apply Hf. Qed.

Lemma upd_field {B : Type} (g : Proc → B) k i f j :
  (∀ p, g (f p) = g p) → g (pr (pm (upd k i f)) j) = g (pr (pm k) j).
Proof.
  apply pr_upd_field.
Qed.

Lemma upd_same k i f :
  (i < length (room (ProcL (pm k))))%nat → pr (pm (upd k i f)) i = f (pr (pm k) i).
Proof.
  intros Hi. change (pm (upd k i f)) with (upd_proc (pm k) i f).
  by rewrite pr_upd, decide_True.
Qed.

Lemma qu_recvQ q : queue_update (set_recvQ q).
Proof. done. Qed.
Lemma qu_sendQ q : queue_update (set_sendQ q).
Proof. done. Qed.
Lemma qu_recv_anyQ q : queue_update (set_recv_anyQ q).
Proof. done. Qed.

#[local] Hint Resolve qu_recvQ qu_sendQ qu_recv_anyQ : core.

(** A field that queueing does not touch. *)
Definition unqueued {B : Type} (g : Proc → B) : Prop :=
  (∀ v p, g (Process.set_next v p) = g p) ∧ (∀ v p, g (set_status v p) = g p).

Lemma sleep_ok k Q s :
  Wf (pm k) Q → pCurrent (pm k) = Some s → getProc (pm k) (p_id (pr (pm k) s)) = Some s →
  status (pr (pm k) s) = TASK_RUNNING →
  ∃ k' Q', sleep k (-1) = Ok k' ∧ Wf (pm k') Q' ∧ concat Q ≡ₚ s :: concat Q' ∧
    (∀ B (g : Proc → B), unqueued g → ∀ j, g (pr (pm k') j) = g (pr (pm k) j)) ∧
    (∀ id, getProc (pm k') id = getProc (pm k) id) ∧
    status (pr (pm k') s) = TASK_STOPPED ∧ pCurrent (pm k') = Some s.
Proof.
  intros HW Hc Hg Hst. destruct (getProc_leased _ _ _ Hg) as (Hs & _ & _).
  pose proof Hs as Hs'. rewrite (wf_rooms _ _ HW) in Hs'.
  destruct (runq_deque_ok _ Q s HW Hs' Hst) as (lvl & P & R & HQ & E & HW1).
  exists (reschedule (with_pm k (unlinked (pm k) lvl P s))), (<[lvl := P ++ R]> Q). split_and!.
  - unfold sleep, current. rewrite Hc. cbn [mbind res_bind]. unfold sleep_pid. by rewrite Hg, E.
  - exact HW1.
  - destruct (concat_insert Q lvl _ HQ) as (X & Y & E1 & E2). rewrite E1, E2, <-!app_assoc.
    cbn. rewrite !app_assoc. symmetry. rewrite <-!app_assoc. rewrite (app_assoc X P), (app_assoc X P).
    apply Permutation_middle.
  - intros B g [Hg1 Hg2] j. cbn [reschedule with_req with_pm pm]. unfold unlinked.
    rewrite (pr_assign_field g) by (intros; apply Hg1). rewrite pr_upd by done.
    case_decide; subst; [apply Hg2|done].
  - intros id. unfold getProc, unlinked. cbn. destruct (loc_after P); cbn; apply find_proc_ext;
      by rewrite !ids_alter.
  - cbn [reschedule with_req with_pm pm]. by rewrite unlinked_status, decide_True.
  - cbn. unfold unlinked. by destruct (loc_after P).
Qed.

(** What a blocking rendezvous starts from: [s] runs, [r] is another process that
    does not wait for it and has room for a message. *)
Record Peers k Q (s r : nat) (xs : list Message) : Prop := {
  pe_wf : Wf (pm k) Q;
  pe_cur : pCurrent (pm k) = Some s;
  pe_s : getProc (pm k) (p_id (pr (pm k) s)) = Some s;
  pe_r : getProc (pm k) (p_id (pr (pm k) r)) = Some r;
  pe_ne : s ≠ r;
  pe_any : p_id (pr (pm k) s) ≠ PID_ANY;
  pe_run : status (pr (pm k) s) = TASK_RUNNING;
  pe_prior : 0 ≤ prior (pr (pm k) s) < Z.of_nat nr_Level;
  pe_recvQ : ∃ ys, Msgs (recvQ (pr (pm k) s)) ys ∧ none_from (p_id (pr (pm k) r)) ys;
  pe_anyQ : Msgs (recv_anyQ (pr (pm k) r)) [];
  pe_sendQ : Msgs (sendQ (pr (pm k) r)) xs;
  pe_room : (length xs < nrMessage)%nat
}.

Lemma send_blocks k Q s r xs m :
  Peers k Q s r xs →
  let m' := set_m_id (p_id (pr (pm k) s)) m in
  ∃ k' Q', send k (p_id (pr (pm k) r)) m = Ok (k', m') ∧ Wf (pm k') Q' ∧
    concat Q ≡ₚ s :: concat Q' ∧ Msgs (sendQ (pr (pm k') r)) (m' :: xs) ∧
    status (pr (pm k') s) = TASK_STOPPED ∧
    (∀ j, p_id (pr (pm k') j) = p_id (pr (pm k) j) ∧ prior (pr (pm k') j) = prior (pr (pm k) j)) ∧
    (∀ id, getProc (pm k') id = getProc (pm k) id) ∧
    (∀ j, j ≠ r → sendQ (pr (pm k') j) = sendQ (pr (pm k) j)).
Proof.
  intros [HW Hc Hs Hr Hne Hany Hrun Hpr (ys & HM & Hnone) HA HS Hroom] m'. unfold send.
  assert (El : ∀ k i f, length (room (ProcL (pm (upd k i f)))) = length (room (ProcL (pm k)))).
  { intros; apply length_alter. }
  destruct (getProc_leased _ _ _ Hs) as (Hsl & _). destruct (getProc_leased _ _ _ Hr) as (Hrl & _).
  unfold current. rewrite Hc. cbn [mbind res_bind].
  rewrite (deque_eq_none _ ys), Hr by done. cbn [mbind res_bind isValid invMessage Message_valid must].
  set (k1 := upd k s _).
  assert (H1 : ∀ B (g : Proc → B) j, (∀ q p, g (set_recvQ q p) = g p) → g (pr (pm k1) j) = g (pr (pm k) j)).
  { intros. by apply upd_field. }
  rewrite (H1 _ p_id), (H1 _ recv_anyQ), (deque_nil nrMessage Message_new _ _ HA) by done.
  cbn [mbind res_bind]. set (k2 := upd k1 r _).
  assert (H2 : ∀ B (g : Proc → B) j, (∀ q p, g (set_recv_anyQ q p) = g p) → g (pr (pm k2) j) = g (pr (pm k1) j)).
  { intros. by apply upd_field. }
  rewrite (H2 _ sendQ), (H1 _ sendQ) by done. fold m'.
  destruct (KType.enque_ok nrMessage Message_new _ invMessage xs m' HS Hroom) as (q3 & E3 & HM3).
  rewrite E3. cbn [mbind res_bind]. set (k3 := upd k2 r _).
  assert (H3 : ∀ B (g : Proc → B) j, (∀ q p, g (set_recvQ q p) = g p) →
    (∀ q p, g (set_recv_anyQ q p) = g p) → (∀ q p, g (set_sendQ q p) = g p) →
    g (pr (pm k3) j) = g (pr (pm k) j)).
  { intros B g j G1 G2 G3. rewrite <-H1, <-H2 by done. by apply upd_field. }
  assert (HW3 : Wf (pm k3) Q) by (repeat apply upd_wf; auto).
  assert (Hg3 : ∀ id, getProc (pm k3) id = getProc (pm k) id).
  { intros id. unfold k3, k2, k1. by rewrite !upd_getProc by auto. }
  destruct (sleep_ok k3 Q s) as (k4 & Q4 & E4 & HW4 & HP4 & Hg & Hid4 & Hst4 & _); try done.
  { by rewrite (H3 _ p_id), Hg3. } { by rewrite (H3 _ status). }
  rewrite E4. cbn [mbind res_bind]. exists k4, Q4. split_and!; try done.
  - rewrite (Hg _ sendQ) by done. unfold k3. rewrite upd_same by (by unfold k2, k1; rewrite !El).
    exact HM3.
  - intros j. by rewrite (Hg _ p_id), (Hg _ prior), (H3 _ p_id), (H3 _ prior).
  - intros id. by rewrite Hid4.
  - intros j Hj. rewrite (Hg _ sendQ) by done. unfold k3, upd. cbn [pm with_pm]. rewrite pr_upd_ne by done.
    by rewrite (H2 _ sendQ), (H1 _ sendQ).
Qed.

(** The receiver takes the newest message from the sender and wakes it. *)
Lemma recv_takes k Q s r id xs ys m m0 :
  Wf (pm k) Q → pCurrent (pm k) = Some r → getProc (pm k) id = Some s → wakeable (pm k) s →
  (r < nr_Proc)%nat → id ≠ PID_ANY → isValid m = true → Msgs (sendQ (pr (pm k) r)) xs →
  newest_from id xs m ys →
  ∃ q k' Q', recv k id m0 = Ok (k', m) ∧ wakeup (upd k r (set_sendQ q)) id = Ok k' ∧ Msgs q ys ∧
    Wf (pm k') Q' ∧ (∀ j, j ∈ concat Q' ↔ j ∈ concat Q ∨ j = s).
Proof.
  intros HW Hc Hg Hwk Hr Hany Hv HM Hn. unfold recv, current. rewrite Hc. cbn [mbind res_bind].
  rewrite (proj2 (Z.eqb_neq _ _) Hany).
  destruct (deque_eq_newest _ _ _ _ _ HM Hn) as (q & E & HMq). rewrite E. cbn [mbind res_bind]. rewrite Hv.
  destruct (wakeup_ok (upd k r (set_sendQ q)) Q id s) as (k2 & Q2 & E2 & HW2 & HQ2 & _).
  - by apply upd_wf.
  - by rewrite upd_getProc.
  - destruct Hwk as (H1 & H2 & H3). split; [done|]. rewrite (upd_field status), (upd_field prior) by done. done.
  - exists q, k2, Q2. rewrite E2. done.
Qed.

(** synchronous delivery: a process [s] that sends a valid message to a
    process [r] that is not waiting goes to sleep with the message in the
    receiver's queue; when [r] runs and receives from [s], it gets exactly that
    message, stamped with the id of [s], and [s] becomes runnable again while the
    set of other runnable processes is unchanged. *)
Theorem send_then_recv_delivers k Q s r xs m m0 :
  Peers k Q s r xs → isValid m = true →
  let id_s := p_id (pr (pm k) s) in
  ∃ k1 Q1, send k (p_id (pr (pm k) r)) m = Ok (k1, set_m_id id_s m) ∧ Wf (pm k1) Q1 ∧
    concat Q ≡ₚ s :: concat Q1 ∧ status (pr (pm k1) s) = TASK_STOPPED ∧
    ∃ k3 Q3, recv (with_pm k1 (with_current (pm k1) (Some s) (Some r))) id_s m0 =
        Ok (k3, set_m_id id_s m) ∧
      Wf (pm k3) Q3 ∧ (∀ j, j ∈ concat Q3 ↔ j ∈ concat Q).
Proof.
  intros HP Hv id_s. pose proof (pe_wf _ _ _ _ _ HP) as HW.
  destruct (send_blocks k Q s r xs m HP) as (k1 & Q1 & E1 & HW1 & HQ1 & HM1 & Hst1 & Hf1 & Hg1 & _).
  exists k1, Q1. split_and!; try done.
  destruct (getProc_leased _ _ _ (pe_s _ _ _ _ _ HP)) as (Hsl & _).
  destruct (getProc_leased _ _ _ (pe_r _ _ _ _ _ HP)) as (Hrl & _).
  rewrite (wf_rooms _ _ HW) in Hsl, Hrl.
  destruct (recv_takes (with_pm k1 (with_current (pm k1) (Some s) (Some r))) Q1 s r id_s
    (set_m_id id_s m :: xs) xs (set_m_id id_s m) m0) as (q & k3 & Q3 & E3 & _ & _ & HW3 & HQ3).
  - by apply wf_with_current.
  - done.
  - change (getProc (pm k1) id_s = Some s). rewrite Hg1. apply (pe_s _ _ _ _ _ HP).
  - split; [done|]. split; [by left|].
    change (0 ≤ prior (pr (pm k1) s) < Z.of_nat nr_Level). destruct (Hf1 s) as [_ ->].
    apply (pe_prior _ _ _ _ _ HP).
  - done.
  - apply (pe_any _ _ _ _ _ HP).
  - done.
  - exact HM1.
  - apply (newest_head (set_m_id id_s m)).
  - exists k3, Q3. split_and!; [exact E3|done|]. intros j. rewrite HQ3, HQ1, elem_of_cons. tauto.
Qed.

(** receiving from any process while a message is pending panics: [recv]
    wakes the process with the id [PID_ANY] instead of the sender, and no process
    has that id. *)
Theorem recv_any_pending_panics k r xs m m0 :
  pCurrent (pm k) = Some r → getProc (pm k) PID_ANY = None → isValid m = true →
  Msgs (sendQ (pr (pm k) r)) (xs ++ [m]) →
  recv k PID_ANY m0 = Panic "sleep()::cannot find process ".
Proof.
  intros Hc Hg Hv HM. unfold recv, current. rewrite Hc. cbn [mbind res_bind].
  change (PID_ANY =? PID_ANY) with true. cbn match.
  destruct (deque_snoc nrMessage Message_new _ _ _ _ HM) as (q & E & _).
  rewrite E. cbn [mbind res_bind]. rewrite Hv. unfold wakeup. by rewrite upd_getProc, Hg.
Qed.

(** a receiver that had to wait never sees the message: the callback
    [recv_later] takes the oldest message out of the queue and writes it nowhere
    (memory and every other process are unchanged). *)
Theorem recv_later_drops_message k r xs m :
  pCurrent (pm k) = Some r → (r < length (room (ProcL (pm k))))%nat → isValid m = true →
  Msgs (sendQ (pr (pm k) r)) (xs ++ [m]) →
  ∃ k', do_recv_later k = Ok k' ∧ Msgs (sendQ (pr (pm k') r)) xs ∧ vm k' = vm k ∧
    (∀ j, j ≠ r → pr (pm k') j = pr (pm k) j).
Proof.
  intros Hc Hr Hv HM. unfold do_recv_later, current. rewrite Hc. cbn [mbind res_bind].
  destruct (deque_snoc nrMessage Message_new _ _ _ _ HM) as (q & E & HM').
  rewrite E. cbn [mbind res_bind]. rewrite Hv. exists (upd k r (set_sendQ q)). split_and!; try done.
  - by rewrite upd_same.
  - intros j Hj. apply pr_upd_ne. by intros ->.
Qed.

(** ** A concrete state: process 0 (id 1) runs, process 1 (id 100) is runnable,
    all message queues are empty or hold the given messages. *)

Definition ex_queue : Que Message :=
  match Que_new nrMessage Message_new invMessage with Ok q => q | _ => recvQ proc0 end.

Lemma ex_queue_msgs : Msgs ex_queue [].
Proof.
  unfold ex_queue. destruct (Que_new_repr nrMessage Message_new invMessage) as (q & E & HR).
  by rewrite E.
Qed.

Definition with_queues (q : Que Message) (p : Proc) : Proc :=
  mkProc (p_id p) (p_next p) (prior p) (status p) (mm p) (kernel_info p) q q q.

Definition ex_ipc (q : Que Message) : K :=
  upd (upd (ex_k TASK_RUNNING (Some 0%nat) false) 0 (with_queues q)) 1 (with_queues q).

Lemma ex_peers : Peers (ex_ipc ex_queue) [[]; [0%nat; 1%nat]; []; []] 0 1 [].
Proof.
  assert (Hq : ∀ i, (i < 2)%nat → recvQ (pr (pm (ex_ipc ex_queue)) i) = ex_queue ∧
    sendQ (pr (pm (ex_ipc ex_queue)) i) = ex_queue ∧
    recv_anyQ (pr (pm (ex_ipc ex_queue)) i) = ex_queue).
  { intros [|[|i]] Hi; [done|done|lia]. }
  pose proof ex_queue_msgs as HM.
  constructor; try done.
  - apply wf_upd_other; [done|]. apply wf_upd_other; [done|]. apply ex_wf.
  - exists []. destruct (Hq 0%nat) as (-> & _ & _); [lia|]. split; [done|].
    intros m Hm. by apply elem_of_nil in Hm.
  - cbn. unfold nrMessage. lia.
Qed.

Lemma send_then_recv_delivers_witness :
  ∃ k1, send (ex_ipc ex_queue) 100 (mkMessage 0 7 true 1 2 3) = Ok (k1, mkMessage 1 7 true 1 2 3).
Proof.
  destruct (send_then_recv_delivers (ex_ipc ex_queue) [[]; [0%nat; 1%nat]; []; []] 0 1 []
    (mkMessage 0 7 true 1 2 3) Message_new) as (k1 & Q1 & E & _).
  - exact ex_peers.
  - reflexivity.
  - exists k1. exact E.
Defined.

Lemma ex_queue_one m : ∃ q, Msgs q ([] ++ [m]).
Proof.
  destruct (KType.enque_ok nrMessage Message_new ex_queue invMessage [] m ex_queue_msgs)
    as (q & _ & HR); [unfold nrMessage; cbn; lia|]. by exists q.
Qed.

Lemma recv_any_pending_panics_witness :
  ∃ q, recv (ex_ipc q) PID_ANY Message_new = Panic "sleep()::cannot find process ".
Proof.
  destruct (ex_queue_one (Message_id 100)) as [q HM]. exists q.
  apply (recv_any_pending_panics (ex_ipc q) 0%nat [] (Message_id 100) Message_new).
  - reflexivity.
  - reflexivity.
  - reflexivity.
  - exact HM.
Defined.

Lemma recv_later_drops_message_witness :
  ∃ q k', do_recv_later (ex_ipc q) = Ok k' ∧ Msgs (sendQ (pr (pm k') 0)) [].
Proof.
  destruct (ex_queue_one (Message_id 100)) as [q HM].
  destruct (recv_later_drops_message (ex_ipc q) 0%nat [] (Message_id 100)) as (k' & E & HM' & _).
  - reflexivity.
  - cbn. lia.
  - reflexivity.
  - exact HM.
  - exists q, k'. split; assumption.
Defined.

(** ** A run of three processes *)

Definition run_as (k : K) (i : nat) : K := with_pm k (with_current (pm k) (pCurrent (pm k)) (Some i)).

Definition ex_three : K := upd (ex_ipc ex_queue) 2 (with_queues ex_queue).

(** Process 2 sends to process 0 (id 1), which waits for process 1 (id 100); process 1 sends
    and then waits for process 0; process 0 receives from process 1 again. [do_recv_later]
    stands where [schedule] calls it. *)
Definition ex_script (k : K) : res K :=
  k ← wakeup k 101;
  '(k, _) ← send (run_as k 2) PID_INIT Message_new;
  '(k, _) ← recv (run_as k 0) 100 Message_new;
  '(k, _) ← send (run_as k 1) PID_INIT Message_new;
  k ← do_recv_later (run_as k 0);
  '(k, _) ← recv (run_as k 1) PID_INIT Message_new;
  '(k, _) ← recv (run_as k 0) 100 Message_new;
  do_recv_later (run_as k 1).

(** three processes bring the kernel to a panic with correct calls: [recv_later] of process 0
    takes the message of process 2 for the one it waited for, so the message of process 1
    stays in the queue; process 0 finds it when it receives again and wakes process 1, which
    waits for a message that was not sent. *)
Theorem ipc_panics : ex_script ex_three = Panic "invalid message error at recv_later()".
Proof. vm_compute. reflexivity. Qed.

End Ipc.
