(* ===== verification/KString.v ===== *)
(** * string.cpp: memory and string functions

    The functions work on the byte memory of [Memory.v]; a [char *] is an
    address.  Characters are kept as the bytes 0..255 they occupy in memory. *)

From S2P Require Import Prelude Memory.

Module KString.

Definition STRLEN_MAX : nat := 1024.

(** ** The functions *)

(** [void *memset(void* buf, int value, size_t size)]. *)
Definition memset (m : mem) (buf value : Z) (size : nat) : mem :=
  for_loop size 0 (λ i m, store8 m (buf + i) value) m.

(** [int strlen(const char *str)]. *)
Fixpoint strlen_loop (fuel : nat) (m : mem) (str i : Z) : Z :=
  match fuel with
  | O => i
  | S fuel' => if load8 m (str + i) =? 0 then i else strlen_loop fuel' m str (i + 1)
  end.

Definition strlen (m : mem) (str : Z) : Z := strlen_loop STRLEN_MAX m str 0.

(** [char *strcat(char *dest,char *str1,char *str2)]. *)
Definition strcat (m : mem) (dest str1 str2 : Z) : mem :=
  let len1 := strlen m str1 in
  let len2 := strlen m str2 in
  let m := for_loop (Z.to_nat len1) 0 (λ i m, store8 m (dest + i) (load8 m (str1 + i))) m in
  for_loop (Z.to_nat len2) 0 (λ j m, store8 m (dest + (len1 + j)) (load8 m (str2 + j))) m.

(** [void bzero(void *s, int n)]. *)
Definition bzero (m : mem) (s n : Z) : mem :=
  for_loop (Z.to_nat n) 0 (λ i m, store8 m (s + i) 0) m.

(** [void strcpy(char *d,const char *s)]. *)
Definition strcpy (m : mem) (d s : Z) : mem :=
  let len := strlen m s in
  for_loop (Z.to_nat (len + 1)) 0 (λ i m, store8 m (d + i) (load8 m (s + i))) m.

(** [void strncpy(char *d,const char *s,size_t len)]: the loop runs to [i<=len]. *)
Definition strncpy (m : mem) (d s len : Z) : mem :=
  let len := if strlen m s <? len then strlen m s else len in
  for_loop (Z.to_nat (len + 1)) 0 (λ i m, store8 m (d + i) (load8 m (s + i))) m.

(** A hexadecimal digit as [num2str_hex] writes it. *)
Definition hexc (hexn : Z) : Z :=
  if hexn =? 10 then 97
  else if hexn =? 11 then 98
  else if hexn =? 12 then 99
  else if hexn =? 13 then 100
  else if hexn =? 14 then 101
  else if hexn =? 15 then 102
  else 48 + hexn.

(** [for(int i=0;num!=0;i++)]; a 32-bit number has at most eight digits. *)
Fixpoint num2str_hex_loop (fuel : nat) (m : mem) (str num i : Z) : mem :=
  match fuel with
  | O => m
  | S fuel' =>
      if num =? 0 then m
      else num2str_hex_loop fuel' (store8 m (str + (9 - i)) (hexc (num `mod` 16))) str (num / 16) (i + 1)
  end.

(** [char *num2str_hex(u32_t num,char *str)]. *)
Definition num2str_hex (m : mem) (num str : Z) : mem :=
  let m := store8 m str 48 in
  let m := store8 m (str + 1) 120 in
  let m := for_loop 8 2 (λ i m, store8 m (str + i) 48) m in
  num2str_hex_loop 8 m str num 0.

(** [while(tmp!=0){ tmp/=10; fig*=10; }]: an [int] has at most ten digits. *)
Fixpoint fig_loop (fuel : nat) (tmp fig : Z) : Z :=
  match fuel with
  | O => fig
  | S fuel' => if tmp =? 0 then fig else fig_loop fuel' (tmp / 10) (u32 (fig * 10))
  end.

(** [while(fig!=0){ str[i++]='0'+num/fig; num%=fig; fig/=10; }]: a [u32_t] has at
    most ten digits. *)
Fixpoint digits_loop (fuel : nat) (m : mem) (str num fig i : Z) : mem * Z :=
  match fuel with
  | O => (m, i)
  | S fuel' =>
      if fig =? 0 then (m, i)
      else digits_loop fuel' (store8 m (str + i) (48 + num / fig)) str (num `mod` fig) (fig / 10) (i + 1)
  end.

(** [char *num2str(int num,char *str)]; the literal ["0"] is written out as its two
    bytes.  For the smallest [int] the recursive call gets the same argument again
    and does not end. *)
Fixpoint num2str (fuel : nat) (m : mem) (num str : Z) : res mem :=
  match fuel with
  | O => NoFuel
  | S fuel' =>
      if num <? 0 then
        let m := store8 m str 45 in
        num2str fuel' m (s32 (if num >? 0 then num else - num)) (str + 1)
      else if num =? 0 then Ok (store8 (store8 m str 48) (str + 1) 0)
      else
        let fig := fig_loop 11 num 1 / 10 in
        let '(m, i) := digits_loop 11 m str num fig 0 in
        Ok (store8 m (str + i) 0)
  end.

(** The loop shared by [strcmp] and [strncmp]. *)
Fixpoint differ (n : nat) (m : mem) (s1 s2 i : Z) : bool :=
  match n with
  | O => false
  | S n' => if load8 m (s1 + i) =? load8 m (s2 + i) then differ n' m s1 s2 (i + 1) else true
  end.

(** [unsigned short strcmp(const char *s1,const char *s2,int num)]. *)
Definition strcmp (m : mem) (s1 s2 num : Z) : Z :=
  if negb (strlen m s1 =? strlen m s2) then 1
  else
    let len := if num <? strlen m s1 then num else strlen m s1 in
    if differ (Z.to_nat len) m s1 s2 0 then 1 else 0.

(** [unsigned short strncmp(const char *s1,const char *s2,int num)]. *)
Definition strncmp (m : mem) (s1 s2 num : Z) : Z :=
  if differ (Z.to_nat num) m s1 s2 0 then 1 else 0.

(** [void *memcpy(void *s1,const void* s2,size_t n)]. *)
Definition memcpy (m : mem) (d s : Z) (n : nat) : mem :=
  for_loop n 0 (λ i m, store8 m (d + i) (load8 m (s + i))) m.

(** [void* memmove(void* to, const void* from, register size_t n)]. *)
Definition memmove (m : mem) (out inp : Z) (n : nat) : mem :=
  if bool_decide (n = 0%nat) then m
  else if (inp + Z.of_nat n <=? out) || (out + Z.of_nat n <=? inp) then memcpy m out inp n
  else if out <? inp then for_loop n 0 (λ i m, store8 m (out + i) (load8 m (inp + i))) m
  else
    let e := Z.of_nat n in
    for_loop n 0 (λ i m, store8 m (out + (e - 1 - i)) (load8 m (inp + (e - 1 - i)))) m.

(** ** Copying *)

(** [m'] is [m] with the [n] bytes at [s] copied to [d]. *)
Definition copied (m m' : mem) (d s : Z) (n : nat) : Prop :=
  (∀ i, 0 ≤ i < Z.of_nat n → load8 m' (d + i) = load8 m (s + i)) ∧
  (∀ a, ¬ (d ≤ a < d + Z.of_nat n) → load8 m' a = load8 m a).

Lemma u8_load8 m a : bytes_ok m → u8 (load8 m a) = load8 m a.
Proof. intros. by apply u8_id, load8_range. Qed.

(** A copy from low to high addresses is right unless the destination starts
    inside the source; only the source has to hold bytes. *)
Lemma copy_up m d s (n : nat) :
  (∀ i, 0 ≤ i < Z.of_nat n → is_u8 (load8 m (s + i))) → d ≤ s ∨ s + Z.of_nat n ≤ d →
  copied m (for_loop n 0 (λ i m, store8 m (d + i) (load8 m (s + i))) m) d s n.
Proof.
  intros Hok Hd.
  pose (P := λ (i : Z) (m' : mem),
    (∀ j, 0 ≤ j < i → load8 m' (d + j) = load8 m (s + j)) ∧
    (∀ a, ¬ (d ≤ a < d + i) → load8 m' a = load8 m a)).
  assert (HP : P (0 + Z.of_nat n) (for_loop n 0 (λ i m, store8 m (d + i) (load8 m (s + i))) m)).
  { apply (for_loop_ind P); unfold P; clear P; [split; [lia|done]|].
    intros j t Hj (Hc & Ho). assert (Es : load8 t (s + j) = load8 m (s + j)) by (apply Ho; lia). split.
    - intros i Hi. rewrite load8_store8, Es. case_decide as E; [|apply Hc; lia].
      replace i with j by lia. apply u8_id, Hok. lia.
    - intros a Ha. rewrite load8_store8, decide_False by lia. apply Ho. lia. }
  exact HP.
Qed.

Lemma copy_forward m d s (n : nat) :
  bytes_ok m → d ≤ s ∨ s + Z.of_nat n ≤ d →
  copied m (for_loop n 0 (λ i m, store8 m (d + i) (load8 m (s + i))) m) d s n.
Proof. intros Hok. apply copy_up. intros i _. by apply load8_range. Qed.

(** A copy from high to low addresses is right unless the destination ends inside
    the source. *)
Lemma copy_backward m d s (n : nat) :
  bytes_ok m → s ≤ d →
  copied m (for_loop n 0 (λ i m, store8 m (d + (Z.of_nat n - 1 - i))
              (load8 m (s + (Z.of_nat n - 1 - i)))) m) d s n.
Proof.
  intros Hok Hd. set (e := Z.of_nat n).
  pose (P := λ (i : Z) (m' : mem), bytes_ok m' ∧
    (∀ j, e - i ≤ j < e → load8 m' (d + j) = load8 m (s + j)) ∧
    (∀ a, ¬ (d + (e - i) ≤ a < d + e) → load8 m' a = load8 m a)).
  assert (HP : P (0 + Z.of_nat n) (for_loop n 0 (λ i m, store8 m (d + (e - 1 - i))
    (load8 m (s + (e - 1 - i)))) m)).
  { apply (for_loop_ind P); unfold P; clear P; [split_and!; [done|lia|done]|].
    intros j t Hj (Ht & Hc & Ho). split_and!; [by apply bytes_ok_store8|..].
    - intros i Hi. rewrite load8_store8, u8_load8 by done. case_decide as E.
      + replace (e - 1 - j) with i by lia. apply Ho. lia.
      + apply Hc. lia.
    - intros a Ha. rewrite load8_store8, decide_False by lia. apply Ho. lia. }
  destruct HP as (_ & Hc & Ho). split; intros; [apply Hc|apply Ho]; lia.
Qed.

(** C35: [memmove] copies correctly for every overlap of source and destination:
    the destination holds the bytes the source had before the call and no other
    byte changes. *)
Theorem memmove_correct m out inp (n : nat) :
  bytes_ok m → copied m (memmove m out inp n) out inp n.
Proof.
  intros Hok. unfold memmove. case_bool_decide as E0.
  { subst. split; [lia|done]. }
  destruct ((inp + Z.of_nat n <=? out) || (out + Z.of_nat n <=? inp)) eqn:E1.
  { apply orb_true_iff in E1. apply copy_forward; [done|].
    destruct E1 as [E1|E1]; apply Z.leb_le in E1; lia. }
  destruct (out <? inp) eqn:E2; bool_to_prop.
  - apply copy_forward; [done|lia].
  - by apply copy_backward.
Qed.

Lemma memmove_correct_witness :
  let m := store8 (store8 ∅ 10 1) 11 2 in load8 (memmove m 11 10 2) 12 = 2.
Proof.
  destruct (memmove_correct (store8 (store8 ∅ 10 1) 11 2) 11 10 2) as [H _].
  - apply bytes_ok_store8, bytes_ok_store8, bytes_ok_empty.
  - apply (H 1). lia.
Defined.

(** ** Strings *)

(** The NUL-terminated string [l] at [a], shorter than [STRLEN_MAX]. *)
Record cstr (m : mem) (a : Z) (l : list Z) : Prop := {
  cs_chars : ∀ (i : nat) x, l !! i = Some x → load8 m (a + Z.of_nat i) = x ∧ x ≠ 0;
  cs_end : load8 m (a + Z.of_nat (length l)) = 0;
  cs_short : (length l < STRLEN_MAX)%nat
}.

Lemma strlen_loop_cstr m a l (i fuel : nat) :
  (∀ (j : nat) x, l !! j = Some x → load8 m (a + Z.of_nat j) = x ∧ x ≠ 0) →
  load8 m (a + Z.of_nat (length l)) = 0 → (i ≤ length l)%nat → (length l < i + fuel)%nat →
  strlen_loop fuel m a (Z.of_nat i) = Z.of_nat (length l).
Proof.
  intros Hc He. revert i; induction fuel as [|fuel IH]; intros i Hi Hf; [lia|]. cbn [strlen_loop].
  destruct (decide (i = length l)) as [->|Hne]; [by rewrite He|].
  destruct (lookup_lt_is_Some_2 l i) as [x Hx]; [lia|]. destruct (Hc i x Hx) as [-> Hx0].
  rewrite (proj2 (Z.eqb_neq x 0) Hx0). replace (Z.of_nat i + 1) with (Z.of_nat (S i)) by lia.
  apply IH; lia.
Qed.

Lemma strlen_cstr m a l : cstr m a l → strlen m a = Z.of_nat (length l).
Proof. intros [Hc He Hs]. apply (strlen_loop_cstr m a l 0); [done|done|lia|lia]. Qed.

Lemma differ_false (n : nat) m s1 s2 i :
  differ n m s1 s2 i = false ↔ ∀ j, i ≤ j < i + Z.of_nat n → load8 m (s1 + j) = load8 m (s2 + j).
Proof.
  revert i; induction n as [|n IH]; intros i; cbn [differ]; [split; [lia|done]|].
  destruct (Z.eqb_spec (load8 m (s1 + i)) (load8 m (s2 + i))) as [E|E].
  - rewrite IH. split; intros H j Hj; [|apply H; lia].
    destruct (decide (j = i)) as [->|]; [done|]. apply H. lia.
  - split; [done|]. intros H. exfalso. apply E, H. lia.
Qed.

Lemma strcmp_spec m s1 s2 l1 l2 num :
  cstr m s1 l1 → cstr m s2 l2 → Z.of_nat (length l1) ≤ num →
  strcmp m s1 s2 num = 0 ↔ l1 = l2.
Proof.
  intros H1 H2 Hn. unfold strcmp. rewrite (strlen_cstr _ _ _ H1), (strlen_cstr _ _ _ H2).
  destruct (Z.eqb_spec (Z.of_nat (length l1)) (Z.of_nat (length l2))) as [E|E]; cbn [negb].
  2: { split; [done|]. intros ->. done. }
  rewrite (proj2 (Z.ltb_ge num _)) by lia. rewrite Nat2Z.id.
  destruct (differ _ m s1 s2 0) eqn:Ed.
  - split; [done|]. intros ->. exfalso. apply not_false_iff_true in Ed. apply Ed, differ_false.
    intros j Hj. destruct (lookup_lt_is_Some_2 l2 (Z.to_nat j)) as [x Hx]; [lia|].
    destruct (cs_chars _ _ _ H1 _ _ Hx) as [G1 _], (cs_chars _ _ _ H2 _ _ Hx) as [G2 _].
    rewrite Z2Nat.id in G1, G2 by lia. congruence.
  - split; [|done]. intros _. rewrite differ_false in Ed. apply list_eq_same_length with (length l2);
      [done|lia|]. intros i x y Hi Hx Hy.
    destruct (cs_chars _ _ _ H1 _ _ Hx) as [<- _], (cs_chars _ _ _ H2 _ _ Hy) as [<- _].
    apply Ed. lia.
Qed.

(** [strcmp] decides equality of strings, as long as [num] does not cut them
    short. *)
Theorem strcmp_correct m s1 s2 l1 l2 num :
  cstr m s1 l1 → cstr m s2 l2 → Z.of_nat (length l1) ≤ num →
  strcmp m s1 s2 num = 0 ↔ l1 = l2.
Proof. apply strcmp_spec. Qed.

Lemma strlen_loop_ge m a : ∀ (fuel : nat) (i n : Z), (∀ j, i ≤ j < n → load8 m (a + j) ≠ 0) →
  i ≤ n → n ≤ i + Z.of_nat fuel → n ≤ strlen_loop fuel m a i.
Proof.
  induction fuel as [|fuel IH]; intros i n Hnz Hi Hn; cbn [strlen_loop]; [lia|].
  destruct (Z.eqb_spec (load8 m (a + i)) 0) as [E|E].
  - destruct (decide (i = n)); [lia|]. by destruct (Hnz i ltac:(lia)).
  - destruct (decide (i = n)) as [->|]; [|apply IH; [intros j Hj; apply Hnz; lia|lia|lia]].
    etrans; [|apply (IH (n + 1) (n + 1))]; lia.
Qed.

(** A string is at least as long as its characters before the first NUL. *)
Lemma strlen_ge m a n : (∀ j, 0 ≤ j < n → load8 m (a + j) ≠ 0) → 0 ≤ n ≤ 1024 → n ≤ strlen m a.
Proof. intros Hnz Hn. apply strlen_loop_ge; [done|lia|]. unfold STRLEN_MAX. lia. Qed.

(** [strncpy] with a bound inside of the string: the [n] characters are copied, one
    more byte is written behind them and nothing else changes. *)
Lemma strncpy_prefix m d s (l : list Z) :
  (∀ (i : nat) b, l !! i = Some b → load8 m (s + Z.of_nat i) = b ∧ 0 < b < 256) →
  (length l ≤ 1024)%nat → (∀ i, 0 ≤ i < Z.of_nat (length l) → ¬ (d ≤ s + i ≤ d + Z.of_nat (length l))) →
  let m' := strncpy m d s (Z.of_nat (length l)) in
  (∀ (i : nat) b, l !! i = Some b → load8 m' (d + Z.of_nat i) = b) ∧
  (∀ x, ¬ (d ≤ x ≤ d + Z.of_nat (length l)) → load8 m' x = load8 m x) ∧
  (¬ (d ≤ s + Z.of_nat (length l) ≤ d + Z.of_nat (length l)) →
     load8 m' (d + Z.of_nat (length l)) = u8 (load8 m (s + Z.of_nat (length l)))).
Proof.
  intros Hl Hlen Hdis m'. set (n := Z.of_nat (length l)) in *.
  assert (Hc : ∀ j, 0 ≤ j < n → ∃ b, l !! Z.to_nat j = Some b ∧ load8 m (s + j) = b ∧ 0 < b < 256).
  { intros j Hj. destruct (lookup_lt_is_Some_2 l (Z.to_nat j)) as [b Hb]; [lia|]. exists b. split; [done|].
    destruct (Hl _ _ Hb) as [<- ?]. by rewrite Z2Nat.id in * by lia. }
  assert (Hs : n ≤ strlen m s).
  { apply strlen_ge; [|lia]. intros j Hj. destruct (Hc j Hj) as (b & _ & -> & ?). lia. }
  pose (P := λ (i : Z) (t : mem),
    (∀ j, 0 ≤ j < i → j < n → load8 t (d + j) = load8 m (s + j)) ∧
    (∀ x, ¬ (d ≤ x < d + i) → load8 t x = load8 m x) ∧
    (n < i → ¬ (d ≤ s + n ≤ d + n) → load8 t (d + n) = u8 (load8 m (s + n)))).
  assert (HP : P (0 + Z.of_nat (Z.to_nat (n + 1))) m').
  { unfold m', strncpy. rewrite (proj2 (Z.ltb_ge _ _)) by lia.
    apply (for_loop_ind P); unfold P; clear P; [split_and!; [lia|done|lia]|].
    intros j t Hj (Hj1 & Hj2 & Hj3). split_and!.
    - intros i Hi Hin. rewrite load8_store8. case_decide as E; [|apply Hj1; lia].
      replace j with i by lia. rewrite Hj2 by (specialize (Hdis i ltac:(lia)); lia).
      destruct (Hc i ltac:(lia)) as (b & _ & -> & ?). apply u8_id. unfold is_u8. lia.
    - intros x Hx. rewrite load8_store8, decide_False by lia. apply Hj2. lia.
    - intros Hn Hd. replace j with n by lia. rewrite load8_store8, decide_True by lia.
      f_equal. apply Hj2. lia. }
  destruct HP as (H1 & H2 & H3). split_and!.
  - intros i b Hb. pose proof (lookup_lt_Some _ _ _ Hb). rewrite H1 by lia. by apply Hl.
  - intros x Hx. apply H2. lia.
  - intros Hd. apply H3; [lia|done].
Qed.

(** [strcpy] to a place the source does not reach makes a copy of the
    string, terminator included, and changes nothing else. *)
Theorem strcpy_correct m d s l :
  bytes_ok m → cstr m s l → d ≤ s ∨ s + Z.of_nat (length l) < d →
  cstr (strcpy m d s) d l ∧
  (∀ a, ¬ (d ≤ a ≤ d + Z.of_nat (length l)) → load8 (strcpy m d s) a = load8 m a).
Proof.
  intros Hok HS Hd. unfold strcpy. rewrite (strlen_cstr _ _ _ HS).
  replace (Z.to_nat (Z.of_nat (length l) + 1)) with (S (length l)) by lia.
  destruct (copy_forward m d s (S (length l))) as [Hc Ho]; [done|lia|]. split.
  - constructor.
    + intros i x Hx. pose proof (lookup_lt_Some _ _ _ Hx). rewrite Hc by lia.
      by apply (cs_chars _ _ _ HS).
    + rewrite Hc by lia. apply (cs_end _ _ _ HS).
    + apply (cs_short _ _ _ HS).
  - intros a Ha. apply Ho. lia.
Qed.

(** [strncpy] with a bound [n] below the length of the string writes [n+1]
    bytes, the last of which is a character of the string, so the copy overruns
    [n] bytes and is not terminated. *)
Theorem strncpy_overruns m d s l n x :
  bytes_ok m → cstr m s l → d ≤ s ∨ s + Z.of_nat (length l) < d →
  0 ≤ n → l !! Z.to_nat n = Some x →
  load8 (strncpy m d s n) (d + n) = x ∧ x ≠ 0.
Proof.
  intros Hok HS Hd Hn Hx. pose proof (lookup_lt_Some _ _ _ Hx) as Hl.
  unfold strncpy. rewrite (strlen_cstr _ _ _ HS), (proj2 (Z.ltb_ge _ n)) by lia.
  destruct (copy_forward m d s (Z.to_nat (n + 1))) as [Hc _]; [done|lia|].
  rewrite Hc by lia. destruct (cs_chars _ _ _ HS _ _ Hx) as [<- Hx0].
  rewrite Z2Nat.id in * by lia. done.
Qed.

(** ** Numbers *)

(** The value of the [n] decimal digits at [a]. *)
Fixpoint dec_val (m : mem) (a : Z) (n : nat) : Z :=
  match n with
  | O => 0
  | S n' => dec_val m a n' * 10 + (load8 m (a + Z.of_nat n') - 48)
  end.

Lemma fig_loop_pow (fuel k : nat) tmp fig :
  10 ^ Z.of_nat k ≤ tmp < 10 ^ Z.of_nat (S k) → (k < fuel)%nat →
  0 < fig → fig * 10 ^ Z.of_nat (S k) < 4294967296 →
  fig_loop fuel tmp fig = fig * 10 ^ Z.of_nat (S k).
Proof.
  revert k tmp fig; induction fuel as [|fuel IH]; intros k tmp fig Ht Hk Hf Hb; [lia|].
  cbn [fig_loop]. pose proof (Z.pow_pos_nonneg 10 (Z.of_nat k)).
  rewrite (proj2 (Z.eqb_neq tmp 0)) by lia.
  rewrite Nat2Z.inj_succ, Z.pow_succ_r in * by lia.
  rewrite u32_id by (unfold is_u32; nia). destruct k as [|k].
  - change (10 ^ Z.of_nat 0) with 1 in *. rewrite Z.div_small by lia.
    destruct fuel; cbn; lia.
  - rewrite Nat2Z.inj_succ, Z.pow_succ_r in * by lia.
    rewrite (IH k); [rewrite Nat2Z.inj_succ, Z.pow_succ_r by lia; ring| |lia|lia|].
    + rewrite Nat2Z.inj_succ, Z.pow_succ_r by lia. split.
      * apply Z.div_le_lower_bound; lia.
      * apply Z.div_lt_upper_bound; lia.
    + rewrite Nat2Z.inj_succ, Z.pow_succ_r by lia. lia.
Qed.

Lemma dec_val_cons m a (n : nat) :
  dec_val m a (S n) = (load8 m a - 48) * 10 ^ Z.of_nat n + dec_val m (a + 1) n.
Proof.
  induction n as [|n IH]; [cbn; rewrite Z.add_0_r; lia|].
  cbn [dec_val] in IH |- *. rewrite IH, Nat2Z.inj_succ, Z.pow_succ_r by lia.
  replace (a + 1 + Z.of_nat n) with (a + Z.succ (Z.of_nat n)) by lia. ring.
Qed.

(** The digits written for [num] by the loop that starts at [10^k]. *)
Lemma digits_loop_ok (k fuel : nat) m str num i :
  0 ≤ num < 10 ^ Z.of_nat (S k) → (k < fuel)%nat →
  ∃ m', digits_loop fuel m str num (10 ^ Z.of_nat k) i = (m', i + Z.of_nat (S k)) ∧
    (∀ a, ¬ (str + i ≤ a < str + i + Z.of_nat (S k)) → load8 m' a = load8 m a) ∧
    (∀ j, 0 ≤ j < Z.of_nat (S k) → 48 ≤ load8 m' (str + i + j) ≤ 57) ∧
    dec_val m' (str + i) (S k) = num.
Proof.
  revert fuel m num i; induction k as [|k IH]; intros [|fuel] m num i Hn Hf; try lia; cbn [digits_loop].
  - change (10 ^ Z.of_nat 0) with 1. change (10 ^ Z.of_nat 1) with 10 in Hn.
    rewrite (proj2 (Z.eqb_neq 1 0)) by lia. rewrite Z.div_1_r. change (1 / 10) with 0.
    eexists. split; [by destruct fuel|].
    assert (E : load8 (store8 m (str + i) (48 + num)) (str + i) = 48 + num).
    { rewrite load8_store8, decide_True by done. apply u8_id. unfold is_u8. lia. }
    split_and!.
    + intros a Ha. rewrite load8_store8, decide_False; [done|lia].
    + intros j Hj. replace j with 0 by lia. rewrite Z.add_0_r, E. lia.
    + cbn. rewrite Z.add_0_r, E. lia.
  - pose proof (Z.pow_pos_nonneg 10 (Z.of_nat k)) as Hp.
    assert (Ek : 10 ^ Z.of_nat (S k) = 10 * 10 ^ Z.of_nat k).
    { by rewrite Nat2Z.inj_succ, Z.pow_succ_r by lia. }
    assert (Ek2 : 10 ^ Z.of_nat (S (S k)) = 10 * 10 ^ Z.of_nat (S k)).
    { by rewrite Nat2Z.inj_succ, Z.pow_succ_r by lia. }
    rewrite (proj2 (Z.eqb_neq (10 ^ Z.of_nat (S k)) 0)) by lia.
    assert (Ed : 10 ^ Z.of_nat (S k) / 10 = 10 ^ Z.of_nat k).
    { rewrite Ek, Z.mul_comm. apply Z.div_mul. lia. }
    assert (Hdig : 0 ≤ num / 10 ^ Z.of_nat (S k) < 10).
    { split; [apply Z.div_pos; lia|apply Z.div_lt_upper_bound; lia]. }
    rewrite Ed. set (m1 := store8 m (str + i) _).
    destruct (IH fuel m1 (num `mod` 10 ^ Z.of_nat (S k)) (i + 1))
      as (m' & E & Ho & Hr & Hv); [apply Z.mod_pos_bound; lia|lia|].
    assert (E0 : load8 m' (str + i) = 48 + num / 10 ^ Z.of_nat (S k)).
    { rewrite Ho by lia. unfold m1. rewrite load8_store8, decide_True by done.
      apply u8_id. unfold is_u8. lia. }
    exists m'. split_and!.
    + rewrite E. f_equal. lia.
    + intros a Ha. rewrite Ho by lia. unfold m1. rewrite load8_store8, decide_False; [done|lia].
    + intros j Hj. destruct (decide (j = 0)) as [->|]; [rewrite Z.add_0_r, E0; lia|].
      replace (str + i + j) with (str + (i + 1) + (j - 1)) by lia. apply Hr. lia.
    + rewrite dec_val_cons, E0. replace (str + i + 1) with (str + (i + 1)) by lia. rewrite Hv.
      pose proof (Z.div_mod num (10 ^ Z.of_nat (S k))). lia.
Qed.

(** A positive number below [10^(n+1)] lies between two powers of ten. *)
Lemma decimal_length (n : nat) num :
  0 < num < 10 ^ Z.of_nat n → ∃ k : nat, (k < n)%nat ∧ 10 ^ Z.of_nat k ≤ num < 10 ^ Z.of_nat (S k).
Proof.
  induction n as [|n IH]; intros Hn; [change (10 ^ Z.of_nat 0) with 1 in Hn; lia|].
  destruct (decide (num < 10 ^ Z.of_nat n)).
  - destruct IH as (k & Hk & Hr); [lia|]. exists k. split; [lia|done].
  - exists n. split; [lia|]. lia.
Qed.

(** [num2str] prints every positive number below [10^9] correctly: the
    buffer holds a NUL-terminated string of at most nine decimal digits whose
    value is the number. *)
Theorem num2str_roundtrip m num str :
  0 < num < 1000000000 →
  ∃ m' (n : nat), num2str 1 m num str = Ok m' ∧ (0 < n ≤ 9)%nat ∧
    (∀ j, 0 ≤ j < Z.of_nat n → 48 ≤ load8 m' (str + j) ≤ 57) ∧
    load8 m' (str + Z.of_nat n) = 0 ∧ dec_val m' str n = num.
Proof.
  intros Hn. destruct (decimal_length 9 num) as (k & Hk & Hr); [exact Hn|].
  assert (Hpow : 10 ^ Z.of_nat (S k) ≤ 10 ^ 9) by (apply Z.pow_le_mono_r; lia).
  change (10 ^ 9) with 1000000000 in Hpow.
  cbn [num2str]. rewrite (proj2 (Z.ltb_ge num 0)), (proj2 (Z.eqb_neq num 0)) by lia.
  rewrite (fig_loop_pow 11 k num 1) by lia.
  replace (1 * 10 ^ Z.of_nat (S k) / 10) with (10 ^ Z.of_nat k).
  2: { rewrite Nat2Z.inj_succ, Z.pow_succ_r, Z.mul_1_l, Z.mul_comm by lia.
       symmetry. apply Z.div_mul. lia. }
  destruct (digits_loop_ok k 11 m str num 0) as (m' & E & Ho & Hd & Hv); [lia|lia|].
  rewrite E. rewrite Z.add_0_r in *. rewrite Z.add_0_l.
  exists (store8 m' (str + Z.of_nat (S k)) 0), (S k).
  assert (Hother : ∀ a, a < str + Z.of_nat (S k) →
    load8 (store8 m' (str + Z.of_nat (S k)) 0) a = load8 m' a).
  { intros a Ha. rewrite load8_store8, decide_False; [done|lia]. }
  split_and!; [done|lia|lia|..].
  - intros j Hj. rewrite Hother by lia. by apply Hd.
  - rewrite load8_store8, decide_True by done. done.
  - rewrite <-Hv. clear -Hother. set (n := S k) in *. clearbody n.
    assert (H : ∀ j : nat, (j ≤ n)%nat → dec_val (store8 m' (str + Z.of_nat n) 0) str j = dec_val m' str j).
    { induction j as [|j IH]; intros Hj; cbn [dec_val]; [done|]. rewrite IH, Hother by lia. done. }
    by apply H.
Qed.

(** [num2str] prints numbers of ten digits wrongly, because the power of ten
    overflows 32 bits: 1000000000 becomes a string whose value is 709186972. *)
Theorem num2str_ten_digits_wrong :
  match num2str 1 ∅ 1000000000 0 with
  | Ok m => (strlen m 0, load8 m 0, dec_val m 0 9) = (9, 55, 709186972)
  | _ => False
  end.
Proof. vm_compute. reflexivity. Qed.

(** ** Witnesses *)

Definition ex_mem : mem := store8 (store8 (store8 ∅ 100 104) 101 105) 200 104.

Lemma ex_cstr : cstr ex_mem 100 [104; 105].
Proof.
  constructor; [|reflexivity|cbn; unfold STRLEN_MAX; lia].
  intros [|[|i]] x; cbn; [intros [= <-]; done|intros [= <-]; done|done].
Qed.

Lemma ex_bytes : bytes_ok ex_mem.
Proof. repeat apply bytes_ok_store8. apply bytes_ok_empty. Qed.

Lemma strcmp_correct_witness : strcmp ex_mem 100 100 2 = 0.
Proof.
  apply (strcmp_correct ex_mem 100 100 [104; 105] [104; 105] 2).
  - exact ex_cstr.
  - exact ex_cstr.
  - cbn. lia.
  - reflexivity.
Defined.

Lemma strcpy_correct_witness : cstr (strcpy ex_mem 50 100) 50 [104; 105].
Proof.
  apply (strcpy_correct ex_mem 50 100 [104; 105]).
  - exact ex_bytes.
  - exact ex_cstr.
  - lia.
Defined.

Lemma strncpy_overruns_witness : load8 (strncpy ex_mem 50 100 1) 51 = 105 ∧ 105 ≠ 0.
Proof.
  apply (strncpy_overruns ex_mem 50 100 [104; 105] 1 105).
  - exact ex_bytes.
  - exact ex_cstr.
  - lia.
  - lia.
  - reflexivity.
Defined.

Lemma num2str_roundtrip_witness :
  ∃ m' (n : nat), num2str 1 ∅ 486 0 = Ok m' ∧ dec_val m' 0 n = 486.
Proof.
  destruct (num2str_roundtrip ∅ 486 0) as (m' & n & E & _ & _ & _ & Hv); [lia|].
  exists m', n. split; assumption.
Defined.

End KString.
