(* ===== verification/Console.v ===== *)
(** * tk_printf.cpp and printf.cpp: the two consoles

    [tk_printf] draws on the text screen at 0xB8000 and is used while booting;
    [vx_printf] draws fonts in the graphics frame buffer.  Both format with the
    same integer conversion.  Screens, strings, argument words and the local
    buffer [buf] live in the byte memory; [vram_info], the cursor and the colours
    are the record [console]. *)

From S2P Require Import Prelude Memory.

Module Console.

(** ** [tk_itoa] and [vx_itoa] *)

(** Characters used by the code. *)
Definition chr_d : Z := 100.
Definition chr_u : Z := 117.
Definition chr_x : Z := 120.
Definition chr_s : Z := 115.
Definition chr_percent : Z := 37.

Definition digit (remainder : Z) : Z := if remainder <? 10 then remainder + 48 else remainder + 97 - 10.

(** The do-while loop that writes the digits backwards; a 32-bit number has at
    most ten. *)
Fixpoint itoa_digits (fuel : nat) (m : mem) (p ud divisor : Z) : mem * Z :=
  match fuel with
  | O => (m, p)
  | S fuel' =>
      let m := store8 m p (digit (ud `mod` divisor)) in
      let p := p + 1 in
      if ud / divisor =? 0 then (m, p) else itoa_digits fuel' m p (ud / divisor) divisor
  end.

(** [while (p1 < p2)]: swap and move inwards. *)
Fixpoint itoa_reverse (fuel : nat) (m : mem) (p1 p2 : Z) : mem :=
  match fuel with
  | O => m
  | S fuel' =>
      if p1 <? p2 then
        let tmp := load8 m p1 in
        let m := store8 m p1 (load8 m p2) in
        let m := store8 m p2 tmp in
        itoa_reverse fuel' m (p1 + 1) (p2 - 1)
      else m
  end.

Definition itoa_fuel : nat := 11.

(** [void tk_itoa (char *buf, int base, int d)]. *)
Definition tk_itoa (m : mem) (buf base d : Z) : mem :=
  let neg := (base =? chr_d) && (d <? 0) in
  let m := if neg then store8 m buf 45 else m in
  let buf := if neg then buf + 1 else buf in
  let ud := if neg then u32 (s32 (- d)) else u32 d in
  let divisor := if negb neg && (base =? chr_x) then 16 else 10 in
  let '(m, p) := itoa_digits itoa_fuel m buf ud divisor in
  let m := store8 m p 0 in
  itoa_reverse itoa_fuel m buf (p - 1).

(** [vx_itoa] of [printf.cpp] is the same code. *)
Definition vx_itoa (m : mem) (buf base d : Z) : mem := tk_itoa m buf base d.

(** ** The text console *)

Definition TK_COLUMNS : Z := 80.
Definition TK_LINES : Z := 24.
Definition ATTRIBUTE : Z := 7.
Definition VIDEO : Z := 753664.

Record tk := mkTk { tk_mem : mem; tk_xpos : Z; tk_ypos : Z }.

(** [void tk_cls (void)]. *)
Definition tk_cls (s : tk) : tk :=
  mkTk (for_loop (Z.to_nat (TK_COLUMNS * TK_LINES * 2)) 0 (λ i m, store8 m (VIDEO + i) 0) (tk_mem s)) 0 0.

(** The code at the label [newline]. *)
Definition tk_newline (s : tk) : tk :=
  let ypos := tk_ypos s + 1 in
  let m := for_loop (Z.to_nat TK_COLUMNS) 0
    (λ i m, store8 m (VIDEO + (i + ypos * TK_COLUMNS) * 2) 0) (tk_mem s) in
  mkTk m 0 (if TK_LINES <=? ypos then 0 else ypos).

(** [void tk_putchar (int c)]. *)
Definition tk_putchar (s : tk) (c : Z) : tk :=
  if (c =? 10) || (c =? 13) then tk_newline s
  else
    let a := VIDEO + (tk_xpos s + tk_ypos s * TK_COLUMNS) * 2 in
    let m := store8 (store8 (tk_mem s) a (Z.land c 255)) (a + 1) ATTRIBUTE in
    let s := mkTk m (tk_xpos s + 1) (tk_ypos s) in
    if TK_COLUMNS <=? tk_xpos s then tk_newline s else s.

(** ** Formatting, for either [putchar] *)

Section printf.
Context {S : Type} (get_mem : S → mem) (set_mem : S → mem → S) (putchar : S → Z → S).

(** [string: while ( *p ) putchar( *p++ );] *)
Fixpoint put_string (fuel : nat) (s : S) (p : Z) : res S :=
  match fuel with
  | O => NoFuel
  | Datatypes.S fuel' =>
      let c := load8 (get_mem s) p in
      if c =? 0 then Ok s else put_string fuel' (putchar s (s8 c)) (p + 1)
  end.

(** The loop of [tk_printf]/[vx_printf]: [format] and [arg] are the addresses of
    the next format character and of the next argument word, [buf] that of the
    local buffer and [null_str] that of the literal for NULL strings. *)
Fixpoint printf_loop (fuel : nat) (s : S) (format arg buf null_str : Z) : res S :=
  match fuel with
  | O => NoFuel
  | Datatypes.S fuel' =>
      let c := s8 (load8 (get_mem s) format) in
      if c =? 0 then Ok s
      else if negb (c =? chr_percent) then
        printf_loop fuel' (putchar s c) (format + 1) arg buf null_str
      else
        let c := s8 (load8 (get_mem s) (format + 1)) in
        let word := load32 (get_mem s) arg in
        if (c =? chr_d) || (c =? chr_u) || (c =? chr_x) then
          let s := set_mem s (tk_itoa (get_mem s) buf c (s32 word)) in
          s ← put_string fuel' s buf;
          printf_loop fuel' s (format + 2) (arg + 4) buf null_str
        else if c =? chr_s then
          s ← put_string fuel' s (if word =? 0 then null_str else word);
          printf_loop fuel' s (format + 2) (arg + 4) buf null_str
        else printf_loop fuel' (putchar s (s32 word)) (format + 2) (arg + 4) buf null_str
  end.

End printf.

(** [void tk_printf (const char *format, ...)]. *)
Definition tk_printf (fuel : nat) (s : tk) (format arg buf null_str : Z) : res tk :=
  printf_loop tk_mem (λ s m, mkTk m (tk_xpos s) (tk_ypos s)) tk_putchar fuel s format arg buf null_str.

(** ** The graphics console *)

(** [Vram::VramInfo], [Font] and the globals of [printf.cpp]. *)
Definition font_vx : Z := 8.
Definition font_vy : Z := 16.

Record vx := mkVx {
  vx_mem : mem;
  vram : Z;
  vram_vx : Z;
  vram_vy : Z;
  fonts : Z;
  fgcolor : Z;
  bgcolor : Z;
  xpos : Z;
  ypos : Z;
  COLUMNS : Z;
  LINES : Z
}.

Definition vx_with (s : vx) (m : mem) (x y : Z) : vx :=
  mkVx m (vram s) (vram_vx s) (vram_vy s) (fonts s) (fgcolor s) (bgcolor s) x y (COLUMNS s) (LINES s).

(** [char *Font::font_of(char c)]: [c] is a signed [char]. *)
Definition font_of (s : vx) (c : Z) : Z := u32 (fonts s + 16 * s8 c).

(** One row of [putfont8]: the pixels of the set bits, from the left. *)
Definition put_row (m : mem) (p d color : Z) : mem :=
  for_loop 8 0 (λ j m, if Z.testbit d (7 - j) then store8 m (p + j) color else m) m.

(** [void putfont8(char *screen,char c)]. *)
Definition putfont8 (s : vx) (m : mem) (screen c : Z) : mem :=
  let afont := font_of s c in
  for_loop 16 0 (λ i m, put_row m (screen + i * vram_vx s) (load8 m (afont + i)) (fgcolor s)) m.

(** [void cls()]. *)
Definition cls (s : vx) : vx :=
  vx_with s
    (for_loop (Z.to_nat (vram_vy s)) 0
       (λ i m, for_loop (Z.to_nat (vram_vx s)) 0
          (λ j m, store8 m (vram s + (j + i * vram_vx s)) (bgcolor s)) m) (vx_mem s))
    (xpos s) (ypos s).

(** [void cls_line(int nline)]. *)
Definition cls_line (s : vx) (m : mem) (nline : Z) : mem :=
  let y_low := nline * font_vy in
  for_loop (Z.to_nat font_vy) y_low
    (λ y m, for_loop (Z.to_nat (vram_vx s)) 0
       (λ x m, store8 m (vram s + (y * vram_vx s + x)) (bgcolor s)) m) m.

(** The code at the label [newline] of [vx_putchar]. *)
Definition vx_newline (s : vx) : vx :=
  let y := if LINES s <=? ypos s + 1 then 0 else ypos s + 1 in
  vx_with s (cls_line s (vx_mem s) y) 0 y.

(** [void vx_putchar(char c)]. *)
Definition vx_putchar (s : vx) (c : Z) : vx :=
  if (c =? 10) || (c =? 13) then vx_newline s
  else
    let screen := vram s + xpos s * font_vx + ypos s * vram_vx s * font_vy in
    let s := vx_with s (putfont8 s (vx_mem s) screen c) (xpos s + 1) (ypos s) in
    if COLUMNS s <=? xpos s then vx_newline s else s.

(** [void vx_printf (const char *format, ...)]. *)
Definition vx_printf (fuel : nat) (s : vx) (format arg buf null_str : Z) : res vx :=
  printf_loop vx_mem (λ s m, vx_with s m (xpos s) (ypos s)) (λ s c, vx_putchar s (s8 c))
    fuel s format arg buf null_str.

(** [void init_vx_printf()], given the font table that [Font::Font] read from
    [/hankaku.bin] to [fonts]. *)
Definition init_vx_printf (m : mem) (vram_ vx_ vy_ fonts_ : Z) : vx :=
  let s := mkVx m vram_ vx_ vy_ fonts_ 0 7 0 0 (vx_ / font_vx) (vy_ / font_vy) in
  cls s.

(** ** Properties of the integer conversion *)

(** The bytes [l] at address [a]. *)
Definition bytes_at (m : mem) (a : Z) (l : list Z) : Prop :=
  ∀ (i : nat) x, l !! i = Some x → load8 m (a + Z.of_nat i) = x.

Lemma bytes_at_cons m a x l : bytes_at m a (x :: l) ↔ load8 m a = x ∧ bytes_at m (a + 1) l.
Proof.
  unfold bytes_at. split.
  - intros H. split; [by rewrite <-(H 0%nat x eq_refl), Z.add_0_r|].
    intros i y Hy. rewrite <-(H (S i) y Hy). f_equal. lia.
  - intros [Hx H] [|i] y Hy; cbn in Hy; [injection Hy as <-; by rewrite Z.add_0_r|].
    rewrite <-(H i y Hy). f_equal. lia.
Qed.

Lemma bytes_at_app m a l1 l2 :
  bytes_at m a (l1 ++ l2) ↔ bytes_at m a l1 ∧ bytes_at m (a + Z.of_nat (length l1)) l2.
Proof.
  revert a; induction l1 as [|x l1 IH]; intros a; cbn [app length].
  - rewrite Z.add_0_r. split; [|tauto]. intros H. split; [|done]. intros i y Hy. by rewrite lookup_nil in Hy.
  - rewrite !bytes_at_cons, IH. replace (a + 1 + Z.of_nat (length l1)) with (a + Z.of_nat (S (length l1))) by lia.
    tauto.
Qed.

Lemma bytes_at_frame m m' a n b l :
  only_changes m m' a n → b + Z.of_nat (length l) ≤ a ∨ a + n ≤ b → bytes_at m b l → bytes_at m' b l.
Proof.
  intros Ho Hd H i x Hx. pose proof (lookup_lt_Some _ _ _ Hx). rewrite Ho by lia. by apply H.
Qed.

(** The value of a digit character and of a digit string, most significant digit
    first. *)
Definition digit_val (c : Z) : Z := if c <? 58 then c - 48 else c - 87.

Fixpoint lsd_val (base : Z) (l : list Z) : Z :=
  match l with
  | [] => 0
  | c :: l' => digit_val c + base * lsd_val base l'
  end.

Definition num_val (base : Z) (l : list Z) : Z := lsd_val base (rev l).

Lemma digit_val_digit r : 0 ≤ r < 16 → digit_val (digit r) = r ∧ 48 ≤ digit r < 128.
Proof. intros Hr. unfold digit, digit_val. repeat split_if; lia. Qed.

Lemma itoa_digits_ok (k fuel : nat) m p ud base :
  10 ≤ base ≤ 16 → 0 ≤ ud < base ^ Z.of_nat (S k) → (k < fuel)%nat →
  ∃ m' ds, itoa_digits fuel m p ud base = (m', p + Z.of_nat (length ds)) ∧
    (1 ≤ length ds ≤ S k)%nat ∧ bytes_at m' p ds ∧ lsd_val base ds = ud ∧
    only_changes m m' p (Z.of_nat (length ds)).
Proof.
  intros Hb. revert fuel m p ud; induction k as [|k IH]; intros [|fuel] m p ud Hu Hf; try lia;
    cbn [itoa_digits]; pose proof (Z.mod_pos_bound ud base) as Hr;
    destruct (digit_val_digit (ud `mod` base)) as [Hd1 Hd2]; try lia;
    set (m1 := store8 m p (digit (ud `mod` base)));
    assert (H1 : load8 m1 p = digit (ud `mod` base)) by
      (unfold m1; rewrite load8_store8, decide_True by done; apply u8_id; unfold is_u8; lia);
    assert (Ho1 : only_changes m m1 p 1) by
      (intros b Hb'; unfold m1; rewrite load8_store8, decide_False; [done|lia]).
  - rewrite Z.pow_1_r in Hu. rewrite Z.div_small, Z.eqb_refl by lia.
    exists m1, [digit (ud `mod` base)]. split_and!; [done|cbn; lia|cbn; lia|..].
    + rewrite bytes_at_cons. split; [done|]. intros i x Hx. by rewrite lookup_nil in Hx.
    + cbn. rewrite Hd1, Z.mod_small by lia. lia.
    + exact Ho1.
  - destruct (Z.eqb_spec (ud / base) 0) as [E|E].
    + exists m1, [digit (ud `mod` base)]. split_and!; [done|cbn; lia|cbn; lia|..].
      * rewrite bytes_at_cons. split; [done|]. intros i x Hx. by rewrite lookup_nil in Hx.
      * cbn. rewrite Hd1. pose proof (Z.div_mod ud base). lia.
      * exact Ho1.
    + rewrite Nat2Z.inj_succ, Z.pow_succ_r in Hu by lia.
      destruct (IH fuel m1 (p + 1) (ud / base)) as (m' & ds & Ei & Hl & Hat & Hv & Ho).
      { split; [apply Z.div_pos; lia|apply Z.div_lt_upper_bound; lia]. } { lia. }
      exists m', (digit (ud `mod` base) :: ds). cbn [length]. split_and!; [|lia|lia|..].
      * rewrite Ei. f_equal. lia.
      * rewrite bytes_at_cons. split; [|done]. rewrite Ho by lia. exact H1.
      * cbn. rewrite Hd1, Hv. pose proof (Z.div_mod ud base). lia.
      * intros b Hb'. rewrite Ho, Ho1 by lia. done.
Qed.

(** The swap loop reverses the characters between the two pointers. *)
Lemma itoa_reverse_ok (fuel : nat) m b l :
  bytes_ok m → bytes_at m b l → (length l ≤ 2 * fuel)%nat →
  bytes_at (itoa_reverse fuel m b (b + Z.of_nat (length l) - 1)) b (rev l) ∧
  only_changes m (itoa_reverse fuel m b (b + Z.of_nat (length l) - 1)) b (Z.of_nat (length l)).
Proof.
  revert m b l; induction fuel as [|fuel IH]; intros m b l Hok Hat Hf.
  { destruct l; [|cbn in Hf; lia]. done. }
  cbn [itoa_reverse]. destruct l as [|x l]; [cbn; split_if; [lia|done]|].
  destruct l as [|y mid _] using rev_ind; [cbn; split_if; [lia|done]|].
  rewrite bytes_at_cons, bytes_at_app, bytes_at_cons in Hat. destruct Hat as (Hx & Hmid & Hy & _).
  set (n := Z.of_nat (length mid)) in *.
  assert (El : Z.of_nat (length (x :: mid ++ [y])) = n + 2) by (cbn; rewrite length_app; cbn; lia).
  rewrite El. rewrite (proj2 (Z.ltb_lt b (b + (n + 2) - 1))) by lia.
  replace (b + (n + 2) - 1) with (b + 1 + n) by lia. rewrite Hx, Hy.
  set (m1 := store8 (store8 m b y) (b + 1 + n) x).
  assert (Hok1 : bytes_ok m1) by (unfold m1; auto with machine).
  assert (Hbx : u8 x = x) by (rewrite <-Hx; by apply u8_id, load8_range).
  assert (Hby : u8 y = y) by (rewrite <-Hy; by apply u8_id, load8_range).
  assert (H1 : ∀ a, load8 m1 a = if decide (a = b + 1 + n) then x else if decide (a = b) then y else load8 m a).
  { intros a. unfold m1. rewrite !load8_store8, Hbx, Hby. done. }
  destruct (IH m1 (b + 1) mid) as [Hat' Ho']; [done| |cbn in Hf; rewrite length_app in Hf; cbn in Hf; lia|].
  { intros i z Hz. pose proof (lookup_lt_Some _ _ _ Hz). rewrite H1, !decide_False by lia. by apply Hmid. }
  fold n in Hat', Ho'.
  split.
  - change (rev (x :: mid ++ [y])) with (rev (mid ++ [y]) ++ [x]). rewrite rev_app_distr. cbn [rev app].
    rewrite bytes_at_cons, bytes_at_app, length_rev, bytes_at_cons. fold n. split_and!.
    + rewrite Ho', H1, decide_False, decide_True by lia. done.
    + exact Hat'.
    + rewrite Ho', H1, decide_True by lia. done.
    + intros i z Hz. by rewrite lookup_nil in Hz.
  - intros a Ha. rewrite Ho', H1, !decide_False by lia. done.
Qed.

Lemma itoa_body (m : mem) b ud base :
  bytes_ok m → 10 ≤ base ≤ 16 → is_u32 ud →
  let '(m1, p) := itoa_digits itoa_fuel m b ud base in
  let m2 := itoa_reverse itoa_fuel (store8 m1 p 0) b (p - 1) in
  ∃ l, (1 ≤ length l ≤ 10)%nat ∧ bytes_at m2 b l ∧ load8 m2 (b + Z.of_nat (length l)) = 0 ∧
    num_val base l = ud ∧ only_changes m m2 b (Z.of_nat (length l) + 1).
Proof.
  intros Hok Hb Hu.
  destruct (itoa_digits_ok 9 itoa_fuel m b ud base) as (m1 & ds & E & Hl & Hat & Hv & Ho); [done| |unfold itoa_fuel; lia|].
  { unfold is_u32 in Hu. assert (10 ^ 10 ≤ base ^ 10) by (apply Z.pow_le_mono_l; lia).
    change (Z.of_nat 10) with 10. lia. }
  rewrite E. cbv zeta. set (n := Z.of_nat (length ds)) in *. set (m2 := store8 m1 (b + n) 0).
  assert (Hok1 : bytes_ok m1).
  { clear -E Hok. assert (H : ∀ fuel m p ud, bytes_ok m → bytes_ok (itoa_digits fuel m p ud base).1).
    { induction fuel as [|fuel IH]; intros m' p u H; cbn; [done|]. split_if; cbn; auto with machine. }
    specialize (H itoa_fuel m b ud Hok). by rewrite E in H. }
  assert (Hat2 : bytes_at m2 b ds).
  { intros i x Hx. pose proof (lookup_lt_Some _ _ _ Hx). unfold m2.
    rewrite load8_store8, decide_False by lia. by apply Hat. }
  destruct (itoa_reverse_ok itoa_fuel m2 b ds) as [Hr Hro]; [unfold m2; auto with machine|done|unfold itoa_fuel; lia|].
  fold n in Hr, Hro. exists (rev ds). rewrite length_rev. fold n. split_and!; [lia|lia|done|..].
  - rewrite Hro by lia. unfold m2. by rewrite load8_store8, decide_True.
  - unfold num_val. by rewrite rev_involutive.
  - intros a Ha. rewrite Hro by lia. unfold m2. rewrite load8_store8, decide_False by lia. apply Ho. lia.
Qed.

(** the integer conversion of both consoles is right for every [int]: after
    [tk_itoa(buf,base,d)] the buffer holds a minus sign exactly when [base] is
    ['d'] and [d] is negative, then between one and ten digits whose value is
    [|d|] in that case and the unsigned value of [d] otherwise (base sixteen for
    ['x']), then NUL; at most twelve bytes are written, so the 20-byte buffer of
    [tk_printf] never overflows. *)
Theorem tk_itoa_correct m buf base d :
  bytes_ok m → is_s32 d →
  let m' := tk_itoa m buf base d in
  let neg := (base =? chr_d) && (d <? 0) in
  let start := if neg then buf + 1 else buf in
  (neg = true → load8 m' buf = 45) ∧
  (∃ l, (1 ≤ length l ≤ 10)%nat ∧ bytes_at m' start l ∧
     load8 m' (start + Z.of_nat (length l)) = 0 ∧
     num_val (if base =? chr_x then 16 else 10) l = (if neg then - d else u32 d)) ∧
  only_changes m m' buf 12.
Proof.
  intros Hok Hd m' neg start. unfold m', tk_itoa. fold neg.
  destruct neg eqn:En; cbn [negb andb].
  - assert (Hb : base = chr_d ∧ d < 0).
    { unfold neg in En. bool_to_prop. done. }
    destruct Hb as [-> Hneg]. cbn [andb].
    assert (Eu : u32 (s32 (- d)) = - d) by (unfold is_s32, u32, s32 in *; Z.div_mod_to_equations; lia).
    rewrite Eu. pose proof (itoa_body (store8 m buf 45) (buf + 1) (- d) 10) as H.
    destruct (itoa_digits itoa_fuel (store8 m buf 45) (buf + 1) (- d) 10) as [m1 p].
    destruct H as (l & Hl & Hat & H0 & Hv & Ho); [auto with machine|lia|unfold is_s32, is_u32 in *; lia|].
    split_and!.
    + intros _. rewrite Ho by lia. by rewrite load8_store8, decide_True.
    + exists l. done.
    + intros a Ha. rewrite Ho by lia. rewrite load8_store8, decide_False; [done|lia].
  - pose proof (itoa_body m buf (u32 d) (if base =? chr_x then 16 else 10)) as H.
    destruct (itoa_digits itoa_fuel m buf (u32 d) _) as [m1 p].
    destruct H as (l & Hl & Hat & H0 & Hv & Ho); [done|split_if; lia|apply u32_range|].
    split_and!; [done| |].
    + exists l. done.
    + intros a Ha. apply Ho. lia.
Qed.

Lemma tk_itoa_correct_witness :
  ∃ l, bytes_at (tk_itoa ∅ 0 chr_d (-2147483648)) 1 l ∧ num_val 10 l = 2147483648.
Proof.
  destruct (tk_itoa_correct ∅ 0 chr_d (-2147483648)) as (_ & (l & _ & Hat & _ & Hv) & _).
  - exact bytes_ok_empty.
  - unfold is_s32. lia.
  - exists l. split; assumption.
Defined.

(** ** Properties of the screens *)

(** The cursor of the text console is on the screen. *)
Definition tk_ok (s : tk) : Prop := 0 ≤ tk_xpos s < TK_COLUMNS ∧ 0 ≤ tk_ypos s < TK_LINES.

Lemma tk_newline_ok s :
  0 ≤ tk_ypos s < TK_LINES →
  tk_ok (tk_newline s) ∧ only_changes (tk_mem s) (tk_mem (tk_newline s)) VIDEO 4000.
Proof.
  unfold tk_ok, tk_newline, TK_LINES, TK_COLUMNS. intros Hy. cbn [tk_xpos tk_ypos tk_mem]. split.
  - split; [lia|]. split_if; lia.
  - apply only_changes_loop. intros j t Hj. apply only_changes_store8. lia.
Qed.

(** C36: [tk_putchar] keeps the cursor inside the 80x24 screen and writes only
    to the text video memory (the 4000 bytes of 80x25 cells), whatever the
    character. *)
Theorem tk_putchar_in_bounds s c :
  tk_ok s → tk_ok (tk_putchar s c) ∧ only_changes (tk_mem s) (tk_mem (tk_putchar s c)) VIDEO 4000.
Proof.
  intros [Hx Hy]. unfold tk_putchar. split_if; [by apply tk_newline_ok|].
  set (m := store8 (store8 _ _ _) _ _).
  assert (Ho : only_changes (tk_mem s) m VIDEO 4000).
  { unfold m, TK_COLUMNS, TK_LINES in *. eapply only_changes_trans; apply only_changes_store8; lia. }
  cbn [tk_xpos]. destruct (TK_COLUMNS <=? tk_xpos s + 1) eqn:Ec; bool_to_prop.
  - destruct (tk_newline_ok (mkTk m (tk_xpos s + 1) (tk_ypos s)) Hy) as [H1 H2]. split; [done|].
    by eapply only_changes_trans.
  - split; [|done]. split; cbn; lia.
Qed.

Lemma tk_putchar_in_bounds_witness : tk_ok (tk_putchar (mkTk ∅ 79 23) 65).
Proof. apply (tk_putchar_in_bounds (mkTk ∅ 79 23) 65). split; cbn; unfold TK_COLUMNS, TK_LINES; lia. Defined.

(** when the text console wraps to the top, the line it goes on to write in
    is not cleared: on the last line a newline clears the row below the screen
    (row 24), moves to row 0 and leaves every cell of row 0 as it was. *)
Theorem tk_newline_wrap_keeps_top s i :
  tk_ypos s = TK_LINES - 1 → 0 ≤ i < 160 →
  tk_ypos (tk_newline s) = 0 ∧ tk_xpos (tk_newline s) = 0 ∧
  load8 (tk_mem (tk_newline s)) (VIDEO + i) = load8 (tk_mem s) (VIDEO + i).
Proof.
  intros Hy Hi. unfold tk_newline. rewrite Hy. cbn [tk_ypos tk_xpos tk_mem]. split_and!; [done..|].
  apply (only_changes_loop (Z.to_nat TK_COLUMNS) 0 _ (tk_mem s) (VIDEO + 3840) 160); [|lia].
  intros j t Hj. apply only_changes_store8. unfold TK_COLUMNS, TK_LINES in *. lia.
Qed.

Lemma tk_newline_wrap_keeps_top_witness :
  load8 (tk_mem (tk_newline (mkTk (store8 ∅ VIDEO 65) 5 23))) VIDEO = 65.
Proof.
  destruct (tk_newline_wrap_keeps_top (mkTk (store8 ∅ VIDEO 65) 5 23) 0) as (_ & _ & H);
    [reflexivity|lia|]. rewrite Z.add_0_r in H. rewrite H. reflexivity.
Defined.

(** The graphics console: the character grid fits the frame buffer and the cursor
    is on it. *)
Record vx_ok (s : vx) : Prop := {
  vo_cols : COLUMNS s * font_vx ≤ vram_vx s;
  vo_lines : LINES s * font_vy ≤ vram_vy s;
  vo_x : 0 ≤ xpos s < COLUMNS s;
  vo_y : 0 ≤ ypos s < LINES s
}.

Lemma put_row_changes m p d color n : 8 ≤ n → only_changes m (put_row m p d color) p n.
Proof.
  intros Hn. apply only_changes_loop. intros j t Hj. destruct (Z.testbit _ _); [|done].
  apply only_changes_store8. lia.
Qed.

Lemma cls_line_changes s m y :
  0 ≤ y < LINES s → LINES s * font_vy ≤ vram_vy s → 0 ≤ vram_vx s →
  only_changes m (cls_line s m y) (vram s) (vram_vx s * vram_vy s).
Proof.
  intros Hy Hl Hx. unfold cls_line, font_vy in *. apply only_changes_loop. intros j t Hj.
  apply only_changes_loop. intros i t' Hi. apply only_changes_store8. nia.
Qed.

Lemma vx_newline_ok s m x :
  vx_ok s → let s' := vx_newline (vx_with s m x (ypos s)) in
  vx_ok s' ∧ only_changes m (vx_mem s') (vram s) (vram_vx s * vram_vy s).
Proof.
  intros [Hc Hl Hx Hy]. unfold vx_newline. cbn [vx_with LINES ypos vx_mem].
  set (y := if LINES s <=? ypos s + 1 then 0 else ypos s + 1). assert (Hy' : 0 ≤ y < LINES s) by (unfold y; split_if; lia).
  split.
  - constructor; cbn; [done|done|lia|done].
  - apply (cls_line_changes (vx_with s m x (ypos s))); cbn; [done|done|]. unfold font_vx in *. lia.
Qed.

(** [vx_putchar] keeps the cursor on the character grid and draws only
    inside the frame buffer of [vx*vy] bytes, for every character and at every
    cursor position. *)
Theorem vx_putchar_in_bounds s c :
  vx_ok s →
  vx_ok (vx_putchar s c) ∧
  only_changes (vx_mem s) (vx_mem (vx_putchar s c)) (vram s) (vram_vx s * vram_vy s).
Proof.
  intros Hok. pose proof Hok as [Hc Hl Hx Hy]. unfold vx_putchar. split_if.
  { pose proof (vx_newline_ok s (vx_mem s) (xpos s) Hok) as H. by destruct s. }
  set (m := putfont8 _ _ _ _).
  assert (Ho : only_changes (vx_mem s) m (vram s) (vram_vx s * vram_vy s)).
  { unfold m, putfont8. apply only_changes_loop. intros j t Hj b Hb.
    apply (put_row_changes _ _ _ _ 8); [lia|]. unfold font_vx, font_vy in *.
    assert (ypos s * 16 + 16 ≤ vram_vy s) by lia. assert (xpos s * 8 + 8 ≤ vram_vx s) by lia. nia. }
  cbn [vx_with COLUMNS xpos]. destruct (COLUMNS s <=? xpos s + 1) eqn:Ec; bool_to_prop.
  - destruct (vx_newline_ok s m (xpos s + 1) Hok) as [H1 H2]. split; [done|].
    by eapply only_changes_trans.
  - split; [|done]. constructor; cbn; [done|done|lia|done].
Qed.

Lemma vx_putchar_in_bounds_witness :
  vx_ok (vx_putchar (init_vx_printf ∅ 3758096384 16 32 4096) 65).
Proof.
  apply (vx_putchar_in_bounds (init_vx_printf ∅ 3758096384 16 32 4096) 65).
  constructor; vm_compute; (split; congruence) || congruence.
Defined.

(** characters from 0x80 up are drawn from memory in front of the font
    table, because [font_of] takes a signed [char]. *)
Theorem font_of_signed s c :
  128 ≤ c < 256 → 2048 ≤ fonts s < 4294967296 → font_of s c = fonts s - 16 * (256 - c).
Proof.
  intros Hc Hf. unfold font_of. replace (s8 c) with (c - 256) by (unfold s8; Z.div_mod_to_equations; lia).
  rewrite u32_id by (unfold is_u32; lia). lia.
Qed.

Lemma font_of_signed_witness :
  font_of (init_vx_printf ∅ 3758096384 16 32 4096) 255 = 4080.
Proof. apply (font_of_signed (init_vx_printf ∅ 3758096384 16 32 4096) 255); vm_compute; split; congruence. Defined.

End Console.
