(* ===== verification/Descriptor.v ===== *)
(** * Descriptor.cpp: segment and gate descriptors

    The descriptor tables are byte arrays in physical memory with the layout of
    [seg_desc_s] and [gate_desc_s] ([KType.hpp]).  The addresses of the interrupt
    entry points ([isr], [invalid]) are fixed by the linker and are arguments. *)

From S2P Require Import Prelude Memory PageFrames.

Module Descriptor.

(** ** Constants of [class Desc] *)

Definition KCSeg : Z := 8.
Definition KDSeg : Z := 16.
Definition TssDesc : Z := 32.
Definition UCSeg : Z := 40.
Definition UDSeg : Z := 48.
Definition TCSeg : Z := 64.
Definition TDSeg : Z := 72.
Definition AR_CODE32 : Z := 16538.
Definition AR_DATA32 : Z := 16530.
Definition AR_TASKCODE32 : Z := 16570.
Definition AR_TASKDATA32 : Z := 16562.
Definition AR_USERCODE32 : Z := 16634.
Definition AR_USERDATA32 : Z := 16626.
Definition TYPE_TSS : Z := 137.
Definition AR_INT : Z := 142.
Definition AR_INT_p1 : Z := 174.
Definition AR_INT_p3 : Z := 238.
Definition AR_TRAP : Z := 143.
Definition AR_TRAP_p1 : Z := 175.

(** [sizeof(struct TSS32)]: 26 words. *)
Definition sizeof_TSS32 : Z := 104.

(** ** Descriptors *)

(** [void Desc::set_segdesc(struct seg_desc_s *desc,u32_t addr,u32_t limit,
    u16_t ar)]: members at offsets 0, 2, 4, 5, 6 and 7. *)
Definition set_segdesc (m : mem) (desc addr limit ar : Z) : mem :=
  let big := limit >? 1048575 in
  let ar := if big then Z.lor ar 32768 else ar in
  let limit := if big then limit / 4096 else limit in
  let m := store16 m desc (Z.land limit 65535) in
  let m := store8 m (desc + 6)
             (Z.lor (Z.land (Z.shiftr limit 16) 15) (Z.land (Z.shiftr ar 8) 240)) in
  let m := store8 m (desc + 5) (Z.land ar 255) in
  let m := store16 m (desc + 2) (Z.land addr 65535) in
  let m := store8 m (desc + 4) (Z.land (Z.shiftr addr 16) 255) in
  store8 m (desc + 7) (Z.land (Z.shiftr addr 24) 255).

(** [void Desc::set_gatedesc(struct gate_desc_s *gd, u32_t offset, u32_t selector,
    u16_t ar)]: members at offsets 0, 2, 4, 5 and 6. *)
Definition set_gatedesc (m : mem) (gd offset selector ar : Z) : mem :=
  let m := store16 m gd (Z.land offset 65535) in
  let m := store16 m (gd + 2) (u16 selector) in
  let m := store8 m (gd + 4) (Z.land (Z.shiftr ar 8) 255) in
  let m := store8 m (gd + 5) (Z.land ar 255) in
  store16 m (gd + 6) (Z.land (Z.shiftr offset 16) 65535).

(** [*p = *invalid_g]: eight bytes. *)
Definition copy_gate (m : mem) (p q : Z) : mem :=
  store32 (store32 m p (load32 m q)) (p + 4) (load32 m (q + 4)).

(** ** Tables *)

Section tables.
Context {A : Type} `{!FrameAlloc A}.

(** [void Idt::initIDT()]: the result has [idtaddr] first. *)
Definition initIDT (m : mem) (pf : A) (invalid : Z) (isr : Z → Z) : res (Z * mem * A) :=
  '(idtaddr, pf) ← fa_alloc pf 10;
  let m := set_gatedesc m idtaddr invalid KCSeg AR_INT in
  let m := for_loop 255 0 (λ i m, copy_gate m (idtaddr + 8 * i) idtaddr) m in
  let m := for_loop 16 0 (λ i m, set_gatedesc m (idtaddr + 8 * i) (isr i) KCSeg AR_INT) m in
  let m := set_gatedesc m (idtaddr + 8 * 32) (isr 32) KCSeg AR_INT in
  let m := set_gatedesc m (idtaddr + 8 * 33) (isr 33) KCSeg AR_INT in
  let m := set_gatedesc m (idtaddr + 8 * 48) (isr 48) KCSeg AR_INT_p3 in
  let m := set_gatedesc m (idtaddr + 8 * 128) (isr 48) KCSeg AR_INT_p3 in
  Ok (idtaddr, m, pf).

(** [void Gdt::initGDT()]. *)
Definition initGDT (m : mem) (pf : A) (tssaddr : Z) : res (Z * mem * A) :=
  '(gdtaddr, pf) ← fa_alloc pf 10;
  let m := for_loop (Z.to_nat 4096) 0 (λ i m, store32 m (gdtaddr + 4 * i) 0) m in
  let m := set_segdesc m (gdtaddr + KCSeg) 0 4294967295 AR_CODE32 in
  let m := set_segdesc m (gdtaddr + KDSeg) 0 4294967295 AR_DATA32 in
  let m := set_segdesc m (gdtaddr + UCSeg) 0 4294967295 AR_USERCODE32 in
  let m := set_segdesc m (gdtaddr + UDSeg) 0 4294967295 AR_USERDATA32 in
  let m := set_segdesc m (gdtaddr + TCSeg) 0 4294967295 AR_TASKCODE32 in
  let m := set_segdesc m (gdtaddr + TDSeg) 0 4294967295 AR_TASKDATA32 in
  let m := set_segdesc m (gdtaddr + TssDesc) tssaddr sizeof_TSS32 TYPE_TSS in
  Ok (gdtaddr, m, pf).

(** [void Tss::initTSS()]: [tss_p] and the cleared structure. *)
Definition initTSS (m : mem) (pf : A) : res (Z * mem * A) :=
  '(tss_p, pf) ← fa_alloc pf 1;
  let m := for_loop (Z.to_nat sizeof_TSS32) 0 (λ i m, store8 m (tss_p + i) 0) m in
  Ok (tss_p, m, pf).

End tables.

(** The six bytes that [Idt::lidt] and [Gdt::lgdt] hand to the processor: limit
    and base. *)
Definition lidt (idtaddr : Z) : Z * Z := (256 * 8 - 1, idtaddr).
Definition lgdt (gdtaddr : Z) : Z * Z := (TDSeg + 8, gdtaddr).

(** ** What the processor reads *)

Definition seg_base (m : mem) (d : Z) : Z :=
  load16 m (d + 2) + load8 m (d + 4) * 65536 + load8 m (d + 7) * 16777216.

(** The raw limit of 20 bits and the granularity bit. *)
Definition seg_limit (m : mem) (d : Z) : Z := load16 m d + (load8 m (d + 6) `mod` 16) * 65536.
Definition seg_big (m : mem) (d : Z) : bool := Z.testbit (load8 m (d + 6)) 7.
Definition seg_access (m : mem) (d : Z) : Z := load8 m (d + 5).

Definition gate_offset (m : mem) (g : Z) : Z := load16 m g + load16 m (g + 6) * 65536.
Definition gate_selector (m : mem) (g : Z) : Z := load16 m (g + 2).
Definition gate_access (m : mem) (g : Z) : Z := load8 m (g + 5).

(** The last byte offset the segment allows. *)
Definition seg_last (m : mem) (d : Z) : Z :=
  if seg_big m d then seg_limit m d * 4096 + 4095 else seg_limit m d.

(** ** Lemmas *)

Lemma land_low z k : 0 ≤ k → Z.land z (2 ^ k - 1) = z `mod` 2 ^ k.
Proof. intros. rewrite <-Z.land_ones by done. by rewrite Z.ones_equiv, Z.sub_1_r. Qed.

Lemma land_255 z : Z.land z 255 = z `mod` 256.
Proof. apply (land_low z 8); lia. Qed.

Lemma land_65535 z : Z.land z 65535 = z `mod` 65536.
Proof. apply (land_low z 16); lia. Qed.

Lemma land_15 z : Z.land z 15 = z `mod` 16.
Proof. apply (land_low z 4); lia. Qed.

Lemma shiftr_div z k d : 0 ≤ k → d = 2 ^ k → Z.shiftr z k = z / d.
Proof. intros Hk ->. by apply Z.shiftr_div_pow2. Qed.

(** The byte with the four high limit bits and the flag bits of [ar]. *)
Lemma limit_high_byte x ar :
  0 ≤ x < 16 → Z.lor x (Z.land (Z.shiftr ar 8) 240) = x + ((ar / 4096) `mod` 16) * 16.
Proof.
  intros Hx. change 240 with (Z.shiftl 15 4).
  assert (E : Z.land (Z.shiftr ar 8) (Z.shiftl 15 4) = Z.shiftl ((ar / 4096) `mod` 16) 4).
  { rewrite <-land_15, <-(shiftr_div ar 12 4096) by done. apply Z.bits_inj'. intros n Hn.
    rewrite Z.land_spec, Z.shiftr_spec by lia. destruct (Z.lt_ge_cases n 4).
    - rewrite !Z.shiftl_spec_low by lia. apply andb_false_r.
    - rewrite !Z.shiftl_spec_high, Z.land_spec, Z.shiftr_spec by lia.
      by replace (n - 4 + 12) with (n + 8) by lia. }
  rewrite E, Z.shiftl_mul_pow2 by lia. change (2 ^ 4) with 16.
  assert (Hd : Z.land x ((ar / 4096) `mod` 16 * 16) = 0).
  { apply Z.bits_inj'. intros n Hn. rewrite Z.land_spec, Z.bits_0. destruct (Z.lt_ge_cases n 4).
    - change 16 with (2 ^ 4) at 2. rewrite Z.mul_pow2_bits_low by lia. apply andb_false_r.
    - rewrite <-(Z.mod_small x (2 ^ 4)) by lia. rewrite Z.mod_pow2_bits_high by lia. done. }
  by rewrite (Z.add_nocarry_lxor _ _ Hd), (Z.lxor_lor _ _ Hd).
Qed.

(** Reading back the members: every byte of a descriptor is written once. *)
Ltac descriptor_bytes :=
  unfold store16; rewrite !load8_store8;
  repeat first [rewrite decide_True by lia | rewrite decide_False by lia].

(** a segment descriptor encodes what [set_segdesc] was given: the processor
    reads back the base address exactly and the access rights of [ar]; a limit of
    at most 20 bits is read back exactly with byte granularity, and a larger one
    is rounded up to the end of its 4 KiB page (so 0xffffffff covers the whole
    address space). *)
Theorem set_segdesc_roundtrip m d addr limit ar :
  is_u32 addr → is_u32 limit → is_u16 ar → Z.testbit ar 15 = false →
  let m' := set_segdesc m d addr limit ar in
  seg_base m' d = addr ∧ seg_access m' d = ar `mod` 256 ∧
  seg_big m' d = (limit >? 1048575) ∧
  seg_last m' d = (if limit >? 1048575 then limit / 4096 * 4096 + 4095 else limit).
Proof.
  intros Ha Hl Har H15 m'.
  set (big := limit >? 1048575) in *.
  set (ar' := if big then Z.lor ar 32768 else ar). set (limit' := if big then limit / 4096 else limit).
  assert (Hl' : 0 ≤ limit' < 1048576).
  { unfold limit', big. destruct (limit >? 1048575) eqn:E; bool_to_prop; unfold is_u32 in *;
      [Z.div_mod_to_equations|]; lia. }
  assert (Hb : Z.testbit ar' 15 = big).
  { unfold ar'. destruct big; [|done]. by rewrite Z.lor_spec, orb_true_r. }
  assert (Hlo : ar' `mod` 256 = ar `mod` 256).
  { unfold ar'. destruct big; [|done]. rewrite <-!land_255, Z.land_lor_distr_l. apply Z.lor_0_r. }
  assert (Hhi : load8 m' (d + 6) = limit' / 65536 + ((ar' / 4096) `mod` 16) * 16).
  { unfold m', set_segdesc. fold big ar' limit'. descriptor_bytes.
    rewrite (shiftr_div _ 16 65536), land_15, (Z.mod_small (limit' / 65536)), limit_high_byte by
      (done || (Z.div_mod_to_equations; lia)).
    apply u8_id. unfold is_u8. Z.div_mod_to_equations; lia. }
  assert (Hlow : load16 m' d = limit' `mod` 65536).
  { unfold load16, m', set_segdesc. fold big ar' limit'. descriptor_bytes. rewrite land_65535.
    unfold u8. Z.div_mod_to_equations; lia. }
  assert (Hbig : seg_big m' d = big).
  { unfold seg_big. rewrite Hhi, <-Hb. clear -Hl'.
    replace (limit' / 65536 + (ar' / 4096) `mod` 16 * 16) with
      (((ar' / 4096) `mod` 16) * 2 ^ 4 + limit' / 65536) by lia.
    rewrite <-(Z.div_pow2_bits _ 4 3) by lia. rewrite Z.div_add_l by lia.
    rewrite (Z.div_small (limit' / 65536)), Z.add_0_r by (Z.div_mod_to_equations; lia).
    change 16 with (2 ^ 4). rewrite Z.mod_pow2_bits_low by lia. change 4096 with (2 ^ 12).
    by rewrite Z.div_pow2_bits by lia. }
  split_and!.
  - unfold seg_base, load16, m', set_segdesc. fold big ar' limit'. descriptor_bytes.
    rewrite land_65535, !land_255, (shiftr_div _ 16 65536), (shiftr_div _ 24 16777216) by done.
    unfold is_u32, u8 in *. Z.div_mod_to_equations; lia.
  - unfold seg_access, m', set_segdesc. fold big ar' limit'. descriptor_bytes.
    rewrite land_255, Hlo. apply u8_id. unfold is_u8. Z.div_mod_to_equations; lia.
  - exact Hbig.
  - unfold seg_last. rewrite Hbig. unfold seg_limit. rewrite Hlow, Hhi.
    assert (El : limit' `mod` 65536 + (limit' / 65536 + (ar' / 4096) `mod` 16 * 16) `mod` 16 * 65536 = limit').
    { rewrite Z.mod_add by lia. rewrite (Z.mod_small (limit' / 65536)) by (Z.div_mod_to_equations; lia).
      Z.div_mod_to_equations; lia. }
    rewrite El. unfold limit'. by destruct big.
Qed.

Lemma set_segdesc_roundtrip_witness :
  seg_last (set_segdesc ∅ 0 0 4294967295 AR_CODE32) 0 = 4294967295.
Proof.
  destruct (set_segdesc_roundtrip ∅ 0 0 4294967295 AR_CODE32) as (_ & _ & _ & H).
  - unfold is_u32. lia.
  - unfold is_u32. lia.
  - unfold is_u16, AR_CODE32. lia.
  - reflexivity.
  - rewrite H. reflexivity.
Defined.

(** a gate encodes what [set_gatedesc] was given: offset, selector and
    access rights are read back exactly. *)
Theorem set_gatedesc_roundtrip m g offset selector ar :
  is_u32 offset → is_u16 selector →
  let m' := set_gatedesc m g offset selector ar in
  gate_offset m' g = offset ∧ gate_selector m' g = selector ∧ gate_access m' g = ar `mod` 256.
Proof.
  intros Ho Hs m'. unfold m', gate_offset, gate_selector, gate_access, load16, set_gatedesc.
  descriptor_bytes. rewrite !land_65535, land_255, (shiftr_div _ 16 65536) by done.
  unfold is_u32, is_u16, u8, u16 in *. split_and!; Z.div_mod_to_equations; lia.
Qed.

Lemma set_gatedesc_roundtrip_witness :
  gate_offset (set_gatedesc ∅ 0 1054321 KCSeg AR_INT) 0 = 1054321.
Proof.
  destruct (set_gatedesc_roundtrip ∅ 0 1054321 KCSeg AR_INT) as (H & _).
  - unfold is_u32. lia.
  - unfold is_u16, KCSeg. lia.
  - exact H.
Defined.

(** ** The interrupt table *)

(** The entry point of [isr.nas] that gate [n] leads to after [initIDT]; the other gates lead
    to [invalid]. *)
Definition gate_entry (n : Z) : option Z :=
  if (n <? 16) || (n =? 32) || (n =? 33) || (n =? 48) then Some n
  else if n =? 128 then Some 48 else None.

(** Gate [g] leads to [offset] in the code segment of the kernel. *)
Definition gate_is (m : mem) (g offset ar : Z) : Prop :=
  gate_offset m g = offset ∧ gate_selector m g = KCSeg ∧ gate_access m g = ar.

Lemma gate_same m m' g g' offset ar : (∀ o, 0 ≤ o < 8 → load8 m' (g' + o) = load8 m (g + o)) →
  gate_is m g offset ar → gate_is m' g' offset ar.
Proof.
  intros H. assert (H0 : load8 m' g' = load8 m g) by (rewrite <-(Z.add_0_r g'), <-(Z.add_0_r g); apply H; lia).
  unfold gate_is, gate_offset, gate_selector, gate_access, load16. rewrite <-!Z.add_assoc. cbn [Z.add Pos.add Pos.succ].
  by rewrite H0, !H by lia.
Qed.

Lemma set_gatedesc_changes m g offset selector ar : only_changes m (set_gatedesc m g offset selector ar) g 8.
Proof. intros b Hb. unfold set_gatedesc. descriptor_bytes. done. Qed.

Lemma set_gatedesc_bytes m g offset selector ar : bytes_ok m → bytes_ok (set_gatedesc m g offset selector ar).
Proof. intros H. unfold set_gatedesc, store16. by repeat apply bytes_ok_store8. Qed.

Lemma set_gate_is m g offset ar : is_u32 offset → gate_is (set_gatedesc m g offset KCSeg ar) g offset (ar `mod` 256).
Proof.
  intros Ho. unfold gate_is, gate_offset, gate_selector, gate_access, load16, set_gatedesc.
  descriptor_bytes. rewrite !land_65535, land_255, (shiftr_div _ 16 65536) by done.
  unfold is_u32, u8, u16, KCSeg in *. split_and!; Z.div_mod_to_equations; lia.
Qed.

(** A word copied byte by byte. *)
Lemma load8_copy32 m m' p q o : bytes_ok m → 0 ≤ o < 4 → load8 (store32 m' p (load32 m q)) (p + o) = load8 m (q + o).
Proof.
  intros Hb Ho. pose proof (load8_range m q Hb). pose proof (load8_range m (q + 1) Hb).
  pose proof (load8_range m (q + 2) Hb). pose proof (load8_range m (q + 3) Hb).
  assert (o = 0 ∨ o = 1 ∨ o = 2 ∨ o = 3) as [-> | [-> | [-> | ->]]] by lia; unfold store32, load32; rewrite ?Z.add_0_r, !load8_store8;
    repeat first [rewrite decide_True by lia | rewrite decide_False by lia]; unfold u8, is_u8 in *; Z.div_mod_to_equations; lia.
Qed.

Lemma copy_gate_bytes m p q : bytes_ok m → bytes_ok (copy_gate m p q) ∧ only_changes m (copy_gate m p q) p 8 ∧
  (p = q ∨ p + 8 ≤ q ∨ q + 8 ≤ p → ∀ o, 0 ≤ o < 8 → load8 (copy_gate m p q) (p + o) = load8 m (q + o)).
Proof.
  intros Hb. unfold copy_gate. split_and!.
  - by repeat apply bytes_ok_store32.
  - intros b Hb'. by rewrite !load8_store32_ne by lia.
  - intros _ o Ho. destruct (decide (o < 4)).
    + rewrite load8_store32_ne by lia. apply load8_copy32; [done|lia].
    + replace (p + o) with (p + 4 + (o - 4)) by lia. rewrite load8_copy32 by (done || lia). f_equal. lia.
Qed.

(** What the two loops of [initIDT] leave in the table at [t]. *)
Definition gates_at (m : mem) (t : Z) (k : Z) (f : Z → Z) : Prop :=
  bytes_ok m ∧ ∀ n, 0 ≤ n < k → gate_is m (t + 8 * n) (f n) AR_INT.

Lemma fill_gates m t invalid : gates_at m t 1 (λ _, invalid) →
  gates_at (for_loop 255 0 (λ i m, copy_gate m (t + 8 * i) t) m) t 255 (λ _, invalid).
Proof.
  intros H. apply (for_loop_ind (λ j m, gates_at m t (Z.max j 1) (λ _, invalid)) 255 0); [done|].
  intros j m' Hj [Hb Hg]. destruct (copy_gate_bytes m' (t + 8 * j) t Hb) as (Hb' & Hc & Hcp). split; [done|].
  intros n Hn. destruct (decide (n = j)) as [->|].
  - eapply gate_same; [apply Hcp; lia|]. replace t with (t + 8 * 0) by lia. apply Hg. lia.
  - eapply (gate_same m' _ (t + 8 * n)); [|apply Hg; lia]. intros o Ho. apply Hc. lia.
Qed.

Lemma set_gates m t k f n offset : gates_at m t k f → is_u32 offset →
  gates_at (set_gatedesc m (t + 8 * n) offset KCSeg AR_INT) t k (λ i, if i =? n then offset else f i).
Proof.
  intros [Hb Hg] Ho. split; [by apply set_gatedesc_bytes|]. intros i Hi. split_if.
  - subst. by apply (set_gate_is m (t + 8 * n) offset AR_INT).
  - eapply gate_same; [|by apply Hg]. intros o Hr. apply set_gatedesc_changes. lia.
Qed.

Lemma exception_gates m t (isr : Z → Z) invalid : (∀ n, is_u32 (isr n)) → gates_at m t 255 (λ _, invalid) →
  gates_at (for_loop 16 0 (λ i m, set_gatedesc m (t + 8 * i) (isr i) KCSeg AR_INT) m) t 255
    (λ n, if n <? 16 then isr n else invalid).
Proof.
  intros Hi H. apply (for_loop_ind (λ j m, gates_at m t 255 (λ n, if n <? j then isr n else invalid)) 16 0).
  - destruct H as [Hb Hg]. split; [done|]. intros n Hn. rewrite (proj2 (Z.ltb_ge _ _)) by lia. by apply Hg.
  - intros j m' Hj Hg. destruct (set_gates _ _ _ _ j (isr j) Hg (Hi j)) as [Hb' Hg']. split; [done|].
    intros i Hr. specialize (Hg' i Hr). cbn beta in Hg'.
    replace (i <? j + 1) with ((i =? j) || (i <? j)) by (destruct (Z.eqb_spec i j), (Z.ltb_spec i j), (Z.ltb_spec i (j + 1)); cbn; lia).
    revert Hg'. destruct (i =? j) eqn:Eij; [|done]. apply Z.eqb_eq in Eij. by rewrite Eij.
Qed.

Lemma copy_gate_changes m p q : only_changes m (copy_gate m p q) p 8.
Proof. unfold copy_gate. eapply only_changes_trans; apply only_changes_store32; lia. Qed.

(** [initIDT] writes to the table only. *)
Lemma gates_changes m t invalid (isr : Z → Z) :
  only_changes m (set_gatedesc (set_gatedesc (for_loop 16 0 (λ i m, set_gatedesc m (t + 8 * i) (isr i) KCSeg AR_INT)
    (for_loop 255 0 (λ i m, copy_gate m (t + 8 * i) t) (set_gatedesc m t invalid KCSeg AR_INT))) (t + 8 * 32) (isr 32) KCSeg AR_INT)
    (t + 8 * 33) (isr 33) KCSeg AR_INT) t 2048.
Proof.
  assert (Hs : ∀ u n offset, 0 ≤ n < 256 → only_changes u (set_gatedesc u (t + 8 * n) offset KCSeg AR_INT) t 2048)
    by (intros u n offset Hn; eapply only_changes_mono; [apply set_gatedesc_changes|lia..]).
  eapply only_changes_trans; [|apply Hs; lia]. eapply only_changes_trans; [|apply Hs; lia].
  eapply only_changes_trans; [|apply (only_changes_loop 16); intros j u Hj; apply Hs; lia].
  eapply only_changes_trans; [|apply (only_changes_loop 255); intros j u Hj; eapply only_changes_mono; [apply copy_gate_changes|lia..]].
  eapply only_changes_mono; [apply set_gatedesc_changes|lia..].
Qed.

Lemma initIDT_spec {A : Type} `{!FrameAlloc A} m (pf pf' : A) invalid (isr : Z → Z) t :
  bytes_ok m → is_u32 invalid → (∀ n, is_u32 (isr n)) → fa_alloc pf 10 = Ok (t, pf') →
  ∃ m', initIDT m pf invalid isr = Ok (t, m', pf') ∧ bytes_ok m' ∧ only_changes m m' t 2048 ∧
    ∀ n, 0 ≤ n < 255 → gate_is m' (t + 8 * n) (match gate_entry n with Some e => isr e | None => invalid end)
      (if (n =? 48) || (n =? 128) then AR_INT_p3 else AR_INT).
Proof.
  intros Hb Hi Hisr E. unfold initIDT. rewrite E. cbn [mbind res_bind].
  assert (H0 : gates_at (set_gatedesc m t invalid KCSeg AR_INT) t 1 (λ _, invalid)).
  { split; [by apply set_gatedesc_bytes|]. intros n Hn. replace (t + 8 * n) with t by lia. by apply (set_gate_is m t invalid AR_INT). }
  pose proof (exception_gates _ t isr invalid Hisr (fill_gates _ _ _ H0)) as H1.
  pose proof (set_gates _ t _ _ 33 (isr 33) (set_gates _ t _ _ 32 (isr 32) H1 (Hisr 32)) (Hisr 33)) as [Hb1 Hg].
  assert (Hch : only_changes m (set_gatedesc (set_gatedesc (for_loop 16 0 (λ i m, set_gatedesc m (t + 8 * i) (isr i) KCSeg AR_INT)
    (for_loop 255 0 (λ i m, copy_gate m (t + 8 * i) t) (set_gatedesc m t invalid KCSeg AR_INT))) (t + 8 * 32) (isr 32) KCSeg AR_INT)
    (t + 8 * 33) (isr 33) KCSeg AR_INT) t 2048) by (by apply gates_changes).
  set (m1 := set_gatedesc _ (t + 8 * 33) _ _ _) in *. clearbody m1. clear H0 H1. eexists. split; [reflexivity|].
  split; [by repeat apply set_gatedesc_bytes|]. split; [|intros n Hn; unfold gate_entry].
  { eapply only_changes_trans; [eapply only_changes_trans; [exact Hch|]|]; eapply only_changes_mono; try apply set_gatedesc_changes; lia. }
  destruct (Z.eqb_spec n 128) as [->|H128]; [by apply (set_gate_is _ (t + 8 * 128) (isr 48) AR_INT_p3)|].
  eapply gate_same; [intros o Ho; apply set_gatedesc_changes; lia|].
  destruct (Z.eqb_spec n 48) as [->|H48]; [by apply (set_gate_is _ (t + 8 * 48) (isr 48) AR_INT_p3)|].
  eapply gate_same; [intros o Ho; apply set_gatedesc_changes; lia|]. specialize (Hg n Hn). cbn beta in Hg.
  cbn [orb]. rewrite !orb_false_r. destruct (n =? 33) eqn:E33; [bool_to_prop; by subst|].
  destruct (n =? 32) eqn:E32; [bool_to_prop; by subst|]. rewrite !orb_false_r. by destruct (n <? 16).
Qed.

(** the interrupt table: after [initIDT] the gates 0 to 15, 32, 33 and 48 lead to their entry
    points and gate 128 to the one of 48, all through the code segment of the kernel with
    interrupts disabled; programs may use gates 48 and 128 only; every other gate below 255 leads to
    [invalid]. The gates of the disk interrupts, 46 and 47, are among them. *)
Theorem initIDT_gates {A : Type} `{!FrameAlloc A} m (pf pf' : A) invalid (isr : Z → Z) t :
  bytes_ok m → is_u32 invalid → (∀ n, is_u32 (isr n)) → fa_alloc pf 10 = Ok (t, pf') →
  ∃ m', initIDT m pf invalid isr = Ok (t, m', pf') ∧ bytes_ok m' ∧ only_changes m m' t 2048 ∧
    ∀ n, 0 ≤ n < 255 → gate_is m' (t + 8 * n) (match gate_entry n with Some e => isr e | None => invalid end)
      (if (n =? 48) || (n =? 128) then AR_INT_p3 else AR_INT).
Proof. apply initIDT_spec. Qed.

(** ** The segments that [initGDT] defines *)

(** The descriptor at [d]. *)
Definition seg_is (m : mem) (d base last access : Z) : Prop :=
  seg_base m d = base ∧ seg_last m d = last ∧ seg_access m d = access.

Lemma set_segdesc_changes m d addr limit ar : only_changes m (set_segdesc m d addr limit ar) d 8.
Proof. intros b Hb. unfold set_segdesc. descriptor_bytes. done. Qed.

Lemma set_segdesc_bytes m d addr limit ar : bytes_ok m → bytes_ok (set_segdesc m d addr limit ar).
Proof. intros H. unfold set_segdesc, store16. by repeat apply bytes_ok_store8. Qed.

Lemma seg_same m m' d base last access : (∀ o, 0 ≤ o < 8 → load8 m' (d + o) = load8 m (d + o)) →
  seg_is m d base last access → seg_is m' d base last access.
Proof.
  intros H. assert (H0 : load8 m' d = load8 m d) by (rewrite <-(Z.add_0_r d); apply H; lia).
  unfold seg_is, seg_base, seg_last, seg_limit, seg_big, seg_access, load16. rewrite <-!Z.add_assoc. cbn [Z.add Pos.add Pos.succ].
  by rewrite H0, !H by lia.
Qed.

(** Setting one descriptor. *)
Lemma set_seg_is m d addr limit ar last access : is_u32 addr → is_u32 limit → is_u16 ar → Z.testbit ar 15 = false →
  (if limit >? 1048575 then limit / 4096 * 4096 + 4095 else limit) = last → ar `mod` 256 = access →
  seg_is (set_segdesc m d addr limit ar) d addr last access.
Proof. intros H1 H2 H3 H4 <- <-. destruct (set_segdesc_roundtrip m d addr limit ar H1 H2 H3 H4) as (Hb & Ha & _ & Hl). done. Qed.

Lemma set_seg_keep m d e addr limit ar base last access : d + 8 ≤ e ∨ e + 8 ≤ d → seg_is m e base last access →
  seg_is (set_segdesc m d addr limit ar) e base last access.
Proof. intros Hd. apply seg_same. intros o Ho. apply set_segdesc_changes. lia. Qed.

(** Selector, base, last byte and access byte of the segments: the kernel's, the programs', those
    of the first processes, and the task state segment. *)
Definition gdt_segments (tss : Z) : list (Z * Z * Z * Z) :=
  [(KCSeg, 0, 4294967295, 154); (KDSeg, 0, 4294967295, 146); (UCSeg, 0, 4294967295, 250); (UDSeg, 0, 4294967295, 242);
   (TCSeg, 0, 4294967295, 186); (TDSeg, 0, 4294967295, 178); (TssDesc, tss, sizeof_TSS32, TYPE_TSS)].

(** The descriptors at [g] are those of [gdt_segments], and everything else up to 16 KiB is 0. *)
Definition gdt_at (m : mem) (g tss : Z) : Prop :=
  Forall (λ '(s, b, l, a), seg_is m (g + s) b l a) (gdt_segments tss) ∧
  ∀ o, 0 ≤ o < 16384 → Forall (λ '(s, _, _, _), ¬ (s ≤ o < s + 8)) (gdt_segments tss) → load8 m (g + o) = 0.

Lemma clear_words m g (n : nat) : bytes_ok m →
  let m' := for_loop n 0 (λ i m, store32 m (g + 4 * i) 0) m in
  bytes_ok m' ∧ (∀ o, 0 ≤ o < 4 * Z.of_nat n → load8 m' (g + o) = 0) ∧ only_changes m m' g (4 * Z.of_nat n).
Proof.
  intros Hm m'. enough (H : bytes_ok m' ∧ (∀ o, 0 ≤ o < 4 * (0 + Z.of_nat n) → load8 m' (g + o) = 0) ∧ only_changes m m' g (4 * Z.of_nat n)) by done.
  unfold m'. apply (for_loop_ind (λ j u, bytes_ok u ∧ (∀ o, 0 ≤ o < 4 * j → load8 u (g + o) = 0) ∧ only_changes m u g (4 * Z.of_nat n))).
  { split_and!; [done|lia|apply only_changes_refl]. }
  intros j u Hj (Hu & H0 & Hc). split_and!.
  - by apply bytes_ok_store32.
  - intros o Ho. destruct (decide (o < 4 * j)); [rewrite load8_store32_ne by lia; apply H0; lia|].
    unfold store32. rewrite !load8_store8. repeat (case_decide; [done|]). lia.
  - eapply only_changes_trans; [exact Hc|]. apply only_changes_store32; lia.
Qed.

Lemma initGDT_spec {A : Type} `{!FrameAlloc A} m (pf pf' : A) tss g : bytes_ok m → is_u32 tss → fa_alloc pf 10 = Ok (g, pf') →
  ∃ m', initGDT m pf tss = Ok (g, m', pf') ∧ bytes_ok m' ∧ only_changes m m' g 16384 ∧ gdt_at m' g tss.
Proof.
  intros Hm Ht E. unfold initGDT. rewrite E. cbn [mbind res_bind].
  destruct (clear_words m g (Z.to_nat 4096) Hm) as (Hm0 & Hz & Hc). cbv zeta in Hm0, Hz, Hc.
  change (4 * Z.of_nat (Z.to_nat 4096)) with 16384 in Hz, Hc. set (m0 := for_loop _ _ _ m) in *. clearbody m0.
  eexists. split; [reflexivity|]. split; [by repeat apply set_segdesc_bytes|].
  set (m' := set_segdesc _ _ tss _ _).
  assert (Hr : ∀ o, Forall (λ '(s, _, _, _), ¬ (s ≤ o < s + 8)) (gdt_segments tss) → load8 m' (g + o) = load8 m0 (g + o)).
  { intros o Ho. unfold gdt_segments in Ho. rewrite !Forall_cons in Ho. destruct Ho as (? & ? & ? & ? & ? & ? & ? & _).
    unfold m'. by rewrite !(set_segdesc_changes _ _ _ _ _ (g + o)) by lia. }
  split; [|split].
  - intros b Hb. replace b with (g + (b - g)) by lia. rewrite Hr; [apply Hc; lia|].
    unfold gdt_segments, KCSeg, KDSeg, UCSeg, UDSeg, TCSeg, TDSeg, TssDesc. repeat apply Forall_cons_2; lia || apply Forall_nil_2.
  - unfold gdt_segments, m', KCSeg, KDSeg, UCSeg, UDSeg, TCSeg, TDSeg, TssDesc.
    repeat apply Forall_cons_2; try apply Forall_nil_2;
      repeat (apply set_seg_keep; [lia|]);
      (apply set_seg_is; [done || (unfold is_u32; lia)|unfold is_u32, sizeof_TSS32; lia|by vm_compute|reflexivity..]).
  - intros o Ho Hs. rewrite Hr by done. by apply Hz.
Qed.

(** [initTSS] clears the structure. *)
Lemma initTSS_spec {A : Type} `{!FrameAlloc A} m (pf pf' : A) p : bytes_ok m → fa_alloc pf 1 = Ok (p, pf') →
  ∃ m', initTSS m pf = Ok (p, m', pf') ∧ bytes_ok m' ∧ only_changes m m' p sizeof_TSS32 ∧
    ∀ o, 0 ≤ o < sizeof_TSS32 → load8 m' (p + o) = 0.
Proof.
  intros Hm E. unfold initTSS. rewrite E. cbn [mbind res_bind]. eexists. split; [reflexivity|].
  apply (for_loop_ind (λ j u, bytes_ok u ∧ only_changes m u p sizeof_TSS32 ∧ ∀ o, 0 ≤ o < j → load8 u (p + o) = 0) (Z.to_nat sizeof_TSS32) 0).
  { split_and!; [done|apply only_changes_refl|lia]. }
  unfold sizeof_TSS32. intros j u Hj (Hu & Hc & H0). split_and!.
  - by apply bytes_ok_store8.
  - eapply only_changes_trans; [exact Hc|]. apply only_changes_store8. lia.
  - intros o Ho. rewrite load8_store8. case_decide; [done|]. apply H0. lia.
Qed.

(** An allocator with one MiB of free memory. *)
Definition ex_frames : PFAllocator.state :=
  match PFAllocator.addChunk PFAllocator.PFAllocator_new 1048576 2097152 with Ok s => s | _ => PFAllocator.PFAllocator_new end.

Lemma initIDT_gates_witness : ∃ t m' pf', initIDT ∅ ex_frames 1048576 (λ n, 1048592 + 16 * (n `mod` 256)) = Ok (t, m', pf') ∧
  gate_is m' (t + 8 * 46) 1048576 AR_INT.
Proof.
  destruct (fa_alloc ex_frames 10) as [[t pf']| | |] eqn:E; try discriminate E.
  destruct (initIDT_gates ∅ ex_frames pf' 1048576 (λ n, 1048592 + 16 * (n `mod` 256)) t) as (m' & E' & _ & _ & Hg).
  - exact bytes_ok_empty.
  - unfold is_u32. lia.
  - intros n. unfold is_u32. pose proof (Z.mod_pos_bound n 256). lia.
  - exact E.
  - exists t, m', pf'. split; [exact E'|]. apply (Hg 46). lia.
Defined.

End Descriptor.
