(* ===== verification/Clone.v ===== *)
(** * Copying an address space ([clone_mm] of [src/kernel/task.cpp])

    [clone_mm] gives a new process a page directory with the kernel's slots, maps the
    regions of the running process in it and copies their contents page by page. The
    contents are read at virtual addresses of the running process and written at the
    physical addresses of the new frames (the straight mapping of [VarMem.v]).

    [Own] is the ownership the proof turns on: the directory, the tables and the frames of
    the new space, except for the shared slots of the kernel, are disjoint from each
    other and from the memory that is in use elsewhere. *)

From S2P Require Import Prelude Memory PageFrames VarMem Process.

Module Clone.
Import VarMem Process.

(** ** The code *)

Section code.
Context {A : Type} `{!FrameAlloc A}.

(** [memcpy(phyAddr,(u32_t * )addr,0x1000)]: the source is an address of the running
    process, whose directory is [cr3]; a page fault stops the kernel. *)
Definition copy_page (m : mem) (cr3 phyAddr addr : Z) : res mem :=
  for_loop_res (Z.to_nat 4096) 0
    (λ i m, match translate m cr3 (u32 (addr + i)) with
            | Some pa => Ok (store8 m (u32 (phyAddr + i)) (load8 m pa))
            | None => Fault
            end) m.

(** [for(u32_t addr = begin; addr <= begin+size-0x1000; addr+=0x1000)]. *)
Fixpoint copy_region (fuel : nat) (m : mem) (cr3 dest_cr3 addr last : Z) : res mem :=
  match fuel with
  | O => NoFuel
  | S fuel' =>
    if last <? addr then Ok m
    else
      let phyAddr := vir2phy m cr3 addr dest_cr3 in
      m ← copy_page m cr3 phyAddr addr;
      copy_region fuel' m cr3 dest_cr3 (u32 (addr + 4096)) last
  end.

(** [while(p->next != NULL)] over the regions of the source. *)
Fixpoint clone_regions (fuel : nat) (st : vm A) (cr3_reg : Z) (dest_mm : mm_struct) (rs : list mm_region)
    : res (mm_struct * vm A) :=
  match rs with
  | [] => Ok (dest_mm, st)
  | p :: rs =>
    let dest_mm := add_region_copy dest_mm p in
    st ← (if negb (Z.land (r_flags p) SYSTEM =? 0)
          then enableSpace st (r_begin p) (r_size p) (cr3 dest_mm) systempage
          else enableSpace st (r_begin p) (r_size p) (cr3 dest_mm) userpage);
    m ← copy_region fuel (vm_mem st) cr3_reg (cr3 dest_mm) (r_begin p) (u32 (u32 (r_begin p + r_size p) - 4096));
    clone_regions fuel (mkVM m (vm_pf st)) cr3_reg dest_mm rs
  end.

(** [void clone_mm(const mm_struct *src_mm,mm_struct *dest_mm)]; [kPdir] and [mem_size]
    are the globals [varMem.kPdir] and [bootinfo.mem_size]. *)
Definition clone_mm (fuel : nat) (st : vm A) (kPdir mem_size cr3_reg : Z) (src_mm dest_mm : mm_struct)
    : res (mm_struct * vm A) :=
  '(pdir, pf) ← fa_alloc (vm_pf st) 1;
  let dest_mm := mkMM pdir (regions dest_mm) in
  let st := mkVM (copyKernelDir (vm_mem st) kPdir mem_size pdir) pf in
  clone_regions fuel st cr3_reg dest_mm (regions src_mm).

End code.

(** ** Bytes that a write leaves alone *)

Lemma editEntry_byte m e p type a : ¬ (e ≤ a < e + 4) → load8 (editEntry m e p type) a = load8 m a.
Proof. intros Ha. unfold editEntry. by rewrite !load8_store32_ne by lia. Qed.

Lemma disableAllEntry_byte m t a : ¬ (t ≤ a < t + 4096) → load8 (disableAllEntry m t) a = load8 m a.
Proof.
  intros Ha. apply (only_changes_loop (Z.to_nat nrEntry) 0 _ m t 4096); [|done].
  intros j u Hj. unfold nrEntry in Hj. apply only_changes_store32; lia.
Qed.

Lemma load32_store8_ne m a v b : a < b ∨ b + 4 ≤ a → load32 (store8 m a v) b = load32 m b.
Proof. intros H. unfold load32. rewrite !load8_store8. by rewrite !decide_False by lia. Qed.

(** A page and a word in another page. *)
Lemma other_page p q k : p `mod` 4096 = 0 → q `mod` 4096 = 0 → p ≠ q → 0 ≤ k < 1024 →
  ∀ a, p ≤ a < p + 4096 → a < q + 4 * k ∨ q + 4 * k + 4 ≤ a.
Proof. intros Hp Hq Hne Hk a Ha. destruct (page_disjoint p q Hp Hq Hne); lia. Qed.

#[local] Opaque disableAllEntry editEntry.

(** ** Ownership *)

Section own.
Context {A : Type} `{!FrameAlloc A}.
Context (pdir : Z) (K U : Z → Prop).
Implicit Types (st : vm A) (m : mem) (va a : Z).

(** An address that is not in a slot of the kernel. *)
Definition user va : Prop := is_va va ∧ ¬ K (va / 4194304).

(** What a process sees at [va]. *)
Definition vbyte m dir va : option Z := load8 m <$> translate m dir va.

Record Own st : Prop := {
  ow_space : Space st pdir;
  ow_U : ∀ a, U a → fa_used (vm_pf st) a;
  ow_dir : ∀ a, pdir ≤ a < pdir + 4096 → ¬ U a;
  ow_table : ∀ i a, 0 ≤ i < 1024 → ¬ K i → isEntryExist (dirE (vm_mem st) pdir i) = true →
    caddrEntry (dirE (vm_mem st) pdir i) ≤ a < caddrEntry (dirE (vm_mem st) pdir i) + 4096 → ¬ U a;
  ow_frame : ∀ va x, user va → translate (vm_mem st) pdir va = Some x →
    page_used st (x / 4096 * 4096) ∧ (∀ a, a / 4096 = x / 4096 → ¬ U a) ∧ x / 4096 * 4096 ≠ pdir ∧
    ∀ i, 0 ≤ i < 1024 → isEntryExist (dirE (vm_mem st) pdir i) = true → caddrEntry (dirE (vm_mem st) pdir i) ≠ x / 4096 * 4096;
  ow_inj : ∀ va1 va2 x1 x2, user va1 → user va2 → translate (vm_mem st) pdir va1 = Some x1 →
    translate (vm_mem st) pdir va2 = Some x2 → x1 / 4096 = x2 / 4096 → va1 / 4096 = va2 / 4096
}.

(** A step that leaves the memory of others and the mapped user pages alone. *)
Record Kept st st' : Prop := {
  kp_used : ∀ a, fa_used (vm_pf st) a → fa_used (vm_pf st') a;
  kp_U : ∀ a, U a → load8 (vm_mem st') a = load8 (vm_mem st) a;
  kp_map : ∀ va x, user va → translate (vm_mem st) pdir va = Some x →
    translate (vm_mem st') pdir va = Some x ∧ load8 (vm_mem st') x = load8 (vm_mem st) x
}.

Lemma Kept_refl st : Kept st st.
Proof. by split. Qed.

Lemma Kept_trans st1 st2 st3 : Kept st1 st2 → Kept st2 st3 → Kept st1 st3.
Proof.
  intros [U1 M1 T1] [U2 M2 T2]. split; [auto|intros a Ha; by rewrite M2, M1|].
  intros va x Hu Hx. destruct (T1 va x Hu Hx) as [H1 E1]. destruct (T2 va x Hu H1) as [H2 E2].
  split; [done|]. by rewrite E2.
Qed.

(** The page of a translation is the frame of its entry. *)
Lemma translate_page st va x : Space st pdir → translate (vm_mem st) pdir va = Some x →
  x = x / 4096 * 4096 + va `mod` 4096 ∧ 0 ≤ x < 4294967296.
Proof.
  intros HS. unfold translate. destruct (isEntryExist (dir_entry _ _ _)); [|done].
  destruct (isEntryExist (table_entry _ _ _)); [|done]. intros [= <-].
  destruct (caddr_aligned (table_entry (vm_mem st) pdir va)) as [Hm Hr]; [apply load32_range, HS|].
  generalize dependent (caddrEntry (table_entry (vm_mem st) pdir va)). intros c Hm Hr. Z.div_mod_to_equations; lia.
Qed.

(** A new table in a slot that is not the kernel's. *)
Lemma new_table_own st pf' i p type n : Own st → 0 ≤ i < 1024 → isEntryExist (dirE (vm_mem st) pdir i) = false →
  Z.odd type = true → fa_ready pf' n → p `mod` 4096 = 0 → 0 ≤ p → p + 4096 < 4294967296 →
  (∀ a, fa_used pf' a ↔ fa_used (vm_pf st) a ∨ p ≤ a < p + 4096) →
  (∀ a, p ≤ a < p + 4096 → ¬ fa_used (vm_pf st) a) →
  Own (mkVM (new_table (vm_mem st) pdir i p type) pf') ∧ Kept st (mkVM (new_table (vm_mem st) pdir i p type) pf').
Proof.
  intros HO Hi Hex Hty _ Hal H0 Hhi Hus Hfr. pose proof (ow_space _ HO) as HS.
  pose proof (new_table_space st pf' pdir i p type HS Hi Hex Hty Hal H0 Hhi Hus Hfr) as HS'.
  assert (Htr : ∀ va, is_va va → translate (new_table (vm_mem st) pdir i p type) pdir va = translate (vm_mem st) pdir va)
    by (intros va Hva; by apply new_table_translate).
  assert (Hp : is_u32 p) by (unfold is_u32; lia).
  assert (Hne : p ≠ pdir) by (apply (fresh_ne st); [done|apply HS]).
  assert (Hd : pdir + 4096 ≤ p ∨ p + 4096 ≤ pdir) by (apply page_disjoint; [apply HS|done|done]).
  assert (Hdir : ∀ j, 0 ≤ j < 1024 → dirE (new_table (vm_mem st) pdir i p type) pdir j =
    if decide (j = i) then pte p type else dirE (vm_mem st) pdir j) by (intros j Hj; by apply new_table_dir).
  assert (Hby : ∀ a, ¬ (p ≤ a < p + 4096) → ¬ (pdir ≤ a < pdir + 4096) →
    load8 (new_table (vm_mem st) pdir i p type) a = load8 (vm_mem st) a).
  { intros a Ha Ha'. unfold new_table. rewrite disableAllEntry_byte, editEntry_byte by lia. done. }
  split; [split; cbn [vm_mem vm_pf]|split; cbn [vm_mem vm_pf]].
  - exact HS'.
  - intros a Ha. apply Hus. left. by apply (ow_U _ HO).
  - exact (ow_dir _ HO).
  - intros j a Hj HK. rewrite Hdir by done. case_decide.
    + intros _. rewrite caddr_pte by done. intros Ha Hu. apply (Hfr a Ha). by apply (ow_U _ HO).
    + by apply (ow_table _ HO).
  - intros va x Hu. rewrite Htr by apply Hu. intros Hx. destruct (ow_frame _ HO va x Hu Hx) as (F1 & F2 & F3 & F4).
    split_and!; [intros a Ha; apply Hus; left; by apply F1|done|done|].
    intros j Hj. rewrite Hdir by done. case_decide; [|by apply F4].
    intros _. rewrite caddr_pte by done. apply (fresh_ne st); done.
  - intros va1 va2 x1 x2 Hu1 Hu2. rewrite !Htr by (apply Hu1 || apply Hu2). by apply (ow_inj _ HO).
  - intros a Ha. apply Hus. by left.
  - intros a Ha. apply Hby; [|intros Hr; by apply (ow_dir _ HO a Hr)].
    intros Hr. apply (Hfr a Hr). by apply (ow_U _ HO).
  - intros va x Hu Hx. rewrite Htr by apply Hu. split; [done|].
    destruct (ow_frame _ HO va x Hu Hx) as (F1 & F2 & F3 & F4). destruct (translate_page _ _ _ HS Hx) as [Ex Hr].
    apply Hby.
    + intros Hin. apply (Hfr x Hin). apply F1. Z.div_mod_to_equations; lia.
    + intros Hin. apply F3. pose proof (sp_aligned _ _ HS). Z.div_mod_to_equations; lia.
Qed.

(** A frame for a page that was not mapped. *)
Lemma set_entry_own st pf' va p type : Own st → user va → isEntryExist (dir_entry (vm_mem st) pdir va) = true →
  isEntryExist (table_entry (vm_mem st) pdir va) = false →
  Z.odd type = true → p `mod` 4096 = 0 → 0 ≤ p → p + 4096 < 4294967296 →
  (∀ a, fa_used pf' a ↔ fa_used (vm_pf st) a ∨ p ≤ a < p + 4096) →
  (∀ a, p ≤ a < p + 4096 → ¬ fa_used (vm_pf st) a) →
  let st' := mkVM (editEntry (vm_mem st) (caddrEntry (dir_entry (vm_mem st) pdir va) +
                     4 * (va `mod` 4194304 / 4096)) p type) pf' in
  Own st' ∧ Kept st st' ∧ translate (vm_mem st') pdir va = Some (p + va `mod` 4096).
Proof.
  intros HO Hu Hex Hno Hty Hal H0 Hhi Hus Hfr st'. pose proof (ow_space _ HO) as HS. destruct Hu as [Hva HK].
  assert (Hp : is_u32 p) by (unfold is_u32; lia). pose proof (slot_range va Hva) as Hs. pose proof (idx_range va) as Hk.
  destruct (set_entry_ok st pf' pdir va p type HS Hva Hex Hp Hal Hty) as [HS' Htr]; [intros a Ha; apply Hus; by left|].
  fold st' in HS', Htr. destruct (sp_table _ _ HS _ Hs Hex) as [Htu Htp]. pose proof (table_aligned st pdir (va / 4194304) HS) as Hta.
  set (t := caddrEntry (dirE (vm_mem st) pdir (va / 4194304))) in *.
  assert (Hby : ∀ a, ¬ (t ≤ a < t + 4096) → load8 (vm_mem st') a = load8 (vm_mem st) a).
  { intros a Ha. apply editEntry_byte. fold (dirE (vm_mem st) pdir (va / 4194304)). unfold dir_entry. fold t. lia. }
  assert (Hdir : ∀ j, 0 ≤ j < 1024 → dirE (vm_mem st') pdir j = dirE (vm_mem st) pdir j).
  { intros j Hj. unfold dirE, load32. assert (t + 4096 ≤ pdir ∨ pdir + 4096 ≤ t) by (apply page_disjoint; [done|apply HS|done]).
    by rewrite !Hby by lia. }
  assert (Hnone : ∀ v, is_va v → v / 4096 = va / 4096 → translate (vm_mem st) pdir v = None).
  { intros v Hv E. eapply (translate_same_page _ _ va); try done. unfold translate. by rewrite Hex, Hno. }
  assert (Hold : ∀ v x, user v → translate (vm_mem st) pdir v = Some x → translate (vm_mem st') pdir v = Some x ∧ v / 4096 ≠ va / 4096).
  { intros v x [Hv _] Hx. assert (Hd : v / 4096 ≠ va / 4096) by (intros E; by rewrite (Hnone v Hv E) in Hx).
    rewrite Htr, decide_False by done. done. }
  assert (Hpd : ∀ v, (p + v `mod` 4096) / 4096 * 4096 = p ∧ (p + v `mod` 4096) / 4096 = p / 4096) by (intros v; Z.div_mod_to_equations; lia).
  assert (Hfresh : ∀ v x, user v → translate (vm_mem st) pdir v = Some x → x / 4096 ≠ p / 4096).
  { intros v x Hv Hx E. destruct (ow_frame _ HO v x Hv Hx) as (F1 & _). apply (Hfr (x / 4096 * 4096)); [|apply F1]; Z.div_mod_to_equations; lia. }
  assert (Hcase : ∀ v x, user v → translate (vm_mem st') pdir v = Some x →
    (v / 4096 = va / 4096 ∧ x = p + v `mod` 4096) ∨ (v / 4096 ≠ va / 4096 ∧ translate (vm_mem st) pdir v = Some x)).
  { intros v x [Hv _]. rewrite Htr by done. case_decide; [intros [= <-]; by left|by right]. }
  split_and!; [split|split|]; cbn [vm_pf].
  - exact HS'.
  - intros a Ha. apply Hus. left. by apply (ow_U _ HO).
  - exact (ow_dir _ HO).
  - intros j a Hj Hkj. rewrite Hdir by done. by apply (ow_table _ HO).
  - intros v x Hv [[_ ->]|[_ Hx]]%Hcase; [| |done].
    + destruct (Hpd v) as [-> ->]. split_and!.
      * intros a Ha. apply Hus. by right.
      * intros a Ha Hua. apply (Hfr a); [Z.div_mod_to_equations; lia|]. by apply (ow_U _ HO).
      * apply (fresh_ne st); [done|apply HS].
      * intros j Hj. rewrite Hdir by done. intros Hx E. symmetry in E. revert E. apply (fresh_ne st); [done|]. by apply (sp_table _ _ HS).
    + destruct (ow_frame _ HO v x Hv Hx) as (F1 & F2 & F3 & F4). split_and!; [intros a Ha; apply Hus; left; by apply F1|done|done|].
      intros j Hj. rewrite Hdir by done. by apply F4.
  - intros v1 v2 x1 x2 Hv1 Hv2 H1 H2 E. destruct (Hcase v1 x1 Hv1 H1) as [[E1 ->]|[_ H1']], (Hcase v2 x2 Hv2 H2) as [[E2 ->]|[_ H2']].
    + congruence.
    + rewrite (proj2 (Hpd v1)) in E. symmetry in E. by destruct (Hfresh v2 x2 Hv2 H2').
    + rewrite (proj2 (Hpd v2)) in E. by destruct (Hfresh v1 x1 Hv1 H1').
    + by apply (ow_inj _ HO v1 v2 x1 x2).
  - intros a Ha. apply Hus. by left.
  - intros a Ha. apply Hby. intros Hr. by apply (ow_table _ HO (va / 4194304) a Hs HK Hex Hr).
  - intros v x Hv Hx. split; [by apply Hold|]. apply Hby. intros Hr. destruct (ow_frame _ HO v x Hv Hx) as (_ & _ & _ & F4).
    apply (F4 (va / 4194304) Hs Hex). fold t. Z.div_mod_to_equations; lia.
  - by rewrite Htr, decide_True.
Qed.

(** One page of [enableSpace]. *)
Lemma enable_page_own st va type n : Own st → user va → Z.odd type = true → fa_ready (vm_pf st) (S (S n)) →
  ∃ st', enable_page st va pdir type = Ok st' ∧ Own st' ∧ Kept st st' ∧ fa_ready (vm_pf st') n ∧
    is_Some (translate (vm_mem st') pdir va).
Proof.
  intros HO Hu Hty Hr. pose proof (slot_range va (proj1 Hu)) as Hs.
  assert (Hget : ∃ st1, get_table st va pdir type = Ok (caddrEntry (dir_entry (vm_mem st1) pdir va), st1) ∧ Own st1 ∧ Kept st st1 ∧
    fa_ready (vm_pf st1) (S n) ∧ isEntryExist (dir_entry (vm_mem st1) pdir va) = true).
  { unfold get_table. fold (dirE (vm_mem st) pdir (va / 4194304)). fold (dir_entry (vm_mem st) pdir va).
    destruct (isEntryExist (dir_entry (vm_mem st) pdir va)) eqn:Ex; cbn [negb].
    { exists st. split_and!; try done. eapply fa_ready_le; [|exact Hr]. lia. }
    destruct (fa_alloc_spec _ _ Hr) as (p & pf' & E & Hr' & Hal & H0 & Hhi & Hus & Hfr). rewrite E. cbn [mbind res_bind].
    destruct (new_table_own st pf' (va / 4194304) p type (S n) HO Hs Ex Hty Hr' Hal H0 Hhi Hus Hfr) as [HO1 HK1].
    assert (Hp : is_u32 p) by (unfold is_u32; lia).
    assert (Ed : dir_entry (new_table (vm_mem st) pdir (va / 4194304) p type) pdir va = pte p type).
    { unfold dir_entry. rewrite new_table_dir, decide_True; try done. apply page_disjoint; [apply HO|done|].
      intros E'. symmetry in E'. revert E'. apply (fresh_ne st); [done|apply HO]. }
    exists (mkVM (new_table (vm_mem st) pdir (va / 4194304) p type) pf').
    split; [|split; [exact HO1|split; [exact HK1|split; [exact Hr'|]]]]; cbn [vm_mem].
    - rewrite Ed, caddr_pte by done. reflexivity.
    - by rewrite Ed, exist_pte. }
  destruct Hget as (st1 & E1 & HO1 & HK1 & Hr1 & Hx1). unfold enable_page. rewrite E1. cbn [mbind res_bind]. clear E1.
  fold (table_entry (vm_mem st1) pdir va).
  destruct (isEntryExist (table_entry (vm_mem st1) pdir va)) eqn:Ex; cbn [negb].
  - exists st1. split_and!; try done; [eapply fa_ready_le; [|exact Hr1]; lia|].
    unfold translate. rewrite Hx1, Ex. by eexists.
  - destruct (fa_alloc_spec _ _ Hr1) as (p & pf' & E & Hr' & Hal & H0 & Hhi & Hus & Hfr). rewrite E. cbn [mbind res_bind].
    destruct (set_entry_own st1 pf' va p type HO1 Hu Hx1 Ex Hty Hal H0 Hhi Hus Hfr) as (HO2 & HK2 & Ht).
    eexists. split; [reflexivity|]. split_and!; [exact HO2|by eapply Kept_trans|exact Hr'|by eexists].
Qed.

(** [enableSpace] on whole pages outside of the slots of the kernel. *)
Lemma enableSpace_own st begin (pages : nat) type n : Own st → Z.odd type = true → 0 ≤ begin → begin `mod` 4096 = 0 →
  begin + 4096 * Z.of_nat pages + 4095 < 4294967296 → (∀ va, begin ≤ va < begin + 4096 * Z.of_nat pages → user va) →
  fa_ready (vm_pf st) (2 * pages + n) →
  ∃ st', enableSpace st begin (4096 * Z.of_nat pages) pdir type = Ok st' ∧ Own st' ∧ Kept st st' ∧ fa_ready (vm_pf st') n ∧
    ∀ k, 0 ≤ k < Z.of_nat pages → is_Some (translate (vm_mem st') pdir (begin + 4096 * k)).
Proof.
  intros HO Hty H0 Hal Hhi Hus Hr. unfold enableSpace.
  rewrite FLOOR_4K, (u32_id (begin + 4096 * Z.of_nat pages)), CEIL_4K by (unfold is_u32; lia).
  replace (begin / 4096 * 4096) with begin by (Z.div_mod_to_equations; lia).
  replace ((begin + 4096 * Z.of_nat pages + 4095) / 4096 * 4096 - begin) with (Z.of_nat pages * 4096) by (Z.div_mod_to_equations; lia).
  rewrite u32_id, Z.div_mul, s32_id, Nat2Z.id by (unfold is_u32, is_s32; lia).
  pose (P := λ (j : Z) (st' : vm A), Own st' ∧ Kept st st' ∧ fa_ready (vm_pf st') (2 * Z.to_nat (Z.of_nat pages - j) + n) ∧
    ∀ k, 0 ≤ k < j → is_Some (translate (vm_mem st') pdir (begin + 4096 * k))).
  destruct (for_loop_res_ind P pages 0 (λ i st, enable_page st (u32 (begin + i * 4096)) pdir type) st)
    as (st' & E & HO' & HK' & Hr' & Hm').
  - split_and!; [done|apply Kept_refl| |lia]. by rewrite Z.sub_0_r, Nat2Z.id.
  - intros j st1 Hj (HO1 & HK1 & Hr1 & Hm1). rewrite u32_id by (unfold is_u32; lia).
    destruct (enable_page_own st1 (begin + j * 4096) type (2 * Z.to_nat (Z.of_nat pages - (j + 1)) + n) HO1)
      as (st2 & E2 & HO2 & HK2 & Hr2 & Hm2); [apply Hus; lia|done| |].
    { replace (S (S _)) with (2 * Z.to_nat (Z.of_nat pages - j) + n)%nat by lia. done. }
    exists st2. split; [done|]. split_and!; [done|by eapply Kept_trans|done|].
    intros k Hk. destruct (decide (k = j)) as [->|]; [by replace (4096 * j) with (j * 4096) by lia|].
    destruct (Hm1 k ltac:(lia)) as [x Hx]. exists x. apply (kp_map _ _ HK2); [apply Hus; lia|done].
  - exists st'. rewrite E. rewrite Z.add_0_l in Hm', Hr'. split_and!; try done. eapply fa_ready_le; [|exact Hr']. lia.
Qed.

(** ** Copying *)

(** The entries and the byte behind [va] in the space [src] are memory in use elsewhere. *)
Definition held m src va : Prop :=
  (∀ a, src + 4 * (va / 4194304) ≤ a < src + 4 * (va / 4194304) + 4 → U a) ∧
  (∀ a, let e := caddrEntry (dir_entry m src va) + 4 * (va `mod` 4194304 / 4096) in e ≤ a < e + 4 → U a) ∧
  ∃ x, translate m src va = Some x ∧ U x.

Lemma held_same m m' src va : held m src va → (∀ a, U a → load8 m' a = load8 m a) →
  translate m' src va = translate m src va ∧ vbyte m' src va = vbyte m src va ∧ held m' src va.
Proof.
  intros (H1 & H2 & x & Hx & HUx) Hm.
  assert (Hw : ∀ b, (∀ a, b ≤ a < b + 4 → U a) → load32 m' b = load32 m b).
  { intros b Hb. unfold load32. by rewrite !Hm by (apply Hb; lia). }
  assert (Ed : dir_entry m' src va = dir_entry m src va) by (apply Hw, H1).
  assert (Et : translate m' src va = translate m src va).
  { apply translate_ext; [done|]. intros _. unfold table_entry. rewrite Ed. by apply Hw. }
  split_and!; [done| |split_and!; [done|by rewrite Ed|by exists x; rewrite Et]].
  unfold vbyte. rewrite Et, Hx. cbn. by rewrite Hm.
Qed.

(** A write to a mapped address of the new space. *)
Lemma write_own st va x v : Own st → user va → translate (vm_mem st) pdir va = Some x →
  let m' := store8 (vm_mem st) x v in
  Own (mkVM m' (vm_pf st)) ∧ (∀ va', is_va va' → translate m' pdir va' = translate (vm_mem st) pdir va') ∧
  (∀ a, U a → load8 m' a = load8 (vm_mem st) a) ∧
  (∀ va', user va' → vbyte m' pdir va' = if decide (va' = va) then Some (u8 v) else vbyte (vm_mem st) pdir va').
Proof.
  intros HO Hu Hx m'. pose proof (ow_space _ HO) as HS. destruct (ow_frame _ HO va x Hu Hx) as (F1 & F2 & F3 & F4).
  destruct (translate_page _ _ _ HS Hx) as [Ex Hxr].
  assert (Hin : x / 4096 * 4096 ≤ x < x / 4096 * 4096 + 4096) by (Z.div_mod_to_equations; lia).
  assert (Hpa : (x / 4096 * 4096) `mod` 4096 = 0) by apply Z_mod_mult.
  assert (Hdir : ∀ j, 0 ≤ j < 1024 → dirE m' pdir j = dirE (vm_mem st) pdir j).
  { intros j Hj. apply load32_store8_ne, (other_page _ pdir j Hpa (sp_aligned _ _ HS) F3 Hj); done. }
  assert (Htr : ∀ va', is_va va' → translate m' pdir va' = translate (vm_mem st) pdir va').
  { intros va' Hv. pose proof (slot_range va' Hv) as Hs. assert (Ed := Hdir _ Hs). apply translate_ext; [exact Ed|].
    intros He. unfold table_entry. unfold dir_entry in He |- *. rewrite Ed.
    apply load32_store8_ne, (other_page (x / 4096 * 4096) (caddrEntry (dirE (vm_mem st) pdir (va' / 4194304)))); try done.
    - by apply table_aligned.
    - intros E. by apply (F4 _ Hs He).
    - apply idx_range. }
  assert (HU : ∀ a, U a → load8 m' a = load8 (vm_mem st) a).
  { intros a Ha. unfold m'. rewrite load8_store8, decide_False; [done|]. intros ->. by apply (F2 x). }
  split_and!; [|done|done|].
  - split; cbn [vm_mem vm_pf].
    + split; cbn [vm_mem vm_pf].
      * apply bytes_ok_store8, HS.
      * apply HS.
      * exact (sp_used _ _ HS).
      * intros j Hj. rewrite Hdir by done. by apply (sp_table _ _ HS).
      * intros j k Hj Hk. rewrite !Hdir by done. by apply (sp_inj _ _ HS).
    + exact (ow_U _ HO).
    + exact (ow_dir _ HO).
    + intros j a Hj HK. rewrite Hdir by done. by apply (ow_table _ HO).
    + intros v' x' Hv'. rewrite Htr by apply Hv'. intros Hx'. destruct (ow_frame _ HO v' x' Hv' Hx') as (G1 & G2 & G3 & G4).
      split_and!; [done|done|done|]. intros j Hj. rewrite Hdir by done. by apply G4.
    + intros v1 v2 x1 x2 Hv1 Hv2. rewrite !Htr by (apply Hv1 || apply Hv2). by apply (ow_inj _ HO).
  - intros va' Hv'. unfold vbyte. rewrite Htr by apply Hv'. case_decide as E.
    + subst va'. rewrite Hx. cbn. unfold m'. by rewrite load8_store8, decide_True.
    + destruct (translate (vm_mem st) pdir va') as [x'|] eqn:Hx'; [|done]. cbn. unfold m'.
      rewrite load8_store8, decide_False; [done|]. intros ->. apply E.
      assert (Epg := ow_inj _ HO va' va x x Hv' Hu Hx' Hx eq_refl).
      destruct (translate_page _ _ _ HS Hx') as [Ex' _]. Z.div_mod_to_equations; lia.
Qed.

(** One page. *)
Lemma copy_page_spec st src addr p : Own st → addr `mod` 4096 = 0 → (∀ i, 0 ≤ i < 4096 → user (addr + i)) →
  translate (vm_mem st) pdir addr = Some p → (∀ i, 0 ≤ i < 4096 → held (vm_mem st) src (addr + i)) →
  ∃ m', copy_page (vm_mem st) src p addr = Ok m' ∧ Own (mkVM m' (vm_pf st)) ∧
    (∀ va, is_va va → translate m' pdir va = translate (vm_mem st) pdir va) ∧
    (∀ a, U a → load8 m' a = load8 (vm_mem st) a) ∧
    (∀ va, user va → vbyte m' pdir va =
       if decide (addr ≤ va < addr + 4096) then vbyte (vm_mem st) src va else vbyte (vm_mem st) pdir va).
Proof.
  intros HO Hal Hus Hp Hh. pose proof (ow_space _ HO) as HS. destruct (translate_page _ _ _ HS Hp) as [Ep Hpr].
  assert (Haddr : 0 ≤ addr ∧ addr + 4095 < 4294967296) by (destruct (Hus 0 ltac:(lia)) as [? _], (Hus 4095 ltac:(lia)) as [? _]; unfold is_va in *; lia).
  assert (Hpage : ∀ i, 0 ≤ i < 4096 → translate (vm_mem st) pdir (addr + i) = Some (p + i)).
  { intros i Hi. unfold translate, table_entry, dir_entry in Hp |- *.
    replace ((addr + i) / 4194304) with (addr / 4194304) by (Z.div_mod_to_equations; lia).
    replace ((addr + i) `mod` 4194304 / 4096) with (addr `mod` 4194304 / 4096) by (Z.div_mod_to_equations; lia).
    destruct (isEntryExist _); [|done]. destruct (isEntryExist _); [|done]. injection Hp as Hp. f_equal.
    replace ((addr + i) `mod` 4096) with i by (Z.div_mod_to_equations; lia). lia. }
  pose (P := λ (j : Z) m, Own (mkVM m (vm_pf st)) ∧
    (∀ va, is_va va → translate m pdir va = translate (vm_mem st) pdir va) ∧
    (∀ a, U a → load8 m a = load8 (vm_mem st) a) ∧
    (∀ va, user va → vbyte m pdir va =
       if decide (addr ≤ va < addr + j) then vbyte (vm_mem st) src va else vbyte (vm_mem st) pdir va)).
  destruct (for_loop_res_ind P (Z.to_nat 4096) 0 (λ i m, match translate m src (u32 (addr + i)) with
    | Some pa => Ok (store8 m (u32 (p + i)) (load8 m pa)) | None => Fault end) (vm_mem st)) as (m' & E & HP).
  - split_and!; [by destruct st|done|done|]. intros va Hv. by rewrite decide_False by lia.
  - intros j m Hj (HOm & Htm & HUm & Hbm). rewrite u32_id by (unfold is_u32; lia).
    destruct (held_same (vm_mem st) m src (addr + j) (Hh j ltac:(lia)) HUm) as (Et & Eb & _).
    destruct (Hh j ltac:(lia)) as (_ & _ & x & Hx & HUx). rewrite Et, Hx.
    assert (Hpj : translate m pdir (addr + j) = Some (p + j)) by (rewrite Htm by (apply Hus; lia); apply Hpage; lia).
    assert (Hr : 0 ≤ p + j < 4294967296) by (apply (translate_page (mkVM m (vm_pf st)) (addr + j)); [apply HOm|exact Hpj]).
    rewrite (u32_id (p + j)) by (unfold is_u32; lia).
    destruct (write_own (mkVM m (vm_pf st)) (addr + j) (p + j) (load8 m x) HOm (Hus j ltac:(lia)) Hpj) as (HO' & Ht' & HU' & Hb').
    cbn [vm_mem vm_pf] in *. eexists. split; [reflexivity|]. split_and!; [exact HO'| | |].
    + intros va Hv. rewrite Ht' by done. by apply Htm.
    + intros a Ha. rewrite HU' by done. by apply HUm.
    + intros va Hv. rewrite Hb', Hbm by done. destruct (decide (va = addr + j)) as [->|].
      * rewrite decide_True by lia. unfold vbyte. rewrite Hx. cbn. rewrite HUm by done. f_equal.
        apply u8_id, load8_range, HS.
      * by repeat case_decide; (done || lia).
  - exists m'. unfold copy_page. rewrite E. split; [done|]. exact HP.
Qed.

(** The pages of a region. *)
Lemma copy_region_spec src last : pdir ≠ 0 → ∀ (n : nat) fuel st addr, Own st → 0 < addr → addr `mod` 4096 = 0 →
  addr + 4096 * Z.of_nat n + 4095 < 4294967296 → last = addr + 4096 * Z.of_nat n - 4096 → (n < fuel)%nat →
  (∀ va, addr ≤ va < addr + 4096 * Z.of_nat n → user va ∧ held (vm_mem st) src va) →
  (∀ k, 0 ≤ k < Z.of_nat n → is_Some (translate (vm_mem st) pdir (addr + 4096 * k))) →
  ∃ m', copy_region fuel (vm_mem st) src pdir addr last = Ok m' ∧ Own (mkVM m' (vm_pf st)) ∧
    (∀ a, U a → load8 m' a = load8 (vm_mem st) a) ∧
    (∀ va, user va → vbyte m' pdir va =
       if decide (addr ≤ va < addr + 4096 * Z.of_nat n) then vbyte (vm_mem st) src va else vbyte (vm_mem st) pdir va).
Proof.
  intros Hnz n. induction n as [|n IH]; intros fuel st addr HO Ha0 Hal Hhi Hl Hf Hus Hm; (destruct fuel as [|fuel]; [lia|]); cbn [copy_region].
  { rewrite (proj2 (Z.ltb_lt _ _)) by lia. exists (vm_mem st). split_and!; [done|by destruct st|done|].
    intros va Hv. by rewrite decide_False by lia. }
  rewrite (proj2 (Z.ltb_ge _ _)) by lia. destruct (Hm 0 ltac:(lia)) as [p Hp]. rewrite Z.mul_0_r, Z.add_0_r in Hp.
  rewrite (vir2phy_spec st pdir src addr (ow_space _ HO) Hnz), Hp by (apply Hus; lia). change (default 0 (Some p)) with p.
  destruct (copy_page_spec st src addr p HO Hal) as (m1 & -> & HO1 & Ht1 & HU1 & Hb1); [| done| |].
  { intros i Hi. apply Hus. lia. } { intros i Hi. apply Hus. lia. }
  cbn [mbind res_bind]. rewrite u32_id by (unfold is_u32; lia).
  destruct (IH fuel (mkVM m1 (vm_pf st)) (addr + 4096) HO1) as (m2 & E & HO2 & HU2 & Hb2); cbn [vm_mem vm_pf] in *; try lia.
  - rewrite <- Hal. Z.div_mod_to_equations; lia.
  - intros va Hv. split; [apply Hus; lia|]. eapply held_same; [apply Hus; lia|exact HU1].
  - intros k Hk. replace (addr + 4096 + 4096 * k) with (addr + 4096 * (k + 1)) by lia.
    rewrite Ht1 by (apply Hus; lia). apply Hm. lia.
  - exists m2. split_and!; [done|done|intros a Ha; by rewrite HU2, HU1|].
    intros va Hv. rewrite Hb2 by done. case_decide as E1.
    + rewrite decide_True by lia. eapply held_same; [apply Hus; lia|exact HU1].
    + rewrite Hb1 by done. by repeat case_decide; (done || lia).
Qed.

(** ** The regions *)

Context (m0 : mem) (src : Z).

(** The new process sees at [va] what the running process sees there. *)
Definition copied m va : Prop := user va ∧ ∃ b, vbyte m pdir va = Some b ∧ vbyte m0 src va = Some b.

(** Whole pages, mapped in the running process, outside of the slots of the kernel. *)
Definition in_region (r : mm_region) va : Prop := r_begin r ≤ va < r_begin r + r_size r.
Definition region_ok (r : mm_region) : Prop :=
  0 < r_begin r ∧ r_begin r `mod` 4096 = 0 ∧ 0 ≤ r_size r ∧ r_size r `mod` 4096 = 0 ∧
  r_begin r + r_size r + 4095 < 4294967296 ∧ ∀ va, in_region r va → user va ∧ held m0 src va.

Definition region_pages (r : mm_region) : nat := Z.to_nat (r_size r / 4096).

(** Two frames for every page. *)
Definition region_frames (rs : list mm_region) : nat := sum_list ((λ r, 2 * region_pages r)%nat <$> rs).

Definition same_U m : Prop := ∀ a, U a → load8 m a = load8 m0 a.

Lemma Kept_copied st st' va : Kept st st' → copied (vm_mem st) va → copied (vm_mem st') va.
Proof.
  intros HK [Hv (b & Hb & Hb')]. split; [done|]. exists b. split; [|done]. unfold vbyte in *.
  destruct (translate (vm_mem st) pdir va) as [x|] eqn:Ex; [|done].
  destruct (kp_map _ _ HK va x Hv Ex) as [-> Ev]. cbn in *. by rewrite Ev.
Qed.

(** One region: its pages are mapped and copied, and what was copied before stays. *)
Lemma clone_region_spec fuel st r type n : pdir ≠ 0 → Own st → same_U (vm_mem st) → region_ok r → Z.odd type = true →
  (region_pages r < fuel)%nat → fa_ready (vm_pf st) (2 * region_pages r + n) →
  ∃ st1 m, enableSpace st (r_begin r) (r_size r) pdir type = Ok st1 ∧
    copy_region fuel (vm_mem st1) src pdir (r_begin r) (u32 (u32 (r_begin r + r_size r) - 4096)) = Ok m ∧
    Own (mkVM m (vm_pf st1)) ∧ same_U m ∧ fa_ready (vm_pf st1) n ∧
    (∀ a, fa_used (vm_pf st) a → fa_used (vm_pf st1) a) ∧
    (∀ va, copied (vm_mem st) va ∨ in_region r va → copied m va).
Proof.
  intros Hnz HO HU0 (Hb0 & Hal & Hs0 & Hsm & Hhi & Hus) Hty Hf Hr. unfold region_pages, in_region in *.
  assert (Es : r_size r = 4096 * Z.of_nat (Z.to_nat (r_size r / 4096))) by (Z.div_mod_to_equations; lia).
  set (N := Z.to_nat (r_size r / 4096)) in *. rewrite Es in *. clearbody N. clear Es.
  destruct (enableSpace_own st (r_begin r) N type n HO Hty) as (st1 & E1 & HO1 & HK1 & Hr1 & Hm1); try done; try lia.
  { intros va Hva. by apply Hus. }
  assert (HU1 : same_U (vm_mem st1)) by (intros a Ha; rewrite (kp_U _ _ HK1) by done; by apply HU0).
  destruct (copy_region_spec src (r_begin r + 4096 * Z.of_nat N - 4096) Hnz N fuel st1 (r_begin r) HO1)
    as (m & E2 & HO2 & HU2 & Hb2); try done; try lia.
  { intros va Hva. split; [by apply Hus|]. eapply held_same; [by apply Hus|exact HU1]. }
  exists st1, m. rewrite (u32_id (r_begin r + _)) by (unfold is_u32; lia).
  rewrite u32_id by (unfold is_u32; Z.div_mod_to_equations; lia).
  split_and!; try done; [intros a Ha; rewrite HU2 by done; by apply HU1|apply HK1|].
  intros va Hva. assert (Hv : user va) by (destruct Hva as [[Hv _]|Hva]; [done|by apply Hus]). split; [done|].
  rewrite Hb2 by done. case_decide as Hin.
  - destruct (Hus va Hin) as [_ Hh]. destruct (held_same m0 (vm_mem st1) src va Hh HU1) as (_ & Eb & _). rewrite Eb.
    destruct Hh as (_ & _ & x & Hx & _). unfold vbyte. rewrite Hx. by eexists.
  - destruct Hva as [Hc|Hva]; [|done]. apply (Kept_copied st st1 va HK1 Hc).
Qed.

Lemma clone_regions_spec fuel : pdir ≠ 0 → ∀ rs st dm n, Own st → same_U (vm_mem st) → cr3 dm = pdir →
  Forall region_ok rs → Forall (λ r, (region_pages r < fuel)%nat) rs → fa_ready (vm_pf st) (region_frames rs + n) →
  ∃ st', clone_regions fuel st src dm rs = Ok (mkMM pdir (regions dm ++ rs), st') ∧ Own st' ∧ same_U (vm_mem st') ∧
    fa_ready (vm_pf st') n ∧ (∀ a, fa_used (vm_pf st) a → fa_used (vm_pf st') a) ∧
    (∀ va, copied (vm_mem st) va ∨ (∃ r, r ∈ rs ∧ in_region r va) → copied (vm_mem st') va).
Proof.
  intros Hnz rs. induction rs as [|r rs IH]; intros st dm n HO HU0 Ec Hok Hf Hr; cbn [clone_regions].
  { exists st. rewrite app_nil_r. destruct dm as [c l]; cbn in *; subst c. split_and!; try done.
    intros va [Hc|(r & Hr' & _)]; [done|]. by apply elem_of_nil in Hr'. }
  apply Forall_cons in Hok as [Hok1 Hok]. apply Forall_cons in Hf as [Hf1 Hf].
  assert (Hr' : fa_ready (vm_pf st) (2 * region_pages r + (region_frames rs + n))).
  { eapply fa_ready_le; [|exact Hr]. unfold region_frames. cbn. lia. }
  assert (Hcl : ∀ type, Z.odd type = true → ∃ st1 m, enableSpace st (r_begin r) (r_size r) pdir type = Ok st1 ∧
    copy_region fuel (vm_mem st1) src pdir (r_begin r) (u32 (u32 (r_begin r + r_size r) - 4096)) = Ok m ∧
    Own (mkVM m (vm_pf st1)) ∧ same_U m ∧ fa_ready (vm_pf st1) (region_frames rs + n) ∧
    (∀ a, fa_used (vm_pf st) a → fa_used (vm_pf st1) a) ∧ (∀ va, copied (vm_mem st) va ∨ in_region r va → copied m va)).
  { intros type Hty. by apply clone_region_spec. }
  change (cr3 (add_region_copy dm r)) with (cr3 dm). rewrite Ec.
  assert (Hstep : ∃ st1 m, (if negb (Z.land (r_flags r) SYSTEM =? 0) then enableSpace st (r_begin r) (r_size r) pdir systempage
      else enableSpace st (r_begin r) (r_size r) pdir userpage) = Ok st1 ∧
    copy_region fuel (vm_mem st1) src pdir (r_begin r) (u32 (u32 (r_begin r + r_size r) - 4096)) = Ok m ∧
    Own (mkVM m (vm_pf st1)) ∧ same_U m ∧ fa_ready (vm_pf st1) (region_frames rs + n) ∧
    (∀ a, fa_used (vm_pf st) a → fa_used (vm_pf st1) a) ∧ (∀ va, copied (vm_mem st) va ∨ in_region r va → copied m va))
    by (destruct (negb _); by apply Hcl).
  destruct Hstep as (st1 & m & -> & E2 & HO1 & HU1 & Hr1 & Hu1 & Hc1). cbn [mbind res_bind]. rewrite E2. cbn [mbind res_bind].
  destruct (IH (mkVM m (vm_pf st1)) (add_region_copy dm r) n HO1 HU1 Ec Hok Hf Hr1) as (st' & E & HO' & HU' & Hr2 & Hu2 & Hc2).
  exists st'. rewrite E. cbn [add_region_copy regions vm_pf vm_mem] in *. rewrite <- app_assoc. split_and!; try done; [auto|].
  intros va [Hc|(r' & [->|Hin]%elem_of_cons & Hva)]; apply Hc2; [left; apply Hc1; by left|left; apply Hc1; by right|].
  right. by exists r'.
Qed.

End own.

(** ** [clone_mm] *)

Lemma copyKernelDir_byte m kPdir mem_size pdir a : 0 ≤ mem_size < 3758096384 → ¬ (pdir ≤ a < pdir + 4096) →
  load8 (copyKernelDir m kPdir mem_size pdir) a = load8 m a.
Proof.
  intros Hsz Ha. unfold copyKernelDir. cbv zeta.
  assert (Hnr : 0 ≤ mem_size / dir_entrySize < 896) by (unfold dir_entrySize; Z.div_mod_to_equations; lia).
  change (3758096384 / dir_entrySize) with 896. change (3760193536 / dir_entrySize) with 896.
  change (Z.to_nat (896 - 896 + 1)) with 1%nat.
  assert (Hl : ∀ (n : nat) lo u, 0 ≤ lo → lo + Z.of_nat n ≤ 1024 →
    load8 (for_loop n lo (λ i m, store32 m (pdir + 4 * i) (load32 m (kPdir + 4 * i))) u) a = load8 u a).
  { intros n lo u H0 H1. apply (only_changes_loop n lo _ u pdir 4096); [|done].
    intros j t Hj. apply only_changes_store32; lia. }
  rewrite !Hl by lia. by apply disableAllEntry_byte.
Qed.

Section clone.
Context {A : Type} `{!FrameAlloc A}.
Implicit Types (st : vm A) (m : mem).

(** The slots that every address space shares with the kernel. *)
Definition kslot (mem_size i : Z) : Prop := i < mem_size / dir_entrySize ∨ i = 896.

(** The kernel's directory and its tables are allocated frames, and address 0 is not
    free memory. *)
Record Kernel st (kPdir mem_size : Z) : Prop := {
  ke_size : 0 ≤ mem_size < 3758096384;
  ke_aligned : kPdir `mod` 4096 = 0;
  ke_used : page_used st kPdir;
  ke_zero : fa_used (vm_pf st) 0;
  ke_table : ∀ i, 0 ≤ i < 1024 → kslot mem_size i → isEntryExist (dirE (vm_mem st) kPdir i) = true →
    page_used st (caddrEntry (dirE (vm_mem st) kPdir i));
  ke_inj : ∀ i j, 0 ≤ i < 1024 → 0 ≤ j < 1024 → kslot mem_size i → kslot mem_size j →
    isEntryExist (dirE (vm_mem st) kPdir i) = true → isEntryExist (dirE (vm_mem st) kPdir j) = true →
    caddrEntry (dirE (vm_mem st) kPdir i) = caddrEntry (dirE (vm_mem st) kPdir j) → i = j
}.

(** A directory with the slots of the kernel owns nothing else. *)
Lemma new_dir_own st pf' kPdir mem_size p : Kernel st kPdir mem_size → bytes_ok (vm_mem st) → p `mod` 4096 = 0 →
  (∀ a, fa_used pf' a ↔ fa_used (vm_pf st) a ∨ p ≤ a < p + 4096) → (∀ a, p ≤ a < p + 4096 → ¬ fa_used (vm_pf st) a) →
  Own p (kslot mem_size) (fa_used (vm_pf st)) (mkVM (copyKernelDir (vm_mem st) kPdir mem_size p) pf').
Proof.
  intros [Hsz Hka Hku _ Hkt Hki] Hby Hal Hus Hfr.
  assert (Hne : p ≠ kPdir) by (by apply (fresh_ne st)).
  assert (Hd : kPdir + 4096 ≤ p ∨ p + 4096 ≤ kPdir) by (apply page_disjoint; [done|done|congruence]).
  destruct (copyKernelDir_spec (vm_mem st) kPdir mem_size p Hby Hd Hsz) as (He & _ & Hb).
  set (m1 := copyKernelDir (vm_mem st) kPdir mem_size p) in *. clearbody m1.
  assert (Hex : ∀ i, 0 ≤ i < 1024 → isEntryExist (dirE m1 p i) = true →
    kslot mem_size i ∧ dirE m1 p i = dirE (vm_mem st) kPdir i).
  { intros i Hi. rewrite He by done. case_decide; [done|]. by cbn. }
  assert (Hno : ∀ va, user (kslot mem_size) va → translate m1 p va = None).
  { intros va [Hva HK]. unfold translate, dir_entry. destruct (isEntryExist (dirE m1 p (va / 4194304))) eqn:E; [|done].
    destruct (Hex _ (slot_range va Hva) E) as [Hk _]. by destruct HK. }
  split; cbn [vm_mem vm_pf].
  - split; cbn [vm_mem vm_pf]; [done|done|intros a Ha; apply Hus; by right| |].
    + intros i Hi Hx. destruct (Hex i Hi Hx) as [Hk E]. rewrite E in *. split; [intros a Ha; apply Hus; left; by apply (Hkt i)|].
      intros Ep. apply (fresh_ne st p p); [done|rewrite <- Ep; by apply (Hkt i)|done].
    + intros i j Hi Hj Hx Hy. destruct (Hex i Hi Hx) as [Hk1 E1], (Hex j Hj Hy) as [Hk2 E2]. rewrite E1, E2 in *. by apply Hki.
  - intros a Ha. apply Hus. by left.
  - done.
  - intros i a Hi HK Hx. by destruct (Hex i Hi Hx).
  - intros va x Hv. by rewrite Hno.
  - intros va1 va2 x1 x2 Hv1 _. by rewrite Hno.
Qed.

(** Pages of an address space whose frames are allocated. *)
Lemma held_space st src va x : Space st src → is_va va → translate (vm_mem st) src va = Some x → fa_used (vm_pf st) x →
  held (fa_used (vm_pf st)) (vm_mem st) src va.
Proof.
  intros HS Hva Hx Hu. pose proof (slot_range va Hva) as Hs. pose proof (idx_range va) as Hk. split_and!.
  - intros a Ha. apply (sp_used _ _ HS). lia.
  - intros a e Ha. unfold translate in Hx. destruct (isEntryExist (dir_entry (vm_mem st) src va)) eqn:E; [|done].
    destruct (sp_table _ _ HS _ Hs E) as [Ht _]. apply Ht. unfold e, dir_entry in Ha. lia.
  - by exists x.
Qed.

(** Whole pages outside of the kernel's slots, mapped to allocated frames. *)
Definition region_mapped st mem_size src (r : mm_region) : Prop :=
  0 < r_begin r ∧ r_begin r `mod` 4096 = 0 ∧ 0 ≤ r_size r ∧ r_size r `mod` 4096 = 0 ∧
  r_begin r + r_size r + 4095 < 4294967296 ∧
  ∀ va, in_region r va → ¬ kslot mem_size (va / 4194304) ∧ ∃ x, translate (vm_mem st) src va = Some x ∧ fa_used (vm_pf st) x.

(** The result of [clone_mm]. *)
Record Cloned st st' mem_size src dir (rs : list mm_region) : Prop := {
  cl_space : Space st' dir;
  cl_used : ∀ a, fa_used (vm_pf st) a → fa_used (vm_pf st') a ∧ load8 (vm_mem st') a = load8 (vm_mem st) a;
  cl_copy : ∀ r va, r ∈ rs → in_region r va →
    ∃ b, vbyte (vm_mem st') dir va = Some b ∧ vbyte (vm_mem st) src va = Some b ∧ vbyte (vm_mem st') src va = Some b;
  cl_private : ∀ va x, user (kslot mem_size) va → translate (vm_mem st') dir va = Some x →
    fa_used (vm_pf st') x ∧ ¬ fa_used (vm_pf st) x
}.

Lemma clone_mm_spec fuel st kPdir mem_size src_mm dest_mm n : Kernel st kPdir mem_size → Space st (cr3 src_mm) →
  Forall (region_mapped st mem_size (cr3 src_mm)) (regions src_mm) →
  Forall (λ r, (region_pages r < fuel)%nat) (regions src_mm) →
  fa_ready (vm_pf st) (S (region_frames (regions src_mm) + n)) →
  ∃ dir st', clone_mm fuel st kPdir mem_size (cr3 src_mm) src_mm dest_mm = Ok (mkMM dir (regions dest_mm ++ regions src_mm), st') ∧
    fa_ready (vm_pf st') n ∧ Cloned st st' mem_size (cr3 src_mm) dir (regions src_mm).
Proof.
  intros HKe HS Hok Hf Hr. unfold clone_mm.
  destruct (fa_alloc_spec _ _ Hr) as (p & pf' & -> & Hr' & Hal & H0 & Hhi & Hus & Hfr). cbn [mbind res_bind].
  pose proof (new_dir_own st pf' kPdir mem_size p HKe (sp_bytes _ _ HS) Hal Hus Hfr) as HO.
  assert (Hnz : p ≠ 0) by (intros ->; apply (Hfr 0); [lia|apply (ke_zero _ _ _ HKe)]).
  assert (Hok' : Forall (region_ok (kslot mem_size) (fa_used (vm_pf st)) (vm_mem st) (cr3 src_mm)) (regions src_mm)).
  { eapply Forall_impl; [exact Hok|]. intros r (R1 & R2 & R3 & R4 & R5 & R6). split_and!; try done.
    intros va Hva. destruct (R6 va Hva) as (HK & x & Hx & Hux).
    assert (Hv : is_va va) by (unfold is_va, in_region in *; lia). split; [done|]. by eapply held_space. }
  assert (HU0 : same_U (fa_used (vm_pf st)) (vm_mem st) (copyKernelDir (vm_mem st) kPdir mem_size p)).
  { intros a Ha. apply copyKernelDir_byte; [apply (ke_size _ _ _ HKe)|]. intros Hin. by apply (Hfr a Hin). }
  destruct (clone_regions_spec p (kslot mem_size) (fa_used (vm_pf st)) (vm_mem st) (cr3 src_mm) fuel Hnz (regions src_mm) _
    (mkMM p (regions dest_mm)) n HO HU0 eq_refl Hok' Hf Hr') as (st' & E & HO' & HU' & Hr2 & Hu2 & Hc2).
  exists p, st'. split; [exact E|]. split; [done|]. split.
  - apply HO'.
  - intros a Ha. split; [by apply (ow_U _ _ _ _ HO')|by apply HU'].
  - intros r va Hin Hva. destruct (Hc2 va) as [Hv (b & Hb & Hb')]; [right; by exists r|]. exists b. split_and!; [done|done|].
    rewrite Forall_forall in Hok'. destruct (Hok' r Hin) as (_ & _ & _ & _ & _ & R6).
    destruct (held_same _ _ (vm_mem st') _ va (proj2 (R6 va Hva)) HU') as (_ & -> & _). done.
  - intros va x Hv Hx. destruct (ow_frame _ _ _ _ HO' va x Hv Hx) as (F1 & F2 & _). split; [|by apply F2].
    apply F1. Z.div_mod_to_equations; lia.
Qed.

(** Steps that leave all memory in use alone keep address spaces and copies. *)
Lemma used_word st st' : (∀ a, fa_used (vm_pf st) a → fa_used (vm_pf st') a ∧ load8 (vm_mem st') a = load8 (vm_mem st) a) →
  ∀ q k, page_used st q → 0 ≤ k < 1024 → load32 (vm_mem st') (q + 4 * k) = load32 (vm_mem st) (q + 4 * k).
Proof.
  intros Hk q k Hq Hk'. assert (Hb8 : ∀ j, 0 ≤ j < 4 → load8 (vm_mem st') (q + 4 * k + j) = load8 (vm_mem st) (q + 4 * k + j))
    by (intros j Hj; apply Hk, Hq; lia).
  unfold load32. rewrite <- (Z.add_0_r (q + 4 * k)) at 1 5. by rewrite !Hb8, Z.add_0_r by lia.
Qed.

Lemma Space_keep st st' dir : Space st dir → bytes_ok (vm_mem st') →
  (∀ a, fa_used (vm_pf st) a → fa_used (vm_pf st') a ∧ load8 (vm_mem st') a = load8 (vm_mem st) a) →
  Space st' dir ∧ ∀ va, is_va va → translate (vm_mem st') dir va = translate (vm_mem st) dir va.
Proof.
  intros HS Hb Hk.
  pose proof (used_word st st' Hk) as Hw.
  assert (Hd : ∀ i, 0 ≤ i < 1024 → dirE (vm_mem st') dir i = dirE (vm_mem st) dir i) by (intros i Hi; apply Hw; [apply HS|done]).
  assert (Hu : ∀ q, page_used st q → page_used st' q) by (intros q Hq a Ha; by apply Hk, Hq).
  split.
  - split; [done|apply HS|apply Hu, HS| |].
    + intros i Hi. rewrite Hd by done. intros Hx. destruct (sp_table _ _ HS i Hi Hx). split; [by apply Hu|done].
    + intros i j Hi Hj. rewrite !Hd by done. by apply (sp_inj _ _ HS).
  - intros va Hva. pose proof (slot_range va Hva) as Hs. apply translate_ext; [by apply Hd|]. intros Hx.
    unfold table_entry, dir_entry in *. rewrite Hd by done. apply Hw; [by apply (sp_table _ _ HS)|apply idx_range].
Qed.

Lemma Cloned_keep st st1 st2 mem_size src dir rs : Space st src → Forall (region_mapped st mem_size src) rs →
  Cloned st st1 mem_size src dir rs → bytes_ok (vm_mem st2) →
  (∀ a, fa_used (vm_pf st1) a → fa_used (vm_pf st2) a ∧ load8 (vm_mem st2) a = load8 (vm_mem st1) a) →
  Cloned st st2 mem_size src dir rs.
Proof.
  intros HS Hok [Hsp Hus Hcp Hpv] Hb Hk. destruct (Space_keep st1 st2 dir Hsp Hb Hk) as [Hsp' Htr].
  assert (Hu : ∀ a, fa_used (vm_pf st) a → fa_used (vm_pf st2) a ∧ load8 (vm_mem st2) a = load8 (vm_mem st) a).
  { intros a Ha. destruct (Hus a Ha) as [H1 E1]. destruct (Hk a H1) as [H2 E2]. split; [done|congruence]. }
  split; [done|done| |].
  - intros r va Hin Hva. rewrite Forall_forall in Hok. destruct (Hok r Hin) as (R1 & R2 & R3 & R4 & R5 & R6).
    assert (Hv : is_va va) by (unfold is_va, in_region in *; lia). destruct (R6 va Hva) as (HK & y & Hy & Huy).
    destruct (Hcp r va Hin Hva) as (b & Hb1 & Hb2 & _). exists b.
    destruct (held_same (fa_used (vm_pf st)) (vm_mem st) (vm_mem st2) src va) as (_ & -> & _);
      [by eapply held_space|intros a Ha; by apply Hu|].
    split_and!; [|done|done]. unfold vbyte in Hb1 |- *. rewrite Htr by done.
    destruct (translate (vm_mem st1) dir va) as [x|] eqn:Ex; [|done]. destruct (Hpv va x (conj Hv HK) Ex) as [Hx _].
    cbn in *. by rewrite (proj2 (Hk x Hx)).
  - intros va x Hv. rewrite Htr by apply Hv. intros Hx. destruct (Hpv va x Hv Hx) as [H1 H2]. split; [by apply Hk|done].
Qed.

(** C15: [clone_mm] copies an address space. When the regions of the running process are
    whole pages outside of the kernel's part, mapped to allocated frames, and there are
    frames for the copy: the new process has the same list of regions, sees in each
    of them the bytes the running process sees there, and its frames are its own
    (they were free before). The running process keeps its view, and no byte of memory
    that was in use has changed. *)
Theorem clone_mm_correct fuel st kPdir mem_size src_mm dest_mm n : Kernel st kPdir mem_size → Space st (cr3 src_mm) →
  Forall (region_mapped st mem_size (cr3 src_mm)) (regions src_mm) →
  Forall (λ r, (region_pages r < fuel)%nat) (regions src_mm) →
  fa_ready (vm_pf st) (S (region_frames (regions src_mm) + n)) →
  ∃ dir st', clone_mm fuel st kPdir mem_size (cr3 src_mm) src_mm dest_mm = Ok (mkMM dir (regions dest_mm ++ regions src_mm), st') ∧
    fa_ready (vm_pf st') n ∧ Cloned st st' mem_size (cr3 src_mm) dir (regions src_mm).
Proof. apply clone_mm_spec. Qed.

End clone.
(** ** A process with one page *)

(** Page 0, the kernel's directory and a table of it, and the directory, a table and a
    frame of the process are in use. *)
Definition ex_pf : PFAllocator.state :=
  PFAllocator.mkState ([PFAllocator.mkSeg false 24576 64 None; PFAllocator.mkSeg false 0 6 None] ++
    replicate 126 (PFAllocator.mkSeg true 0 0 None)) (Some 0%nat) (Some 1%nat).

Definition ex_mem : mem :=
  store32 (store32 (store32 (store32 ∅ 4096 20499) (8192 + 4 * 256) 12311) 12288 16407) 16384 77.

Definition ex_clone_vm : vm PFAllocator.state := mkVM ex_mem ex_pf.
Definition ex_region : mm_region := mkRegion 6 1073741824 4096.
Definition ex_mm : mm_struct := mkMM 8192 [ex_region].

Lemma sg_ex_pf_tail i : (2 ≤ i < PFAllocator.MaxNumSeg)%nat → PFAllocator.sg ex_pf i = PFAllocator.mkSeg true 0 0 None.
Proof.
  intros Hi. unfold PFAllocator.sg, ex_pf; cbn [PFAllocator.segs]. rewrite lookup_app_r by (cbn; lia).
  rewrite lookup_replicate_2; [done|]. cbn. unfold PFAllocator.MaxNumSeg in Hi. lia.
Qed.

Lemma wf_ex_pf : PFAllocator.Wf ex_pf [0%nat] [1%nat].
Proof.
  assert (H01 : ∀ i, i ∈ [0%nat; 1%nat] ↔ i = 0%nat ∨ i = 1%nat) by (intros; set_solver).
  constructor; [|done|done|by apply (bool_decide_unpack _); vm_compute].
  constructor; cbn [app].
  - done.
  - intros i [-> | ->]%H01; unfold PFAllocator.MaxNumSeg; lia.
  - intros [|[|i]] Hi; [split; set_solver..|]. rewrite sg_ex_pf_tail by lia. cbn.
    split; [|done]. intros _. rewrite H01. lia.
  - intros i [-> | ->]%H01; unfold PFAllocator.seg_ok, PFAllocator.sg, ex_pf, PFAllocator.ChunkSize; cbn; split_and!; lia || reflexivity.
  - intros i j a [-> | ->]%H01 [-> | ->]%H01; unfold PFAllocator.owns, PFAllocator.sg, ex_pf, PFAllocator.ChunkSize; cbn; lia.
Qed.

Lemma ex_pf_used a : 0 ≤ a < 24576 → fa_used (vm_pf ex_clone_vm) a.
Proof.
  intros Ha. exists [0%nat], [1%nat]. split; [apply wf_ex_pf|]. intros (i & ->%list_elem_of_singleton & Ho).
  unfold PFAllocator.owns in Ho. cbn in Ho. lia.
Qed.

Lemma ex_pf_ready : fa_ready (vm_pf ex_clone_vm) 30.
Proof. exists [0%nat], [1%nat]. split_and!; [apply wf_ex_pf|cbn; lia|]. cbn. unfold PFAllocator.MaxNumSeg. lia. Qed.

Lemma ex_mm_bytes : bytes_ok ex_mem.
Proof. repeat apply bytes_ok_store32. apply bytes_ok_empty. Qed.

(** Words of the example memory, in the page [q]. *)
Lemma ex_word q k : q ∈ [4096; 8192; 12288] → 0 ≤ k < 1024 → load32 ex_mem (q + 4 * k) =
  if decide (q = 4096 ∧ k = 0) then 20499 else if decide (q = 8192 ∧ k = 256) then 12311
  else if decide (q = 12288 ∧ k = 0) then 16407 else 0.
Proof.
  intros Hq Hk. unfold ex_mem. rewrite load32_store32_ne.
  2: { set_unfold in Hq. lia. }
  assert (H0 : ∀ b, load32 ∅ b = 0) by done. set_unfold in Hq. destruct Hq as [->|[->|[->|[]]]]; cbn [app].
  - rewrite !(load32_store32_ne _ _ (4096 + 4 * k)) by lia. destruct (decide (k = 0)) as [->|].
    + by rewrite load32_store32_eq.
    + rewrite load32_store32_ne by lia. by repeat case_decide; (done || lia).
  - rewrite (load32_store32_ne _ 12288) by lia. destruct (decide (k = 256)) as [->|].
    + by rewrite load32_store32_eq.
    + rewrite !load32_store32_ne by lia. by repeat case_decide; (done || lia).
  - destruct (decide (k = 0)) as [->|].
    + by rewrite load32_store32_eq.
    + rewrite !load32_store32_ne by lia. by repeat case_decide; (done || lia).
Qed.

Lemma ex_dirE q i : q ∈ [4096; 8192] → 0 ≤ i < 1024 → isEntryExist (dirE ex_mem q i) = true →
  (q = 4096 ∧ i = 0 ∧ dirE ex_mem q i = 20499) ∨ (q = 8192 ∧ i = 256 ∧ dirE ex_mem q i = 12311).
Proof.
  intros Hq Hi. unfold dirE. rewrite ex_word by (set_solver || done).
  assert (q ≠ 12288) by set_solver. repeat case_decide; [tauto|tauto|tauto|done].
Qed.

Lemma ex_mm_space : Space ex_clone_vm 8192.
Proof.
  split; cbn [vm_mem ex_clone_vm]; [apply ex_mm_bytes|done|intros a Ha; apply ex_pf_used; lia| |].
  - intros i Hi [(? & _)|(_ & _ & E)]%ex_dirE; [lia| |set_solver|done]. rewrite E.
    change (caddrEntry 12311) with 12288. split; [|lia]. intros a Ha. apply ex_pf_used. lia.
  - intros i j Hi Hj [(? & _)|(_ & -> & _)]%ex_dirE [(? & _)|(_ & -> & _)]%ex_dirE; done || lia || set_solver.
Qed.

Lemma ex_kernel_dir : Kernel ex_clone_vm 4096 4194304.
Proof.
  split; cbn [vm_mem ex_clone_vm]; [lia|done|intros a Ha; apply ex_pf_used; lia|apply ex_pf_used; lia| |].
  - intros i Hi _ [(_ & _ & E)|(? & _)]%ex_dirE; [|lia|set_solver|done]. rewrite E.
    change (caddrEntry 20499) with 20480. intros a Ha. apply ex_pf_used. lia.
  - intros i j Hi Hj _ _ [(_ & -> & _)|(? & _)]%ex_dirE [(_ & -> & _)|(? & _)]%ex_dirE; done || lia || set_solver.
Qed.

Lemma ex_translate va : in_region ex_region va → translate ex_mem 8192 va = Some (16384 + va `mod` 4096).
Proof.
  unfold in_region, ex_region; cbn [r_begin r_size]. intros Hva. unfold translate, table_entry, dir_entry, dirE.
  replace (va / 4194304) with 256 by (Z.div_mod_to_equations; lia).
  replace (va `mod` 4194304 / 4096) with 0 by (Z.div_mod_to_equations; lia).
  assert (E1 : load32 ex_mem (8192 + 4 * 256) = 12311) by (rewrite ex_word by (set_solver || lia); done).
  assert (E2 : load32 ex_mem (12288 + 4 * 0) = 16407) by (rewrite ex_word by (set_solver || lia); done).
  rewrite E1. change (caddrEntry 12311) with 12288. by rewrite E2.
Qed.

Lemma ex_region_mapped : Forall (region_mapped ex_clone_vm 4194304 (cr3 ex_mm)) (regions ex_mm).
Proof.
  repeat constructor; cbn; try lia; try done; unfold in_region, ex_region in *; cbn in *.
  - unfold kslot, dir_entrySize. Z.div_mod_to_equations; lia.
  - eexists. split; [apply ex_translate; done|]. apply ex_pf_used. Z.div_mod_to_equations; lia.
Qed.

Lemma clone_mm_correct_witness :
  ∃ dir st', clone_mm 2 ex_clone_vm 4096 4194304 8192 ex_mm (mkMM 0 []) = Ok (mkMM dir [ex_region], st') ∧
    vbyte (vm_mem st') dir 1073741824 = Some 77.
Proof.
  destruct (clone_mm_correct 2 ex_clone_vm 4096 4194304 ex_mm (mkMM 0 []) 1 ex_kernel_dir ex_mm_space ex_region_mapped)
    as (dir & st' & E & _ & HC).
  - repeat constructor; cbn; lia.
  - change (S (region_frames (regions ex_mm) + 1)) with 4%nat. eapply fa_ready_le; [|exact ex_pf_ready]. lia.
  - exists dir, st'. split; [exact E|]. destruct (cl_copy _ _ _ _ _ _ HC ex_region 1073741824) as (b & Hb & Hb' & _).
    + by left.
    + unfold in_region. cbn. lia.
    + rewrite Hb, <- Hb'. unfold vbyte. cbn [vm_mem ex_clone_vm].
      rewrite ex_translate by (unfold in_region; cbn; lia). vm_compute. reflexivity.
Defined.

End Clone.
