(* ===== verification/PagingStart.v ===== *)
(** * The straight mapping ([VarMem::initPaging] of [src/kernel/VarMem.cpp])

    The directory and the tables that [initPaging] builds, what they translate, and that
    they are what [copyKernelDir] and the processes need ([Kernel] of [Clone.v]). *)

From S2P Require Import Prelude Memory PageFrames VarMem Clone.

Module PagingStart.
Import VarMem Clone.

Implicit Types (m : mem) (a va i j : Z).

(** ** Words and pages *)

Lemma load32_bytes m m' b : (∀ a, b ≤ a < b + 4 → load8 m' a = load8 m a) → load32 m' b = load32 m b.
Proof. intros H. unfold load32. by rewrite !H by lia. Qed.

(** Address [a] is in the page at [p]. *)
Definition in_page (p a : Z) : Prop := p ≤ a < p + 4096.

Lemma word_kept m m' p q k : (∀ a, ¬ in_page p a → load8 m' a = load8 m a) → p `mod` 4096 = 0 → q `mod` 4096 = 0 →
  p ≠ q → 0 ≤ k < 1024 → load32 m' (q + 4 * k) = load32 m (q + 4 * k).
Proof.
  intros H Hp Hq Hne Hk. apply load32_bytes. intros a Ha. apply H. unfold in_page.
  destruct (page_disjoint p q Hp Hq Hne); lia.
Qed.

(** The loop that fills [kPtables]. *)
Lemma kPtables_spec m T B (n : Z) : bytes_ok m → 0 ≤ n ≤ 1024 → 0 ≤ B → B + 4096 * n < 4294967296 →
  let m' := for_loop (Z.to_nat n) 0 (λ i m, store32 m (T + 4 * i) (u32 (B + 4096 * i))) m in
  bytes_ok m' ∧ (∀ i, 0 ≤ i < n → load32 m' (T + 4 * i) = B + 4096 * i) ∧ (∀ a, ¬ in_page T a → load8 m' a = load8 m a).
Proof.
  intros Hm Hn H0 H1 m'. pose (P := λ (k : Z) (t : mem), bytes_ok t ∧ (∀ i, 0 ≤ i < k → load32 t (T + 4 * i) = B + 4096 * i) ∧
    (∀ a, ¬ in_page T a → load8 t a = load8 m a)).
  enough (P (0 + Z.of_nat (Z.to_nat n)) m') as H by (rewrite Z.add_0_l, Z2Nat.id in H by lia; exact H).
  apply for_loop_ind; unfold P; clear P m'; [split_and!; [done|lia|done]|].
  intros j t Hj (Ht & Hv & Hb). rewrite Z2Nat.id in Hj by lia. split_and!.
  - auto with machine.
  - intros i Hi. destruct (decide (i = j)) as [->|].
    + rewrite load32_store32_eq by apply u32_range. apply u32_id. unfold is_u32. lia.
    + rewrite load32_store32_ne by lia. apply Hv. lia.
  - intros a Ha. rewrite load8_store32_ne by (unfold in_page in Ha; lia). by apply Hb.
Qed.

(** The entries of one table. *)
Lemma fill_table m t : bytes_ok m →
  let m' := for_loop (Z.to_nat nrEntry) 0 (λ j m, editEntry m (t + 4 * j) (j * 4096) systempage) m in
  bytes_ok m' ∧ (∀ j, 0 ≤ j < 1024 → load32 m' (t + 4 * j) = pte (4096 * j) systempage) ∧
  (∀ a, ¬ in_page t a → load8 m' a = load8 m a).
Proof.
  intros Hm m'. pose (P := λ (k : Z) (u : mem), bytes_ok u ∧ (∀ j, 0 ≤ j < k → load32 u (t + 4 * j) = pte (4096 * j) systempage) ∧
    (∀ a, ¬ in_page t a → load8 u a = load8 m a)).
  enough (H : P (0 + Z.of_nat (Z.to_nat nrEntry)) m') by exact H.
  apply for_loop_ind; unfold P; clear P m'; [split_and!; [done|lia|done]|].
  unfold nrEntry. intros j u Hj (Hu & Hv & Hb). split_and!.
  - by apply editEntry_bytes.
  - intros i Hi. destruct (decide (i = j)) as [->|].
    + rewrite editEntry_eq by (unfold is_u32; lia). by rewrite Z.mul_comm.
    + rewrite editEntry_ne by lia. apply Hv. lia.
  - intros a Ha. rewrite editEntry_byte by (unfold in_page in Ha; lia). by apply Hb.
Qed.

(** ** The loop over the tables *)

Section tables.
Context (D T B nr : Z).

(** The tables are whole pages apart from the directory and from [kPtables]. *)
Record Apart : Prop := {
  ap_aligned : D `mod` 4096 = 0 ∧ T `mod` 4096 = 0 ∧ B `mod` 4096 = 0;
  ap_ne : D ≠ T ∧ ∀ i, 0 ≤ i < nr → B + 4096 * i ≠ D ∧ B + 4096 * i ≠ T;
  ap_nr : 0 ≤ nr < 896;
  ap_range : 0 ≤ B ∧ B + 4096 * nr < 4294967296
}.

(** The first [n] slots are set. *)
Record Filled m0 (n : Z) m : Prop := {
  fi_bytes : bytes_ok m;
  fi_ptrs : ∀ i, 0 ≤ i < nr → load32 m (T + 4 * i) = B + 4096 * i;
  fi_dir : ∀ i, 0 ≤ i < 1024 → dirE m D i = if decide (i < n) then pte (B + 4096 * i) systempage else 0;
  fi_table : ∀ i j, 0 ≤ i < n → 0 ≤ j < 1024 → load32 m (B + 4096 * i + 4 * j) = pte (4096 * j) systempage;
  fi_rest : ∀ a, ¬ in_page D a → ¬ (B ≤ a < B + 4096 * nr) → load8 m a = load8 m0 a
}.

Context (HA : Apart).

Lemma table_mod i : (B + 4096 * i) `mod` 4096 = 0.
Proof. destruct (ap_aligned HA) as (_ & _ & H). rewrite Z.mul_comm, Z_mod_plus_full. exact H. Qed.

Lemma table_u32 i : 0 ≤ i < nr → is_u32 (B + 4096 * i).
Proof. intros Hi. pose proof (ap_range HA). unfold is_u32. lia. Qed.

Lemma fill_step m0 m n : Filled m0 n m → 0 ≤ n < nr →
  let t := load32 m (T + 4 * n) in
  let m1 := disableAllEntry m t in
  let m2 := editEntry m1 (D + 4 * n) t systempage in
  Filled m0 (n + 1) (for_loop (Z.to_nat nrEntry) 0 (λ j m, editEntry m (t + 4 * j) (j * 4096) systempage) m2).
Proof.
  intros [H1 H2 H3 H4 H5] Hn t m1 m2. pose proof (ap_nr HA) as Hnr. destruct (ap_aligned HA) as (AD & AT & AB).
  destruct (ap_ne HA) as [HDT Hne]. destruct (Hne n Hn) as [HnD HnT]. pose proof (table_mod n) as At.
  assert (Et : t = B + 4096 * n) by (by apply H2). clearbody t. subst t. set (t := B + 4096 * n) in *.
  assert (Hb2 : bytes_ok m2) by (apply editEntry_bytes; by apply disableAllEntry_spec).
  assert (Hr2 : ∀ a, ¬ in_page t a → ¬ (D + 4 * n ≤ a < D + 4 * n + 4) → load8 m2 a = load8 m a).
  { intros a Ha Hd. unfold m2, m1. rewrite editEntry_byte by done. by apply disableAllEntry_byte. }
  destruct (fill_table m2 t Hb2) as (Hb & Hf & Hr). set (m3 := for_loop _ _ _ _) in *. clearbody m3.
  assert (Hrest : ∀ a, ¬ in_page t a → ¬ (D + 4 * n ≤ a < D + 4 * n + 4) → load8 m3 a = load8 m a).
  { intros a Ha Hd. by rewrite Hr, Hr2. }
  assert (Hdis : ∀ q k, q `mod` 4096 = 0 → t ≠ q → 0 ≤ k < 1024 → D ≠ q ∨ D = q ∧ k ≠ n →
    load32 m3 (q + 4 * k) = load32 m (q + 4 * k)).
  { intros q k Hq Htq Hk HD. apply load32_bytes. intros a Ha. apply Hrest.
    - unfold in_page. destruct (page_disjoint t q At Hq Htq); lia.
    - destruct (decide (D = q)) as [<-|HDq]; [destruct HD as [HD|[_ HD]]; [done|lia]|].
      destruct (page_disjoint D q AD Hq HDq); lia. }
  split.
  - done.
  - intros i Hi. rewrite (Hdis T) by (tauto || lia). by apply H2.
  - intros i Hi. unfold dirE. destruct (decide (i = n)) as [->|Hin].
    + rewrite decide_True by lia. rewrite (word_kept m2 m3 t D n Hr At AD HnD Hi).
      apply editEntry_eq. by apply table_u32.
    + rewrite (Hdis D) by (tauto || lia). fold (dirE m D i). rewrite H3 by done.
      by destruct (decide (i < n)), (decide (i < n + 1)); try lia.
  - intros i j Hi Hj. destruct (decide (i = n)) as [->|Hin]; [by apply Hf|].
    rewrite Hdis; [apply H4; [lia|done]|apply table_mod|unfold t; lia|done|]. left. intros E. destruct (Hne i) as [HDi _]; [lia|by apply HDi].
  - intros a Ha HB. rewrite Hrest; [by apply H5| |]; unfold in_page in *; unfold t; lia.
Qed.

Lemma fill_loop m0 m : Filled m0 0 m →
  Filled m0 nr (for_loop (Z.to_nat nr) 0
    (λ i m,
       let table := load32 m (T + 4 * i) in
       let m := disableAllEntry m table in
       let m := editEntry m (D + 4 * i) table systempage in
       for_loop (Z.to_nat nrEntry) 0
         (λ j m, editEntry m (table + 4 * j) (j * 4096) systempage) m) m).
Proof.
  intros H. pose proof (ap_nr HA). set (body := λ i m, _).
  pose proof (for_loop_ind (Filled m0) (Z.to_nat nr) 0 body m H) as HL. rewrite Z.add_0_l, Z2Nat.id in HL by lia.
  apply HL. intros j t Hj Ht. apply fill_step; [done|lia].
Qed.

End tables.

(** ** [mapping_pmem] into an empty slot *)

Section mapping.
Context {A : Type} `{!FrameAlloc A}.
Context (st : vm A) (pf' : A) (D V slot phy type : Z).
Context (Hm : bytes_ok (vm_mem st)) (HD : D `mod` 4096 = 0) (HV : V `mod` 4096 = 0) (HDV : V ≠ D) (HVr : is_u32 V)
  (Hslot : 0 ≤ slot < 1024) (Htype : Z.odd type = true) (Hempty : isEntryExist (dirE (vm_mem st) D slot) = false)
  (Halloc : fa_alloc (vm_pf st) 1 = Ok (V, pf')) (Hphy : 0 ≤ phy).

(** The table at [V] maps the first [k] pages of the slot. *)
Record Mapped (k : Z) m : Prop := {
  ma_bytes : bytes_ok m;
  ma_dir : dirE m D slot = pte V type;
  ma_table : ∀ j, 0 ≤ j < 1024 → load32 m (V + 4 * j) = if decide (j < k) then pte (phy + 4096 * j) type else 0;
  ma_rest : ∀ a, ¬ in_page V a → ¬ (D + 4 * slot ≤ a < D + 4 * slot + 4) → load8 m a = load8 (vm_mem st) a
}.

(** The table is made in the first iteration. *)
Lemma mapped_table : let m := disableAllEntry (editEntry (vm_mem st) (D + 4 * slot) V type) V in
  Mapped 0 m.
Proof.
  intros m. destruct (disableAllEntry_spec (editEntry (vm_mem st) (D + 4 * slot) V type) V) as (Hz & _ & Hb).
  assert (Hk : ∀ a, ¬ in_page V a → load8 m a = load8 (editEntry (vm_mem st) (D + 4 * slot) V type) a)
    by (intros a; apply disableAllEntry_byte).
  split.
  - apply Hb. by apply editEntry_bytes.
  - unfold dirE. rewrite (word_kept _ _ V D slot Hk HV HD HDV Hslot). by apply editEntry_eq.
  - intros j Hj. rewrite decide_False by lia. by apply Hz.
  - intros a Ha Hd. rewrite Hk by done. by apply editEntry_byte.
Qed.

(** One more page. *)
Lemma mapped_page (k : Z) m : Mapped k m → 0 ≤ k < 1024 → phy + 4096 * k < 4294967296 →
  isEntryExist (load32 m (V + 4 * k)) = false ∧ Mapped (k + 1) (editEntry m (V + 4 * k) (phy + 4096 * k) type).
Proof.
  intros [H1 H2 H3 H4] Hk Hp. split; [rewrite H3, decide_False by lia; done|].
  set (m' := editEntry m _ _ _).
  assert (Hr : ∀ a, ¬ in_page V a → load8 m' a = load8 m a) by (intros a Ha; apply editEntry_byte; unfold in_page in Ha; lia).
  split.
  - by apply editEntry_bytes.
  - unfold dirE. by rewrite (word_kept m m' V D slot Hr HV HD HDV Hslot).
  - intros j Hj. destruct (decide (j = k)) as [->|Hne].
    + rewrite decide_True by lia. apply editEntry_eq. unfold is_u32. lia.
    + unfold m'. rewrite editEntry_ne by lia. rewrite H3 by done.
      by destruct (decide (j < k)), (decide (j < k + 1)); try lia.
  - intros a Ha Hd. rewrite Hr by done. by apply H4.
Qed.

Lemma mapping_pmem_spec (pages : Z) : 0 < pages ≤ 1024 → phy + 4096 * pages ≤ 4294967296 →
  ∃ m, mapping_pmem st phy (4194304 * slot) (4096 * pages) D type = Ok (mkVM m pf') ∧ Mapped pages m.
Proof.
  intros Hp Hpp. unfold mapping_pmem. rewrite CEIL_4K by lia.
  replace ((4096 * pages + 4095) / 4096 * 4096 / 4096) with pages by (Z.div_mod_to_equations; lia).
  pose (P := λ (k : Z) (s : vm A), k = 0 ∧ s = st ∨ 0 < k ∧ ∃ m, s = mkVM m pf' ∧ Mapped k m).
  edestruct (for_loop_res_ind P (Z.to_nat pages) 0) as (s & E & Hs); [by left| |].
  2: { rewrite Z.add_0_l, Z2Nat.id in Hs by lia. destruct Hs as [[? _]|(_ & m & -> & HM)]; [lia|]. exists m. split; [exact E|done]. }
  rewrite Z2Nat.id by lia. intros k s Hk Hs. cbn beta.
  replace (u32 (4194304 * slot + k * 4096)) with (4194304 * slot + k * 4096) by (rewrite u32_id; [done|unfold is_u32; lia]).
  replace (u32 (phy + 4 * (k * 1024))) with (phy + 4096 * k) by (rewrite u32_id; [lia|unfold is_u32; lia]).
  assert (Hg : ∃ m, get_table s (4194304 * slot + k * 4096) D type = Ok (V, mkVM m pf') ∧ Mapped k m).
  { unfold get_table. replace ((4194304 * slot + k * 4096) / 4194304) with slot by (Z.div_mod_to_equations; lia).
    fold (dirE (vm_mem s) D slot). destruct Hs as [[-> ->]|(_ & m & -> & HM)].
    - rewrite Hempty, Halloc. eexists. split; [reflexivity|]. apply mapped_table.
    - cbn [vm_mem]. rewrite (ma_dir _ _ HM), exist_pte, Htype, caddr_pte by done. exists m. done. }
  destruct Hg as (m & -> & HM). cbn [mbind res_bind vm_mem vm_pf].
  replace ((4194304 * slot + k * 4096) `mod` 4194304 / 4096) with k by (Z.div_mod_to_equations; lia).
  destruct (mapped_page k m HM) as [-> HM']; [lia|lia|]. cbn [negb]. eexists. split; [reflexivity|].
  right. split; [lia|]. eexists. done.
Qed.

End mapping.

(** ** The directory of the kernel *)

(** The video memory is at 0xe0000000, in slot 896; slot 1023 is for the table of the
    windows of [mapP2V_4k]. *)
Definition vram : Z := 3758096384.

Record Built m0 m (D T B V v2ptable nr : Z) : Prop := {
  bu_bytes : bytes_ok m;
  bu_dir : ∀ i, 0 ≤ i < 1024 → dirE m D i =
    if decide (i < nr) then pte (B + 4096 * i) systempage
    else if decide (i = 896) then pte V systempage
    else if decide (i = 1023) then pte v2ptable systempage else 0;
  bu_ptrs : ∀ i, 0 ≤ i < nr → load32 m (T + 4 * i) = B + 4096 * i;
  bu_table : ∀ i j, 0 ≤ i < nr → 0 ≤ j < 1024 → load32 m (B + 4096 * i + 4 * j) = pte (4096 * j) systempage;
  bu_vram : ∀ j, 0 ≤ j < 1024 → load32 m (V + 4 * j) = if decide (j < 512) then pte (vram + 4096 * j) systempage else 0;
  bu_rest : ∀ a, ¬ in_page D a → ¬ in_page T a → ¬ (B ≤ a < B + 4096 * nr) → ¬ in_page V a → load8 m a = load8 m0 a
}.

(** The last two steps of [initPaging], from the directory with the straight mapping. *)
Lemma built_last m0 m1 m (D T B V v2ptable nr : Z) : Apart D T B nr → Filled D T B nr m0 nr m1 →
  V `mod` 4096 = 0 → V ≠ D → V ≠ T → is_u32 V → is_u32 v2ptable → (∀ i, 0 ≤ i < nr → B + 4096 * i ≠ V) →
  (∀ a, ¬ in_page V a → ¬ (D + 4 * 896 ≤ a < D + 4 * 896 + 4) → load8 m a = load8 m1 a) → bytes_ok m →
  dirE m D 896 = pte V systempage →
  (∀ j, 0 ≤ j < 1024 → load32 m (V + 4 * j) = if decide (j < 512) then pte (vram + 4096 * j) systempage else 0) →
  Built m0 (editEntry m (D + 4 * 1023) v2ptable systempage) D T B V v2ptable nr.
Proof.
  intros HA [F1 F2 F3 F4 F5] HV HVD HVT HVr Hv2 HVB Hr Hb Hd Ht. destruct (ap_aligned _ _ _ _ HA) as (AD & AT & AB).
  pose proof (ap_nr _ _ _ _ HA) as Hnr. destruct (ap_ne _ _ _ _ HA) as [HDT HBne].
  set (m' := editEntry m (D + 4 * 1023) v2ptable systempage).
  assert (Hm' : ∀ a, ¬ (D + 4 * 1023 ≤ a < D + 4 * 1023 + 4) → load8 m' a = load8 m a) by (intros a; apply editEntry_byte).
  assert (Hoff : ∀ q k, q `mod` 4096 = 0 → D ≠ q → 0 ≤ k < 1024 → load32 m' (q + 4 * k) = load32 m (q + 4 * k)).
  { intros q k Hq HDq Hk. apply (word_kept m m' D); [|done..]. intros a Ha. apply Hm'. unfold in_page in Ha. lia. }
  assert (Hall : ∀ q k, q `mod` 4096 = 0 → V ≠ q → D ≠ q → 0 ≤ k < 1024 → load32 m' (q + 4 * k) = load32 m1 (q + 4 * k)).
  { intros q k Hq HVq HDq Hk. rewrite Hoff by done. apply load32_bytes. intros a Ha. apply Hr.
    - unfold in_page. destruct (page_disjoint V q HV Hq HVq); lia.
    - destruct (page_disjoint D q AD Hq HDq); lia. }
  split.
  - by apply editEntry_bytes.
  - intros i Hi. unfold dirE. destruct (decide (i = 1023)) as [->|H1023].
    { rewrite decide_False by lia. apply editEntry_eq. done. }
    unfold m'. rewrite editEntry_ne by lia. fold (dirE m D i). destruct (decide (i = 896)) as [->|H896].
    { rewrite decide_False by lia. done. }
    unfold dirE. replace (load32 m (D + 4 * i)) with (load32 m1 (D + 4 * i)); [by apply F3|].
    symmetry. apply load32_bytes. intros a Ha. apply Hr; [|lia]. unfold in_page. destruct (page_disjoint V D HV AD HVD); lia.
  - intros i Hi. rewrite Hall by (done || lia). by apply F2.
  - intros i j Hi Hj. destruct (HBne i Hi) as [H1 _]. rewrite Hall; [by apply F4|by eapply table_mod| |congruence|done].
    intros E. by apply (HVB i).
  - intros j Hj. rewrite Hoff by (done || congruence). by apply Ht.
  - intros a HaD HaT HaB HaV. rewrite Hm' by (unfold in_page in HaD; lia). rewrite Hr; [by apply F5|done|].
    unfold in_page in HaD; lia.
Qed.

Lemma built_rest m0 m1 m (D T B V v2ptable nr : Z) : (∀ a, ¬ in_page T a → load8 m1 a = load8 m0 a) →
  Built m1 m D T B V v2ptable nr → Built m0 m D T B V v2ptable nr.
Proof. intros H [H1 H2 H3 H4 H5 H6]. split; try done. intros a HD HT HB HV. by rewrite H6, H. Qed.

(** The frames that [initPaging] takes: the directory, [kPtables], [nr] tables and the table
    of the video memory. *)
Record Taken (pf pf' : PFAllocator.state) (D T B V nr : Z) : Prop := {
  ta_apart : Apart D T B nr;
  ta_vram : V `mod` 4096 = 0 ∧ V ≠ D ∧ V ≠ T ∧ is_u32 V ∧ ∀ i, 0 ≤ i < nr → B + 4096 * i ≠ V;
  ta_used : ∀ a, fa_used pf' a ↔ fa_used pf a ∨ in_page D a ∨ in_page T a ∨ B ≤ a < B + 4096 * nr ∨ in_page V a;
  ta_fresh : ∀ a, in_page D a ∨ in_page T a ∨ B ≤ a < B + 4096 * nr ∨ in_page V a → ¬ fa_used pf a
}.

Lemma take_frames (pf : PFAllocator.state) (nr k : Z) (n : nat) : PFAllocator.run_ready pf (k + nr + 3) (4 + n) → 0 ≤ nr < 896 → 0 < k →
  ∃ D T B V pf1 pf2 pf3 pf', fa_alloc pf 1 = Ok (D, pf1) ∧ fa_alloc pf1 1 = Ok (T, pf2) ∧ fa_alloc pf2 nr = Ok (B, pf3) ∧
    fa_alloc pf3 1 = Ok (V, pf') ∧ Taken pf pf' D T B V nr ∧ PFAllocator.run_ready pf' k n.
Proof.
  intros Hr Hnr Hk. replace (k + nr + 3) with (k + nr + 2 + 1) in Hr by lia.
  destruct (PFAllocator.alloc_run pf 1 (k + nr + 2) (3 + n) Hr) as (D & pf1 & E1 & Hr1 & AD & D0 & D1 & UD & FD); [lia|lia|].
  replace (k + nr + 2) with (k + nr + 1 + 1) in Hr1 by lia.
  destruct (PFAllocator.alloc_run pf1 1 (k + nr + 1) (2 + n) Hr1) as (T & pf2 & E2 & Hr2 & AT & T0 & T1 & UT & FT); [lia|lia|].
  replace (k + nr + 1) with (k + 1 + nr) in Hr2 by lia.
  destruct (PFAllocator.alloc_run pf2 nr (k + 1) (1 + n) Hr2) as (B & pf3 & E3 & Hr3 & AB & B0 & B1 & UB & FB); [lia|lia|].
  destruct (PFAllocator.alloc_run pf3 1 k n Hr3) as (V & pf' & E4 & Hr4 & AV & V0 & V1 & UV & FV); [lia|lia|].
  rewrite ?Z.mul_1_r in *. exists D, T, B, V, pf1, pf2, pf3, pf'. split_and!; try done.
  assert (HDT : D ≠ T) by (intros ->; apply (FT T); [lia|]; apply UD; right; lia).
  assert (HBD : ∀ i, 0 ≤ i < nr → B + 4096 * i ≠ D).
  { intros i Hi E. apply (FB (B + 4096 * i)); [lia|]. apply UT. left. apply UD. right. lia. }
  assert (HBT : ∀ i, 0 ≤ i < nr → B + 4096 * i ≠ T).
  { intros i Hi E. apply (FB (B + 4096 * i)); [lia|]. apply UT. right. lia. }
  split.
  - split; [done|split; [done|]; intros i Hi; split; auto|lia|lia].
  - split_and!; [done| | |unfold is_u32; lia|].
    + intros ->. apply (FV D); [lia|]. apply UB. left. apply UT. left. apply UD. right. lia.
    + intros ->. apply (FV T); [lia|]. apply UB. left. apply UT. right. lia.
    + intros i Hi E. apply (FV V); [lia|]. apply UB. right. lia.
  - intros a. change (fa_used pf' a) with (PFAllocator.used_addr pf' a). rewrite UV, UB, UT, UD. unfold fa_used, in_page; cbn. tauto.
  - intros a Ha Hu. change (PFAllocator.used_addr pf a) in Hu. unfold in_page in Ha. destruct Ha as [Ha|[Ha|[Ha|Ha]]].
    + by apply (FD a).
    + apply (FT a); [lia|]. apply UD. by left.
    + apply (FB a); [lia|]. apply UT. left. apply UD. by left.
    + apply (FV a); [lia|]. apply UB. left. apply UT. left. apply UD. by left.
Qed.

Lemma initPaging_built (st : vm PFAllocator.state) (mem_size v2ptable k : Z) (n : nat) : bytes_ok (vm_mem st) →
  let nr := mem_size / dir_entrySize in
  0 ≤ nr < 896 → is_u32 v2ptable → PFAllocator.run_ready (vm_pf st) (k + nr + 3) (4 + n) → 0 < k →
  ∃ D T B V m pf', initPaging st mem_size v2ptable = Ok (D, T, mkVM m pf') ∧ Taken (vm_pf st) pf' D T B V nr ∧
    Built (vm_mem st) m D T B V v2ptable nr ∧ PFAllocator.run_ready pf' k n.
Proof.
  intros Hm nr Hnr Hv2 Hr Hk.
  destruct (take_frames (vm_pf st) nr k n Hr Hnr Hk) as (D & T & B & V & pf1 & pf2 & pf3 & pf' & E1 & E2 & E3 & E4 & HT & Hr').
  pose proof (ta_apart _ _ _ _ _ _ _ HT) as HA. destruct (ta_vram _ _ _ _ _ _ _ HT) as (AV & HVD & HVT & HVr & HVB).
  destruct (ap_aligned _ _ _ _ HA) as (AD & AT & AB). destruct (ap_ne _ _ _ _ HA) as [HDT HBne].
  destruct (ap_range _ _ _ _ HA) as [HB0 HB1].
  unfold initPaging. rewrite E1. cbn [mbind res_bind]. rewrite E2. cbn [mbind res_bind]. fold nr.
  replace (u16 nr) with nr by (rewrite u16_id; [done|unfold is_u16; lia]). rewrite E3. cbn [mbind res_bind].
  destruct (kPtables_spec (vm_mem st) T B nr Hm) as (Hm1 & HP & Hr1); [lia|done|done|]. cbv zeta. set (m1 := for_loop _ _ _ (vm_mem st)) in *. clearbody m1.
  destruct (disableAllEntry_spec m1 D) as (Hz & _ & Hb2). specialize (Hb2 Hm1).
  pose proof (disableAllEntry_byte m1 D) as Hr2. set (m2 := disableAllEntry m1 D) in *. clearbody m2.
  assert (HF0 : Filled D T B nr m1 0 m2).
  { split; [done| | |intros; lia|].
    - intros i Hi. rewrite (word_kept m1 m2 D T i Hr2) by (done || lia). by apply HP.
    - intros i Hi. rewrite decide_False by lia. by apply Hz.
    - intros a Ha _. by apply Hr2. }
  apply (fill_loop D T B nr HA) in HF0. cbv zeta in HF0. set (m3 := for_loop _ _ _ m2) in *. clearbody m3.
  destruct (mapping_pmem_spec (mkVM m3 pf3) pf' D V 896 vram systempage) with (pages := 512) as (m4 & E & HM); try done.
  { apply (fi_bytes _ _ _ _ _ _ _ HF0). }
  { cbn [vm_mem]. rewrite (fi_dir _ _ _ _ _ _ _ HF0), decide_False by lia. done. }
  change (4194304 * 896) with 3758096384 in E. change (4096 * 512) with 2097152 in E. change vram with 3758096384 in E at 1.
  rewrite E. cbn [mbind res_bind vm_mem vm_pf]. exists D, T, B, V. eexists. exists pf'. split_and!; [reflexivity|done| |done].
  apply (built_rest _ m1); [done|]. destruct HM as [M1 M2 M3 M4]. by eapply built_last.
Qed.

(** ** Translation by the directory of the kernel *)

Section built.
Context (m0 m : mem) (D T B V v2ptable nr : Z) (HA : Apart D T B nr) (HB : Built m0 m D T B V v2ptable nr)
  (HV : V `mod` 4096 = 0) (HVr : is_u32 V).

Lemma built_low va : 0 ≤ va < nr * 4194304 → translate m D va = Some (va `mod` 4194304).
Proof.
  intros Hva. pose proof (ap_nr _ _ _ _ HA) as Hnr. assert (Hs : 0 ≤ va / 4194304 < nr) by (Z.div_mod_to_equations; lia).
  pose proof (idx_range va) as Hk. pose proof (table_u32 _ _ _ _ HA _ Hs) as Hu. pose proof (table_mod _ _ _ _ HA (va / 4194304)) as Ht.
  unfold translate, table_entry, dir_entry. rewrite (bu_dir _ _ _ _ _ _ _ _ HB), decide_True by lia.
  rewrite exist_pte, caddr_pte by done. rewrite (bu_table _ _ _ _ _ _ _ _ HB) by done.
  assert (Hp : is_u32 (4096 * (va `mod` 4194304 / 4096))) by (unfold is_u32; lia).
  rewrite exist_pte, caddr_pte by (done || (rewrite Z.mul_comm; apply Z_mod_mult)). cbn. f_equal.
  Z.div_mod_to_equations; lia.
Qed.

Lemma built_vram va : vram ≤ va < vram + 2097152 → translate m D va = Some va.
Proof.
  intros Hva. pose proof (ap_nr _ _ _ _ HA) as Hnr. unfold vram in Hva. assert (Hs : va / 4194304 = 896) by (Z.div_mod_to_equations; lia).
  assert (Hk : 0 ≤ va `mod` 4194304 / 4096 < 512) by (Z.div_mod_to_equations; lia).
  unfold translate, table_entry, dir_entry. rewrite Hs, (bu_dir _ _ _ _ _ _ _ _ HB), decide_False, decide_True by lia.
  rewrite exist_pte, caddr_pte by done. rewrite (bu_vram _ _ _ _ _ _ _ _ HB), decide_True by lia.
  assert (Hp : is_u32 (vram + 4096 * (va `mod` 4194304 / 4096))) by (unfold is_u32, vram; lia).
  rewrite exist_pte, caddr_pte by (done || (unfold vram; Z.div_mod_to_equations; lia)). cbn. f_equal.
  unfold vram. Z.div_mod_to_equations; lia.
Qed.

(** Everything else below the last slot is not mapped. *)
Lemma built_none va : nr * 4194304 ≤ va < 4290772992 → ¬ (vram ≤ va < vram + 2097152) → translate m D va = None.
Proof.
  intros Hva Hv. pose proof (ap_nr _ _ _ _ HA) as Hnr. unfold vram in Hv.
  assert (Hs : nr ≤ va / 4194304 < 1023) by (Z.div_mod_to_equations; lia).
  unfold translate, table_entry, dir_entry. rewrite (bu_dir _ _ _ _ _ _ _ _ HB), decide_False by lia.
  destruct (decide (va / 4194304 = 896)) as [H896|H896]; [|by rewrite decide_False by lia].
  assert (Hk : 512 ≤ va `mod` 4194304 / 4096 < 1024) by (Z.div_mod_to_equations; lia).
  rewrite caddr_pte by done. rewrite (bu_vram _ _ _ _ _ _ _ _ HB), decide_False by lia. by destruct (isEntryExist _).
Qed.

End built.

(** ** [initPaging] *)

(** The state [st'] after [initPaging], with the directory [D] and [T = kPtables]; a run of [k]
    frames and descriptors for [n] allocations are left. *)
Record PagingOn (st st' : vm PFAllocator.state) (D T mem_size k : Z) (n : nat) : Prop := {
  po_kernel : fa_used (vm_pf st) 0 → Kernel st' D mem_size;
  po_bytes : bytes_ok (vm_mem st');
  po_low : ∀ va, 0 ≤ va < mem_size / dir_entrySize * dir_entrySize → translate (vm_mem st') D va = Some (va `mod` dir_entrySize);
  po_vram : ∀ va, vram ≤ va < vram + 2097152 → translate (vm_mem st') D va = Some va;
  po_none : ∀ va, mem_size / dir_entrySize * dir_entrySize ≤ va < 4290772992 → ¬ (vram ≤ va < vram + 2097152) →
    translate (vm_mem st') D va = None;
  po_tables : ∀ i, 0 ≤ i < mem_size / dir_entrySize → load32 (vm_mem st') (T + 4 * i) = caddrEntry (dirE (vm_mem st') D i);
  po_memory : ∀ a, fa_used (vm_pf st) a → fa_used (vm_pf st') a ∧ load8 (vm_mem st') a = load8 (vm_mem st) a;
  po_frames : PFAllocator.run_ready (vm_pf st') k n
}.

Lemma built_kernel m0 m pf pf' (D T B V v2ptable mem_size : Z) : 0 ≤ mem_size < 3758096384 →
  Taken pf pf' D T B V (mem_size / dir_entrySize) → Built m0 m D T B V v2ptable (mem_size / dir_entrySize) → fa_used pf 0 →
  Kernel (mkVM m pf') D mem_size.
Proof.
  intros Hsz HT HB H0. set (nr := mem_size / dir_entrySize) in *.
  pose proof (ta_apart _ _ _ _ _ _ _ HT) as HA. destruct (ta_vram _ _ _ _ _ _ _ HT) as (AV & HVD & HVT & HVr & HVB).
  pose proof (ap_nr _ _ _ _ HA) as Hnr.
  assert (Hs : ∀ i, 0 ≤ i < 1024 → kslot mem_size i →
    (0 ≤ i < nr ∧ caddrEntry (dirE m D i) = B + 4096 * i) ∨ (i = 896 ∧ caddrEntry (dirE m D i) = V)).
  { intros i Hi [Hk|Hk]; fold nr in Hk || idtac.
    - left. split; [lia|]. rewrite (bu_dir _ _ _ _ _ _ _ _ HB), decide_True by done.
      apply caddr_pte; [apply (table_u32 _ _ _ _ HA); lia|by eapply table_mod].
    - right. split; [done|]. rewrite (bu_dir _ _ _ _ _ _ _ _ HB), decide_False, decide_True by lia. by apply caddr_pte. }
  split; try done.
  - apply (ap_aligned _ _ _ _ HA).
  - intros a Ha. apply (ta_used _ _ _ _ _ _ _ HT). unfold in_page. tauto.
  - apply (ta_used _ _ _ _ _ _ _ HT). by left.
  - intros i Hi Hk _ a Ha. apply (ta_used _ _ _ _ _ _ _ HT). cbn [vm_mem] in Ha. unfold in_page.
    destruct (Hs i Hi Hk) as [[Hin E]|[-> E]]; rewrite E in Ha; [|tauto].
    right. right. right. left. lia.
  - intros i j Hi Hj Hki Hkj _ _. cbn [vm_mem].
    destruct (Hs i Hi Hki) as [[Hin ->]|[-> ->]], (Hs j Hj Hkj) as [[Hjn ->]|[-> ->]]; intros E; try lia.
    + by destruct (HVB i Hin).
    + by destruct (HVB j Hjn).
Qed.

Lemma initPaging_spec (st : vm PFAllocator.state) (mem_size v2ptable k : Z) (n : nat) : bytes_ok (vm_mem st) →
  0 ≤ mem_size < 3758096384 → is_u32 v2ptable → 0 < k →
  PFAllocator.run_ready (vm_pf st) (k + mem_size / dir_entrySize + 3) (4 + n) →
  ∃ D T st', initPaging st mem_size v2ptable = Ok (D, T, st') ∧ PagingOn st st' D T mem_size k n.
Proof.
  intros Hm Hsz Hv2 Hk Hr. assert (Hnr : 0 ≤ mem_size / dir_entrySize < 896) by (unfold dir_entrySize; Z.div_mod_to_equations; lia).
  destruct (initPaging_built st mem_size v2ptable k n Hm Hnr Hv2 Hr Hk) as (D & T & B & V & m & pf' & E & HT & HB & Hr').
  pose proof (ta_apart _ _ _ _ _ _ _ HT) as HA. destruct (ta_vram _ _ _ _ _ _ _ HT) as (AV & _ & _ & HVr & _).
  exists D, T, (mkVM m pf'). split; [done|]. unfold dir_entrySize in *. split; cbn [vm_mem vm_pf].
  - intros H0. by eapply built_kernel.
  - apply (bu_bytes _ _ _ _ _ _ _ _ HB).
  - intros va Hva. by eapply built_low.
  - intros va Hva. by eapply built_vram.
  - intros va Hva Hv. by eapply built_none.
  - intros i Hi. unfold dir_entrySize in Hi. rewrite (bu_ptrs _ _ _ _ _ _ _ _ HB), (bu_dir _ _ _ _ _ _ _ _ HB), decide_True by lia.
    symmetry. apply caddr_pte; [by apply (table_u32 _ _ _ _ HA)|by eapply table_mod].
  - intros a Ha. split; [apply (ta_used _ _ _ _ _ _ _ HT); by left|].
    pose proof (λ H, ta_fresh _ _ _ _ _ _ _ HT a H Ha) as Hf. apply (bu_rest _ _ _ _ _ _ _ _ HB); tauto.
  - done.
Qed.

(** C3: [initPaging] makes the address space of the kernel. With one free run of frames for the
    directory, the table of tables, a table for each 4 MiB of memory and the video memory, the
    directory maps the video memory to itself and every address below the end of the memory to
    the same offset in the first 4 MiB (so memory above 4 MiB cannot be reached); nothing else
    below the slot of the windows is mapped. [kPtables] holds the addresses of the tables, no
    byte that is not free memory changes, and the directory is what the address spaces of
    processes are copied from. *)
Theorem initPaging_correct (st : vm PFAllocator.state) (mem_size v2ptable k : Z) (n : nat) : bytes_ok (vm_mem st) →
  0 ≤ mem_size < 3758096384 → is_u32 v2ptable → 0 < k →
  PFAllocator.run_ready (vm_pf st) (k + mem_size / dir_entrySize + 3) (4 + n) →
  ∃ D T st', initPaging st mem_size v2ptable = Ok (D, T, st') ∧ PagingOn st st' D T mem_size k n.
Proof. apply initPaging_spec. Qed.

Lemma ex_run (k : Z) (n : nat) : k ≤ 64 → (n ≤ 126)%nat → PFAllocator.run_ready ex_pf k n.
Proof.
  intros Hk Hn. exists [0%nat], [1%nat]. split_and!; [apply wf_ex_pf| |cbn; unfold PFAllocator.MaxNumSeg; lia].
  exists 0%nat. split; [by left|]. exact Hk.
Qed.

Lemma initPaging_correct_witness : ∃ D T st', initPaging (mkVM ∅ ex_pf) 8388608 0 = Ok (D, T, st') ∧
  translate (vm_mem st') D 4198400 = Some 4096 ∧ Kernel st' D 8388608.
Proof.
  destruct (initPaging_correct (mkVM ∅ ex_pf) 8388608 0 40 10) as (D & T & st' & E & HP).
  - apply bytes_ok_empty.
  - lia.
  - unfold is_u32; lia.
  - lia.
  - apply ex_run; [vm_compute; discriminate|lia].
  - exists D, T, st'. split; [exact E|]. split.
    { rewrite (po_low _ _ _ _ _ _ _ HP) by (change (8388608 / dir_entrySize) with 2; unfold dir_entrySize; lia). reflexivity. }
    apply (po_kernel _ _ _ _ _ _ _ HP). apply ex_pf_used. lia.
Defined.

End PagingStart.
