(* ===== verification/Fork.v ===== *)
(** * Making processes ([fork] of [src/kernel/task.cpp], [makeSysProc] of
    [src/kernel/Process.cpp])

    [makeSysProc] builds a process with two stacks from nothing; [fork] copies the running
    process: its address space ([Clone.v]), its kernel stack frame and its place in the
    run queues. [varMem.kPdir] and [bootinfo.mem_size] are arguments. *)

From S2P Require Import Prelude Chain Memory KString KType PageFrames VarMem Timer Process Task Descriptor Clone.

Module Fork.
Import VarMem Process Task Clone.

(** ** The code *)

Definition set_id (v : Z) (p : Proc) : Proc :=
  mkProc v (p_next p) (prior p) (status p) (mm p) (kernel_info p) (recvQ p) (sendQ p) (recv_anyQ p).
Definition set_prior (v : Z) (p : Proc) : Proc :=
  mkProc (p_id p) (p_next p) v (status p) (mm p) (kernel_info p) (recvQ p) (sendQ p) (recv_anyQ p).
Definition set_mm (v : mm_struct) (p : Proc) : Proc :=
  mkProc (p_id p) (p_next p) (prior p) (status p) (Some v) (kernel_info p) (recvQ p) (sendQ p) (recv_anyQ p).
Definition set_kernel_info (v : kernel_info_s) (p : Proc) : Proc :=
  mkProc (p_id p) (p_next p) (prior p) (status p) (mm p) v (recvQ p) (sendQ p) (recv_anyQ p).
Definition set_stack_top (v : Z) (ki : kernel_info_s) : kernel_info_s :=
  mkKInfo v (k_ss ki) (k_sp ki) (ret_from ki) (k_cs ki).

Definition upd_k (k : K) (i : nat) (f : Proc → Proc) : K := with_pm k (upd_proc (pm k) i f).

(** [void copy_process(const Proc *src,Proc *dest)]. *)
Definition copy_process (fuel : nat) (k : K) (kPdir mem_size : Z) (src dest : nat) : res K :=
  let k := upd_k k dest (set_prior (prior (pr (pm k) src))) in
  let k := upd_k k dest (set_status TASK_STOPPED) in
  match mm (pr (pm k) src) with
  | None => Fault
  | Some src_mm =>
    '(dest_mm, v) ← clone_mm fuel (vm k) kPdir mem_size (cr3_reg k) src_mm (mm_init (mkMM 0 []));
    Ok (upd_k (with_vm k v) dest (set_mm dest_mm))
  end.

(** [void setup_stack(const Proc *current,Proc *clone)]: the frame at the top of the new
    kernel stack is a copy of the one of the running process. *)
Definition setup_stack (k : K) (current clone : nat) : res K :=
  '(p, pf) ← fa_alloc (vm_pf (vm k)) 1;
  let k := with_vm k (mkVM (vm_mem (vm k)) pf) in
  let k := upd_k k clone (λ c, set_kernel_info (set_stack_top (u32 (p + 4096 - 4)) (kernel_info c)) c) in
  let frame_curr := frame_of (pr (pm k) current) in
  let frame_clone := frame_of (pr (pm k) clone) in
  let k := with_vm k (mkVM (KString.memcpy (vm_mem (vm k)) frame_clone frame_curr (Z.to_nat frame_size)) (vm_pf (vm k))) in
  Ok (upd_k k clone (set_sp frame_clone)).

(** [pid_t fork(void)]. *)
Definition fork (fuel : nat) (k : K) (kPdir mem_size : Z) : res (Z * K) :=
  current ← current k;
  let '(a, p) := allocProc (pm k) in
  match a with
  | None => Fault
  | Some clone =>
    let '(id, p) := pid_gen p in
    let k := with_pm k (upd_proc p clone (set_id id)) in
    k ← copy_process fuel k kPdir mem_size current clone;
    let k := upd_k k clone (set_kernel_info (kernel_info (pr (pm k) current))) in
    let k := upd_k k clone (set_ret_from ret_from_fork) in
    k ← setup_stack k current clone;
    k ← wakeup k (p_id (pr (pm k) clone));
    Ok (p_id (pr (pm k) clone), k)
  end.

(** [static void register_stack(u32_t begin,u32_t end,bool is_user)]. *)
Definition register_stack {A : Type} `{!FrameAlloc A} (st : VarMem.vm A) (mm : mm_struct) (begin end_ : Z) (is_user : bool)
    : res (mm_struct * VarMem.vm A) :=
  let size := u32 (end_ - begin) in
  if is_user then
    let mm := add_region mm begin size (Z.lor READABLE WRITABLE) in
    st ← enableSpace st begin size (cr3 mm) userpage;
    Ok (mm, st)
  else
    let mm := add_region mm begin size (Z.lor (Z.lor READABLE WRITABLE) SYSTEM) in
    st ← enableSpace st begin size (cr3 mm) systempage;
    Ok (mm, st).

(** [Proc *PManager::makeSysProc()]. *)
Definition makeSysProc (k : K) (kPdir mem_size : Z) : res (nat * K) :=
  let '(a, p) := allocProc (pm k) in
  let k := with_pm k p in
  '(pdir, pf) ← fa_alloc (vm_pf (vm k)) 1;
  let k := with_vm k (mkVM (vm_mem (vm k)) pf) in
  match a with
  | None => Fault
  | Some pro =>
    let mm := mkMM pdir (regions (mm_init (mkMM 0 []))) in
    let k := upd_k k pro (set_status TASK_STOPPED) in
    let k := upd_k k pro (set_prior Psys) in
    let v := mkVM (copyKernelDir (vm_mem (vm k)) kPdir mem_size pdir) (vm_pf (vm k)) in
    '(mm, v) ← register_stack v mm sys_stack_begin_init sys_stack_end true;
    '(mm, v) ← register_stack v mm user_stack_begin_init user_stack_end true;
    '(p, pf) ← fa_alloc (vm_pf v) 1;
    let k := with_vm k (mkVM (vm_mem v) pf) in
    let ki := kernel_info (pr (Task.pm k) pro) in
    let ki := mkKInfo (u32 (p + 4096 - 4)) Descriptor.KDSeg (k_sp ki) kernel2user Descriptor.KCSeg in
    Ok (pro, upd_k (upd_k k pro (set_mm mm)) pro (set_kernel_info ki))
  end.

(** ** Lemmas: the process table *)

Implicit Types (p : PManager) (Q : list (list nat)) (i j : nat).

(** A room that was free: it is in no queue. *)
Record Fresh p Q i : Prop := {
  fr_wf : Wf p Q;
  fr_range : (i < nr_Proc)%nat;
  fr_out : i ∉ concat Q
}.

Lemma fresh_room p Q i : Fresh p Q i → (i < length (room (ProcL p)))%nat.
Proof. intros [HW Hi _]. by rewrite (wf_rooms _ _ HW). Qed.

(** Updates of a process outside of the queues. *)
Lemma fresh_upd p Q i f : Fresh p Q i → status (f (pr p i)) ≠ TASK_RUNNING → Fresh (upd_proc p i f) Q i.
Proof.
  intros HF Hst. pose proof (fresh_room _ _ _ HF) as Hr. destruct HF as [HW Hi Ho]. split; [|done|done].
  assert (Hne : ∀ j, j ≠ i → pr (upd_proc p i f) j = pr p j) by (intros j Hj; by apply pr_upd_ne).
  constructor; try apply HW.
  - cbn. rewrite length_alter. apply HW.
  - intros lvl l Hl. eapply lseg_ext; [|by apply (wf_chain _ _ HW)]. intros j Hj. unfold nxt. rewrite Hne; [done|].
    intros ->. apply Ho, elem_of_concat. eauto.
  - intros j Hj. destruct (decide (j = i)) as [->|Hji].
    + rewrite pr_upd, decide_True by done. tauto.
    + rewrite Hne by done. by apply (wf_status _ _ HW).
Qed.

Lemma fresh_alloc p Q i r : Wf p Q → allocProc p = (Some i, r) → (∀ j, j ∈ concat Q → leased p j) →
  length (isFree (ProcL p)) = nr_Proc →
  isFree (ProcL p) !! i = Some true ∧ Fresh r Q i ∧ room (ProcL r) = room (ProcL p) ∧
  isFree (ProcL r) = <[i := false]> (isFree (ProcL p)) ∧ pid_num r = pid_num p ∧ pCurrent r = pCurrent p.
Proof.
  intros HW E Hq Hl. unfold allocProc in E. destruct (get (ProcL p)) as [a l] eqn:Eg. injection E as -> <-.
  unfold get in Eg. destruct (first_free (isFree (ProcL p)) 0) as [j|] eqn:Ef; [|done]. injection Eg as -> <-.
  apply first_free_spec in Ef as (m & -> & Hm & _). cbn [Nat.add] in *. cbn. split_and!; try done.
  split.
  - destruct HW as [H1 H2 H3 H4 H5 H6 H7]. by constructor.
  - apply lookup_lt_Some in Hm. lia.
  - intros Hin%Hq. unfold leased in Hin. cbn in Hm. congruence.
Qed.

Lemma allocProc_none p r : allocProc p = (None, r) → ∀ j, isFree (ProcL p) !! j ≠ Some true.
Proof.
  intros Ea. unfold allocProc in Ea. destruct (get (ProcL p)) as [a l] eqn:Eg. injection Ea as -> <-.
  destruct (get_none _ _ Eg) as [_ Hno]. exact Hno.
Qed.

(** The process with a new id is found. *)
Lemma find_proc_at rooms frees id d (i : nat) q : rooms !! i = Some q → frees !! i = Some false → p_id q = id →
  (∀ (j : nat) q', (j < i)%nat → rooms !! j = Some q' → frees !! j = Some false → p_id q' ≠ id) →
  find_proc rooms frees id d = Some (d + i)%nat.
Proof.
  revert rooms frees d. induction i as [|i IH]; intros [|p rooms] [|b frees] d; cbn; try done.
  - intros [= ->] [= ->] -> _. rewrite Z.eqb_refl. cbn. f_equal. lia.
  - intros Hr Hb Hid Hlt. destruct (negb b && (p_id p =? id)) eqn:E.
    + apply andb_prop in E as [Eb E]. destruct b; [done|]. exfalso. apply (Hlt 0%nat p); [lia|done|done|lia].
    + rewrite (IH rooms frees (S d)); [f_equal; lia|done|done|done|]. intros j q' Hj. apply (Hlt (S j)). lia.
Qed.

Lemma getProc_at p i id : leased p i → (i < length (room (ProcL p)))%nat → p_id (pr p i) = id →
  (∀ j, j ≠ i → leased p j → p_id (pr p j) ≠ id) → getProc p id = Some i.
Proof.
  intros Hl Hlen Hid Hne. destruct (lookup_lt_is_Some_2 _ _ Hlen) as [q Hq]. unfold getProc. change (Some i) with (Some (0 + i)%nat).
  apply (find_proc_at _ _ _ _ i q); [done|done|by unfold pr in Hid; rewrite Hq in Hid|].
  intros j q' Hj Hq' Hlj. specialize (Hne j ltac:(lia) Hlj). unfold pr in Hne. by rewrite Hq' in Hne.
Qed.

Lemma linked_last_field {B : Type} (f : Proc → B) p lvl l i j :
  (∀ q v, f (set_next v q) = f q) → (∀ q v, f (set_status v q) = f q) → f (pr (linked_last p lvl l i) j) = f (pr p j).
Proof.
  intros Hn Hs. unfold linked_last. rewrite pr_upd_field by done. rewrite (pr_assign_field f) by (intros q; apply Hn).
  by apply pr_upd_field.
Qed.

Lemma linked_last_same p lvl l i :
  isFree (ProcL (linked_last p lvl l i)) = isFree (ProcL p) ∧ pCurrent (linked_last p lvl l i) = pCurrent p.
Proof. unfold linked_last, assign. by destruct (loc_after l). Qed.

Lemma linked_last_interval p lvl l i : interval (linked_last p lvl l i) = interval p.
Proof. unfold linked_last, assign. by destruct (loc_after l). Qed.

Lemma pid_gen_interval p (id : Z) q : pid_gen p = (id, q) → interval q = interval p.
Proof. by intros [= _ <-]. Qed.

Lemma alloc_interval p a r : allocProc p = (a, r) → interval r = interval p.
Proof. unfold allocProc. destruct (get (ProcL p)). by intros [= _ <-]. Qed.

Lemma upd_twice p i f g : upd_proc (upd_proc p i f) i g = upd_proc p i (λ q, g (f q)).
Proof.
  unfold upd_proc; cbn. do 2 f_equal. apply list_eq. intros j. destruct (decide (i = j)) as [->|].
  - rewrite !list_lookup_alter_eq. by destruct (room (ProcL p) !! j).
  - by rewrite !list_lookup_alter_ne.
Qed.

Lemma upd_at p i f g : f (pr p i) = g (pr p i) → upd_proc p i f = upd_proc p i g.
Proof.
  intros H. unfold upd_proc; cbn. do 2 f_equal. apply list_eq. intros j. destruct (decide (i = j)) as [->|].
  - rewrite !list_lookup_alter_eq. unfold pr in H. destruct (room (ProcL p) !! j); cbn in *; by rewrite ?H.
  - by rewrite !list_lookup_alter_ne.
Qed.

Lemma fresh_pid p Q i id q : Fresh p Q i → pid_gen p = (id, q) → Fresh q Q i ∧ ProcL q = ProcL p ∧ pCurrent q = pCurrent p.
Proof.
  intros [[H1 H2 H3 H4 H5 H6 H7] Hr Ho] [= <- <-]. split_and!; [|done|done]. split; [by constructor|done|done].
Qed.

(** Updates of different parts of the state. *)
Lemma with_pm_twice k a b : with_pm (with_pm k a) b = with_pm k b.
Proof. done. Qed.

Lemma with_vm_twice k a b : with_vm (with_vm k a) b = with_vm k b.
Proof. done. Qed.

Lemma with_vm_pm k a b : with_vm (with_pm k a) b = with_pm (with_vm k b) a.
Proof. done. Qed.

(** ** [fork] *)

(** The new kernel stack: the frame is copied and memory in use is left alone. *)
Lemma stack_copy (v : VarMem.vm PFAllocator.state) n frame_curr : fa_ready (vm_pf v) (S n) → bytes_ok (vm_mem v) →
  (∀ o, 0 ≤ o < frame_size → fa_used (vm_pf v) (frame_curr + o)) →
  ∃ (p : Z) pf', fa_alloc (vm_pf v) 1 = Ok (p, pf') ∧ fa_ready pf' n ∧ 0 ≤ p ∧ p + 4096 < 4294967296 ∧
    let m' := KString.memcpy (vm_mem v) (p + 4024) frame_curr (Z.to_nat frame_size) in
    bytes_ok m' ∧ (∀ a, fa_used (vm_pf v) a → fa_used pf' a ∧ load8 m' a = load8 (vm_mem v) a) ∧
    (∀ o, 0 ≤ o < frame_size → load8 m' (p + 4024 + o) = load8 (vm_mem v) (frame_curr + o)) ∧
    (∀ o, 0 ≤ o < frame_size → fa_used pf' (p + 4024 + o) ∧ ¬ fa_used (vm_pf v) (p + 4024 + o)).
Proof.
  intros Hr Hb Hf. destruct (fa_alloc_spec _ _ Hr) as (p & pf' & E & Hr' & Hal & H0 & Hhi & Hus & Hfr).
  exists p, pf'. split_and!; try done. intros m'. unfold frame_size in *.
  assert (Hd : p + 4024 ≤ frame_curr ∨ frame_curr + 68 ≤ p + 4024).
  { destruct (decide (p + 4024 ≤ frame_curr ∨ frame_curr + 68 ≤ p + 4024)) as [|Hn]; [done|]. exfalso.
    destruct (decide (frame_curr ≤ p + 4024)).
    - apply (Hfr (frame_curr + (p + 4024 - frame_curr))); [lia|]. apply Hf. lia.
    - apply (Hfr (frame_curr + 0)); [lia|]. apply Hf. lia. }
  destruct (KString.copy_up (vm_mem v) (p + 4024) frame_curr (Z.to_nat 68)) as [Hc Hk]; [intros i Hi; by apply load8_range|lia|].
  split_and!.
  - unfold m', KString.memcpy. apply (for_loop_ind (λ _ m, bytes_ok m)); [done|]. intros j t _ Ht. by apply bytes_ok_store8.
  - intros a Ha. split; [apply Hus; by left|]. apply Hk. intros Hin. apply (Hfr a); [lia|done].
  - intros o Ho. apply Hc. lia.
  - intros o Ho. split; [apply Hus; right; lia|apply Hfr; lia].
Qed.

(** What [fork] does, for the running process [c] with the address space [m], and the
    child [i] with the id [id] and the page directory [dir]. *)
Record Forked k k' Q mem_size (c i : nat) (m : mm_struct) (id dir : Z) : Prop := {
  fk_room : isFree (ProcL (pm k)) !! i = Some true ∧ leased (pm k') i;
  fk_found : getProc (pm k') id = Some i;
  fk_queues : ∃ l, Q !! Z.to_nat (prior (pr (pm k) c)) = Some l ∧
    Wf (pm k') (<[Z.to_nat (prior (pr (pm k) c)) := l ++ [i]]> Q);
  fk_child : p_id (pr (pm k') i) = id ∧ status (pr (pm k') i) = TASK_RUNNING ∧
    prior (pr (pm k') i) = prior (pr (pm k) c) ∧ mm (pr (pm k') i) = Some (mkMM dir (regions m));
  fk_kernel : let ki := kernel_info (pr (pm k') i) in let kc := kernel_info (pr (pm k) c) in
    ret_from ki = ret_from_fork ∧ k_sp ki = frame_of (pr (pm k') i) ∧ k_ss ki = k_ss kc ∧ k_cs ki = k_cs kc;
  fk_frame : ∀ o, 0 ≤ o < frame_size → load8 (vm_mem (vm k')) (frame_of (pr (pm k') i) + o) =
    load8 (vm_mem (vm k)) (frame_of (pr (pm k) c) + o);
  fk_stack : frame_size ≤ stack_top (kernel_info (pr (pm k') i)) < 4294967296 ∧
    ∀ o, 0 ≤ o < frame_size → fa_used (vm_pf (vm k')) (frame_of (pr (pm k') i) + o) ∧
      ¬ fa_used (vm_pf (vm k)) (frame_of (pr (pm k') i) + o);
  fk_space : Cloned (vm k) (vm k') mem_size (cr3 m) dir (regions m);
  fk_others : ∀ j, j ≠ i → p_id (pr (pm k') j) = p_id (pr (pm k) j) ∧ status (pr (pm k') j) = status (pr (pm k) j) ∧
    prior (pr (pm k') j) = prior (pr (pm k) j) ∧
    mm (pr (pm k') j) = mm (pr (pm k) j) ∧ kernel_info (pr (pm k') j) = kernel_info (pr (pm k) j);
  fk_messages : ∀ j, j ≠ i → sendQ (pr (pm k') j) = sendQ (pr (pm k) j);
  fk_current : pCurrent (pm k') = Some c ∧ cr3_reg k' = cr3_reg k ∧ sched_req k' = true;
  fk_machine : esp k' = esp k ∧ tss_esp0 k' = tss_esp0 k ∧ isFree (ProcL (pm k')) = <[i := false]> (isFree (ProcL (pm k)));
  fk_clock : timer k' = timer k ∧ irqQue k' = irqQue k ∧ interval (pm k') = interval (pm k)
}.

(** The room of the child before it is woken up. *)
Definition child_of (c : Proc) (id : Z) (mm' : mm_struct) (p : Z) (q : Proc) : Proc :=
  let ki := kernel_info c in
  mkProc id (p_next q) (prior c) TASK_STOPPED (Some mm') (mkKInfo (p + 4092) (k_ss ki) (p + 4024) ret_from_fork (k_cs ki))
    (recvQ q) (sendQ q) (recv_anyQ q).

(** The steps of [fork] up to [wakeup] are one update of the child's room. *)
Lemma fork_steps fuel k Q kPdir mem_size c i m n r id p0 : pCurrent (pm k) = Some c → c ≠ i →
  allocProc (pm k) = (Some i, r) → pid_gen r = (id, p0) → Fresh p0 Q i → (∀ j, pr p0 j = pr (pm k) j) →
  mm (pr (pm k) c) = Some m → cr3_reg k = cr3 m → Kernel (vm k) kPdir mem_size → Space (vm k) (cr3 m) →
  Forall (region_mapped (vm k) mem_size (cr3 m)) (regions m) → Forall (λ r, (region_pages r < fuel)%nat) (regions m) →
  fa_ready (vm_pf (vm k)) (S (region_frames (regions m) + S n)) →
  (∀ o, 0 ≤ o < frame_size → fa_used (vm_pf (vm k)) (frame_of (pr (pm k) c) + o)) →
  ∃ dir v (p : Z), 0 ≤ p ∧ p + 4096 < 4294967296 ∧ Cloned (vm k) v mem_size (cr3 m) dir (regions m) ∧ fa_ready (vm_pf v) n ∧
    (∀ o, 0 ≤ o < frame_size → load8 (vm_mem v) (p + 4024 + o) = load8 (vm_mem (vm k)) (frame_of (pr (pm k) c) + o)) ∧
    (∀ o, 0 ≤ o < frame_size → fa_used (vm_pf v) (p + 4024 + o) ∧ ¬ fa_used (vm_pf (vm k)) (p + 4024 + o)) ∧
    let k1 := with_vm (with_pm k (upd_proc p0 i (child_of (pr (pm k) c) id (mkMM dir (regions m)) p))) v in
    fork fuel k kPdir mem_size = (k ← wakeup k1 id; Ok (p_id (pr (pm k) i), k)).
Proof.
  intros Hc Hne Ea Eid HF Hpr Hm Hcr HKe HS Hok Hf Hr Hfr.
  destruct (clone_mm_spec fuel (vm k) kPdir mem_size m (mm_init (mkMM 0 [])) (S n) HKe HS Hok Hf Hr) as (dir & v1 & Ecl & Hr1 & HC).
  destruct (stack_copy v1 n (frame_of (pr (pm k) c)) Hr1 (sp_bytes _ _ (cl_space _ _ _ _ _ _ HC)))
    as (p & pf' & Ep & Hr2 & H0 & Hhi & Hb & Hk & Hcp & Hnew); [intros o Ho; by apply (cl_used _ _ _ _ _ _ HC), Hfr|].
  exists dir, (mkVM (KString.memcpy (vm_mem v1) (p + 4024) (frame_of (pr (pm k) c)) (Z.to_nat frame_size)) pf'), p.
  split_and!; [done|done|by eapply Cloned_keep|done|intros o Ho; cbn [vm_mem]; rewrite Hcp by done; by apply (cl_used _ _ _ _ _ _ HC), Hfr|
    intros o Ho; destruct (Hnew o Ho) as [Hu Hn]; split; [done|]; intros Ha; by apply Hn, (cl_used _ _ _ _ _ _ HC)|].
  pose proof (fresh_room _ _ _ HF) as Hroom.
  assert (Hoc : ∀ f, pr (upd_proc p0 i f) c = pr (pm k) c) by (intros f; by rewrite pr_upd_ne, Hpr).
  assert (Hoi : ∀ f, pr (upd_proc p0 i f) i = f (pr p0 i)) by (intros f; by rewrite pr_upd, decide_True).
  unfold fork, current. rewrite Hc. cbn [mbind res_bind]. rewrite Ea, Eid. unfold copy_process, upd_k. cbn [pm with_pm vm cr3_reg].
  rewrite !upd_twice, !Hoc, Hm, Hcr. cbn [vm with_pm cr3_reg]. rewrite Ecl. cbn [mbind res_bind].
  unfold setup_stack, upd_k. cbn [pm with_pm vm with_vm cr3_reg]. rewrite !upd_twice, !Hoc. rewrite Ep. cbn [mbind res_bind pm with_pm vm with_vm].
  rewrite !upd_twice, !Hoc, !Hoi.
  replace (u32 (p + 4096 - 4)) with (p + 4092) by (rewrite u32_id by (unfold is_u32; lia); lia).
  set (fc := frame_of (pr (pm k) c)) in *. unfold frame_of, frame_size. cbn [kernel_info set_kernel_info stack_top set_stack_top].
  rewrite (u32_id (p + 4092 - 68)) by (unfold is_u32; lia). replace (p + 4092 - 68) with (p + 4024) by lia.
  match goal with |- ?L = ?R =>
    match L with context [wakeup ?ka _] => match R with context [wakeup ?kb _] => assert (Ek : ka = kb) end end end.
  { rewrite !with_vm_pm, !with_vm_twice, !with_pm_twice. f_equal. }
  rewrite Ek. reflexivity.
Qed.

(** The running process [c] with the address space [m] can fork: the process table has
    room and a new id, its regions are whole pages in allocated frames, and there are
    frames for the copies and the new kernel stack. *)
Record CanFork fuel k Q kPdir mem_size (c : nat) (m : mm_struct) : Prop := {
  cf_wf : Wf (pm k) Q;
  cf_leased : ∀ j, j ∈ concat Q → leased (pm k) j;
  cf_frees : length (isFree (ProcL (pm k))) = nr_Proc;
  cf_current : pCurrent (pm k) = Some c ∧ leased (pm k) c;
  cf_room : ∃ j, isFree (ProcL (pm k)) !! j = Some true;
  cf_id : ∀ j, leased (pm k) j → p_id (pr (pm k) j) ≠ fst (pid_gen (pm k));
  cf_prior : 0 ≤ prior (pr (pm k) c) < Z.of_nat nr_Level;
  cf_mm : mm (pr (pm k) c) = Some m ∧ cr3_reg k = cr3 m;
  cf_kernel : Kernel (vm k) kPdir mem_size;
  cf_space : Space (vm k) (cr3 m);
  cf_regions : Forall (region_mapped (vm k) mem_size (cr3 m)) (regions m);
  cf_fuel : Forall (λ r, (region_pages r < fuel)%nat) (regions m);
  cf_frames : fa_ready (vm_pf (vm k)) (region_frames (regions m) + 2);
  cf_frame : ∀ o, 0 ≤ o < frame_size → fa_used (vm_pf (vm k)) (frame_of (pr (pm k) c) + o)
}.

(** [wakeup] of the child. *)
Lemma wake_child k1 Q i p0 f id pri : pm k1 = upd_proc p0 i f → Fresh p0 Q i → isFree (ProcL p0) !! i = Some false →
  (∀ j, j ≠ i → leased p0 j → p_id (pr p0 j) ≠ id) →
  (∀ q, p_id (f q) = id ∧ status (f q) = TASK_STOPPED ∧ prior (f q) = pri) → 0 ≤ pri < Z.of_nat nr_Level →
  ∃ l, Q !! Z.to_nat pri = Some l ∧ Wf (linked_last (pm k1) (Z.to_nat pri) l i) (<[Z.to_nat pri := l ++ [i]]> Q) ∧
    getProc (pm k1) id = Some i ∧ wakeup k1 id = Ok (reschedule (with_pm k1 (linked_last (pm k1) (Z.to_nat pri) l i))).
Proof.
  intros Epm HF Hl Hid Hf Hpri. pose proof (fresh_room _ _ _ HF) as Hroom.
  assert (HF1 : Fresh (pm k1) Q i) by (rewrite Epm; apply fresh_upd; [done|by rewrite (proj1 (proj2 (Hf _)))]).
  assert (Epr : pr (pm k1) i = f (pr p0 i)) by (by rewrite Epm, pr_upd, decide_True).
  assert (Hg : getProc (pm k1) id = Some i).
  { apply getProc_at; [by rewrite Epm|by rewrite Epm, procs_length_upd|rewrite Epr; apply Hf|].
    intros j Hj Hlj. rewrite Epm in *. rewrite pr_upd_ne by done. by apply Hid. }
  assert (Hlv : (Z.to_nat pri < nr_Level)%nat) by (unfold nr_Level in *; lia).
  destruct (wf_level_lookup _ _ _ (fr_wf _ _ _ HF) Hlv) as [l Hll].
  destruct (runq_enque_ok (pm k1) Q i 0 (Z.to_nat pri) l) as [Een HW'];
    [exact (fr_wf _ _ _ HF1)|exact (fr_range _ _ _ HF1)|rewrite Epr; apply Hf| |done|lia|done|].
  { rewrite Epr. cbn. by rewrite (proj2 (proj2 (Hf _))). }
  exists l. split_and!; [done|done|done|]. unfold wakeup. rewrite Hg, Een. reflexivity.
Qed.

Lemma fork_spec fuel k Q kPdir mem_size c m : CanFork fuel k Q kPdir mem_size c m →
  ∃ i k' dir, fork fuel k kPdir mem_size = Ok (fst (pid_gen (pm k)), k') ∧
    Forked k k' Q mem_size c i m (fst (pid_gen (pm k))) dir.
Proof.
  intros [HW Hq Hlen [Hc Hlc] [j0 Hj0] Hid Hpri [Hm Hcr] HKe HS Hok Hf Hr Hfr].
  destruct (allocProc (pm k)) as [a r] eqn:Ea. destruct a as [i|].
  2: { by destruct (allocProc_none _ _ Ea j0). }
  destruct (fresh_alloc _ _ _ _ HW Ea Hq Hlen) as (Hfree & HF & Eroom & Efree & Epid & Ecur).
  destruct (pid_gen r) as [id p0] eqn:Eid. destruct (fresh_pid _ _ _ _ _ HF Eid) as (HF0 & EL & Ecur0).
  assert (Hidk : fst (pid_gen (pm k)) = id) by (unfold pid_gen in *; rewrite Epid in Eid; by injection Eid). rewrite Hidk in *.
  assert (Hpr : ∀ j, pr p0 j = pr (pm k) j) by (intros j; unfold pr; by rewrite EL, Eroom).
  assert (Hne : c ≠ i) by (intros ->; unfold leased in Hlc; congruence).
  assert (Hr' : fa_ready (vm_pf (vm k)) (S (region_frames (regions m) + 1))) by (eapply fa_ready_le; [|exact Hr]; lia).
  destruct (fork_steps fuel k Q kPdir mem_size c i m 0 r id p0 Hc Hne Ea Eid HF0 Hpr Hm Hcr HKe HS Hok Hf Hr' Hfr)
    as (dir & v & p & H0 & Hhi & HC & _ & Hcp & Hnew & Ek). cbv zeta in Ek. rewrite Ek. clear Ek.
  assert (Hlen0 : (i < length (isFree (ProcL (pm k))))%nat) by (by eapply lookup_lt_Some).
  set (k1 := with_vm _ _). assert (Epm : pm k1 = upd_proc p0 i (child_of (pr (pm k) c) id (mkMM dir (regions m)) p)) by done.
  destruct (wake_child k1 Q i p0 _ id (prior (pr (pm k) c)) Epm HF0) as (l & Hl & HW' & Hg & ->); try done.
  { rewrite EL, Efree. by apply list_lookup_insert_eq. }
  { intros j Hj Hlj. rewrite Hpr. apply Hid. unfold leased in *. rewrite EL, Efree in Hlj. by rewrite list_lookup_insert_ne in Hlj. }
  cbn [mbind res_bind]. set (p1 := linked_last (pm k1) _ l i) in *.
  assert (Hfld : ∀ (B : Type) (g : Proc → B) j, (∀ q w, g (set_next w q) = g q) → (∀ q w, g (set_status w q) = g q) →
    g (pr p1 j) = if decide (j = i) then g (child_of (pr (pm k) c) id (mkMM dir (regions m)) p (pr (pm k) i)) else g (pr (pm k) j)).
  { intros B g j G1 G2. unfold p1. rewrite (linked_last_field g) by done. rewrite Epm, pr_upd by (by apply (fresh_room _ _ _ HF0)).
    rewrite !Hpr. by case_decide. }
  assert (Hst : ∀ j, status (pr p1 j) = if decide (j = i) then TASK_RUNNING else status (pr (pm k) j)).
  { intros j. unfold p1. rewrite linked_last_status by (rewrite Epm, procs_length_upd; by apply (fresh_room _ _ _ HF0)).
    case_decide; [done|]. by rewrite Epm, pr_upd_ne, Hpr. }
  assert (Hki := Hfld _ kernel_info i ltac:(done) ltac:(done)). rewrite decide_True in Hki by done.
  assert (Hfo : frame_of (pr p1 i) = p + 4024).
  { unfold frame_of. rewrite Hki. cbn [child_of kernel_info stack_top]. unfold frame_size. rewrite u32_id by (unfold is_u32; lia). lia. }
  change (pm (reschedule (with_pm k1 p1))) with p1.
  exists i, (reschedule (with_pm k1 p1)), dir. split; [|split; change (pm (reschedule (with_pm k1 p1))) with p1; change (vm (reschedule (with_pm k1 p1))) with v].
  - rewrite (Hfld _ p_id i) by done. by rewrite decide_True.
  - split; [done|]. unfold leased, p1. rewrite (proj1 (linked_last_same _ _ _ _)), Epm.
    change (isFree (ProcL (upd_proc p0 i _))) with (isFree (ProcL p0)). rewrite EL, Efree. by apply list_lookup_insert_eq.
  - unfold p1. by rewrite getProc_linked_last.
  - by exists l.
  - rewrite (Hfld _ p_id i), (Hfld _ prior i), (Hfld _ mm i), Hst by done. rewrite !decide_True by done. done.
  - cbv zeta. rewrite Hki, Hfo. done.
  - intros o Ho. rewrite Hfo. by apply Hcp.
  - split; [rewrite Hki; cbn [child_of kernel_info stack_top]; unfold frame_size; lia|].
    intros o Ho. rewrite Hfo. by apply Hnew.
  - done.
  - intros j Hj. rewrite (Hfld _ p_id j), (Hfld _ prior j), (Hfld _ mm j), (Hfld _ kernel_info j), Hst by done. by rewrite !decide_False by done.
  - intros j Hj. rewrite (Hfld _ sendQ j) by done. by rewrite decide_False.
  - split_and!; [|done|done]. unfold p1. by rewrite (proj2 (linked_last_same _ _ _ _)), Epm, <- Hc, <- Ecur, <- Ecur0.
  - split_and!; [done|done|]. unfold p1. rewrite (proj1 (linked_last_same _ _ _ _)), Epm.
    change (isFree (ProcL (upd_proc p0 i _))) with (isFree (ProcL p0)). by rewrite EL, Efree.
  - split_and!; [done|done|]. unfold p1. rewrite linked_last_interval, Epm. change (interval (upd_proc p0 i _)) with (interval p0).
    by rewrite (pid_gen_interval _ _ _ Eid), (alloc_interval _ _ _ Ea).
Qed.

(** C14: [fork] copies the running process. The child gets a free room of the table
    and a new id, by which it is found; it joins the end of the run queue of its parent's
    priority and is runnable. Its address space is a private copy of the parent's (as for
    [clone_mm]), its kernel stack holds a copy of the parent's register frame, and it resumes
    in [ret_from_fork]. The other processes and all memory that was in use keep their
    values; the parent goes on, gets the id of the child, and a reschedule is requested. *)
Theorem fork_correct fuel k Q kPdir mem_size c m : CanFork fuel k Q kPdir mem_size c m →
  ∃ i k' dir, fork fuel k kPdir mem_size = Ok (fst (pid_gen (pm k)), k') ∧
    Forked k k' Q mem_size c i m (fst (pid_gen (pm k))) dir.
Proof. apply fork_spec. Qed.

(** ** [makeSysProc] *)

Definition stack_region (begin : Z) : mm_region := mkRegion (Z.lor READABLE WRITABLE) begin 8192.

(** The two stacks are below the kernel's part of the address space when the memory ends
    below the first. *)
Lemma stack_user mem_size begin va : mem_size ≤ 1069547520 → begin = sys_stack_begin_init ∨ begin = user_stack_begin_init →
  begin ≤ va < begin + 8192 → user (kslot mem_size) va.
Proof.
  intros Hm Hb Hva. unfold user, is_va, kslot, dir_entrySize, sys_stack_begin_init, user_stack_begin_init in *.
  destruct Hb; Z.div_mod_to_equations; lia.
Qed.

(** A stack whose first pages are mapped is mapped. *)
Lemma stack_mapped m dir begin va : begin `mod` 4096 = 0 → 0 ≤ begin → begin + 8192 < 4294967296 →
  (∀ k, 0 ≤ k < 2 → is_Some (translate m dir (begin + 4096 * k))) → begin ≤ va < begin + 8192 → is_Some (translate m dir va).
Proof.
  intros Hal H0 Hhi Hm Hva. destruct (translate m dir va) as [x|] eqn:E; [by eexists|]. exfalso.
  assert (Hk : 0 ≤ (va - begin) / 4096 < 2) by (Z.div_mod_to_equations; lia).
  destruct (Hm _ Hk) as [x Hx]. rewrite (translate_same_page m dir va) in Hx; [done|unfold is_va; lia|unfold is_va; lia| |done].
  Z.div_mod_to_equations; lia.
Qed.

Lemma register_stack_spec (st : VarMem.vm PFAllocator.state) dir mem_size U mm begin end_ n :
  Own dir (kslot mem_size) U st → cr3 mm = dir → mem_size ≤ 1069547520 → end_ = begin + 8192 →
  begin = sys_stack_begin_init ∨ begin = user_stack_begin_init → fa_ready (vm_pf st) (4 + n) →
  ∃ st', register_stack st mm begin end_ true = Ok (mkMM dir (regions mm ++ [stack_region begin]), st') ∧
    Own dir (kslot mem_size) U st' ∧ Kept dir (kslot mem_size) U st st' ∧ fa_ready (vm_pf st') n ∧
    ∀ va, begin ≤ va < begin + 8192 → is_Some (translate (vm_mem st') dir va).
Proof.
  intros HO Hc Hms -> Hb Hr. unfold register_stack.
  assert (Hb0 : 0 ≤ begin ∧ begin `mod` 4096 = 0 ∧ begin + 12287 < 4294967296).
  { unfold sys_stack_begin_init, user_stack_begin_init in Hb. destruct Hb as [-> | ->]; split_and!; (lia || reflexivity). }
  replace (u32 (begin + 8192 - begin)) with (4096 * Z.of_nat 2) by (rewrite u32_id by (unfold is_u32; lia); lia).
  destruct (enableSpace_own dir (kslot mem_size) U st begin 2 userpage n HO) as (st' & E & HO' & HK' & Hr' & Hm'); try done; try lia.
  { intros va Hva. apply (stack_user mem_size begin); [done|done|lia]. }
  change (cr3 (add_region mm begin (4096 * Z.of_nat 2) (Z.lor READABLE WRITABLE))) with (cr3 mm). rewrite Hc, E. cbn [mbind res_bind].
  exists st'. split_and!; [|done|done|done|].
  - do 2 f_equal. unfold add_region. by rewrite Hc.
  - intros va Hva. eapply stack_mapped; [..|exact Hva]; (done || lia || tauto).
Qed.

(** What [makeSysProc] makes: process [i] with the page directory [dir]; [n] frames are left. *)
Record SysProc (n : nat) k k' Q (i : nat) (dir : Z) : Prop := {
  sy_room : isFree (ProcL (pm k)) !! i = Some true ∧ isFree (ProcL (pm k')) = <[i := false]> (isFree (ProcL (pm k)));
  sy_queues : Wf (pm k') Q ∧ i ∉ concat Q;
  sy_proc : status (pr (pm k') i) = TASK_STOPPED ∧ prior (pr (pm k') i) = Psys ∧
    mm (pr (pm k') i) = Some (mkMM dir [stack_region sys_stack_begin_init; stack_region user_stack_begin_init]);
  sy_kernel : let ki := kernel_info (pr (pm k') i) in
    ret_from ki = kernel2user ∧ k_ss ki = Descriptor.KDSeg ∧ k_cs ki = Descriptor.KCSeg ∧
    ∀ o, 0 ≤ o < frame_size → fa_used (vm_pf (vm k')) (frame_of (pr (pm k') i) + o) ∧
      ¬ fa_used (vm_pf (vm k)) (frame_of (pr (pm k') i) + o);
  sy_space : Space (vm k') dir;
  sy_stacks : ∀ begin va, begin = sys_stack_begin_init ∨ begin = user_stack_begin_init → begin ≤ va < begin + 8192 →
    ∃ x, translate (vm_mem (vm k')) dir va = Some x ∧ fa_used (vm_pf (vm k')) x ∧ ¬ fa_used (vm_pf (vm k)) x;
  sy_memory : ∀ a, fa_used (vm_pf (vm k)) a → fa_used (vm_pf (vm k')) a ∧ load8 (vm_mem (vm k')) a = load8 (vm_mem (vm k)) a;
  sy_others : ∀ j, j ≠ i → pr (pm k') j = pr (pm k) j;
  sy_same : pid_num (pm k') = pid_num (pm k) ∧ pCurrent (pm k') = pCurrent (pm k) ∧ timer k' = timer k;
  sy_top : frame_size ≤ stack_top (kernel_info (pr (pm k') i)) < 4294967296;
  sy_clock : irqQue k' = irqQue k ∧ interval (pm k') = interval (pm k);
  sy_frames : fa_ready (vm_pf (vm k')) n
}.

(** The address space of a new system process: its directory, both stacks, and the page
    of the kernel stack. *)
Lemma sys_space (v : VarMem.vm PFAllocator.state) kPdir mem_size n : Kernel v kPdir mem_size → bytes_ok (vm_mem v) →
  mem_size ≤ 1069547520 → fa_ready (vm_pf v) (10 + n) →
  ∃ (dir : Z) pf1 v1 v2 (p : Z) pf2, fa_alloc (vm_pf v) 1 = Ok (dir, pf1) ∧
    register_stack (mkVM (copyKernelDir (vm_mem v) kPdir mem_size dir) pf1) (mkMM dir []) sys_stack_begin_init sys_stack_end true =
      Ok (mkMM dir [stack_region sys_stack_begin_init], v1) ∧
    register_stack v1 (mkMM dir [stack_region sys_stack_begin_init]) user_stack_begin_init user_stack_end true =
      Ok (mkMM dir [stack_region sys_stack_begin_init; stack_region user_stack_begin_init], v2) ∧
    fa_alloc (vm_pf v2) 1 = Ok (p, pf2) ∧ fa_ready pf2 n ∧ 0 ≤ p ∧ p + 4096 < 4294967296 ∧ Space (mkVM (vm_mem v2) pf2) dir ∧
    (∀ begin va, begin = sys_stack_begin_init ∨ begin = user_stack_begin_init → begin ≤ va < begin + 8192 →
       ∃ x, translate (vm_mem v2) dir va = Some x ∧ fa_used pf2 x ∧ ¬ fa_used (vm_pf v) x) ∧
    (∀ a, fa_used (vm_pf v) a → fa_used pf2 a ∧ load8 (vm_mem v2) a = load8 (vm_mem v) a) ∧
    (∀ a, p ≤ a < p + 4096 → fa_used pf2 a ∧ ¬ fa_used (vm_pf v) a).
Proof.
  intros HKe Hb Hms Hr. destruct (fa_alloc_spec _ _ Hr) as (dir & pf1 & E1 & Hr1 & Hal & H0 & Hhi & Hus & Hfr).
  pose proof (new_dir_own v pf1 kPdir mem_size dir HKe Hb Hal Hus Hfr) as HO. set (v0 := mkVM _ pf1) in *.
  destruct (register_stack_spec v0 dir mem_size _ (mkMM dir []) sys_stack_begin_init sys_stack_end (5 + n) HO)
    as (v1 & Es1 & HO1 & HK1 & Hr2 & Hm1); try done; [by left|].
  destruct (register_stack_spec v1 dir mem_size _ (mkMM dir [stack_region sys_stack_begin_init]) user_stack_begin_init user_stack_end (1 + n) HO1)
    as (v2 & Es2 & HO2 & HK2 & Hr3 & Hm2); try done; [by right|].
  destruct (fa_alloc_spec _ _ Hr3) as (p & pf2 & E2 & Hr4 & _ & H0' & Hhi' & Hus' & Hfr').
  assert (Hv0 : ∀ a, fa_used (vm_pf v) a → load8 (vm_mem v0) a = load8 (vm_mem v) a).
  { intros a Ha. apply copyKernelDir_byte; [apply (ke_size _ _ _ HKe)|]. intros Hin. by apply (Hfr a Hin). }
  exists dir, pf1, v1, v2, p, pf2. split_and!; try done.
  - apply (Space_keep v2); [apply HO2|apply HO2|]. intros a Ha. split; [apply Hus'; by left|done].
  - intros begin va Hbeg Hva. assert (Hv : user (kslot mem_size) va) by (by apply (stack_user mem_size begin)).
    assert (Hx : is_Some (translate (vm_mem v2) dir va)).
    { destruct Hbeg as [-> | ->]; [|by apply Hm2]. destruct (Hm1 va Hva) as [x Hx]. exists x. by apply (kp_map _ _ _ _ _ HK2). }
    destruct Hx as [x Hx]. exists x. destruct (ow_frame _ _ _ _ HO2 va x Hv Hx) as (F1 & F2 & _).
    split_and!; [done| |by apply F2]. apply Hus'. left. apply F1. Z.div_mod_to_equations; lia.
  - intros a Ha. split; [apply Hus'; left; by apply (ow_U _ _ _ _ HO2)|].
    by rewrite (kp_U _ _ _ _ _ HK2), (kp_U _ _ _ _ _ HK1), Hv0.
  - intros a Ha. split; [apply Hus'; by right|]. intros Hu. apply (Hfr' a Ha). by apply (ow_U _ _ _ _ HO2).
Qed.

(** The process table has room for a process, and the memory for its pages and [n] more. *)
Record CanMake n k Q kPdir mem_size : Prop := {
  cm_wf : Wf (pm k) Q;
  cm_leased : ∀ j, j ∈ concat Q → leased (pm k) j;
  cm_frees : length (isFree (ProcL (pm k))) = nr_Proc;
  cm_room : ∃ j, isFree (ProcL (pm k)) !! j = Some true;
  cm_kernel : Kernel (vm k) kPdir mem_size;
  cm_bytes : bytes_ok (vm_mem (vm k));
  cm_size : mem_size ≤ 1069547520;
  cm_frames : fa_ready (vm_pf (vm k)) (10 + n)
}.

(** The process that [makeSysProc] puts in its room. *)
Definition sys_proc (dir p : Z) (q : Proc) : Proc :=
  mkProc (p_id q) (p_next q) Psys TASK_STOPPED
    (Some (mkMM dir [stack_region sys_stack_begin_init; stack_region user_stack_begin_init]))
    (mkKInfo (p + 4092) Descriptor.KDSeg (k_sp (kernel_info q)) kernel2user Descriptor.KCSeg)
    (recvQ q) (sendQ q) (recv_anyQ q).

Lemma makeSysProc_steps n k Q kPdir mem_size i r : CanMake n k Q kPdir mem_size → allocProc (pm k) = (Some i, r) → Fresh r Q i →
  ∃ (dir p : Z) v,
    makeSysProc k kPdir mem_size = Ok (i, with_vm (with_pm k (upd_proc r i (sys_proc dir p))) v) ∧
    fa_ready (vm_pf v) n ∧ 0 ≤ p ∧ p + 4096 < 4294967296 ∧ Space v dir ∧
    (∀ begin va, begin = sys_stack_begin_init ∨ begin = user_stack_begin_init → begin ≤ va < begin + 8192 →
       ∃ x, translate (vm_mem v) dir va = Some x ∧ fa_used (vm_pf v) x ∧ ¬ fa_used (vm_pf (vm k)) x) ∧
    (∀ a, fa_used (vm_pf (vm k)) a → fa_used (vm_pf v) a ∧ load8 (vm_mem v) a = load8 (vm_mem (vm k)) a) ∧
    (∀ a, p ≤ a < p + 4096 → fa_used (vm_pf v) a ∧ ¬ fa_used (vm_pf (vm k)) a).
Proof.
  intros HC Ea HF. pose proof (fresh_room _ _ _ HF) as Hroom.
  destruct (sys_space (vm k) kPdir mem_size n) as (dir & pf1 & v1 & v2 & p & pf2 & E1 & Es1 & Es2 & E2 & Hr & H0 & Hhi & Hsp & Hst & Hk & Hp);
    [apply HC..|].
  exists dir, p, (mkVM (vm_mem v2) pf2). split_and!; try done.
  unfold makeSysProc. rewrite Ea. cbn [vm with_pm]. rewrite E1. cbn [mbind res_bind].
  unfold upd_k. cbn [pm with_pm vm with_vm cr3_reg vm_mem vm_pf]. change (regions (mm_init (mkMM 0 []))) with (@nil mm_region).
  rewrite Es1. cbn [mbind res_bind]. rewrite Es2. cbn [mbind res_bind]. rewrite E2. cbn [mbind res_bind pm with_pm vm with_vm].
  rewrite !upd_twice, pr_upd, decide_True by done.
  replace (u32 (p + 4096 - 4)) with (p + 4092) by (rewrite u32_id by (unfold is_u32; lia); lia).
  rewrite !with_vm_pm, !with_vm_twice, !with_pm_twice. do 3 f_equal. by apply upd_at.
Qed.

Lemma makeSysProc_spec n k Q kPdir mem_size : CanMake n k Q kPdir mem_size →
  ∃ i k' dir, makeSysProc k kPdir mem_size = Ok (i, k') ∧ SysProc n k k' Q i dir.
Proof.
  intros HC. pose proof HC as [HW Hq Hlen [j0 Hj0] _ _ _ _]. destruct (allocProc (pm k)) as [a r] eqn:Ea. destruct a as [i|].
  2: { by destruct (allocProc_none _ _ Ea j0). }
  destruct (fresh_alloc _ _ _ _ HW Ea Hq Hlen) as (Hfree & HF & Eroom & Efree & Epid & Ecur). pose proof (fresh_room _ _ _ HF) as Hroom.
  destruct (makeSysProc_steps n k Q kPdir mem_size i r HC Ea HF) as (dir & p & v & E & Hrn & H0 & Hhi & Hsp & Hst & Hk & Hp).
  eexists i, _, dir. split; [exact E|]. clear E.
  assert (Epr : ∀ j, pr (upd_proc r i (sys_proc dir p)) j = if decide (j = i) then sys_proc dir p (pr (pm k) i) else pr (pm k) j).
  { intros j. rewrite pr_upd by done. unfold pr. rewrite Eroom. by case_decide; subst. }
  assert (HF' : Fresh (upd_proc r i (sys_proc dir p)) Q i) by (by apply fresh_upd).
  split; cbn [pm vm with_pm with_vm]; rewrite ?Epr, ?decide_True by done; try done.
  - split; [apply (fr_wf _ _ _ HF')|apply (fr_out _ _ _ HF')].
  - split_and!; try done. intros o Ho. unfold frame_of, frame_size in *. cbn [sys_proc kernel_info stack_top].
    rewrite (u32_id (p + 4092 - 68)) by (unfold is_u32; lia). apply Hp. lia.
  - intros j Hj. by rewrite Epr, decide_False.
  - cbn [sys_proc kernel_info stack_top]. unfold frame_size. lia.
  - split; [done|]. exact (alloc_interval _ _ _ Ea).
Qed.

(** The kernel's address space and the next process. *)
Lemma Kernel_keep (st st' : VarMem.vm PFAllocator.state) kPdir mem_size : Kernel st kPdir mem_size →
  (∀ a, fa_used (vm_pf st) a → fa_used (vm_pf st') a ∧ load8 (vm_mem st') a = load8 (vm_mem st) a) →
  Kernel st' kPdir mem_size.
Proof.
  intros [H1 H2 H3 H4 H5 H6] Hk.
  assert (Hu : ∀ q, page_used st q → page_used st' q) by (intros q Hq a Ha; by apply Hk, Hq).
  assert (Hd : ∀ i : Z, 0 ≤ i < 1024 → dirE (vm_mem st') kPdir i = dirE (vm_mem st) kPdir i) by (intros i Hi; by apply (used_word st)).
  split; [done|done|by apply Hu|by apply Hk| |].
  - intros i Hi Hs. rewrite Hd by done. intros Hx. by apply Hu, H5.
  - intros i j Hi Hj. rewrite !Hd by done. by apply H6.
Qed.

Lemma SysProc_next n k k' Q kPdir mem_size i dir : CanMake (10 + n) k Q kPdir mem_size → SysProc (10 + n) k k' Q i dir →
  (∃ j, isFree (ProcL (pm k')) !! j = Some true) → CanMake n k' Q kPdir mem_size.
Proof.
  intros HC HS Hroom. destruct (sy_room _ _ _ _ _ _ HS) as [Hi Ef]. split; try done.
  - apply (sy_queues _ _ _ _ _ _ HS).
  - intros j Hj. unfold leased. rewrite Ef. pose proof (cm_leased _ _ _ _ _ HC j Hj) as Hl. unfold leased in Hl.
    rewrite list_lookup_insert_ne; [done|]. intros ->. congruence.
  - rewrite Ef, length_insert. apply (cm_frees _ _ _ _ _ HC).
  - eapply Kernel_keep; [apply (cm_kernel _ _ _ _ _ HC)|apply (sy_memory _ _ _ _ _ _ HS)].
  - apply (sp_bytes _ _ (sy_space _ _ _ _ _ _ HS)).
  - apply (cm_size _ _ _ _ _ HC).
  - apply (sy_frames _ _ _ _ _ _ HS).
Qed.

(** [makeSysProc] makes a system process. When the table has room and the allocator
    has ten frames: the new process is stopped, has the priority of the system, is in no
    run queue and starts in [kernel2user] with the kernel's segments. Its address space has the two
    stacks of 8 KiB, all of whose bytes are mapped to frames that were free. The kernel
    stack has its own page, that holds a whole register frame. No byte of memory that was
    in use and no other process changes. *)
Theorem makeSysProc_correct n k Q kPdir mem_size : CanMake n k Q kPdir mem_size →
  ∃ i k' dir, makeSysProc k kPdir mem_size = Ok (i, k') ∧ SysProc n k k' Q i dir.
Proof. apply makeSysProc_spec. Qed.

(** ** Concrete states *)

(** The state of [Task.v], where process 0 has the address space of [Clone.v]. *)
Definition ex_forker (q : Proc) : Proc := set_kernel_info (set_stack_top 24572 (kernel_info q)) (set_mm ex_mm q).

Definition ex_fork_k : K :=
  let k := ex_k TASK_RUNNING (Some 0%nat) false in
  with_vm (with_cr3 (with_pm k (upd_proc (pm k) 0 ex_forker)) 8192) ex_clone_vm.

Lemma ex_can_fork : CanFork 2 ex_fork_k [[]; [0%nat; 1%nat]; []; []] 4096 4194304 0 ex_mm.
Proof.
  split.
  - change (pm ex_fork_k) with (upd_proc (pm (ex_k TASK_RUNNING (Some 0%nat) false)) 0 ex_forker).
    apply wf_upd_other; [done|]. apply ex_wf.
  - intros j Hj. assert (j = 0%nat ∨ j = 1%nat) as [-> | ->] by (cbn in Hj; set_solver); done.
  - done.
  - done.
  - by exists 3%nat.
  - intros [|[|[|j]]] Hj; try done. unfold leased in Hj.
    change (isFree _ !! _) with (replicate 29 true !! j) in Hj. by apply lookup_replicate_1 in Hj as [? _].
  - change (0 ≤ 1 < 4). lia.
  - done.
  - exact ex_kernel_dir.
  - exact ex_mm_space.
  - exact ex_region_mapped.
  - repeat constructor; cbn; lia.
  - eapply fa_ready_le; [|exact ex_pf_ready]. change (region_frames (regions ex_mm)) with 2%nat. lia.
  - intros o Ho. apply ex_pf_used. change (frame_of (pr (pm ex_fork_k) 0)) with 24504. unfold frame_size in Ho. lia.
Qed.

Lemma fork_correct_witness :
  ∃ i k', fork 2 ex_fork_k 4096 4194304 = Ok (102, k') ∧ getProc (pm k') 102 = Some i ∧
    Wf (pm k') [[]; [0%nat; 1%nat; i]; []; []].
Proof.
  destruct (fork_correct 2 ex_fork_k [[]; [0%nat; 1%nat]; []; []] 4096 4194304 0 ex_mm ex_can_fork) as (i & k' & dir & E & HF).
  exists i, k'. split_and!; [exact E|exact (fk_found _ _ _ _ _ _ _ _ _ HF)|].
  destruct (fk_queues _ _ _ _ _ _ _ _ _ HF) as (l & [= <-] & HW). exact HW.
Defined.

Lemma makeSysProc_correct_witness :
  ∃ i k', makeSysProc ex_fork_k 4096 4194304 = Ok (i, k') ∧ status (pr (pm k') i) = TASK_STOPPED.
Proof.
  destruct (makeSysProc_correct 5 ex_fork_k [[]; [0%nat; 1%nat]; []; []] 4096 4194304) as (i & k' & dir & E & HS).
  - pose proof ex_can_fork as HC. split; [apply HC|apply HC|apply HC|apply HC|apply HC|exact ex_mm_bytes|lia|].
    eapply fa_ready_le; [|exact ex_pf_ready]. lia.
  - exists i, k'. split; [exact E|]. apply (sy_proc _ _ _ _ _ _ HS).
Defined.

End Fork.
