(* ===== verification/Interrupt.v ===== *)
(** * Interrupts and kernel calls ([isr.nas], [irq.cpp], [irq.h], [KGlobal.cpp])

    An interrupt of a program saves the registers on the kernel stack of the running
    process ([save] of [isr.nas]), calls the handler that the table [intr_func] names,
    calls [schedule] and loads registers from the stack. The programs run below the
    privilege of the kernel, so the processor takes the stack from the TSS. The descriptor
    tables use interrupt gates ([Descriptor.v]): no interrupt comes while a handler runs.
    What happens over sequences of interrupts is in [System.v]. *)

From S2P Require Import Prelude Chain Memory KType PageFrames VarMem Timer Process Task Ipc Descriptor Clone Fork.

Module Interrupt.
Import VarMem Process Task.

(** ** Registers *)

(** [stack_frame_s] without [st], the stack pointer that [pushad] stores and [popad]
    ignores. *)
Record regs := mkRegs {
  gs : Z; fs : Z; es : Z; ds : Z;
  di : Z; si : Z; bp : Z; bx : Z; dx : Z; cx : Z; ax : Z;
  pc : Z; cs : Z; psw : Z; sp : Z; ss : Z
}.

Record regs_ok (r : regs) : Prop := {
  ro_segs : is_u16 (gs r) ∧ is_u16 (fs r) ∧ is_u16 (es r) ∧ is_u16 (ds r) ∧ is_u16 (cs r) ∧ is_u16 (ss r);
  ro_words : is_u32 (di r) ∧ is_u32 (si r) ∧ is_u32 (bp r) ∧ is_u32 (bx r) ∧ is_u32 (dx r) ∧ is_u32 (cx r) ∧
    is_u32 (ax r);
  ro_return : is_u32 (pc r) ∧ is_u32 (psw r) ∧ is_u32 (sp r)
}.

Definition set_ax (v : Z) (r : regs) : regs :=
  mkRegs (gs r) (fs r) (es r) (ds r) (di r) (si r) (bp r) (bx r) (dx r) (cx r) v (pc r) (cs r) (psw r) (sp r) (ss r).
Definition set_dx (v : Z) (r : regs) : regs :=
  mkRegs (gs r) (fs r) (es r) (ds r) (di r) (si r) (bp r) (bx r) v (cx r) (ax r) (pc r) (cs r) (psw r) (sp r) (ss r).

(** [mov al,v] and [mov dx,v]. *)
Definition mov_al (v : Z) (r : regs) : regs := set_ax (ax r / 256 * 256 + u8 v) r.
Definition mov_dx (v : Z) (r : regs) : regs := set_dx (dx r / 65536 * 65536 + u16 v) r.

(** What the processor pushes on the stack of the TSS, and the macro [save]: the frame at
    [a]; [st] is the stack pointer before [pushad]. *)
Definition frame_words (st : Z) (r : regs) : list Z :=
  [gs r; fs r; es r; ds r; di r; si r; bp r; st; bx r; dx r; cx r; ax r; pc r; cs r; psw r; sp r; ss r].

Fixpoint push_words (m : mem) (a : Z) (ws : list Z) : mem :=
  match ws with
  | [] => m
  | w :: ws => store32 (push_words m (a + 4) ws) a w
  end.

Definition save (m : mem) (a : Z) (r : regs) : mem := push_words m a (frame_words (u32 (a + 48)) r).

(** The macro [load] and [iret]. *)
Definition load (m : mem) (a : Z) : regs :=
  mkRegs (load16 m a) (load16 m (a + 4)) (load16 m (a + 8)) (load16 m (a + 12))
    (load32 m (a + 16)) (load32 m (a + 20)) (load32 m (a + 24)) (load32 m (a + 32)) (load32 m (a + 36))
    (load32 m (a + 40)) (load32 m (a + 44)) (load32 m (a + 48)) (load16 m (a + 52)) (load32 m (a + 56))
    (load32 m (a + 60)) (load16 m (a + 64)).

(** The entry into the kernel. *)
Definition enter (k : K) (r : regs) : K :=
  let a := u32 (tss_esp0 k - frame_size) in
  with_esp (with_vm k (mkVM (save (vm_mem (vm k)) a r) (vm_pf (vm k)))) a.

(** The way back to the program. *)
Definition leave (k : K) : regs := load (vm_mem (vm k)) (esp k).

(** ** Memory of the caller *)

(** The kernel reads and writes the memory of the caller through its page tables. *)
Definition uload8 (k : K) (va : Z) : res Z :=
  match translate (vm_mem (vm k)) (cr3_reg k) (u32 va) with
  | Some a => Ok (load8 (vm_mem (vm k)) a)
  | None => Fault
  end.
Definition ustore8 (k : K) (va v : Z) : res K :=
  match translate (vm_mem (vm k)) (cr3_reg k) (u32 va) with
  | Some a => Ok (with_vm k (mkVM (store8 (vm_mem (vm k)) a v) (vm_pf (vm k))))
  | None => Fault
  end.

Fixpoint uload (n : nat) (k : K) (va : Z) : res Z :=
  match n with
  | O => Ok 0
  | S n => b ← uload8 k va; v ← uload n k (va + 1); Ok (b + 256 * v)
  end.
Fixpoint ustore (n : nat) (k : K) (va v : Z) : res K :=
  match n with
  | O => Ok k
  | S n => k ← ustore8 k va v; ustore n k (va + 1) (v / 256)
  end.

(** A [Message] of the caller: [id], [type], [isValid] and the words of the body. *)
Definition read_message (k : K) (va : Z) : res Message :=
  id ← uload 4 k va; type ← uload 2 k (va + 4); valid ← uload 1 k (va + 6);
  p1 ← uload 4 k (va + 8); p2 ← uload 4 k (va + 12); p3 ← uload 4 k (va + 16);
  Ok (mkMessage (s32 id) type (negb (valid =? 0)) p1 p2 p3).
Definition write_message (k : K) (va : Z) (m : Message) : res K :=
  k ← ustore 4 k va (u32 (m_id m)); k ← ustore 2 k (va + 4) (m_type m);
  k ← ustore 1 k (va + 6) (if isValid m then 1 else 0);
  k ← ustore 4 k (va + 8) (m_p1 m); k ← ustore 4 k (va + 12) (m_p2 m); ustore 4 k (va + 16) (m_p3 m).

(** ** [void kernelCall(void *args)] *)

Definition NR_K_EXEC : Z := 0.
Definition NR_K_SEND : Z := 1.
Definition NR_K_RECV : Z := 2.
Definition NR_K_FORK : Z := 3.

(** [enum priv{priv_system,priv_user}]. *)
Definition priv_user : Z := 1.

(** [regs->f=v]: the frame is at the stack pointer with which the handler was called. *)
Definition set_frame (k : K) (off v : Z) : K :=
  with_vm k (mkVM (store32 (vm_mem (vm k)) (u32 (esp k + off)) v) (vm_pf (vm k))).
Definition get_frame (k : K) (off : Z) : Z := load32 (vm_mem (vm k)) (u32 (esp k + off)).

(** The registers of a program that was loaded for user mode. *)
Definition user_frame (k : K) : K :=
  let seg := Z.lor Descriptor.UDSeg 3 in
  let k := foldl (λ k off, set_frame k off seg) k [64; 12; 8; 4; 0] in
  let k := set_frame k 52 (Z.lor Descriptor.UCSeg 3) in
  set_frame k 60 (user_stack_end - 16).

Section handlers.

(** [exec_path path] stands for [exec(fs->fopen(kstring(path)))], which [FileSystem.v] and
    [ElfLoader.v] describe on the memory as the running process sees it; it gives the value of
    [success]. [fuel], [kPdir] and [mem_size] are those of [fork]. *)
Context (exec_path : K → Z → res (K * bool)) (fuel : nat) (kPdir mem_size : Z).

Definition kernelCall (k : K) : res K :=
  let nr := get_frame k 44 in let arg1 := get_frame k 32 in let arg2 := get_frame k 40 in
  if nr =? NR_K_EXEC then
    '(k, success) ← exec_path k arg1;
    let k := if arg2 =? priv_user then user_frame k else k in
    Ok (set_frame k 44 (Z.b2z success))
  else if nr =? NR_K_SEND then
    c ← current k;
    k ← ustore 4 k arg2 (u32 (p_id (pr (pm k) c)));
    mess ← read_message k arg2;
    '(k, mess) ← Ipc.send k (s32 arg1) mess;
    write_message k arg2 mess
  else if nr =? NR_K_RECV then
    c ← current k;
    k ← ustore 4 k arg2 (u32 (p_id (pr (pm k) c)));
    mess ← read_message k arg2;
    '(k, mess) ← Ipc.recv k (s32 arg1) mess;
    write_message k arg2 mess
  else if nr =? NR_K_FORK then
    '(pid, k) ← Fork.fork fuel k kPdir mem_size;
    Ok (set_frame k 44 (u32 pid))
  else Ok k.

(** ** The handlers and their table *)

Inductive handler :=
| h_divide_exception | h_debuggingInterrupt | h_ignore | h_outofbundsException | h_invalidInstruction
| h_noSegmentExeption | h_stackException | h_generalException | h_pageFault
| h_timerHandler | h_Irq_notify (nr_irq : Z) | h_kernelCall.

(** [void pageFault(void *args)]; [VarMem::handle_pageFault] does nothing. *)
Definition pageFault (k : K) : res K :=
  c ← current k; Panic "pageFault".

(** The exception handlers print a message and stay in a loop. *)
Definition run_handler (h : handler) (k : K) : res K :=
  match h with
  | h_divide_exception => Panic "divideExecption"
  | h_debuggingInterrupt => Panic "debugginInterrupt"
  | h_ignore => Panic "IGNORE"
  | h_outofbundsException => Panic "outofbunds"
  | h_invalidInstruction => Panic "invalidInstruction"
  | h_noSegmentExeption => Panic "noSegmentException"
  | h_stackException => Panic "stackException"
  | h_generalException => Panic "generalException"
  | h_pageFault => pageFault k
  | h_timerHandler => timerHandler k
  | h_Irq_notify n => notify k n
  | h_kernelCall => kernelCall k
  end.

(** [void ( *intr_func[0x100])(void * )]; the entries from [0xa0] on are NULL. *)
Definition intr_func : list handler :=
  [h_divide_exception; h_debuggingInterrupt; h_ignore; h_ignore;
   h_ignore; h_outofbundsException; h_invalidInstruction; h_ignore;
   h_ignore; h_ignore; h_ignore; h_noSegmentExeption;
   h_stackException; h_generalException; h_pageFault; h_ignore] ++
  replicate 16 h_ignore ++
  [h_timerHandler; h_Irq_notify 1] ++ replicate 12 h_ignore ++ [h_Irq_notify 14; h_Irq_notify 15] ++
  [h_kernelCall] ++ replicate 15 h_ignore ++
  replicate 96 h_ignore.

(** [call [intr_func+4*n]]. *)
Definition call_intr (n : Z) (k : K) : res K :=
  match intr_func !! Z.to_nat n with Some h => run_handler h k | None => Fault end.

(** ** [isr.nas]

    The result of an interrupt: the kernel, the registers with which a program goes on, and
    what was written to the ports of the interrupt controllers. *)
Definition irq_outcome : Type := K * regs * list (Z * Z).

(** The macro [interrupts]; nothing sets [next_sf]. *)
Definition interrupts (n : Z) (k : K) : res irq_outcome :=
  k ← call_intr n k;
  '(k, o) ← schedule k;
  Ok (match o with ToUser => (k, leave k, []) | Returns => (with_esp k 0, leave (with_esp k 0), []) end).

(** The macro [irq_master]. *)
Definition irq_master (n : Z) (k : K) : res irq_outcome :=
  k ← call_intr n k;
  '(k, _) ← schedule k;
  Ok (k, leave k, [(32, u8 (96 + n - 32))]).

(** The macro [irq_slave]: the writes follow [load], and a [schedule] that leaves for another
    process does not come back to them. *)
Definition irq_slave (n : Z) (k : K) : res irq_outcome :=
  k ← call_intr n k;
  '(k, o) ← schedule k;
  Ok (match o with
      | ToUser => (k, leave k, [])
      | Returns =>
          let r := mov_al (96 + n) (mov_dx 160 (leave k)) in
          let r := mov_al 98 (mov_dx 32 r) in
          (k, r, [(160, u8 (96 + n)); (32, 98)])
      end).

(** The macro [irq_over30]. *)
Definition irq_over30 (n : Z) (k : K) : res irq_outcome :=
  k ← call_intr n k;
  '(k, _) ← schedule k;
  Ok (k, leave k, []).

(** The entry points [isr00] to [isr9f], from a program with the registers [r]. *)
Definition isr (n : Z) (k : K) (r : regs) : res irq_outcome :=
  let k := enter k r in
  if n =? 0 then Panic "hlt"
  else if n =? 12 then k ← run_handler h_generalException k; Ok (k, leave k, [])
  else if n =? 14 then k ← run_handler h_pageFault k; Ok (k, leave k, [])
  else if n <? 16 then interrupts n k
  else if n <? 32 then Panic "hlt"
  else if n <? 40 then irq_master n k
  else if n <? 48 then irq_slave n k
  else if n <? 160 then irq_over30 n k
  else Fault.

(** Interrupt [n] goes through the gate that [initIDT] made ([initIDT_gates] of [Descriptor.v]);
    the handler [invalid] prints and stays in a loop. *)
Definition interrupt (n : Z) (k : K) (r : regs) : res irq_outcome :=
  match Descriptor.gate_entry n with
  | Some e => isr e k r
  | None => Panic "invalid handler"
  end.

End handlers.

(** ** Lemmas: frames *)

Lemma load16_store32_eq m a v : is_u16 v → load16 (store32 m a v) a = v.
Proof.
  intros Hv. unfold load16, store32. rewrite !load8_store8.
  repeat ((rewrite decide_True by lia) || (rewrite decide_False by lia)).
  unfold u8, is_u16 in *. Z.div_mod_to_equations. lia.
Qed.

Lemma load16_store32_ne m a b v : b + 2 ≤ a ∨ a + 4 ≤ b → load16 (store32 m a v) b = load16 m b.
Proof. intros H. unfold load16. by rewrite !load8_store32_ne by lia. Qed.

Lemma push_words_load32 m a ws (i : nat) w b : b = a + 4 * Z.of_nat i → ws !! i = Some w → is_u32 w →
  load32 (push_words m a ws) b = w.
Proof.
  intros ->. revert a i; induction ws as [|v ws IH]; intros a [|i]; cbn [push_words lookup list_lookup]; try done; intros Hi Hw.
  - injection Hi as ->. rewrite Z.mul_0_r, Z.add_0_r. by apply load32_store32_eq.
  - rewrite load32_store32_ne by lia. replace (a + 4 * Z.of_nat (S i)) with (a + 4 + 4 * Z.of_nat i) by lia. by apply IH.
Qed.

Lemma push_words_load16 m a ws (i : nat) w b : b = a + 4 * Z.of_nat i → ws !! i = Some w → is_u16 w →
  load16 (push_words m a ws) b = w.
Proof.
  intros ->. revert a i; induction ws as [|v ws IH]; intros a [|i]; cbn [push_words lookup list_lookup]; try done; intros Hi Hw.
  - injection Hi as ->. rewrite Z.mul_0_r, Z.add_0_r. by apply load16_store32_eq.
  - rewrite load16_store32_ne by lia. replace (a + 4 * Z.of_nat (S i)) with (a + 4 + 4 * Z.of_nat i) by lia. by apply IH.
Qed.

Lemma push_words_changes m a ws : only_changes m (push_words m a ws) a (4 * Z.of_nat (length ws)).
Proof.
  revert a; induction ws as [|v ws IH]; intros a; cbn; [done|].
  eapply only_changes_trans; [|apply only_changes_store32; lia].
  eapply only_changes_mono; [apply IH|lia|lia].
Qed.

Lemma push_words_bytes m a ws : bytes_ok m → bytes_ok (push_words m a ws).
Proof. revert a; induction ws as [|v ws IH]; intros a H; cbn; [done|]. by apply bytes_ok_store32, IH. Qed.

(** The registers come back from the frame. *)
Lemma load_save m a r : regs_ok r → load (save m a r) a = r.
Proof.
  intros [(?&?&?&?&?&?) (?&?&?&?&?&?&?) (?&?&?)]. destruct r. cbn in * |-. unfold load, save. f_equal.
  1: apply (push_words_load16 m a _ 0).
  4: apply (push_words_load16 m a _ 1).
  7: apply (push_words_load16 m a _ 2).
  10: apply (push_words_load16 m a _ 3).
  13: apply (push_words_load32 m a _ 4).
  16: apply (push_words_load32 m a _ 5).
  19: apply (push_words_load32 m a _ 6).
  22: apply (push_words_load32 m a _ 8).
  25: apply (push_words_load32 m a _ 9).
  28: apply (push_words_load32 m a _ 10).
  31: apply (push_words_load32 m a _ 11).
  34: apply (push_words_load32 m a _ 12).
  37: apply (push_words_load16 m a _ 13).
  40: apply (push_words_load32 m a _ 14).
  43: apply (push_words_load32 m a _ 15).
  46: apply (push_words_load16 m a _ 16).
  all: done || lia.
Qed.

Lemma load16_range m a : bytes_ok m → is_u16 (load16 m a).
Proof.
  intros H. unfold load16. pose proof (load8_range m a H). pose proof (load8_range m (a + 1) H).
  unfold is_u8, is_u16 in *. lia.
Qed.

Lemma load_ok m a : bytes_ok m → regs_ok (load m a).
Proof. intros H. split; cbn; split_and!; (by apply load16_range || by apply load32_range). Qed.

(** Frames with the same bytes. *)
Lemma load_ext_at m m' a b : (∀ o, 0 ≤ o < frame_size → load8 m' (a + o) = load8 m (b + o)) → load m' a = load m b.
Proof.
  intros H. unfold frame_size in H.
  assert (H0 : load8 m' a = load8 m b) by (rewrite <-(Z.add_0_r a), <-(Z.add_0_r b); apply H; lia).
  unfold load, load32, load16. rewrite <-!Z.add_assoc. cbn [Z.add Pos.add Pos.succ]. by rewrite H0, !H by lia.
Qed.

Lemma load_ext m m' a : (∀ o, 0 ≤ o < frame_size → load8 m' (a + o) = load8 m (a + o)) → load m' a = load m a.
Proof. apply load_ext_at. Qed.

(** The value that a kernel call stores for the caller. *)
Lemma load_store_ax m a v : is_u32 v → load (store32 m (a + frame_ax) v) a = set_ax v (load m a).
Proof.
  intros Hv. unfold load, set_ax, frame_ax. cbn [gs fs es ds di si bp bx dx cx pc cs psw sp ss].
  rewrite !load16_store32_ne, (load32_store32_eq m (a + 44)), !load32_store32_ne by (done || lia). done.
Qed.

Lemma save_changes m a r : only_changes m (save m a r) a frame_size.
Proof. apply (push_words_changes m a (frame_words _ _)). Qed.

Lemma save_bytes m a r : bytes_ok m → bytes_ok (save m a r).
Proof. apply push_words_bytes. Qed.

(** Frames that do not overlap. *)
Lemma load_changes m m' a b : only_changes m m' a frame_size → a + frame_size ≤ b ∨ b + frame_size ≤ a → load m' b = load m b.
Proof. intros H Hd. apply load_ext. intros o Ho. apply H. lia. Qed.

Lemma set_ax_id r : set_ax (ax r) r = r.
Proof. by destruct r. Qed.

End Interrupt.
