(* ===== verification/System.v ===== *)
(** * The system between two interrupts

    [Running] and [Clocks] are the invariants of the kernel between two interrupts. The
    handlers of [Interrupt.v] keep them, and an interrupt changes the registers of no
    process: [regs_of] gives for every process the registers with which it goes on. What
    programs and the kernel do together over time is in [Execution.v]. *)

From S2P Require Import Prelude Chain Memory KType PageFrames VarMem Timer Process Task Ipc Descriptor Clone Fork Interrupt.

Module System.
Import VarMem Process Task Interrupt.

Implicit Types (k : K) (Q : list (list nat)) (c i j x : nat) (r : regs).

(** ** The invariants *)

(** The registers that process [j] gets when it runs next; the child of a [fork] finds 0 in
    [ax]. *)
Definition context k j : regs :=
  let r := load (vm_mem (vm k)) (frame_of (pr (pm k) j)) in
  match ret_from (kernel_info (pr (pm k) j)) with
  | ret_from_fork => set_ax 0 r
  | _ => r
  end.

(** The registers of process [j] while the running process has [r]. *)
Definition regs_of k r j : regs := if bool_decide (pCurrent (pm k) = Some j) then r else context k j.

(** Byte [a] is in the frame of a process. *)
Definition in_frame k (a : Z) : Prop :=
  ∃ j, leased (pm k) j ∧ frame_of (pr (pm k) j) ≤ a < frame_of (pr (pm k) j) + frame_size.

(** Process [c] runs: the processor uses its kernel stack and address space; every process
    has its own frame. *)
Record Running k Q c : Prop := {
  ru_wf : Wf (pm k) Q;
  ru_queued : ∀ j, j ∈ concat Q → leased (pm k) j;
  ru_current : pCurrent (pm k) = Some c ∧ leased (pm k) c ∧ ret_from (kernel_info (pr (pm k) c)) = kernel2user;
  ru_ready : ∀ j, leased (pm k) j → ∃ m, ready_to_run k j m ∧ (j = c → cr3_reg k = cr3 m);
  ru_tss : tss_esp0 k = stack_top (kernel_info (pr (pm k) c));
  ru_top : ∀ j, leased (pm k) j → frame_size ≤ stack_top (kernel_info (pr (pm k) j)) < 4294967296;
  ru_apart : ∀ i j, leased (pm k) i → leased (pm k) j → i ≠ j →
    frame_of (pr (pm k) i) + frame_size ≤ frame_of (pr (pm k) j) ∨
    frame_of (pr (pm k) j) + frame_size ≤ frame_of (pr (pm k) i);
  ru_bytes : bytes_ok (vm_mem (vm k));
  ru_used : ∀ a, in_frame k a → fa_used (vm_pf (vm k)) a
}.

(** The process with the id [id] can be woken. *)
Definition can_wake (p : PManager) (id : Z) : Prop := ∃ i, getProc p id = Some i ∧ wakeable p i.

(** The timers and the processes that wait for interrupts. *)
Record Clocks k : Prop := {
  ck_ordered : Timer.ordered (Timer.head (timer k));
  ck_range : ∀ e, e ∈ Timer.head (timer k) → 0 ≤ Timer.clocks e < 2147483648;
  ck_wake : ∀ e, e ∈ Timer.head (timer k) → Timer.ty e = Timer.Wakeup → can_wake (pm k) (s32 (Timer.pr_id e));
  ck_interval : ∀ v, v ∈ Process.interval (pm k) → 0 ≤ v < 2147483648;
  ck_irq : ∃ xs, Repr nr_irq invalid_entry (irqQue k) invalid_entry xs ∧ ∀ e, e ∈ xs → can_wake (pm k) (irq_pid e)
}.

(** ** What the handlers leave alone *)

(** A field that queueing and messages do not touch. *)
Definition inert {B : Type} (g : Proc → B) : Prop :=
  Ipc.unqueued g ∧ (∀ q p, g (Ipc.set_recvQ q p) = g p) ∧ (∀ q p, g (set_sendQ q p) = g p) ∧
  (∀ q p, g (Ipc.set_recv_anyQ q p) = g p).

(** The run queues, the queues of messages and the timers may change. *)
Record Same k k' : Prop := {
  sa_vm : vm k' = vm k;
  sa_machine : esp k' = esp k ∧ tss_esp0 k' = tss_esp0 k ∧ cr3_reg k' = cr3_reg k;
  sa_current : pCurrent (pm k') = pCurrent (pm k);
  sa_free : isFree (ProcL (pm k')) = isFree (ProcL (pm k));
  sa_interval : Process.interval (pm k') = Process.interval (pm k);
  sa_rooms : length (room (ProcL (pm k'))) = length (room (ProcL (pm k)));
  sa_field : ∀ (B : Type) (g : Proc → B), inert g → ∀ j, g (pr (pm k') j) = g (pr (pm k) j);
  sa_status : ∀ j, status (pr (pm k') j) = status (pr (pm k) j) ∨
    status (pr (pm k') j) = TASK_RUNNING ∨ status (pr (pm k') j) = TASK_STOPPED
}.

Lemma same_trans k1 k2 k3 : Same k1 k2 → Same k2 k3 → Same k1 k3.
Proof.
  intros [H1 (M1 & M2 & M3) H3 H4 H5 H6 H7 H8] [G1 (N1 & N2 & N3) G3 G4 G5 G6 G7 G8]. split; try congruence.
  - split_and!; congruence.
  - intros B g Hg j. by rewrite G7, H7.
  - intros j. destruct (G8 j) as [-> | [-> | ->]]; [apply H8|auto|auto].
Qed.

(** The messages stay, and nobody goes to sleep. *)
Record Kept k k' : Prop := {
  kt_same :> Same k k';
  kt_field : ∀ (B : Type) (g : Proc → B), Ipc.unqueued g → ∀ j, g (pr (pm k') j) = g (pr (pm k) j);
  kt_status : ∀ j, status (pr (pm k') j) = status (pr (pm k) j) ∨ status (pr (pm k') j) = TASK_RUNNING
}.

#[export] Hint Extern 0 (Same _ _) => (eapply kt_same; eassumption) : core.

Lemma kept_intro k k' : vm k' = vm k → esp k' = esp k ∧ tss_esp0 k' = tss_esp0 k ∧ cr3_reg k' = cr3_reg k →
  pCurrent (pm k') = pCurrent (pm k) → isFree (ProcL (pm k')) = isFree (ProcL (pm k)) →
  Process.interval (pm k') = Process.interval (pm k) → length (room (ProcL (pm k'))) = length (room (ProcL (pm k))) →
  (∀ (B : Type) (g : Proc → B), Ipc.unqueued g → ∀ j, g (pr (pm k') j) = g (pr (pm k) j)) →
  (∀ j, status (pr (pm k') j) = status (pr (pm k) j) ∨ status (pr (pm k') j) = TASK_RUNNING) → Kept k k'.
Proof.
  intros H1 H2 H3 H4 H5 H6 H7 H8. split; [split; try done|done|done].
  - intros B g [Hg _]. by apply H7.
  - intros j. destruct (H8 j); auto.
Qed.

Lemma kept_refl k : Kept k k.
Proof. apply kept_intro; try done. intros j. by left. Qed.

Lemma kept_trans k1 k2 k3 : Kept k1 k2 → Kept k2 k3 → Kept k1 k3.
Proof.
  intros [H1 H2 H3] [G1 G2 G3]. split; [by eapply same_trans| |].
  - intros B g Hg j. by rewrite G2, H2.
  - intros j. destruct (G3 j) as [-> | ->]; [apply H3|by right].
Qed.

(** A change of the timers or of the flags. *)
Lemma kept_pm k k' : pm k' = pm k → vm k' = vm k → esp k' = esp k ∧ tss_esp0 k' = tss_esp0 k ∧ cr3_reg k' = cr3_reg k → Kept k k'.
Proof. intros E Ev Hm. apply kept_intro; rewrite ?E; try done. intros j. by left. Qed.

Lemma pr_upd_oob p i f : ¬ (i < length (room (ProcL p)))%nat → pr (upd_proc p i f) i = pr p i.
Proof.
  intros H. unfold pr, upd_proc. cbn. rewrite list_lookup_alter_eq. by rewrite (lookup_ge_None_2 (room (ProcL p)) i) by lia.
Qed.

Lemma enque_kept p i (level : Z) p' : enque p i level = Ok p' →
  pCurrent p' = pCurrent p ∧ isFree (ProcL p') = isFree (ProcL p) ∧ Process.interval p' = Process.interval p ∧
  length (room (ProcL p')) = length (room (ProcL p)) ∧
  (∀ (B : Type) (g : Proc → B), Ipc.unqueued g → ∀ j, g (pr p' j) = g (pr p j)) ∧
  (∀ j, status (pr p' j) = status (pr p j) ∨ status (pr p' j) = TASK_RUNNING).
Proof.
  unfold enque. destruct (status (pr p i)); try done.
  { intros [= <-]. split_and!; try done. intros j. by left. }
  set (lv := if level =? 0 then _ else _). destruct lv as [lvl| | |]; cbn [mbind res_bind]; try done.
  case_bool_decide; [done|]. destruct (enque_walk _ _ _ _) as [pp| | |]; cbn [mbind res_bind]; try done.
  intros [= <-]. split_and!; try by destruct pp.
  - by rewrite procs_length_upd, procs_length_assign, procs_length_upd.
  - intros B g [Hn Hs] j. rewrite pr_upd_field by apply Hs. rewrite pr_assign_field by (intros; apply Hn).
    apply pr_upd_field, Hn.
  - intros j. destruct (decide (i = j)) as [<-|Hne].
    + destruct (decide (i < length (room (ProcL (assign (upd_proc p i (set_next None)) lvl pp (Some i)))))%nat).
      * right. rewrite pr_upd, decide_True by done. done.
      * left. rewrite pr_upd_oob, (pr_assign_field status) by done. by apply (pr_upd_field status).
    + left. rewrite pr_upd_ne by done. rewrite (pr_assign_field status) by done. by apply (pr_upd_field status).
Qed.

Lemma wakeup_kept k (pid : Z) k' : wakeup k pid = Ok k' → Kept k k' ∧ timer k' = timer k ∧ irqQue k' = irqQue k.
Proof.
  unfold wakeup. destruct (getProc (pm k) pid) as [i|]; [|done].
  destruct (enque (pm k) i 0) as [p| | |] eqn:E; cbn [mbind res_bind]; try done. intros [= <-].
  destruct (enque_kept _ _ _ _ E) as (H1 & H2 & H3 & H4 & H5 & H6). split; [by apply kept_intro|done].
Qed.

Lemma expire_kept k (l : list Timer.entry) k' rest : expire k l = Ok (k', rest) → Kept k k' ∧ irqQue k' = irqQue k.
Proof.
  revert k; induction l as [|e l IH]; intros k; cbn [expire].
  { intros [= <- <-]. split; [apply kept_refl|done]. }
  split_if; [intros [= <- <-]; split; [apply kept_refl|done]|]. fold (expire_one k e).
  destruct (expire_one k e) as [k1| | |] eqn:E1; cbn [mbind res_bind]; try done. intros (HK & Hi)%IH.
  assert (H1 : Kept k k1 ∧ irqQue k1 = irqQue k).
  { revert E1. unfold expire_one. destruct (Timer.ty e).
    1,2: intros [= <-]; split; [apply kept_refl|done].
    - intros [= <-]. split; [by apply kept_pm|done].
    - intros (H & _ & H')%wakeup_kept. done. }
  destruct H1 as [H1 H2]. split; [by eapply kept_trans|congruence].
Qed.

(** ** Lemmas on [Same] *)

Lemma kept_ret k k' j : Same k k' → kernel_info (pr (pm k') j) = kernel_info (pr (pm k) j).
Proof. intros HK. by apply (sa_field _ _ HK). Qed.

Lemma kept_leased k k' j : Same k k' → leased (pm k') j ↔ leased (pm k) j.
Proof. intros HK. unfold leased. by rewrite (sa_free _ _ HK). Qed.

Lemma kept_context k k' j : Same k k' → context k' j = context k j.
Proof. intros HK. unfold context, frame_of. by rewrite (kept_ret _ _ _ HK), (sa_vm _ _ HK). Qed.

(** Processes are found by the same ids in tables with the same ids. *)
Lemma getProc_same p p' (id : Z) : isFree (ProcL p') = isFree (ProcL p) →
  length (room (ProcL p')) = length (room (ProcL p)) → (∀ j, p_id (pr p' j) = p_id (pr p j)) →
  getProc p' id = getProc p id.
Proof.
  intros Hf Hl Hid. unfold getProc. rewrite Hf. apply find_proc_ext, list_eq. intros j. rewrite !list_lookup_fmap.
  specialize (Hid j). unfold pr in Hid.
  destruct (room (ProcL p') !! j) as [a|] eqn:Ea, (room (ProcL p) !! j) as [b|] eqn:Eb; cbn in *; try done.
  - by rewrite Hid.
  - apply lookup_lt_Some in Ea. apply lookup_ge_None in Eb. lia.
  - apply lookup_lt_Some in Eb. apply lookup_ge_None in Ea. lia.
Qed.

Lemma can_wake_same p p' (id : Z) : isFree (ProcL p') = isFree (ProcL p) →
  length (room (ProcL p')) = length (room (ProcL p)) →
  (∀ j, p_id (pr p' j) = p_id (pr p j) ∧ prior (pr p' j) = prior (pr p j)) →
  (∀ j, status (pr p' j) = status (pr p j) ∨ status (pr p' j) = TASK_RUNNING ∨ status (pr p' j) = TASK_STOPPED) → can_wake p id → can_wake p' id.
Proof.
  intros Hf Hl Hid Hst (i & Hg & Hi & Hs & Hpr). exists i. rewrite (getProc_same p p') by (done || apply Hid).
  split; [done|]. split; [done|]. destruct (Hid i) as [_ ->]. split; [|done].
  destruct (Hst i) as [-> | [-> | ->]]; [done|by right|by left].
Qed.

Lemma kept_wake k k' (id : Z) : Same k k' → can_wake (pm k) id → can_wake (pm k') id.
Proof.
  intros HK. apply can_wake_same; [apply HK|apply HK| |apply HK].
  intros j. split; by apply (sa_field _ _ HK).
Qed.

Lemma kept_in_frame k k' a : Same k k' → in_frame k' a ↔ in_frame k a.
Proof.
  intros HK. unfold in_frame, frame_of. by setoid_rewrite (kept_leased _ _ _ HK); setoid_rewrite (kept_ret _ _ _ HK).
Qed.

Lemma kept_running k k' Q Q' c : Running k Q c → Same k k' → Wf (pm k') Q' → (∀ j, j ∈ concat Q' → leased (pm k) j) →
  Running k' Q' c.
Proof.
  intros [H1 H2 (H3 & H4 & H5) H6 H7 H8 H9 H10 H11] HK HW HQ. pose proof (sa_machine _ _ HK) as (_ & M2 & M3).
  assert (Hfr : ∀ j, frame_of (pr (pm k') j) = frame_of (pr (pm k) j)) by (intros j; unfold frame_of; by rewrite (kept_ret _ _ _ HK)).
  split.
  - done.
  - intros j Hj. apply (kept_leased _ _ _ HK). by apply HQ.
  - rewrite (sa_current _ _ HK), (kept_leased _ _ _ HK), (kept_ret _ _ _ HK). done.
  - intros j Hj%(kept_leased _ _ _ HK). destruct (H6 j Hj) as (m & [Hm Hr] & Hc). exists m. rewrite M3. split; [|done].
    unfold ready_to_run. rewrite (kept_ret _ _ _ HK). split; [|done]. rewrite <-Hm. by apply (sa_field _ _ HK).
  - rewrite M2, (kept_ret _ _ _ HK). done.
  - intros j Hj%(kept_leased _ _ _ HK). rewrite (kept_ret _ _ _ HK). by apply H8.
  - intros i j Hi%(kept_leased _ _ _ HK) Hj%(kept_leased _ _ _ HK) Hne. rewrite !Hfr. by apply H9.
  - by rewrite (sa_vm _ _ HK).
  - intros a. rewrite (kept_in_frame _ _ _ HK), (sa_vm _ _ HK). apply H11.
Qed.

(** ** [schedule] *)

(** A field that neither queueing nor a switch touches: the id, the priority, the address space,
    the messages. *)
Definition steady {B : Type} (g : Proc → B) : Prop :=
  Ipc.unqueued g ∧ (∀ v q, g (set_sp v q) = g q) ∧ (∀ v q, g (set_ret_from v q) = g q).

(** After a switch, every process has the registers it had. *)
Record Resumed k k' : Prop := {
  re_get : ∀ id, getProc (pm k') id = getProc (pm k) id;
  re_field : ∀ (B : Type) (g : Proc → B), steady g → ∀ j, g (pr (pm k') j) = g (pr (pm k) j);
  re_status : ∀ j, status (pr (pm k') j) = status (pr (pm k) j);
  re_leased : ∀ j, leased (pm k') j ↔ leased (pm k) j;
  re_ids : ∀ j, p_id (pr (pm k') j) = p_id (pr (pm k) j);
  re_regs : ∀ j, leased (pm k) j → regs_of k' (leave k') j = context k j;
  re_memory : ∀ a, ¬ in_frame k a → load8 (vm_mem (vm k')) a = load8 (vm_mem (vm k)) a
}.

Lemma running_not_fresh k Q c : Running k Q c → context k c = load (vm_mem (vm k)) (frame_of (pr (pm k) c)).
Proof. intros HR. destruct (ru_current _ _ _ HR) as (_ & _ & E). unfold context. by rewrite E. Qed.

Lemma running_frame k Q c j : Running k Q c → leased (pm k) j →
  frame_of (pr (pm k) j) = stack_top (kernel_info (pr (pm k) j)) - frame_size ∧
  0 ≤ frame_of (pr (pm k) j) ∧ frame_of (pr (pm k) j) + frame_size < 4294967296.
Proof.
  intros HR Hj. pose proof (ru_top _ _ _ HR j Hj) as Ht. unfold frame_of. unfold frame_size in *.
  rewrite u32_id by (unfold is_u32; lia). lia.
Qed.

(** When no switch happens. *)
Lemma resumed_same k k' Q c : Running k Q c → esp k = frame_of (pr (pm k) c) → pm k' = pm k → vm k' = vm k →
  esp k' = esp k → Resumed k k'.
Proof.
  intros HR He Ep Ev Ee. split; try by rewrite Ep.
  - intros j Hj. unfold regs_of. rewrite Ep. pose proof (proj1 (ru_current _ _ _ HR)) as Hc. case_bool_decide as E.
    + assert (j = c) as -> by congruence. unfold leave. by rewrite Ev, Ee, He, (running_not_fresh _ _ _ HR).
    + unfold context. by rewrite Ep, Ev.
  - intros a _. by rewrite Ev.
Qed.

(** The memory after a switch to [x]. *)
Lemma resumed_cases k Q c x : Running k Q c → leased (pm k) x →
  resumed k c x = vm_mem (vm k) ∧ context k x = load (vm_mem (vm k)) (frame_of (pr (pm k) x)) ∨
  resumed k c x = store32 (vm_mem (vm k)) (frame_of (pr (pm k) x) + frame_ax) 0 ∧
    context k x = set_ax 0 (load (vm_mem (vm k)) (frame_of (pr (pm k) x))).
Proof.
  intros HR Hx. destruct (running_frame _ _ _ _ HR Hx) as (_ & H0 & H1). unfold resumed. case_bool_decide as E.
  { left. split; [done|]. subst. by eapply running_not_fresh. }
  destruct (ru_ready _ _ _ HR x Hx) as (m & [_ [Hcb|Hcb]] & _); unfold context; rewrite Hcb; [by left|right].
  split; [|done]. unfold frame_ax, frame_size in *. by rewrite u32_id by (unfold is_u32; lia).
Qed.

Lemma resumed_only k Q c x : Running k Q c → leased (pm k) x →
  only_changes (vm_mem (vm k)) (resumed k c x) (frame_of (pr (pm k) x)) frame_size.
Proof.
  intros HR Hx. destruct (resumed_cases _ _ _ _ HR Hx) as [(-> & _)|(-> & _)]; [apply only_changes_refl|].
  apply only_changes_store32; unfold frame_ax, frame_size; lia.
Qed.

Lemma resumed_load k Q c x : Running k Q c → leased (pm k) x →
  load (resumed k c x) (frame_of (pr (pm k) x)) = context k x.
Proof.
  intros HR Hx. destruct (resumed_cases _ _ _ _ HR Hx) as [(-> & ->)|(-> & ->)]; [done|].
  apply load_store_ax. unfold is_u32. lia.
Qed.

Lemma resumed_bytes k Q c x : Running k Q c → leased (pm k) x → bytes_ok (resumed k c x).
Proof.
  intros HR Hx. pose proof (ru_bytes _ _ _ HR).
  destruct (resumed_cases _ _ _ _ HR Hx) as [(-> & _)|(-> & _)]; [done|by apply bytes_ok_store32].
Qed.

(** A state that [schedule] switched to [x]. *)
Record SwitchedTo k k' c x (m : mm_struct) : Prop := {
  st_current : pCurrent (pm k') = Some x;
  st_cr3 : cr3_reg k' = (if decide (x = c) then cr3_reg k else cr3 m);
  st_tss : tss_esp0 k' = (if decide (x = c) then tss_esp0 k else stack_top (kernel_info (pr (pm k) x)));
  st_esp : esp k' = frame_of (pr (pm k) x);
  st_vm : vm k' = mkVM (resumed k c x) (vm_pf (vm k));
  st_rest : Switched k k' c x
}.

Lemma switched_top k k' c x m j : SwitchedTo k k' c x m →
  stack_top (kernel_info (pr (pm k') j)) = stack_top (kernel_info (pr (pm k) j)).
Proof. intros HS. by apply (sw_field _ _ _ _ (st_rest _ _ _ _ _ HS) Z (λ q, stack_top (kernel_info q))). Qed.

Lemma switched_frame k k' c x m j : SwitchedTo k k' c x m → frame_of (pr (pm k') j) = frame_of (pr (pm k) j).
Proof. intros HS. unfold frame_of. by rewrite (switched_top _ _ _ _ _ _ HS). Qed.

Lemma switched_leased k k' c x m j : SwitchedTo k k' c x m → leased (pm k') j ↔ leased (pm k) j.
Proof. intros HS. unfold leased. by rewrite (sw_free _ _ _ _ (st_rest _ _ _ _ _ HS)). Qed.

Lemma switched_resumed k k' Q c x m : Running k Q c → leased (pm k) x → SwitchedTo k k' c x m →
  length (room (ProcL (pm k'))) = length (room (ProcL (pm k))) → Resumed k k'.
Proof.
  intros HR Hx HS Hlen. pose proof HS as [Hc _ _ He Hv HSw]. split.
  - intros id. apply getProc_same; [apply HSw|done|]. intros j. by apply (sw_field _ _ _ _ HSw).
  - intros B g ([Hn Hs] & Hsp & Hrf). by apply (sw_field _ _ _ _ HSw).
  - apply (sw_status _ _ _ _ HSw).
  - intros j. by eapply switched_leased.
  - intros j. by apply (sw_field _ _ _ _ HSw).
  - intros j Hj. unfold regs_of. rewrite Hc. case_bool_decide as E.
    + injection E as <-. unfold leave. rewrite He, Hv. by eapply resumed_load.
    + unfold context. rewrite (switched_frame _ _ _ _ _ _ HS), (sw_ret _ _ _ _ HSw), decide_False by (intros [-> _]; congruence).
      rewrite Hv. cbn [vm_mem]. rewrite (load_changes (vm_mem (vm k)) _ (frame_of (pr (pm k) x))); [done|by eapply resumed_only|].
      apply (ru_apart _ _ _ HR); [done|done|]. congruence.
  - intros a Ha. rewrite Hv. apply (resumed_only _ _ _ _ HR Hx). intros Hin. apply Ha. by exists x.
Qed.

Lemma switched_running k k' Q Q' c x m : Running k Q c → leased (pm k) x → SwitchedTo k k' c x m → ready_to_run k x m →
  Wf (pm k') Q' → (∀ j, j ∈ concat Q' → j ∈ concat Q) → Running k' Q' x.
Proof.
  intros HR Hx HS [Hm Hcb] HW HQ. pose proof HS as [Hc Hc3 Ht He Hv HSw].
  assert (Hmm : ∀ j, mm (pr (pm k') j) = mm (pr (pm k) j)) by (intros j; by apply (sw_field _ _ _ _ HSw)).
  pose proof (λ j, switched_leased _ _ _ _ _ j HS) as Hl. pose proof (λ j, switched_top _ _ _ _ _ j HS) as Htop.
  pose proof (λ j, switched_frame _ _ _ _ _ j HS) as Hfr. pose proof (sw_ret _ _ _ _ HSw) as Hret.
  destruct (ru_current _ _ _ HR) as (_ & _ & Hcc). split.
  - done.
  - intros j Hj. apply Hl. by apply (ru_queued _ _ _ HR), HQ.
  - split_and!; [done|by apply Hl|]. rewrite Hret. destruct (decide (x = x ∧ x ≠ c)) as [|E]; [done|].
    destruct (decide (x = c)) as [->|]; [done|exfalso; by apply E].
  - intros j Hj%Hl. destruct (ru_ready _ _ _ HR j Hj) as (m' & [Hm' Hr'] & Hcr). exists m'. split.
    + split; [by rewrite Hmm|]. rewrite Hret. destruct (decide (j = x ∧ x ≠ c)); [by left|done].
    + intros ->. rewrite Hc3. destruct (decide (x = c)); [by apply Hcr|]. congruence.
  - rewrite Ht, Htop. destruct (decide (x = c)) as [->|]; [apply (ru_tss _ _ _ HR)|done].
  - intros j Hj%Hl. rewrite Htop. by apply (ru_top _ _ _ HR).
  - intros i j Hi%Hl Hj%Hl Hne. rewrite !Hfr. by apply (ru_apart _ _ _ HR).
  - rewrite Hv. by eapply resumed_bytes.
  - intros a (j & Hj & Ha). rewrite Hfr in Ha. rewrite Hv. apply (ru_used _ _ _ HR). exists j. split; [by apply Hl|done].
Qed.


Lemma sched_step_members Q x Q' : sched_step Q = Some (x, Q') → x ∈ concat Q ∧ ∀ j, j ∈ concat Q' → j ∈ concat Q.
Proof.
  unfold sched_step. destruct (first_level Q 0) as [[[lvl y] l]|] eqn:Ef; [|done]. intros [= <- <-].
  apply first_level_spec in Ef as (n & -> & Hl & _). cbn [Nat.add] in *.
  assert (Hy : y ∈ concat Q) by (apply elem_of_concat; exists n, (y :: l); split; [done|by left]).
  split; [done|].
  assert (Hi : ∀ o (m : list nat) j, <[n:=l]> Q !! o = Some m → j ∈ m → j ∈ concat Q).
  { intros o m j Ho Hj. apply elem_of_concat. apply list_lookup_insert_Some in Ho as [(-> & <- & _)|(_ & Ho)]; [|by eauto].
    exists o, (y :: l). split; [done|by right]. }
  intros j (o & m & Ho & Hj)%elem_of_concat. destruct (decide (o = next_level n)) as [->|Hne].
  - rewrite list_lookup_alter_eq in Ho. apply fmap_Some in Ho as (m' & Hm' & ->).
    apply elem_of_app in Hj as [Hj|Hj]; [by eapply Hi|]. apply list_elem_of_singleton in Hj as ->. done.
  - rewrite list_lookup_alter_ne in Ho by done. by eapply Hi.
Qed.

Lemma sched_step_none Q : sched_step Q = None → ∀ n l, Q !! n = Some l → l = [].
Proof.
  unfold sched_step. destruct (first_level Q 0) as [[[lvl y] l]|] eqn:Ef; [done|]. intros _. by eapply first_level_none.
Qed.

(** The task-switch timer of the new process. *)
Lemma clocks_reset k k' (v id : Z) : Clocks k → 0 ≤ v < 2147483648 →
  Timer.head (timer k') = Timer.head (Timer.reset_quantum (timer k) v id) →
  irqQue k' = irqQue k → Process.interval (pm k') = Process.interval (pm k) →
  (∀ id, can_wake (pm k) id → can_wake (pm k') id) → Clocks k'.
Proof.
  intros [H1 H2 H3 H4 (xs & H5 & H6)] Hv Ht Hi Hint Hw.
  assert (Hmem : ∀ e, e ∈ Timer.head (timer k') → e = Timer.mkEntry v Timer.TaskSwitch (u32 id) ∨ e ∈ Timer.head (timer k)).
  { intros e. rewrite Ht. cbn. rewrite Timer.set_walk_perm, s32_id by (unfold is_s32; lia).
    intros [->|He]%elem_of_cons; [by left|right]. rewrite Timer.drop_switches_filter in He. by apply list_elem_of_filter in He as [_ He]. }
  split.
  - rewrite Ht. apply Timer.set_walk_ordered. cbn. rewrite Timer.drop_switches_filter. by apply Timer.ordered_filter.
  - intros e [->|He]%Hmem; [done|by apply H2].
  - intros e [->|He]%Hmem; [done|]. intros Hty. by apply Hw, H3.
  - by rewrite Hint.
  - rewrite Hi. exists xs. split; [done|]. intros e He. by apply Hw, H6.
Qed.

(** Only the flags change. *)
Lemma clocks_same k k' : Clocks k → Timer.head (timer k') = Timer.head (timer k) → irqQue k' = irqQue k →
  pm k' = pm k → Clocks k'.
Proof. intros [H1 H2 H3 H4 H5] Ht Hi Hp. split; rewrite ?Ht, ?Hi, ?Hp; done. Qed.

(** [schedule] goes back to a process with the registers of that process. *)
Lemma schedule_running k Q c : Running k Q c → Clocks k → esp k = frame_of (pr (pm k) c) →
  ∃ k' o Q' c', schedule k = Ok (k', o) ∧ Running k' Q' c' ∧ Clocks k' ∧ Resumed k k' ∧
    (o = Returns → c' = c ∧ vm k' = vm k).
Proof.
  intros HR HC He. destruct (sched_req k || Timer.quantum_exceeded (timer k)) eqn:Ereq.
  2: { exists k, Returns, Q, c. split_and!; try done; [|by eapply resumed_same].
       unfold schedule. apply orb_false_iff in Ereq as [-> ->]. done. }
  destruct (sched_step Q) as [[x Q']|] eqn:Est.
  - destruct (sched_step_members _ _ _ Est) as [Hx HQ]. pose proof (ru_queued _ _ _ HR x Hx) as Hlx.
    destruct (ru_ready _ _ _ HR x Hlx) as (m & Hrdy & _).
    destruct (schedule_spec k Q c x Q' m (ru_wf _ _ _ HR) Ereq Est (proj1 (ru_current _ _ _ HR)) Hrdy)
      as (k' & lvl & E & HW & Hc & _ & _ & _ & _ & Ht & H3 & H4 & H5 & H6 & HSw).
    assert (HS : SwitchedTo k k' c x m) by done.
    assert (Hlen : length (room (ProcL (pm k'))) = length (room (ProcL (pm k)))) by by rewrite (wf_rooms _ _ HW), (wf_rooms _ _ (ru_wf _ _ _ HR)).
    exists k', ToUser, Q', x. split_and!; [done|by eapply switched_running| |by eapply switched_resumed|done].
    eapply clocks_reset; [done| |exact Ht|apply HSw|apply HSw|].
    + destruct (Process.interval (pm k) !! next_level lvl) as [v|] eqn:Ev; cbn; [|lia].
      apply (ck_interval _ HC). by eapply list_elem_of_lookup_2.
    + intros id. apply can_wake_same; [apply HSw|exact Hlen| |].
      * intros j. split; by apply (sw_field _ _ _ _ HSw).
      * intros j. left. apply (sw_status _ _ _ _ HSw).
  - pose proof (sched_step_none _ Est) as Hn. unfold schedule.
    replace (negb (sched_req k) && negb (Timer.quantum_exceeded (timer k))) with false
      by (destruct (sched_req k), (Timer.quantum_exceeded (timer k)); done).
    set (k1 := with_req _ false). exists k1, Returns, Q, c.
    rewrite (schedule_levels_empty nr_Level k1 Q) by (done || lia || apply HR).
    assert (HK : Kept k k1) by by apply kept_pm.
    split_and!; try done.
    + eapply kept_running; [done|done|apply HR|apply HR].
    + by eapply (clocks_same k).
    + by eapply resumed_same.
Qed.

(** ** The handlers *)

Lemma enter_kept_pm k r : pm (enter k r) = pm k.
Proof. done. Qed.

Lemma enter_running k Q c r : Running k Q c → Clocks k → regs_ok r →
  Running (enter k r) Q c ∧ Clocks (enter k r) ∧ esp (enter k r) = frame_of (pr (pm k) c) ∧
  (∀ j, leased (pm k) j → context (enter k r) j = regs_of k r j) ∧
  (∀ a, ¬ in_frame k a → load8 (vm_mem (vm (enter k r))) a = load8 (vm_mem (vm k)) a).
Proof.
  intros HR HC Hr. destruct (ru_current _ _ _ HR) as (Hc & Hlc & Hret).
  assert (Ea : u32 (tss_esp0 k - frame_size) = frame_of (pr (pm k) c)) by (by rewrite (ru_tss _ _ _ HR)).
  assert (Em : vm_mem (vm (enter k r)) = save (vm_mem (vm k)) (frame_of (pr (pm k) c)) r) by (cbn; by rewrite Ea).
  split_and!.
  - split; try apply HR. rewrite Em. apply save_bytes, HR.
  - by apply (clocks_same k).
  - exact Ea.
  - intros j Hj. unfold context, regs_of. rewrite Em, Hc. change (pm (enter k r)) with (pm k). case_bool_decide as E.
    + injection E as <-. rewrite Hret. by apply load_save.
    + rewrite (load_changes _ _ _ _ (save_changes _ _ r)); [done|]. apply (ru_apart _ _ _ HR); [done|done|congruence].
  - intros a Ha. rewrite Em. apply (save_changes _ _ r). intros Hin. apply Ha. by exists c.
Qed.

Lemma timerHandler_kept k k' : timerHandler k = Ok k' → Kept k k' ∧ irqQue k' = irqQue k.
Proof.
  unfold timerHandler. set (k1 := with_timer k _). destruct (expire k1 _) as [[k2 rest]| | |] eqn:E; cbn [mbind res_bind]; try done.
  intros [= <-]. destruct (expire_kept _ _ _ _ E) as [HK Hi]. split; [|done].
  eapply kept_trans; [by apply (kept_pm k k1)|]. eapply kept_trans; [exact HK|]. by apply kept_pm.
Qed.

Lemma timerHandler_running k Q c : Running k Q c → Clocks k →
  ∃ k' Q', timerHandler k = Ok k' ∧ Running k' Q' c ∧ Clocks k' ∧ Kept k k'.
Proof.
  intros HR [H1 H2 H3 H4 (xs & H5 & H6)].
  assert (Hp : ∀ e, e ∈ Timer.pass_entry 1 <$> Timer.head (timer k) →
    -1 ≤ Timer.clocks e < 2147483647 ∧ (Timer.ty e = Timer.Wakeup → can_wake (pm k) (s32 (Timer.pr_id e)))).
  { intros e (e' & -> & He)%list_elem_of_fmap. pose proof (H2 e' He). cbn. rewrite s32_id by (unfold is_s32; lia).
    split; [lia|]. by apply H3. }
  assert (Hnw : Timer.no_wrap 1 (Timer.head (timer k))) by (intros e He; specialize (H2 e He); lia).
  destruct (timerHandler_spec k Q (ru_wf _ _ _ HR) H1 Hnw) as (k' & Q' & E & HW & Ht & HQ & _).
  { intros e He Hty _. by apply Hp. }
  destruct (timerHandler_kept _ _ E) as [HK Hi]. exists k', Q'. split_and!; [done| | |done].
  - eapply kept_running; [done|done|done|]. intros j [Hj|Hj]%HQ; [by apply (ru_queued _ _ _ HR)|].
    destruct Hj as (e & _ & _ & _ & Hg). by apply getProc_leased in Hg as (_ & Hl & _).
  - split.
    + rewrite Ht. by apply Timer.ordered_filter, Timer.pass_ordered.
    + intros e. rewrite Ht. intros [Hpos He]%list_elem_of_filter. destruct (Hp e He). lia.
    + intros e. rewrite Ht. intros [_ He]%list_elem_of_filter Hty. eapply kept_wake; [done|]. by apply Hp.
    + by rewrite (sa_interval _ _ HK).
    + rewrite Hi. exists xs. split; [done|]. intros e He. eapply kept_wake; [done|]. by apply H6.
Qed.

Lemma remove_first_elem (x y : irq_entry) xs l : remove_first irq_eqb x xs = Some (y, l) →
  y ∈ xs ∧ irq y = irq x ∧ ∀ z, z ∈ l → z ∈ xs.
Proof.
  revert l; induction xs as [|z xs IH]; intros l; cbn; [done|]. unfold irq_eqb at 1. split_if.
  - intros [= -> ->]. split_and!; [by left|done|]. intros z Hz. by right.
  - destruct (remove_first irq_eqb x xs) as [[y' l']|] eqn:Er; [|done]. intros [= -> <-].
    destruct (IH _ eq_refl) as (Hy & Hi & Hl). split_and!; [by right|done|].
    intros w [->|Hw]%elem_of_cons; [by left|right; by apply Hl].
Qed.

Lemma notify_running k Q c (n : Z) : Running k Q c → Clocks k → 0 ≤ n →
  ∃ k' Q', notify k n = Ok k' ∧ Running k' Q' c ∧ Clocks k' ∧ Kept k k'.
Proof.
  intros HR [H1 H2 H3 H4 (xs & H5 & H6)] Hn. unfold notify.
  pose proof (deque_eq_ok nr_irq invalid_entry irq_eqb (irqQue k) invalid_entry xs (mkIrq n 0) H5) as Hd.
  destruct (remove_first irq_eqb (mkIrq n 0) xs) as [[y l]|] eqn:Er.
  - destruct Hd as (q & -> & Hq). cbn [mbind res_bind]. destruct (remove_first_elem _ _ _ _ Er) as (Hy & Hi & Hl).
    cbn [irq] in Hi. assert (Hne : irq_eqb y invalid_entry = false) by (unfold irq_eqb; rewrite Hi; cbn; lia). rewrite Hne.
    destruct (H6 y Hy) as (i & Hg & Hw). set (k1 := with_irqQue k q).
    destruct (wakeup_ok k1 Q (irq_pid y) i (ru_wf _ _ _ HR) Hg Hw) as (k' & Q' & E & HW & HQ & _).
    destruct (wakeup_kept _ _ _ E) as (HK & Ht & Hirq). assert (HK' : Kept k k') by (eapply kept_trans; [by apply (kept_pm k k1)|done]).
    exists k', Q'. split_and!; [done| | |done].
    + eapply kept_running; [done|done|done|]. intros j [Hj|Hj]%HQ; [by apply (ru_queued _ _ _ HR)|].
      subst. by apply getProc_leased in Hg as (_ & Hlj & _).
    + split; rewrite ?Ht; try done.
      * intros e He Hty. eapply kept_wake; [done|]. by apply H3.
      * by rewrite (sa_interval _ _ HK').
      * rewrite Hirq. exists l. split; [done|]. intros e He. eapply kept_wake; [done|]. by apply H6, Hl.
  - rewrite Hd. cbn [mbind res_bind]. exists (with_irqQue k (irqQue k)), Q.
    assert (HK : Kept k (with_irqQue k (irqQue k))) by by apply kept_pm. split_and!; [done| | |done].
    + eapply kept_running; [done|done|apply HR|apply HR].
    + split; try done. by exists xs.
Qed.

(** ** One interrupt *)

(** Between two interrupts: the kernel, and the registers of the running process. *)
Definition live (s : K * regs) : Prop := ∃ Q c, Running s.1 Q c ∧ Clocks s.1 ∧ regs_ok s.2.

(** What an interrupt does to the processes. *)
Record Transparent k r k' r' : Prop := {
  tr_live : live (k', r');
  tr_leased : ∀ j, leased (pm k') j ↔ leased (pm k) j;
  tr_get : ∀ id, getProc (pm k') id = getProc (pm k) id;
  tr_field : ∀ (B : Type) (g : Proc → B), steady g → ∀ j, g (pr (pm k') j) = g (pr (pm k) j);
  tr_status : ∀ j, status (pr (pm k') j) = status (pr (pm k) j) ∨ status (pr (pm k') j) = TASK_RUNNING;
  tr_regs : ∀ j, leased (pm k) j → regs_of k' r' j = regs_of k r j;
  tr_memory : ∀ a, ¬ in_frame k a → load8 (vm_mem (vm k')) a = load8 (vm_mem (vm k)) a
}.

Lemma leave_ok k : bytes_ok (vm_mem (vm k)) → regs_ok (leave k).
Proof. apply load_ok. Qed.

(** A handler that keeps the invariants and the registers of all processes, and the call of
    [schedule] behind it. *)
Lemma resume k r k1 Q1 c : Running k1 Q1 c → Clocks k1 → esp k1 = frame_of (pr (pm k1) c) →
  (∀ j, leased (pm k) j → leased (pm k1) j ∧ context k1 j = regs_of k r j) →
  ∃ k' o, schedule k1 = Ok (k', o) ∧ live (k', leave k') ∧ Resumed k1 k' ∧
    (∀ j, leased (pm k) j → regs_of k' (leave k') j = regs_of k r j) ∧ (o = Returns → pCurrent (pm k') = Some c).
Proof.
  intros HR1 HC1 He Hctx. destruct (schedule_running k1 Q1 c HR1 HC1 He) as (k' & o & Q' & c' & E & HR' & HC' & HRe & Hret).
  exists k', o. split_and!; try done.
  - exists Q', c'. split_and!; [done|done|apply leave_ok, HR'].
  - intros j Hj. destruct (Hctx j Hj) as [Hl <-]. by apply (re_regs _ _ HRe).
  - intros (-> & _)%Hret. apply (ru_current _ _ _ HR').
Qed.

(** A handler that writes to no memory. *)
Lemma handled k Q c r k1 Q1 : Running k Q c → Clocks k → regs_ok r → Running k1 Q1 c → Clocks k1 → Kept (enter k r) k1 →
  ∃ k' o, schedule k1 = Ok (k', o) ∧ Transparent k r k' (leave k') ∧
    (o = Returns → pCurrent (pm k') = pCurrent (pm k) ∧ leave k' = r).
Proof.
  intros HR HC Hr HR1 HC1 HK. destruct (enter_running k Q c r HR HC Hr) as (_ & _ & He & Hctx & Hmem).
  assert (Hfr : frame_of (pr (pm k1) c) = frame_of (pr (pm k) c)) by (unfold frame_of; by rewrite (kept_ret _ _ _ HK)).
  destruct (resume k r k1 Q1 c HR1 HC1) as (k' & o & E & HL & HRe & Hregs & Hret).
  { by rewrite (proj1 (sa_machine _ _ HK)), Hfr. }
  { intros j Hj. rewrite (kept_context _ _ _ HK). split; [by apply (kept_leased _ _ _ HK)|by apply Hctx]. }
  assert (HT : Transparent k r k' (leave k')).
  { split.
    - done.
    - intros j. by rewrite (re_leased _ _ HRe), (kept_leased _ _ _ HK).
    - intros id. rewrite (re_get _ _ HRe). apply getProc_same; [apply HK|apply HK|]. intros j. by apply (kt_field _ _ HK).
    - intros B g Hg j. rewrite (re_field _ _ HRe) by done. apply (kt_field _ _ HK), Hg.
    - intros j. rewrite (re_status _ _ HRe). apply (kt_status _ _ HK).
    - done.
    - intros a Ha. rewrite (re_memory _ _ HRe) by (by rewrite (kept_in_frame _ _ _ HK)). by rewrite (sa_vm _ _ HK), Hmem. }
  exists k', o. split_and!; [done|done|]. intros Ho. specialize (Hret Ho). destruct (ru_current _ _ _ HR) as (Hc & Hlc & _).
  split; [congruence|]. pose proof (tr_regs _ _ _ _ HT c Hlc) as Hx. unfold regs_of in Hx.
  by rewrite !bool_decide_eq_true_2 in Hx by done.
Qed.

Section system.
Context (exec_path : K → Z → res (K * bool)) (fuel : nat) (kPdir mem_size : Z).

Abbreviation isr := (isr exec_path fuel kPdir mem_size).
Abbreviation kernelCall := (kernelCall exec_path fuel kPdir mem_size).
Abbreviation interrupt := (interrupt exec_path fuel kPdir mem_size).
Abbreviation call_intr := (call_intr exec_path fuel kPdir mem_size).

(** Interrupts of the slave controller. *)
Definition slave (n : Z) : Prop := 40 ≤ n < 48.

(** The entry points with a handler that comes back and that does nothing for the running
    program: the clock, the devices, and the call of a number without a function. *)
Definition quiet_entry (n : Z) r : Prop := n = 32 ∨ n = 33 ∨ n = 46 ∨ n = 47 ∨ n = 48 ∧ NR_K_FORK < ax r.

(** The interrupts that have a gate to such an entry point. *)
Definition quiet (n : Z) r : Prop := ∃ e, Descriptor.gate_entry n = Some e ∧ quiet_entry e r.

Lemma quiet_cases n r : quiet n r ↔ n = 32 ∨ n = 33 ∨ (n = 48 ∨ n = 128) ∧ NR_K_FORK < ax r.
Proof.
  unfold quiet, quiet_entry, Descriptor.gate_entry. split.
  - intros (e & He & Hq). destruct ((n <? 16) || (n =? 32) || (n =? 33) || (n =? 48)) eqn:E.
    + injection He as <-. destruct Hq as [-> | [-> | [-> | [-> | [-> Hax]]]]]; try done; auto.
    + destruct (Z.eqb_spec n 128) as [->|]; [|done]. injection He as <-. destruct Hq as [? | [? | [? | [? | [_ Hax]]]]]; (done || auto).
  - intros [-> | [-> | [[-> | ->] Hax]]]; eexists; (split; [reflexivity|]); auto 6.
Qed.

Lemma frame_arg k Q c r (o : Z) : Running k Q c → 0 ≤ o ≤ 64 → get_frame (enter k r) o =
  load32 (save (vm_mem (vm k)) (frame_of (pr (pm k) c)) r) (frame_of (pr (pm k) c) + o).
Proof.
  intros HR Ho. destruct (running_frame k Q c c HR (proj1 (proj2 (ru_current _ _ _ HR)))) as (_ & H0 & H1).
  unfold get_frame, enter. cbn [esp with_esp vm with_vm vm_mem]. rewrite (ru_tss _ _ _ HR).
  fold (frame_of (pr (pm k) c)). unfold frame_size in *. by rewrite u32_id by (unfold is_u32; lia).
Qed.

Lemma frame_ax_enter k Q c r : Running k Q c → regs_ok r → get_frame (enter k r) 44 = ax r.
Proof. intros HR Hr. rewrite (frame_arg k Q c) by (done || lia). by rewrite <- (load_save (vm_mem (vm k)) (frame_of (pr (pm k) c)) r) at 2. Qed.

(** The handlers of these interrupts. *)
Lemma quiet_handler n k Q c r : Running k Q c → Clocks k → regs_ok r → quiet_entry n r →
  ∃ k1 Q1, call_intr n (enter k r) = Ok k1 ∧ Running k1 Q1 c ∧ Clocks k1 ∧ Kept (enter k r) k1.
Proof.
  intros HR HC Hr Hn. destruct (enter_running k Q c r HR HC Hr) as (HR1 & HC1 & _).
  destruct Hn as [-> | [-> | [-> | [-> | [-> Hax]]]]].
  - by apply (timerHandler_running _ Q).
  - by apply (notify_running _ Q c 1).
  - by apply (notify_running _ Q c 14).
  - by apply (notify_running _ Q c 15).
  - change (call_intr 48 (enter k r)) with (kernelCall (enter k r)). unfold kernelCall.
    rewrite (frame_ax_enter k Q c r HR Hr). unfold NR_K_EXEC, NR_K_SEND, NR_K_RECV, NR_K_FORK in *.
    rewrite !(proj2 (Z.eqb_neq _ _)) by lia. exists (enter k r), Q. split_and!; try done. apply kept_refl.
Qed.

(** The operation word 2 of the 8259: the end of one interrupt. *)
Definition specific_eoi (v : Z) : option Z := if v / 32 =? 3 then Some (v `mod` 8) else None.

(** What the interrupt controllers are told: the end of interrupt [n] at the master. *)
Definition eoi (n : Z) : list (Z * Z) := if bool_decide (n < 40) then [(32, 64 + n)] else [].

(** The running program after an interrupt of the slave controller that leads to no switch. *)
Definition clobbered (n : Z) r : regs := mov_al 98 (mov_dx 32 (mov_al (96 + n) (mov_dx 160 r))).

Lemma isr_slave n k r k1 k' o : n = 46 ∨ n = 47 → call_intr n (enter k r) = Ok k1 → schedule k1 = Ok (k', o) →
  isr n k r = Ok (match o with
    | ToUser => (k', leave k', [])
    | Returns => (k', clobbered n (leave k'), [(160, 96 + n); (32, 98)])
    end).
Proof.
  intros Hn E1 E. destruct Hn as [-> | ->]; unfold isr; cbn [Z.eqb Z.ltb Z.compare Pos.eqb Pos.compare Pos.compare_cont];
    unfold irq_slave; rewrite E1; cbn [mbind res_bind]; rewrite E; by destruct o.
Qed.

(** Every such interrupt comes to an end. *)
Lemma isr_quiet n k r : live (k, r) → quiet_entry n r → ∃ k' o, Transparent k r k' (leave k') ∧
  (o = Returns → pCurrent (pm k') = pCurrent (pm k) ∧ leave k' = r) ∧
  (∃ k1, call_intr n (enter k r) = Ok k1 ∧ schedule k1 = Ok (k', o)) ∧
  isr n k r = Ok (match o with
    | Returns => if bool_decide (slave n) then (k', clobbered n (leave k'), [(160, 96 + n); (32, 98)]) else (k', leave k', eoi n)
    | ToUser => (k', leave k', if bool_decide (slave n) then [] else eoi n)
    end).
Proof.
  intros (Q & c & HR & HC & Hr) Hq. cbn [fst snd] in *.
  destruct (quiet_handler n k Q c r HR HC Hr Hq) as (k1 & Q1 & E1 & HR1 & HC1 & HK).
  destruct (handled k Q c r k1 Q1 HR HC Hr HR1 HC1 HK) as (k' & o & E & HT & Hret).
  exists k', o. split_and!; [done|done|by exists k1|].
  destruct Hq as [-> | [-> | [-> | [-> | [-> _]]]]]; unfold isr; cbn [Z.eqb Z.ltb Z.compare Pos.eqb Pos.compare Pos.compare_cont];
    unfold irq_master, irq_slave, irq_over30; rewrite E1; cbn [mbind res_bind]; rewrite E; by destruct o.
Qed.

Lemma quiet_interrupt n k r : live (k, r) → quiet n r →
  ∃ k', Transparent k r k' (leave k') ∧ interrupt n k r = Ok (k', leave k', eoi n).
Proof.
  intros HL (e & He & Hq). destruct (isr_quiet e k r HL Hq) as (k' & o & HT & _ & _ & Ei). exists k'. split; [done|].
  unfold interrupt. rewrite He, Ei. assert (Hs : ¬ slave e ∧ eoi e = eoi n).
  { unfold Descriptor.gate_entry in He. unfold slave. destruct (_ || _) eqn:E in He.
    - injection He as <-. split; [|done]. rewrite !orb_true_iff in E. lia.
    - destruct (Z.eqb_spec n 128) as [->|]; [|done]. injection He as <-. split; [lia|done]. }
  destruct Hs as [Hs ->]. rewrite bool_decide_eq_false_2 by done. by destruct o.
Qed.

(** C5: an interrupt changes the registers of no process. From a state between two
    interrupts, the clock interrupt, the interrupt of the keyboard and an unknown kernel call
    come to an end; every process, the running one and the waiting ones, has the same
    registers afterwards, whichever runs then; memory changes in saved frames only; the
    invariants hold again; the master controller gets the end of just its interrupt. *)
Theorem interrupt_transparent n k r : live (k, r) → quiet n r →
  ∃ k' r', interrupt n k r = Ok (k', r', eoi n) ∧ Transparent k r k' r' ∧
    (n < 40 → specific_eoi (64 + n) = Some (n - 32)).
Proof.
  intros HL Hq. destruct (quiet_interrupt n k r HL Hq) as (k' & HT & E). exists k', (leave k'). split_and!; [done|done|].
  apply quiet_cases in Hq. unfold specific_eoi. destruct Hq as [-> | [-> | [[-> | ->] _]]]; (done || lia).
Qed.

(** the entry code of the disk interrupts is not transparent. When [schedule] switches, all
    registers are kept, but the controllers are not told of the end of the interrupt. When it
    does not, the program goes on with the values that the entry code had in [dx] and [al]
    (the other processes keep their registers), and what the slave controller gets is not the
    end of an interrupt. *)
Theorem slave_interrupt_clobbers n k r : live (k, r) → n = 46 ∨ n = 47 →
  ∃ k1 k' o, call_intr n (enter k r) = Ok k1 ∧ schedule k1 = Ok (k', o) ∧
    match o with
    | ToUser => ∃ r', isr n k r = Ok (k', r', []) ∧ Transparent k r k' r'
    | Returns => isr n k r = Ok (k', clobbered n r, [(160, 96 + n); (32, 98)]) ∧ pCurrent (pm k') = pCurrent (pm k) ∧
        Transparent k r k' r ∧ specific_eoi (96 + n) = None
    end.
Proof.
  intros HL Hn. assert (Hs : slave n) by (unfold slave; lia).
  destruct (isr_quiet n k r HL) as (k' & o & HT & Hret & (k1 & E1 & E) & Ei); [unfold quiet_entry; tauto|].
  rewrite bool_decide_eq_true_2 in Ei by done. exists k1, k', o. split_and!; [done|done|]. destruct o.
  - destruct (Hret eq_refl) as [Hc Hl]. rewrite Hl in Ei, HT. split_and!; try done. by destruct Hn as [-> | ->].
  - by exists (leave k').
Qed.

(** ** The kernel call [fork] *)

(** Runs of bytes with and without a property do not meet. *)
Lemma runs_apart (P : Z → Prop) (a b n : Z) : 0 < n → (∀ o, 0 ≤ o < n → P (a + o)) → (∀ o, 0 ≤ o < n → ¬ P (b + o)) →
  a + n ≤ b ∨ b + n ≤ a.
Proof.
  intros Hn Ha Hb. destruct (decide (a + n ≤ b ∨ b + n ≤ a)) as [|Hx]; [done|exfalso].
  destruct (decide (a ≤ b)).
  - apply (Hb 0); [lia|]. replace (b + 0) with (a + (b - a)) by lia. apply Ha. lia.
  - apply (Hb (a - b)); [lia|]. replace (b + (a - b)) with (a + 0) by lia. apply Ha. lia.
Qed.

(** A process is found by the same id after another process with a different id came. *)
Lemma find_proc_first (rooms : list Proc) (frees : list bool) (id : Z) d i : find_proc rooms frees id d = Some (d + i)%nat →
  ∀ (n : nat) q, (n < i)%nat → rooms !! n = Some q → frees !! n = Some false → p_id q ≠ id.
Proof.
  revert frees d i. induction rooms as [|p rooms IH]; intros [|b frees] d i; cbn; try done.
  destruct (negb b && (p_id p =? id)) eqn:E.
  - intros [= E'] n q Hn. lia.
  - intros Hf [|n] q Hn.
    + cbn. intros [= ->] [= ->]. bool_to_prop. cbn in E. destruct E as [?|?]; [done|]. by bool_to_prop.
    + destruct i as [|i]; [lia|]. cbn. intros Hq Hl. apply (IH frees (S d) i) with n; try done; [|lia].
      rewrite Hf. f_equal. lia.
Qed.

Lemma getProc_iff p (id : Z) j : getProc p id = Some j ↔
  (j < length (room (ProcL p)))%nat ∧ leased p j ∧ p_id (pr p j) = id ∧ ∀ n, (n < j)%nat → leased p n → p_id (pr p n) ≠ id.
Proof.
  split.
  - intros Hg. destruct (getProc_leased _ _ _ Hg) as (Hj & Hl & Hid). split_and!; [done..|]. intros n Hn Hln.
    destruct (lookup_lt_is_Some_2 (room (ProcL p)) n) as [q Hq]; [lia|].
    pose proof (find_proc_first _ _ id 0 j Hg n q Hn Hq Hln) as Hne. unfold pr. by rewrite Hq.
  - intros (Hj & Hl & Hid & Hlt). destruct (lookup_lt_is_Some_2 _ _ Hj) as [q Hq]. unfold getProc.
    apply (Fork.find_proc_at _ _ id 0 j q); [done|done|by unfold pr in Hid; rewrite Hq in Hid|].
    intros n q' Hn Hq' Hln. specialize (Hlt n Hn Hln). unfold pr in Hlt. by rewrite Hq' in Hlt.
Qed.

Lemma forked_leased k k' Q ms c i m (id dir : Z) j : Fork.Forked k k' Q ms c i m id dir → leased (pm k') j ↔ leased (pm k) j ∨ j = i.
Proof.
  intros HF. destruct (Fork.fk_room _ _ _ _ _ _ _ _ _ HF) as [Hfree Hl].
  destruct (Fork.fk_machine _ _ _ _ _ _ _ _ _ HF) as (_ & _ & Ef). destruct (decide (j = i)) as [->|Hne]; [tauto|].
  unfold leased. rewrite Ef, list_lookup_insert_ne by done. tauto.
Qed.

(** A process is found by the same id after another process with a new id came. *)
Lemma found_forked k k' Q ms c i m (id dir : Z) : Fork.Forked k k' Q ms c i m id dir →
  (∀ j, leased (pm k) j → p_id (pr (pm k) j) ≠ id) →
  length (room (ProcL (pm k'))) = length (room (ProcL (pm k))) →
  ∀ (a : Z) j, getProc (pm k) a = Some j → wakeable (pm k) j → getProc (pm k') a = Some j ∧ wakeable (pm k') j.
Proof.
  intros HF Hid Hlen a j (Hjr & Hl & Hida & Hlt)%getProc_iff (Hj & Hst & Hpr).
  destruct (Fork.fk_room _ _ _ _ _ _ _ _ _ HF) as [Hfree _].
  assert (Hji : j ≠ i) by (intros ->; unfold leased in Hl; congruence).
  destruct (Fork.fk_others _ _ _ _ _ _ _ _ _ HF j Hji) as (E1 & E2 & E3 & _).
  split; [|unfold wakeable; by rewrite E2, E3]. apply getProc_iff. rewrite Hlen, E1. split_and!; try done.
  { apply (forked_leased _ _ _ _ _ _ _ _ _ _ HF). by left. }
  intros n Hn Hln. destruct (decide (n = i)) as [->|Hni].
  - rewrite (proj1 (Fork.fk_child _ _ _ _ _ _ _ _ _ HF)). intros <-. by apply (Hid j).
  - rewrite (proj1 (Fork.fk_others _ _ _ _ _ _ _ _ _ HF n Hni)). apply Hlt; [done|].
    apply (forked_leased _ _ _ _ _ _ _ _ _ _ HF) in Hln. tauto.
Qed.

(** The state after [fork], with the result in the frame of the parent. *)
Definition forked_state k (pid : Z) : K := set_frame k 44 (u32 pid).

Section forked.
Context (k k' : K) (Q : list (list nat)) (ms : Z) (c i : nat) (m : mm_struct) (id dir : Z).
Context (HF : Fork.Forked k k' Q ms c i m id dir) (HR : Running k Q c) (Hesp : esp k = frame_of (pr (pm k) c)).

Abbreviation fr j := (frame_of (pr (pm k') j)).
Abbreviation k2 := (forked_state k' id).

Lemma forked_child : i ≠ c ∧ ¬ leased (pm k) i.
Proof.
  destruct (Fork.fk_room _ _ _ _ _ _ _ _ _ HF) as [Hfree _]. destruct (ru_current _ _ _ HR) as (_ & Hl & _).
  unfold leased in *. split; congruence.
Qed.

Lemma forked_info j : j ≠ i → kernel_info (pr (pm k') j) = kernel_info (pr (pm k) j) ∧ fr j = frame_of (pr (pm k) j).
Proof.
  intros Hj. destruct (Fork.fk_others _ _ _ _ _ _ _ _ _ HF j Hj) as (_ & _ & _ & _ & E). unfold frame_of. by rewrite E.
Qed.

(** The frames of the table with the child do not overlap. *)
Lemma forked_apart j n : leased (pm k') j → leased (pm k') n → j ≠ n → fr j + frame_size ≤ fr n ∨ fr n + frame_size ≤ fr j.
Proof.
  pose proof (λ j, proj1 (forked_leased _ _ _ _ _ _ _ _ _ j HF)) as Hl. pose proof forked_child as [_ Hni].
  assert (Hold : ∀ j, leased (pm k) j → fr j + frame_size ≤ fr i ∨ fr i + frame_size ≤ fr j).
  { intros j' Hj'. assert (j' ≠ i) as Hne by (intros ->; done). destruct (forked_info j' Hne) as [_ ->].
    apply (runs_apart (fa_used (vm_pf (vm k)))); [done| |].
    - intros o Ho. apply (ru_used _ _ _ HR). exists j'. split; [done|]. lia.
    - intros o Ho. by apply (Fork.fk_stack _ _ _ _ _ _ _ _ _ HF). }
  intros [Hj| ->]%Hl [Hn| ->]%Hl Hne.
  - rewrite (proj2 (forked_info j ltac:(intros ->; done))), (proj2 (forked_info n ltac:(intros ->; done))).
    by apply (ru_apart _ _ _ HR).
  - by apply Hold.
  - destruct (Hold n Hn); tauto.
  - done.
Qed.

Lemma forked_esp : u32 (esp k' + 44) = fr c + frame_ax.
Proof.
  destruct (Fork.fk_machine _ _ _ _ _ _ _ _ _ HF) as (Ee & _). pose proof forked_child as [Hne _].
  rewrite (proj2 (forked_info c ltac:(done))), Ee, Hesp.
  destruct (running_frame k Q c c HR (proj1 (proj2 (ru_current _ _ _ HR)))) as (_ & H0 & H1).
  unfold frame_ax, frame_size in *. by rewrite u32_id by (unfold is_u32; lia).
Qed.

(** The frames that were there, and the one of the child. *)
Lemma forked_load j : leased (pm k') j →
  load (vm_mem (vm k2)) (fr j) =
    if decide (j = c) then set_ax (u32 id) (load (vm_mem (vm k)) (frame_of (pr (pm k) c)))
    else load (vm_mem (vm k)) (frame_of (pr (pm k) (if decide (j = i) then c else j))).
Proof.
  intros Hj. pose proof forked_child as [Hic Hni]. destruct (ru_current _ _ _ HR) as (_ & Hlc & _).
  assert (Em : vm_mem (vm k2) = store32 (vm_mem (vm k')) (fr c + frame_ax) (u32 id)) by (cbn; by rewrite forked_esp).
  assert (Hkeep : ∀ n, leased (pm k) n → load (vm_mem (vm k')) (fr n) = load (vm_mem (vm k)) (frame_of (pr (pm k) n))).
  { intros n Hn. rewrite (proj2 (forked_info n ltac:(intros ->; done))). apply load_ext. intros o Ho.
    apply (Clone.cl_used _ _ _ _ _ _ (Fork.fk_space _ _ _ _ _ _ _ _ _ HF)), (ru_used _ _ _ HR). exists n. split; [done|]. lia. }
  assert (Hlc' : leased (pm k') c) by (apply (forked_leased _ _ _ _ _ _ _ _ _ _ HF); by left).
  rewrite Em. destruct (decide (j = c)) as [->|Hne].
  { rewrite load_store_ax by apply u32_range. by rewrite Hkeep. }
  rewrite (load_changes (vm_mem (vm k')) _ (fr c)); [| |by apply forked_apart].
  2: { apply only_changes_store32; unfold frame_ax, frame_size; lia. }
  destruct (decide (j = i)) as [->|Hji].
  - apply load_ext_at. intros o Ho. by apply (Fork.fk_frame _ _ _ _ _ _ _ _ _ HF).
  - apply Hkeep. apply (forked_leased _ _ _ _ _ _ _ _ _ _ HF) in Hj. tauto.
Qed.

Lemma forked_machine : pCurrent (pm k2) = Some c ∧ cr3_reg k2 = cr3_reg k ∧ tss_esp0 k2 = tss_esp0 k ∧
  esp k2 = frame_of (pr (pm k2) c).
Proof.
  destruct (Fork.fk_machine _ _ _ _ _ _ _ _ _ HF) as (Ee & Et & _).
  destruct (Fork.fk_current _ _ _ _ _ _ _ _ _ HF) as (Ec & E3 & _). split_and!; [done|done|done|].
  cbn. rewrite Ee, Hesp. pose proof forked_child as [Hne _]. by rewrite (proj2 (forked_info c ltac:(done))).
Qed.

Lemma forked_running : ∃ Q', Running k2 Q' c.
Proof.
  destruct (Fork.fk_queues _ _ _ _ _ _ _ _ _ HF) as (l & Hl & HW). eexists. pose proof forked_child as [Hic Hni].
  pose proof (λ j, forked_leased _ _ _ _ _ _ _ _ _ j HF) as Hld. destruct (ru_current _ _ _ HR) as (_ & Hlc & Hret).
  destruct forked_machine as (Ec & E3 & Et & _). destruct (Fork.fk_kernel _ _ _ _ _ _ _ _ _ HF) as (Hrf & _).
  split.
  - exact HW.
  - intros j Hj. apply Hld. apply elem_of_concat in Hj as (lvl & l' & Hl' & Hj).
    apply list_lookup_insert_Some in Hl' as [(<- & <- & _)|(_ & Hl')].
    + apply elem_of_app in Hj as [Hj|Hj%list_elem_of_singleton]; [left|by right].
      apply (ru_queued _ _ _ HR), elem_of_concat. eauto.
    + left. apply (ru_queued _ _ _ HR), elem_of_concat. eauto.
  - split_and!; [done|apply Hld; by left|]. cbn. by rewrite (proj1 (forked_info c ltac:(done))).
  - intros j [Hj| ->]%Hld.
    + destruct (ru_ready _ _ _ HR j Hj) as (m' & [Hm Hcb] & Hcr). exists m'. rewrite E3. split; [|done].
      assert (Hne : j ≠ i) by (intros ->; done). destruct (Fork.fk_others _ _ _ _ _ _ _ _ _ HF j Hne) as (_ & _ & _ & Hmm & Hki).
      split; cbn; [by rewrite Hmm|by rewrite Hki].
    + destruct (Fork.fk_child _ _ _ _ _ _ _ _ _ HF) as (_ & _ & _ & Hmm). eexists. split; [|done]. split; [exact Hmm|by right].
  - rewrite Et. cbn. rewrite (proj1 (forked_info c ltac:(done))). apply (ru_tss _ _ _ HR).
  - intros j [Hj| ->]%Hld; cbn.
    + rewrite (proj1 (forked_info j ltac:(intros ->; done))). by apply (ru_top _ _ _ HR).
    + apply (Fork.fk_stack _ _ _ _ _ _ _ _ _ HF).
  - intros j n. apply forked_apart.
  - apply bytes_ok_store32, (sp_bytes _ _ (Clone.cl_space _ _ _ _ _ _ (Fork.fk_space _ _ _ _ _ _ _ _ _ HF))).
  - intros a (j & Hj & Ha). change (pm k2) with (pm k') in Hj, Ha. apply Hld in Hj as [Hj| ->].
    + apply (Clone.cl_used _ _ _ _ _ _ (Fork.fk_space _ _ _ _ _ _ _ _ _ HF)), (ru_used _ _ _ HR). exists j. split; [done|].
      by rewrite (proj2 (forked_info j ltac:(intros ->; done))) in Ha.
    + replace a with (fr i + (a - fr i)) by lia. apply (Fork.fk_stack _ _ _ _ _ _ _ _ _ HF). lia.
Qed.

Lemma forked_rooms : length (room (ProcL (pm k'))) = length (room (ProcL (pm k))).
Proof.
  destruct forked_running as [Q' HR']. transitivity nr_Proc; [apply (wf_rooms _ _ (ru_wf _ _ _ HR'))|symmetry; apply (wf_rooms _ _ (ru_wf _ _ _ HR))].
Qed.

Lemma forked_clocks : Clocks k → (∀ j, leased (pm k) j → p_id (pr (pm k) j) ≠ id) → Clocks k2.
Proof.
  intros [H1 H2 H3 H4 (xs & H5 & H6)] Hid. destruct (Fork.fk_clock _ _ _ _ _ _ _ _ _ HF) as (Et & Ei & En).
  assert (Hw : ∀ a, can_wake (pm k) a → can_wake (pm k2) a).
  { intros a (j & Hg & Hwk). exists j. by apply (found_forked _ _ _ _ _ _ _ _ _ HF Hid forked_rooms). }
  split; cbn; rewrite ?Et, ?Ei, ?En; try done.
  - intros e He Hty. by apply Hw, H3.
  - exists xs. split; [done|]. intros e He. by apply Hw, H6.
Qed.

(** The registers of the parent, the child and the others. *)
Lemma forked_context j : leased (pm k') j → context k2 j =
  if decide (j = c) then set_ax (u32 id) (context k c) else if decide (j = i) then set_ax 0 (context k c) else context k j.
Proof.
  intros Hj. pose proof forked_child as [Hic Hni]. destruct (ru_current _ _ _ HR) as (_ & Hlc & Hret).
  assert (Ec : context k c = load (vm_mem (vm k)) (frame_of (pr (pm k) c))) by by eapply running_not_fresh.
  unfold context at 1. change (pm k2) with (pm k'). rewrite forked_load by done. destruct (decide (j = c)) as [->|Hjc].
  - rewrite (proj1 (forked_info c ltac:(done))), Hret. by rewrite Ec.
  - destruct (decide (j = i)) as [->|Hji].
    + destruct (Fork.fk_kernel _ _ _ _ _ _ _ _ _ HF) as (-> & _). by rewrite Ec.
    + rewrite (proj1 (forked_info j ltac:(done))). done.
Qed.

End forked.

(** What the call of [fork] does to the processes: the child [i] and the parent, which runs. *)
Record ForkCalled k r k' r' i (pid : Z) : Prop := {
  fc_live : live (k', r');
  fc_leased : ∀ j, leased (pm k') j ↔ leased (pm k) j ∨ j = i;
  fc_new : ¬ leased (pm k) i ∧ p_id (pr (pm k') i) = pid;
  fc_child : regs_of k' r' i = set_ax 0 r;
  fc_parent : ∀ c, pCurrent (pm k) = Some c → regs_of k' r' c = set_ax (u32 pid) r;
  fc_others : ∀ j, leased (pm k) j → pCurrent (pm k) ≠ Some j → regs_of k' r' j = regs_of k r j;
  fc_found : ∀ (a : Z) j, getProc (pm k) a = Some j → wakeable (pm k) j → getProc (pm k') a = Some j ∧ wakeable (pm k') j;
  fc_messages : ∀ j, leased (pm k) j → sendQ (pr (pm k') j) = sendQ (pr (pm k) j)
}.

Lemma running_queues k Q Q' c : Running k Q c → Wf (pm k) Q' → (∀ j, j ∈ concat Q' → leased (pm k) j) → Running k Q' c.
Proof. intros [H1 H2 H3 H4 H5 H6 H7 H8 H9] HW HQ. by split. Qed.

Lemma fork_call_spec k Q c r m : live (k, r) → ax r = NR_K_FORK → Fork.CanFork fuel (enter k r) Q kPdir mem_size c m →
  ∃ k' r' i, isr 48 k r = Ok (k', r', []) ∧ ForkCalled k r k' r' i (fst (pid_gen (pm k))).
Proof.
  intros (Q0 & c0 & HR0 & HC & Hr) Hax HF0. cbn [fst snd] in *.
  pose proof (running_queues k Q0 Q c0 HR0 (Fork.cf_wf _ _ _ _ _ _ _ HF0) (Fork.cf_leased _ _ _ _ _ _ _ HF0)) as HR.
  assert (c0 = c) as ->.
  { pose proof (proj1 (ru_current _ _ _ HR0)) as E1. destruct (Fork.cf_current _ _ _ _ _ _ _ HF0) as [E2 _].
    change (pm (enter k r)) with (pm k) in E2. congruence. }
  destruct (enter_running k Q c r HR HC Hr) as (HR1 & HC1 & He & Hctx & _).
  destruct (Fork.fork_spec _ _ _ _ _ _ _ HF0) as (i & k1 & dir & Ef & HF). change (pm (enter k r)) with (pm k) in *.
  set (id := fst (pid_gen (pm k))) in *.
  destruct (forked_running _ _ _ _ _ _ _ _ _ HF HR1 He) as [Q2 HR2].
  pose proof (forked_clocks _ _ _ _ _ _ _ _ _ HF HR1 He HC1 (Fork.cf_id _ _ _ _ _ _ _ HF0)) as HC2.
  destruct (forked_machine _ _ _ _ _ _ _ _ _ HF HR1 He) as (_ & _ & _ & He2).
  destruct (schedule_running _ Q2 c HR2 HC2 He2) as (k' & o & Q' & c' & E & HR' & HC' & HRe & _). pose proof HRe as [Rg Rf Rs R1 Rid R2 _].
  assert (E1 : call_intr 48 (enter k r) = Ok (forked_state k1 id)).
  { change (call_intr 48 (enter k r)) with (kernelCall (enter k r)). unfold kernelCall.
    rewrite (frame_ax_enter k Q c r HR Hr), Hax. change (NR_K_FORK =? NR_K_EXEC) with false. change (NR_K_FORK =? NR_K_SEND) with false.
    change (NR_K_FORK =? NR_K_RECV) with false. change (NR_K_FORK =? NR_K_FORK) with true. cbn match. by rewrite Ef. }
  exists k', (leave k'), i. split.
  { unfold isr; cbn [Z.eqb Z.ltb Z.compare Pos.eqb Pos.compare Pos.compare_cont]. unfold irq_over30. by rewrite E1; cbn [mbind res_bind]; rewrite E. }
  destruct (ru_current _ _ _ HR) as (Hc & Hlc & _). destruct (forked_child _ _ _ _ _ _ _ _ _ HF HR1) as [Hic Hni].
  pose proof (λ j, forked_leased _ _ _ _ _ _ _ _ _ j HF) as Hld.
  assert (Hc0 : context (enter k r) c = r).
  { rewrite Hctx by done. unfold regs_of. by rewrite bool_decide_eq_true_2. }
  assert (Hregs : ∀ j, leased (pm k) j ∨ j = i → regs_of k' (leave k') j =
    if decide (j = c) then set_ax (u32 id) r else if decide (j = i) then set_ax 0 r else context (enter k r) j).
  { intros j Hj%Hld. rewrite R2 by done. rewrite (forked_context _ _ _ _ _ _ _ _ _ HF HR1 He) by done. by rewrite Hc0. }
  split.
  - exists Q', c'. split_and!; [done|done|apply leave_ok, HR'].
  - intros j. rewrite R1. apply Hld.
  - split; [done|]. rewrite Rid. apply (Fork.fk_child _ _ _ _ _ _ _ _ _ HF).
  - rewrite Hregs by tauto. by rewrite decide_False, decide_True by done.
  - intros c1 Hc1. assert (c1 = c) as -> by congruence. rewrite Hregs by tauto. by rewrite decide_True by done.
  - intros j Hj Hjc. rewrite Hregs by tauto. rewrite !decide_False; [by apply Hctx| |congruence]. by intros ->.
  - intros a j Hg Hw. destruct (found_forked _ _ _ _ _ _ _ _ _ HF (Fork.cf_id _ _ _ _ _ _ _ HF0) (forked_rooms _ _ _ _ _ _ _ _ _ HF HR1 He) a j Hg Hw) as [Hg1 Hw1].
    rewrite Rg. split; [done|]. destruct Hw1 as (W1 & W2 & W3). split; [done|]. rewrite Rs, (Rf _ prior) by done. done.
  - intros j Hj. rewrite (Rf _ sendQ) by done. apply (Fork.fk_messages _ _ _ _ _ _ _ _ _ HF). by intros ->.
Qed.

(** C6: [fork] returns twice. A program that calls [fork] when the kernel can make another
    process goes on with the id of the child in [ax] and all other registers as they were;
    the child is a process of its own with that id, and it goes on at the same place with
    the same registers and 0 in [ax]. This holds whichever of them runs first; the
    registers of all other processes are unchanged and the invariants hold again. *)
Theorem fork_returns_twice k Q c r m : live (k, r) → ax r = NR_K_FORK → Fork.CanFork fuel (enter k r) Q kPdir mem_size c m →
  ∃ k' r' i, interrupt 48 k r = Ok (k', r', []) ∧ ForkCalled k r k' r' i (fst (pid_gen (pm k))).
Proof. unfold interrupt. change (Descriptor.gate_entry 48) with (Some 48). apply fork_call_spec. Qed.

Lemma interrupt_fork k r : interrupt 48 k r = isr 48 k r.
Proof. unfold interrupt. by change (Descriptor.gate_entry 48) with (Some 48). Qed.

(** What a program does to its memory. *)
Lemma program_context k (m : mem) j : (∀ a, in_frame k a → load8 m a = load8 (vm_mem (vm k)) a) → leased (pm k) j →
  context (with_vm k (mkVM m (vm_pf (vm k)))) j = context k j.
Proof.
  intros Hm Hj. unfold context. cbn [pm with_vm vm vm_mem]. rewrite (load_ext (vm_mem (vm k)) m); [done|].
  intros o Ho. apply Hm. exists j. split; [done|]. lia.
Qed.

End system.

(** ** A concrete state

    The processes of [Task.v], two of them in the address space of [Clone.v]; their frames are in
    the page at 0. *)

Definition ex_irqQue : Que irq_entry :=
  match Que_new nr_irq invalid_entry invalid_entry with Ok q => q | _ => mkQue invalid_entry None None 0 (mkLessor [] []) end.

Definition ex_top (v : Z) (q : Proc) : Proc := Fork.set_kernel_info (Fork.set_stack_top v (kernel_info q)) q.

Definition ex_pm : PManager :=
  let p := pm (ex_k TASK_RUNNING (Some 0%nat) false) in
  let p := upd_proc p 0 (λ q, ex_top 4092 (Fork.set_mm Clone.ex_mm q)) in
  upd_proc (upd_proc p 1 (λ q, ex_top 3000 (Fork.set_mm Clone.ex_mm q))) 2 (ex_top 2000).

Definition ex_timer : Timer.Timer := Timer.mkTimer [Timer.mkEntry 1 Timer.Wakeup 101] false 0 0.

Definition ex_sys : K := mkK ex_pm ex_timer false ex_irqQue 16 4092 8192 0 0 Clone.ex_clone_vm.

Definition ex_regs (v : Z) : regs := mkRegs 51 51 51 51 1 2 3 4 5 6 v 1073741824 43 514 2147479552 51.

Definition ex_queues : list (list nat) := [[]; [0%nat; 1%nat]; []; []].

Lemma ex_sys_wf : Wf ex_pm ex_queues.
Proof. do 3 (apply wf_upd_other; [done|]). apply ex_wf. Qed.

Lemma ex_leased j : leased ex_pm j → j = 0%nat ∨ j = 1%nat ∨ j = 2%nat.
Proof.
  destruct j as [|[|[|j]]]; try tauto. unfold leased. change (isFree (ProcL ex_pm) !! S (S (S j))) with (replicate 29 true !! j).
  intros H. by apply lookup_replicate_1 in H as [? _].
Qed.

Lemma ex_running : Running ex_sys ex_queues 0.
Proof.
  split.
  - apply ex_sys_wf.
  - intros j Hj. assert (j = 0%nat ∨ j = 1%nat) as [-> | ->] by (cbn in Hj; set_solver); done.
  - done.
  - intros j [-> | [-> | ->]]%ex_leased; eexists; (split; [split; [reflexivity|by left]|done]).
  - done.
  - intros j [-> | [-> | ->]]%ex_leased; done.
  - intros i j [-> | [-> | ->]]%ex_leased [-> | [-> | ->]]%ex_leased; try done; intros _; vm_compute; by (left + right).
  - apply Clone.ex_mm_bytes.
  - intros a (j & Hj & Ha). apply Clone.ex_pf_used.
    assert (0 ≤ frame_of (pr (pm ex_sys) j) ∧ frame_of (pr (pm ex_sys) j) + frame_size ≤ 4096).
    { apply ex_leased in Hj as [-> | [-> | ->]]; done. }
    lia.
Qed.

Lemma ex_clocks : Clocks ex_sys.
Proof.
  split.
  - repeat constructor.
  - intros e ->%list_elem_of_singleton. done.
  - intros e ->%list_elem_of_singleton _. exists 2%nat. split; [done|]. split; [unfold nr_Proc; lia|]. split; [by left|]. done.
  - intros v Hv. change (v ∈ [0; 1; 2; 3]) in Hv. set_unfold in Hv. lia.
  - exists []. split; [|intros e He; by apply elem_of_nil in He].
    change (irqQue ex_sys) with ex_irqQue. unfold ex_irqQue.
    destruct (Que_new_repr nr_irq invalid_entry invalid_entry) as (q & E & HR). by rewrite E.
Qed.

Lemma ex_regs_ok (v : Z) : is_u32 v → regs_ok (ex_regs v).
Proof. intros Hv. split; cbn; split_and!; try done. Qed.

Lemma ex_live (v : Z) : is_u32 v → live (ex_sys, ex_regs v).
Proof. intros Hv. exists ex_queues, 0%nat. split_and!; [apply ex_running|apply ex_clocks|by apply ex_regs_ok]. Qed.

(** The frame of the running process is not in its page tables. *)
Lemma ex_enter_word r b : 4096 ≤ b → load32 (vm_mem (vm (enter ex_sys r))) b = load32 Clone.ex_mem b.
Proof.
  intros Hb. unfold load32. change (vm_mem (vm (enter ex_sys r))) with (save Clone.ex_mem 4024 r).
  rewrite !(save_changes _ 4024 r); (done || unfold frame_size; lia).
Qed.

Lemma ex_enter_bytes r : bytes_ok (vm_mem (vm (enter ex_sys r))).
Proof. apply (save_bytes Clone.ex_mem 4024), Clone.ex_mm_bytes. Qed.

Lemma ex_enter_dir r (q i : Z) : q = 4096 ∨ q = 8192 → 0 ≤ i → dirE (vm_mem (vm (enter ex_sys r))) q i = dirE Clone.ex_mem q i.
Proof. intros Hq Hi. apply ex_enter_word. lia. Qed.

(** The kernel's directory and an address space are what their directories say. *)
Lemma kernel_mem (m m' : mem) (pf : PFAllocator.state) (kPdir ms : Z) : Clone.Kernel (mkVM m pf) kPdir ms →
  (∀ i : Z, 0 ≤ i → dirE m' kPdir i = dirE m kPdir i) → Clone.Kernel (mkVM m' pf) kPdir ms.
Proof.
  intros [H1 H2 H3 H4 H5 H6] Hd. split; [exact H1|exact H2|exact H3|exact H4|..].
  - intros i Hi. cbn [vm_mem]. rewrite Hd by lia. by apply H5.
  - intros i j Hi Hj. cbn [vm_mem]. rewrite !Hd by lia. by apply H6.
Qed.

Lemma space_mem (m m' : mem) (pf : PFAllocator.state) (pdir : Z) : Space (mkVM m pf) pdir → bytes_ok m' →
  (∀ i : Z, 0 ≤ i → dirE m' pdir i = dirE m pdir i) → Space (mkVM m' pf) pdir.
Proof.
  intros [H1 H2 H3 H4 H5] Hb Hd. split; [exact Hb|exact H2|exact H3|..].
  - intros i Hi. cbn [vm_mem]. rewrite Hd by lia. by apply H4.
  - intros i j Hi Hj. cbn [vm_mem]. rewrite !Hd by lia. by apply H5.
Qed.

Lemma ex_enter_vm r : vm (enter ex_sys r) = mkVM (vm_mem (vm (enter ex_sys r))) Clone.ex_pf.
Proof. done. Qed.

Lemma ex_enter_kernel r : Clone.Kernel (vm (enter ex_sys r)) 4096 4194304.
Proof. rewrite ex_enter_vm. apply (kernel_mem Clone.ex_mem); [exact Clone.ex_kernel_dir|]. intros i Hi. by apply ex_enter_dir; auto. Qed.

Lemma ex_enter_space r : Space (vm (enter ex_sys r)) 8192.
Proof.
  rewrite ex_enter_vm. apply (space_mem Clone.ex_mem); [exact Clone.ex_mm_space|apply ex_enter_bytes|].
  intros i Hi. by apply ex_enter_dir; auto.
Qed.

Lemma ex_enter_regions r :
  Forall (Clone.region_mapped (vm (enter ex_sys r)) 4194304 (cr3 Clone.ex_mm)) (regions Clone.ex_mm).
Proof.
  eapply Forall_impl; [exact Clone.ex_region_mapped|]. intros g (H1 & H2 & H3 & H4 & H5 & H6). split_and!; try done.
  intros va Hva. destruct (H6 va Hva) as (Hk & x & Hx & Hu). split; [done|]. exists x. split; [|done].
  assert (0 ≤ va / 4194304) by (unfold Clone.in_region in Hva; Z.div_mod_to_equations; lia).
  rewrite <-Hx. change (vm_mem Clone.ex_clone_vm) with Clone.ex_mem.
  apply translate_ext; [unfold dir_entry; apply ex_enter_dir; cbn; lia|].
  unfold table_entry, dir_entry. rewrite ex_enter_dir by (cbn; lia). intros He. apply ex_enter_word.
  assert (Hc : caddrEntry (dirE Clone.ex_mem (cr3 Clone.ex_mm) (va / 4194304)) = 12288).
  { destruct (Clone.ex_dirE (cr3 Clone.ex_mm) (va / 4194304)) as [(? & _)|(_ & _ & ->)]; try done; [set_solver|].
    unfold Clone.in_region in Hva. Z.div_mod_to_equations; lia. }
  rewrite Hc. Z.div_mod_to_equations; lia.
Qed.

Lemma ex_enter_fork r : Fork.CanFork 2 (enter ex_sys r) ex_queues 4096 4194304 0 Clone.ex_mm.
Proof.
  split.
  - apply ex_sys_wf.
  - apply (ru_queued _ _ _ ex_running).
  - done.
  - done.
  - by exists 3%nat.
  - intros j [-> | [-> | ->]]%ex_leased; done.
  - done.
  - done.
  - apply ex_enter_kernel.
  - apply ex_enter_space.
  - apply ex_enter_regions.
  - repeat constructor; cbn; lia.
  - eapply fa_ready_le; [|exact Clone.ex_pf_ready]. change (Clone.region_frames (regions Clone.ex_mm)) with 2%nat. lia.
  - intros o Ho. apply Clone.ex_pf_used. change (frame_of (pr (pm (enter ex_sys r)) 0)) with 4024. unfold frame_size in Ho. lia.
Qed.

Definition no_exec (k : K) (path : Z) : res (K * bool) := Ok (k, false).

Lemma interrupt_transparent_witness :
  ∃ k' r', interrupt no_exec 2 4096 4194304 32 ex_sys (ex_regs 7) = Ok (k', r', [(32, 96)]) ∧
    regs_of k' r' 0 = ex_regs 7 ∧ specific_eoi 96 = Some 0.
Proof.
  destruct (interrupt_transparent no_exec 2 4096 4194304 32 ex_sys (ex_regs 7)) as (k' & r' & E & HT & He).
  - apply ex_live. unfold is_u32. lia.
  - apply quiet_cases. left. reflexivity.
  - exists k', r'. split; [exact E|]. split; [|apply He; lia]. rewrite (tr_regs _ _ _ _ HT 0%nat eq_refl). reflexivity.
Defined.

Lemma slave_interrupt_clobbers_witness :
  ∃ k1 k' o, call_intr no_exec 2 4096 4194304 46 (enter ex_sys (ex_regs 7)) = Ok k1 ∧ schedule k1 = Ok (k', o).
Proof.
  destruct (slave_interrupt_clobbers no_exec 2 4096 4194304 46 ex_sys (ex_regs 7)) as (k1 & k' & o & E1 & E & _).
  - apply ex_live. unfold is_u32. lia.
  - left. reflexivity.
  - exists k1, k', o. split; assumption.
Defined.

Lemma fork_returns_twice_witness :
  ∃ k' r' i, interrupt no_exec 2 4096 4194304 48 ex_sys (ex_regs 3) = Ok (k', r', []) ∧ regs_of k' r' i = ex_regs 0 ∧
    regs_of k' r' 0 = ex_regs 102.
Proof.
  destruct (fork_returns_twice no_exec 2 4096 4194304 ex_sys ex_queues 0 (ex_regs 3) Clone.ex_mm) as (k' & r' & i & E & HF).
  - apply ex_live. unfold is_u32. lia.
  - reflexivity.
  - apply ex_enter_fork.
  - exists k', r', i. split; [exact E|]. split; [exact (fc_child _ _ _ _ _ _ HF)|].
    exact (fc_parent _ _ _ _ _ _ HF 0%nat eq_refl).
Defined.

End System.
