(* ===== verification/UserMemory.v ===== *)
(** * The memory of the running program, as the kernel and the program reach it

    Both go through the page tables of the process ([uload], [ustore] of [Interrupt.v]). A
    [Buffer] is a range of addresses in ordinary memory: not in the tables that map it. *)

From S2P Require Import Prelude Chain Memory KType PageFrames VarMem Timer Process Task Ipc Descriptor Clone Fork Interrupt System.

Module UserMemory.
Import VarMem Process Task Interrupt System.

Implicit Types (k : K) (m : mem).

(** ** The bytes of a buffer *)

(** Byte [a] is in one of the two entries that the translation of [va] reads. *)
Definition in_walk m (dir va a : Z) : Prop :=
  dir + 4 * (va / 4194304) ≤ a < dir + 4 * (va / 4194304) + 4 ∨
  isEntryExist (dir_entry m dir va) = true ∧
    let e := caddrEntry (dir_entry m dir va) + 4 * (va `mod` 4194304 / 4096) in e ≤ a < e + 4.

Lemma load32_same m m' b : (∀ a, b ≤ a < b + 4 → load8 m' a = load8 m a) → load32 m' b = load32 m b.
Proof. intros H. unfold load32. by rewrite !H by lia. Qed.

Lemma walk_same m m' dir va : (∀ a, in_walk m dir va a → load8 m' a = load8 m a) →
  translate m' dir va = translate m dir va ∧ ∀ a, in_walk m' dir va a ↔ in_walk m dir va a.
Proof.
  intros H. assert (Hd : dir_entry m' dir va = dir_entry m dir va) by (apply load32_same; intros a Ha; apply H; by left).
  split; [|intros a; unfold in_walk; by rewrite Hd]. apply translate_ext; [done|]. intros He. unfold table_entry. rewrite Hd.
  apply load32_same. intros a Ha. apply H. by right.
Qed.

(** The [sz] bytes at [va] are the bytes [f 0], ..., [f (sz - 1)]: ordinary memory, not in the
    tables that map it. *)
Record Buffer m (dir va sz : Z) (f : Z → Z) : Prop := {
  bf_at : ∀ o, 0 ≤ o < sz → translate m dir (u32 (va + o)) = Some (f o);
  bf_inj : ∀ o o', 0 ≤ o < sz → 0 ≤ o' < sz → f o = f o' → o = o';
  bf_walk : ∀ o o', 0 ≤ o < sz → 0 ≤ o' < sz → ¬ in_walk m dir (u32 (va + o)) (f o')
}.

Lemma buffer_same m m' dir va sz f : (∀ o a, 0 ≤ o < sz → in_walk m dir (u32 (va + o)) a → load8 m' a = load8 m a) →
  Buffer m dir va sz f → Buffer m' dir va sz f.
Proof.
  intros H [H1 H2 H3]. split; [|done|].
  - intros o Ho. rewrite <- H1 by done. apply walk_same. intros a. by apply H.
  - intros o o' Ho Ho'. rewrite (proj2 (walk_same m m' dir _ (λ a, H o a Ho))). by apply H3.
Qed.

Lemma buffer_store m dir va sz f o v : Buffer m dir va sz f → 0 ≤ o < sz → Buffer (store8 m (f o) v) dir va sz f.
Proof.
  intros HB Ho. eapply buffer_same; [|exact HB]. intros o' a Ho' Hw. rewrite load8_store8, decide_False; [done|].
  intros ->. by apply (bf_walk _ _ _ _ _ HB o' o).
Qed.

(** [n] bytes from offset [o] on. *)
Fixpoint get m (f : Z → Z) (o : Z) (n : nat) : Z :=
  match n with O => 0 | S n => load8 m (f o) + 256 * get m f (o + 1) n end.
Fixpoint put m (f : Z → Z) (o : Z) (n : nat) (v : Z) : mem :=
  match n with O => m | S n => put (store8 m (f o) v) f (o + 1) n (v / 256) end.

Lemma put_other (f : Z → Z) (n : nat) : ∀ m o v a, (∀ i, o ≤ i < o + Z.of_nat n → a ≠ f i) → load8 (put m f o n v) a = load8 m a.
Proof.
  induction n as [|n IH]; intros m o v a H; cbn [put]; [done|]. rewrite IH by (intros i Hi; apply H; lia).
  rewrite load8_store8, decide_False; [done|]. apply H. lia.
Qed.

Lemma put_bytes (f : Z → Z) (n : nat) : ∀ m o v, bytes_ok m → bytes_ok (put m f o n v).
Proof. induction n as [|n IH]; intros m o v H; cbn [put]; [done|]. by apply IH, bytes_ok_store8. Qed.

Lemma put_buffer dir va sz (f : Z → Z) (n : nat) : ∀ m o v, Buffer m dir va sz f → 0 ≤ o → o + Z.of_nat n ≤ sz → Buffer (put m f o n v) dir va sz f.
Proof. induction n as [|n IH]; intros m o v H H0 Hn; cbn [put]; [done|]. apply IH; [apply buffer_store; [done|lia]|lia|lia]. Qed.

Lemma get_same (f : Z → Z) (n : nat) m m' : ∀ o, (∀ i, o ≤ i < o + Z.of_nat n → load8 m' (f i) = load8 m (f i)) → get m' f o n = get m f o n.
Proof. induction n as [|n IH]; intros o H; cbn [get]; [done|]. rewrite H by lia. rewrite IH; [done|]. intros i Hi. apply H. lia. Qed.

Lemma get_range (f : Z → Z) (n : nat) m : bytes_ok m → ∀ o, 0 ≤ get m f o n < 256 ^ Z.of_nat n.
Proof.
  intros Hm. induction n as [|n IH]; intros o; cbn [get]; [done|]. rewrite Nat2Z.inj_succ, Z.pow_succ_r by lia.
  pose proof (load8_range m (f o) Hm). unfold is_u8 in *. specialize (IH (o + 1)). lia.
Qed.

Lemma get_put (f : Z → Z) (n : nat) : ∀ m o v, (∀ i j : Z, o ≤ i < o + Z.of_nat n → o ≤ j < o + Z.of_nat n → f i = f j → i = j) →
  get (put m f o n v) f o n = v `mod` 256 ^ Z.of_nat n.
Proof.
  induction n as [|n IH]; intros m o v H; cbn [get put]; [by rewrite Z.mod_1_r|].
  rewrite IH by (intros i j Hi Hj; apply H; lia). rewrite put_other.
  2: { intros i Hi E. assert (o = i) by (apply H; [lia|lia|done]). lia. }
  rewrite load8_store8, decide_True by done. rewrite Nat2Z.inj_succ, Z.pow_succ_r by lia.
  rewrite Z.rem_mul_r by lia. reflexivity.
Qed.

(** The accesses of the kernel to the caller's buffer. *)
Lemma uload_get k va sz f (n : nat) : Buffer (vm_mem (vm k)) (cr3_reg k) va sz f →
  ∀ o, 0 ≤ o → o + Z.of_nat n ≤ sz → uload n k (va + o) = Ok (get (vm_mem (vm k)) f o n).
Proof.
  intros HB. induction n as [|n IH]; intros o H0 Hn; cbn [uload get]; [done|]. unfold uload8. rewrite (bf_at _ _ _ _ _ HB) by lia.
  cbn [mbind res_bind]. rewrite <- Z.add_assoc, IH by lia. done.
Qed.

Definition set_mem k m : K := with_vm k (mkVM m (vm_pf (vm k))).

Lemma set_mem_id k : set_mem k (vm_mem (vm k)) = k.
Proof. unfold set_mem. destruct k as [? ? ? ? ? ? ? ? ? [? ?]]. done. Qed.

Lemma ustore_put va sz f (n : nat) : ∀ k o v, Buffer (vm_mem (vm k)) (cr3_reg k) va sz f → 0 ≤ o → o + Z.of_nat n ≤ sz →
  ustore n k (va + o) v = Ok (set_mem k (put (vm_mem (vm k)) f o n v)).
Proof.
  induction n as [|n IH]; intros k o v HB H0 Hn; cbn [ustore put]; [by rewrite set_mem_id|]. unfold ustore8.
  rewrite (bf_at _ _ _ _ _ HB) by lia. cbn [mbind res_bind]. rewrite <- Z.add_assoc. fold (set_mem k (store8 (vm_mem (vm k)) (f o) v)).
  rewrite IH; [done| |lia|lia]. apply buffer_store; [done|lia].
Qed.


(** Different bytes of a buffer. *)
Section inj.
Context (sz : Z) (f : Z → Z) (Hf : ∀ o o', 0 ≤ o < sz → 0 ≤ o' < sz → f o = f o' → o = o').

Lemma get_put_ne m o (n : nat) o' (n' : nat) v : 0 ≤ o → o + Z.of_nat n ≤ sz → 0 ≤ o' → o' + Z.of_nat n' ≤ sz →
  o + Z.of_nat n ≤ o' ∨ o' + Z.of_nat n' ≤ o → get (put m f o n v) f o' n' = get m f o' n'.
Proof.
  intros H0 H1 H2 H3 Hd. apply get_same. intros i Hi. apply put_other. intros j Hj E. apply Hf in E; lia.
Qed.

Lemma get_put_eq m o (n : nat) v : 0 ≤ o → o + Z.of_nat n ≤ sz → get (put m f o n v) f o n = v `mod` 256 ^ Z.of_nat n.
Proof. intros H0 H1. apply get_put. intros i j Hi Hj. apply Hf; lia. Qed.

End inj.

(** ** Buffers of the running process *)

(** The buffer of the running process: neither it nor the entries that map it are in a saved
    frame. *)
Record Owned k (va sz : Z) (f : Z → Z) : Prop := {
  ow_buffer : Buffer (vm_mem (vm k)) (cr3_reg k) va sz f;
  ow_frame : ∀ o, 0 ≤ o < sz → ¬ in_frame k (f o);
  ow_walk : ∀ o a, 0 ≤ o < sz → in_walk (vm_mem (vm k)) (cr3_reg k) (u32 (va + o)) a → ¬ in_frame k a
}.

End UserMemory.
