(* ===== verification/Messages.v ===== *)
(** * Messages between programs ([NR_K_SEND] and [NR_K_RECV] of [src/kernel/irq.cpp] with [src/kernel/Ipc.cpp])

    The kernel reads and writes the message of a caller through its page tables. Here the two
    calls are followed from the registers of the sender to the memory of the receiver: what
    they do to the processes, to memory and to the invariants of [System.v]. *)

From S2P Require Import Prelude Chain Memory KType PageFrames VarMem Timer Process Task Ipc Descriptor Clone Fork Interrupt System UserMemory.

Module Messages.
Import VarMem Process Task Interrupt System UserMemory.

Implicit Types (k : K) (Q : list (list nat)) (c x : nat) (r : regs) (m : mem).

(** ** Messages in memory *)

(** The size of a [Message]. *)
Definition msg_size : Z := 20.

Definition message_at m (f : Z → Z) : Message :=
  mkMessage (s32 (get m f 0 4)) (get m f 4 2) (negb (get m f 6 1 =? 0)) (get m f 8 4) (get m f 12 4) (get m f 16 4).

Definition put_message m (f : Z → Z) (msg : Message) : mem :=
  let m := put m f 0 4 (u32 (m_id msg)) in let m := put m f 4 2 (m_type msg) in
  let m := put m f 6 1 (if isValid msg then 1 else 0) in
  let m := put m f 8 4 (m_p1 msg) in let m := put m f 12 4 (m_p2 msg) in put m f 16 4 (m_p3 msg).

(** The members have their widths. *)
Definition message_ok (msg : Message) : Prop :=
  is_s32 (m_id msg) ∧ is_u16 (m_type msg) ∧ is_u32 (m_p1 msg) ∧ is_u32 (m_p2 msg) ∧ is_u32 (m_p3 msg).

Lemma read_message_at k va f : Buffer (vm_mem (vm k)) (cr3_reg k) va msg_size f → read_message k va = Ok (message_at (vm_mem (vm k)) f).
Proof.
  intros HB. unfold read_message, msg_size in *. pose proof (uload_get k va msg_size f 4 HB 0) as H0. rewrite Z.add_0_r in H0.
  rewrite H0 by (unfold msg_size; lia). cbn [mbind res_bind].
  repeat (rewrite (uload_get k va msg_size f _ HB) by (unfold msg_size; lia); cbn [mbind res_bind]). done.
Qed.

Ltac in_buffer := cbn [set_mem with_vm vm vm_mem vm_pf cr3_reg]; repeat (apply put_buffer; [|unfold msg_size; lia..]); assumption.

Lemma write_message_put k va f msg : Buffer (vm_mem (vm k)) (cr3_reg k) va msg_size f →
  write_message k va msg = Ok (set_mem k (put_message (vm_mem (vm k)) f msg)).
Proof.
  intros HB. unfold write_message. pose proof (ustore_put va msg_size f 4 k 0 (u32 (m_id msg)) HB) as H0. rewrite Z.add_0_r in H0.
  rewrite H0 by (unfold msg_size; lia). cbn [mbind res_bind].
  do 5 (rewrite (ustore_put va msg_size f) by (in_buffer || (unfold msg_size; lia)); cbn [mbind res_bind]). reflexivity.
Qed.

Lemma put_message_bytes m f msg : bytes_ok m → bytes_ok (put_message m f msg).
Proof. intros Hm. unfold put_message. by repeat apply put_bytes. Qed.

Lemma put_message_other m f msg a : (∀ o, 0 ≤ o < msg_size → a ≠ f o) → load8 (put_message m f msg) a = load8 m a.
Proof. intros H. unfold put_message. unfold msg_size in H. rewrite !put_other; try done; intros i Hi; apply H; lia. Qed.

Lemma message_at_ok m f : bytes_ok m → message_ok (message_at m f).
Proof.
  intros Hm. unfold message_ok, message_at. cbn [m_id m_type m_p1 m_p2 m_p3]. unfold is_u16, is_u32.
  pose proof (get_range f 2 m Hm 4). pose proof (get_range f 4 m Hm 8). pose proof (get_range f 4 m Hm 12). pose proof (get_range f 4 m Hm 16).
  change (256 ^ Z.of_nat 2) with 65536 in *. change (256 ^ Z.of_nat 4) with 4294967296 in *. split; [apply s32_range|lia].
Qed.

Section inj.
Context (f : Z → Z) (Hf : ∀ o o', 0 ≤ o < msg_size → 0 ≤ o' < msg_size → f o = f o' → o = o').

(** A message is read back as it was written. *)
Lemma message_put m msg : message_ok msg → message_at (put_message m f msg) f = msg.
Proof.
  intros (H1 & H2 & H3 & H4 & H5). unfold message_at, put_message. cbv zeta.
  repeat first [rewrite (get_put_eq msg_size f Hf) by (unfold msg_size; lia) | rewrite (get_put_ne msg_size f Hf) by (unfold msg_size; lia)].
  change (256 ^ Z.of_nat 4) with 4294967296. change (256 ^ Z.of_nat 2) with 65536. change (256 ^ Z.of_nat 1) with 256.
  fold (u32 (m_p1 msg)) (u32 (m_p2 msg)) (u32 (m_p3 msg)) (u16 (m_type msg)) (u32 (u32 (m_id msg))).
  rewrite !(u32_id (m_p1 msg)), !(u32_id (m_p2 msg)), !(u32_id (m_p3 msg)), (u16_id (m_type msg)) by done.
  rewrite s32_u32, s32_u32, s32_id by done. destruct msg as [? ? [] ? ? ?]; reflexivity.
Qed.

(** The kernel stamps a message with the id of the caller. *)
Lemma message_stamp m (id : Z) : is_s32 id → message_at (put m f 0 4 (u32 id)) f = Ipc.set_m_id id (message_at m f).
Proof.
  intros Hid. unfold message_at, Ipc.set_m_id. cbn [m_type isValid m_p1 m_p2 m_p3]. rewrite (get_put_eq msg_size f Hf) by (unfold msg_size; lia).
  rewrite !(get_put_ne msg_size f Hf) by (unfold msg_size; lia). change (256 ^ Z.of_nat 4) with 4294967296. fold (u32 (u32 id)).
  by rewrite s32_u32, s32_u32, s32_id.
Qed.

End inj.


(** ** What [send] and [recv] leave alone *)

Lemma same_found k k' (id : Z) s : Same k k' → getProc (pm k) id = Some s → wakeable (pm k) s →
  getProc (pm k') id = Some s ∧ wakeable (pm k') s.
Proof.
  intros HS Hg (H1 & H2 & H3). rewrite (getProc_same (pm k) (pm k')); [|apply HS|apply HS|intros j; by apply (sa_field _ _ HS)].
  split; [done|]. split; [done|]. rewrite (sa_field _ _ HS _ prior) by done. split; [|done].
  destruct (sa_status _ _ HS s) as [-> | [-> | ->]]; [done|by right|by left].
Qed.

(** A step of the process table: places in the run queues and messages may change. *)
Record Moved (p p' : PManager) : Prop := {
  mv_current : pCurrent p' = pCurrent p;
  mv_free : isFree (ProcL p') = isFree (ProcL p);
  mv_interval : Process.interval p' = Process.interval p;
  mv_rooms : length (room (ProcL p')) = length (room (ProcL p));
  mv_field : ∀ (B : Type) (g : Proc → B), inert g → ∀ j, g (pr p' j) = g (pr p j);
  mv_status : ∀ j, status (pr p' j) = status (pr p j) ∨ status (pr p' j) = TASK_RUNNING ∨ status (pr p' j) = TASK_STOPPED
}.

Lemma moved_refl p : Moved p p.
Proof. split; try done. intros j. by left. Qed.

Lemma moved_trans p1 p2 p3 : Moved p1 p2 → Moved p2 p3 → Moved p1 p3.
Proof.
  intros [H1 H2 H3 H4 H5 H6] [G1 G2 G3 G4 G5 G6]. split; try congruence.
  - intros B g Hg j. by rewrite G5, H5.
  - intros j. destruct (G6 j) as [-> | [-> | ->]]; [apply H6|auto|auto].
Qed.

Lemma moved_upd p i f : (∀ (B : Type) (g : Proc → B), inert g → ∀ q, g (f q) = g q) →
  (∀ q, status (f q) = status q ∨ status (f q) = TASK_RUNNING ∨ status (f q) = TASK_STOPPED) → Moved p (upd_proc p i f).
Proof.
  intros Hg Hs. split; try done.
  - apply length_alter.
  - intros B g Hi j. apply pr_upd_field. intros q. by apply Hg.
  - intros j. destruct (decide (i = j)) as [<-|Hne]; [|left; by rewrite pr_upd_ne].
    destruct (decide (i < length (room (ProcL p)))%nat); [rewrite pr_upd, decide_True by done; apply Hs|left; by rewrite pr_upd_oob].
Qed.

Lemma moved_assign p lvl pp v : Moved p (assign p lvl pp v).
Proof.
  split; try by destruct pp.
  - apply procs_length_assign.
  - intros B g [[Hn _] _] j. by apply pr_assign_field.
  - intros j. left. by apply (pr_assign_field status).
Qed.

Lemma moved_deque p i p' : deque p i = Ok p' → Moved p p'.
Proof.
  assert (Hw : ∀ fuel lvl pp p1, deque_walk fuel p i lvl pp = Ok (Some p1) → Moved p p1).
  { induction fuel as [|fuel IH]; intros lvl pp p1; cbn [deque_walk]; [done|]. destruct (deref p lvl pp) as [c|]; [|done].
    case_bool_decide; [|apply IH]. intros [= <-]. eapply moved_trans; [|apply moved_assign]. apply moved_upd; [|intros q; auto].
    intros B g [[_ Hg] _] q. apply Hg. }
  assert (Hl : ∀ n lvl p1, deque_levels n p i lvl = Ok p1 → Moved p p1).
  { induction n as [|n IH]; intros lvl p1; cbn [deque_levels]; [intros [= <-]; apply moved_refl|].
    destruct (deque_walk _ _ _ _ _) as [[q|]| | |] eqn:E; cbn [mbind res_bind]; try done; [|apply IH].
    intros [= <-]. by eapply Hw. }
  unfold deque. destruct (status (pr p i)); try done; [apply Hl|intros [= <-]; apply moved_refl].
Qed.

Lemma moved_enque p i (level : Z) p' : enque p i level = Ok p' → Moved p p'.
Proof.
  intros (H1 & H2 & H3 & H4 & H5 & H6)%enque_kept. split; try done.
  - intros B g [Hg _]. by apply H5.
  - intros j. destruct (H6 j); auto.
Qed.

(** The kernel keeps its memory, its registers and its clocks. *)
Definition Calm k k' : Prop := Moved (pm k) (pm k') ∧ Same k k' ∧ timer k' = timer k ∧ irqQue k' = irqQue k.

Lemma calm_intro k k' : Moved (pm k) (pm k') → vm k' = vm k → esp k' = esp k ∧ tss_esp0 k' = tss_esp0 k ∧ cr3_reg k' = cr3_reg k →
  timer k' = timer k → irqQue k' = irqQue k → Calm k k'.
Proof. intros HM Hv Hm Ht Hi. split; [done|]. split; [|done]. destruct HM. by split. Qed.

Lemma calm_refl k : Calm k k.
Proof. apply calm_intro; try done. apply moved_refl. Qed.

Lemma calm_trans k1 k2 k3 : Calm k1 k2 → Calm k2 k3 → Calm k1 k3.
Proof.
  intros (H1 & H2 & H3 & H4) (G1 & G2 & G3 & G4). split; [by eapply moved_trans|]. split; [by eapply same_trans|]. split; congruence.
Qed.

Lemma calm_upd k i f : (∀ (B : Type) (g : Proc → B), inert g → ∀ q, g (f q) = g q) → (∀ q, status (f q) = status q) → Calm k (Ipc.upd k i f).
Proof. intros Hg Hs. apply calm_intro; try done. apply moved_upd; [done|]. intros q. by left. Qed.

Lemma calm_recvQ k i q : Calm k (Ipc.upd k i (Ipc.set_recvQ q)).
Proof. apply calm_upd; [|done]. intros B g (_ & Hg & _). apply Hg. Qed.
Lemma calm_sendQ k i q : Calm k (Ipc.upd k i (set_sendQ q)).
Proof. apply calm_upd; [|done]. intros B g (_ & _ & Hg & _). apply Hg. Qed.
Lemma calm_anyQ k i q : Calm k (Ipc.upd k i (Ipc.set_recv_anyQ q)).
Proof. apply calm_upd; [|done]. intros B g (_ & _ & _ & Hg). apply Hg. Qed.

Lemma calm_wakeup k (id : Z) k' : wakeup k id = Ok k' → Calm k k'.
Proof.
  unfold wakeup. destruct (getProc (pm k) id) as [i|]; [|done]. destruct (enque (pm k) i 0) as [p| | |] eqn:E; cbn [mbind res_bind]; try done.
  intros [= <-]. apply calm_intro; try done. by eapply moved_enque.
Qed.

Lemma calm_sleep k k' : sleep k (-1) = Ok k' → Calm k k'.
Proof.
  unfold sleep. destruct (current k) as [c| | |]; cbn [mbind res_bind]; try done. unfold sleep_pid.
  destruct (getProc _ _) as [i|]; [|done]. destruct (deque _ _) as [p| | |] eqn:E; cbn [mbind res_bind]; try done.
  intros [= <-]. apply calm_intro; try done. by eapply moved_deque.
Qed.

Lemma calm_send k (id : Z) msg k' msg' : Ipc.send k id msg = Ok (k', msg') → Calm k k'.
Proof.
  unfold Ipc.send. destruct (current k) as [c| | |]; cbn [mbind res_bind]; [|done..].
  destruct (deque_eq _ _ _) as [[t q]| | |]; cbn [mbind res_bind]; [|done..].
  pose proof (calm_recvQ k c q) as C1. set (k1 := Ipc.upd k c _) in *. destruct (isValid t).
  - destruct (Ipc.must _) as [x| | |]; cbn [mbind res_bind]; [|done..].
    destruct (KType.enque _ _ _) as [q2| | |]; cbn [mbind res_bind]; [|done..].
    pose proof (calm_sendQ k1 x q2) as C2. destruct (wakeup _ id) as [k3| | |] eqn:E; cbn [mbind res_bind]; [|done..].
    intros [= <- _]. apply calm_wakeup in E. eapply calm_trans; [exact C1|]. by eapply calm_trans.
  - destruct (Ipc.must _) as [x| | |]; cbn [mbind res_bind]; [|done..].
    destruct (KType.deque _) as [[y q2]| | |]; cbn [mbind res_bind]; [|done..]. pose proof (calm_anyQ k1 x q2) as C2.
    set (k2 := Ipc.upd k1 x _) in *. destruct (KType.enque _ _ _) as [q3| | |]; cbn [mbind res_bind]; [|done..].
    pose proof (calm_sendQ k2 x q3) as C3. set (k3 := Ipc.upd k2 x _) in *.
    assert (C4 : ∀ k4, (if isValid y then wakeup k3 id else sleep k3 (-1)) = Ok k4 → Calm k3 k4)
      by (intros k4; destruct (isValid y); [apply calm_wakeup|apply calm_sleep]).
    destruct (if isValid y then _ else _) as [k4| | |]; cbn [mbind res_bind]; [|done..]. intros [= <- _].
    eapply calm_trans; [exact C1|]. eapply calm_trans; [exact C2|]. eapply calm_trans; [exact C3|]. by apply C4.
Qed.

(** [recv] with a message that is there. *)
Lemma calm_recv k c (id : Z) t q msg k' msg' : current k = Ok c → id ≠ PID_ANY → deque_eq Message_eqb (sendQ (pr (pm k) c)) (Message_id id) = Ok (t, q) →
  isValid t = true → Ipc.recv k id msg = Ok (k', msg') → Calm k k'.
Proof.
  intros Hc Hid Hq Ht. unfold Ipc.recv. rewrite Hc. cbn [mbind res_bind]. rewrite (proj2 (Z.eqb_neq _ _) Hid), Hq. cbn [mbind res_bind]. rewrite Ht.
  destruct (wakeup _ id) as [k3| | |] eqn:E; cbn [mbind res_bind]; [|done..]. intros [= <- _]. apply calm_wakeup in E.
  eapply calm_trans; [apply calm_sendQ|exact E].
Qed.


(** ** The invariants *)

Lemma running_mem k Q c m : Running k Q c → bytes_ok m → Running (set_mem k m) Q c.
Proof. intros [H1 H2 H3 H4 H5 H6 H7 H8 H9] Hm. by split. Qed.

Lemma clocks_calm k k' : Clocks k → Calm k k' → Clocks k'.
Proof.
  intros [H1 H2 H3 H4 (xs & H5 & H6)] (_ & HS & Ht & Hi). split; rewrite ?Ht; try done.
  - intros e He Hty. eapply kept_wake; [exact HS|]. by apply H3.
  - by rewrite (sa_interval _ _ HS).
  - rewrite Hi. exists xs. split; [done|]. intros e He. eapply kept_wake; [exact HS|]. by apply H6.
Qed.

Lemma message_same m m' f : (∀ o, 0 ≤ o < msg_size → load8 m' (f o) = load8 m (f o)) → message_at m' f = message_at m f.
Proof.
  intros H. unfold msg_size in H. assert (Hg : ∀ o (n : nat), 0 ≤ o → o + Z.of_nat n ≤ 20 → get m' f o n = get m f o n)
    by (intros o n Ho Hn; apply get_same; intros i Hi; apply H; lia).
  unfold message_at. by rewrite !Hg by lia.
Qed.

(** A call that stamps the message at [va], passes it to [op] and stores what [op] returns. *)
Definition message_call (op : K → Message → res (K * Message)) k (va : Z) : res K :=
  c ← current k;
  k ← ustore 4 k va (u32 (p_id (pr (pm k) c)));
  mess ← read_message k va;
  '(k, mess) ← op k mess;
  write_message k va mess.

(** The state in which [op] is called. *)
Definition stamped k f (id : Z) : K := set_mem k (put (vm_mem (vm k)) f 0 4 (u32 id)).

(** What the call leaves behind, in front of [schedule]. *)
Record Handled k r k2 k1 (f : Z → Z) (msg : Message) Q2 c : Prop := {
  ha_running : Running k1 Q2 c;
  ha_clocks : Clocks k1;
  ha_esp : esp k1 = frame_of (pr (pm k1) c);
  ha_pm : pm k1 = pm k2;
  ha_found : ∀ (id : Z) s, getProc (pm k) id = Some s → wakeable (pm k) s → getProc (pm k1) id = Some s ∧ wakeable (pm k1) s;
  ha_leased : ∀ j, leased (pm k1) j ↔ leased (pm k) j;
  ha_regs : ∀ j, leased (pm k) j → context k1 j = regs_of k r j;
  ha_frames : ∀ a, in_frame k1 a ↔ in_frame k a;
  ha_message : message_at (vm_mem (vm k1)) f = msg;
  ha_memory : ∀ a, ¬ in_frame k a → (∀ o, 0 ≤ o < msg_size → a ≠ f o) → load8 (vm_mem (vm k1)) a = load8 (vm_mem (vm k)) a
}.

Lemma owned_enter k Q c r va f : Running k Q c → Clocks k → regs_ok r → Owned k va msg_size f →
  Buffer (vm_mem (vm (enter k r))) (cr3_reg (enter k r)) va msg_size f ∧
  message_at (vm_mem (vm (enter k r))) f = message_at (vm_mem (vm k)) f.
Proof.
  intros HR HC Hr [H1 H2 H3]. destruct (enter_running k Q c r HR HC Hr) as (_ & _ & _ & _ & Hmem). split.
  - change (cr3_reg (enter k r)) with (cr3_reg k). eapply buffer_same; [|exact H1]. intros o a Ho Hw. apply Hmem. by eapply H3.
  - apply message_same. intros o Ho. by apply Hmem, H2.
Qed.

Lemma message_call_ok op k Q c r va f k2 Q2 msg : Running k Q c → Clocks k → regs_ok r → Owned k va msg_size f →
  is_s32 (p_id (pr (pm k) c)) →
  op (stamped (enter k r) f (p_id (pr (pm k) c))) (Ipc.set_m_id (p_id (pr (pm k) c)) (message_at (vm_mem (vm k)) f)) = Ok (k2, msg) →
  Calm (stamped (enter k r) f (p_id (pr (pm k) c))) k2 → Wf (pm k2) Q2 → (∀ j, j ∈ concat Q2 → leased (pm k) j) → message_ok msg →
  ∃ k1, message_call op (enter k r) va = Ok k1 ∧ Handled k r k2 k1 f msg Q2 c.
Proof.
  intros HR HC Hr HO Hid Eop HK HW HQ Hmsg. set (id := p_id (pr (pm k) c)) in *.
  destruct (enter_running k Q c r HR HC Hr) as (HR0 & HC0 & He0 & Hctx & Hmem).
  destruct (owned_enter k Q c r va f HR HC Hr HO) as [HB0 Hmsg0]. set (k0 := enter k r) in *.
  assert (Hpm0 : pm k0 = pm k) by done. clearbody k0. set (m1 := put (vm_mem (vm k0)) f 0 4 (u32 id)) in *.
  assert (HB1 : Buffer m1 (cr3_reg k0) va msg_size f) by (apply put_buffer; [done|lia|unfold msg_size; lia]).
  assert (Hf : ∀ o, 0 ≤ o < msg_size → ¬ in_frame k0 (f o)) by (intros o Ho; unfold in_frame; rewrite Hpm0; by apply (ow_frame _ _ _ _ HO)).
  assert (Hm1 : ∀ a, (∀ o, 0 ≤ o < msg_size → a ≠ f o) → load8 m1 a = load8 (vm_mem (vm k0)) a)
    by (intros a Ha; apply put_other; intros i Hi; apply Ha; unfold msg_size; lia).
  change (stamped k0 f id) with (set_mem k0 m1) in *. pose proof HK as (_ & HS & _).
  assert (HR1 : Running (set_mem k0 m1) Q c) by (apply running_mem; [done|apply put_bytes, HR0]).
  assert (HR2 : Running k2 Q2 c).
  { eapply kept_running; [exact HR1|exact HS|done|]. intros j Hj. change (leased (pm k0) j). rewrite Hpm0. by apply HQ. }
  assert (Ev2 : vm k2 = mkVM m1 (vm_pf (vm k0))) by apply (sa_vm _ _ HS).
  assert (HB2 : Buffer (vm_mem (vm k2)) (cr3_reg k2) va msg_size f).
  { rewrite Ev2. destruct (sa_machine _ _ HS) as (_ & _ & ->). exact HB1. }
  exists (set_mem k2 (put_message (vm_mem (vm k2)) f msg)). set (m3 := put_message _ _ _). split.
  { unfold message_call, current. rewrite Hpm0, (proj1 (ru_current _ _ _ HR)). cbn [mbind res_bind]. fold id.
    pose proof (ustore_put va msg_size f 4 k0 0 (u32 id) HB0) as E0. rewrite Z.add_0_r in E0. rewrite E0 by (unfold msg_size; lia).
    cbn [mbind res_bind]. fold m1. rewrite (read_message_at (set_mem k0 m1) va f HB1). cbn [mbind res_bind].
    change (vm_mem (vm (set_mem k0 m1))) with m1. unfold m1 at 2. rewrite message_stamp, Hmsg0 by (done || apply HB0).
    rewrite Eop. cbn [mbind res_bind]. by apply write_message_put. }
  assert (Hm3 : ∀ a, (∀ o, 0 ≤ o < msg_size → a ≠ f o) → load8 m3 a = load8 (vm_mem (vm k0)) a).
  { intros a Ha. unfold m3. rewrite put_message_other, Ev2 by done. by apply Hm1. }
  assert (Hfr : ∀ a, in_frame k2 a ↔ in_frame k a).
  { intros a. rewrite (kept_in_frame _ _ a HS). unfold in_frame. change (pm (set_mem k0 m1)) with (pm k0). by rewrite Hpm0. }
  assert (Hne : ∀ a, in_frame k a → ∀ o, 0 ≤ o < msg_size → a ≠ f o).
  { intros a Ha o Ho ->. apply (Hf o Ho). unfold in_frame. by rewrite Hpm0. }
  split.
  - apply running_mem; [done|]. apply put_message_bytes, HR2.
  - apply (clocks_same k2); try done. eapply clocks_calm; [|exact HK]. by apply (clocks_same k0).
  - cbn [set_mem with_vm esp pm]. destruct (sa_machine _ _ HS) as (-> & _). cbn [set_mem with_vm esp]. rewrite He0.
    unfold frame_of. rewrite (kept_ret _ _ c HS). cbn [set_mem with_vm pm]. by rewrite Hpm0.
  - done.
  - intros a s Hg Hw. change (pm (set_mem k2 m3)) with (pm k2). apply (same_found _ _ _ _ HS); cbn [set_mem with_vm pm]; by rewrite Hpm0.
  - intros j. change (leased (pm k2) j ↔ leased (pm k) j). rewrite (kept_leased _ _ j HS). cbn [set_mem with_vm pm]. by rewrite Hpm0.
  - intros j Hj. assert (Hj2 : leased (pm k2) j) by (apply (kept_leased _ _ _ HS); cbn [set_mem with_vm pm]; by rewrite Hpm0).
    unfold set_mem. rewrite (program_context k2 m3 j); [| |done].
    + rewrite (kept_context _ _ j HS). unfold set_mem. rewrite (program_context k0 m1 j); [by apply Hctx| |by rewrite Hpm0].
      intros a Ha. apply Hm1, Hne. unfold in_frame in *. by rewrite Hpm0 in Ha.
    + intros a Ha%Hfr. unfold m3. apply put_message_other, Hne, Ha.
  - intros a. exact (Hfr a).
  - apply message_put; [apply (bf_inj _ _ _ _ _ HB0)|done].
  - intros a Ha Hna. cbn [set_mem with_vm vm vm_mem]. rewrite Hm3 by done. by apply Hmem.
Qed.


(** ** The two kernel calls *)

(** What the program with the registers [r] sees after its call has come back, and the others. *)
Record Called k r k' r' (f : Z → Z) (msg : Message) : Prop := {
  ca_live : live (k', r');
  ca_leased : ∀ j, leased (pm k') j ↔ leased (pm k) j;
  ca_found : ∀ (id : Z) s, getProc (pm k) id = Some s → wakeable (pm k) s → getProc (pm k') id = Some s ∧ wakeable (pm k') s;
  ca_regs : ∀ j, leased (pm k) j → regs_of k' r' j = regs_of k r j;
  ca_message : message_at (vm_mem (vm k')) f = msg;
  ca_memory : ∀ a, ¬ in_frame k a → (∀ o, 0 ≤ o < msg_size → a ≠ f o) → load8 (vm_mem (vm k')) a = load8 (vm_mem (vm k)) a
}.

Section calls.
Context (exec_path : K → Z → res (K * bool)) (fuel : nat) (kPdir mem_size : Z).

Abbreviation interrupt := (interrupt exec_path fuel kPdir mem_size).
Abbreviation kernelCall := (kernelCall exec_path fuel kPdir mem_size).

Lemma frame_args k Q c r : Running k Q c → regs_ok r →
  get_frame (enter k r) 44 = ax r ∧ get_frame (enter k r) 32 = bx r ∧ get_frame (enter k r) 40 = cx r.
Proof.
  intros HR Hr. pose proof (load_save (vm_mem (vm k)) (frame_of (pr (pm k) c)) r Hr) as E.
  split_and!; rewrite (frame_arg k Q c) by (done || lia); rewrite <- E at 2; done.
Qed.

Lemma kernelCall_send k Q c r : Running k Q c → regs_ok r → ax r = NR_K_SEND →
  kernelCall (enter k r) = message_call (λ k mess, Ipc.send k (s32 (bx r)) mess) (enter k r) (cx r).
Proof. intros HR Hr Hax. unfold Interrupt.kernelCall. destruct (frame_args k Q c r HR Hr) as (-> & -> & ->). by rewrite Hax. Qed.

Lemma kernelCall_recv k Q c r : Running k Q c → regs_ok r → ax r = NR_K_RECV →
  kernelCall (enter k r) = message_call (λ k mess, Ipc.recv k (s32 (bx r)) mess) (enter k r) (cx r).
Proof. intros HR Hr Hax. unfold Interrupt.kernelCall. destruct (frame_args k Q c r HR Hr) as (-> & -> & ->). by rewrite Hax. Qed.

Lemma call_interrupt k Q c r va f msg k2 k1 Q2 : Running k Q c → Owned k va msg_size f → kernelCall (enter k r) = Ok k1 →
  Handled k r k2 k1 f msg Q2 c →
  ∃ k' r', interrupt 48 k r = Ok (k', r', []) ∧ Called k r k' r' f msg ∧ Resumed k1 k'.
Proof.
  intros HR HO E1 HH. pose proof (ha_leased _ _ _ _ _ _ _ _ HH) as Hl.
  destruct (resume k r k1 Q2 c) as (k' & o & E & HL & HRe & Hregs & _); [apply HH|apply HH|apply HH| |].
  { intros j Hj. split; [by apply Hl|by apply (ha_regs _ _ _ _ _ _ _ _ HH)]. }
  assert (Hmem : ∀ a, ¬ in_frame k a → load8 (vm_mem (vm k')) a = load8 (vm_mem (vm k1)) a).
  { intros a Ha. apply (re_memory _ _ HRe). by rewrite (ha_frames _ _ _ _ _ _ _ _ HH). }
  exists k', (leave k'). split_and!; [|split|done].
  - unfold Interrupt.interrupt. change (Descriptor.gate_entry 48) with (Some 48). cbv beta iota. unfold isr.
    cbn [Z.eqb Z.ltb Z.compare Pos.eqb Pos.compare Pos.compare_cont]. unfold irq_over30.
    change (call_intr exec_path fuel kPdir mem_size 48 (enter k r)) with (kernelCall (enter k r)). rewrite E1. cbn [mbind res_bind]. by rewrite E.
  - done.
  - intros j. by rewrite (re_leased _ _ HRe).
  - intros a s Hg Hw. destruct (ha_found _ _ _ _ _ _ _ _ HH a s Hg Hw) as (Hg1 & W1 & W2 & W3). rewrite (re_get _ _ HRe).
    split; [done|]. split; [done|]. by rewrite (re_status _ _ HRe), (re_field _ _ HRe _ prior).
  - done.
  - rewrite <- (ha_message _ _ _ _ _ _ _ _ HH). apply message_same. intros o1 Ho1. by apply Hmem, HO.
  - intros a Ha Hna. rewrite Hmem by done. by apply (ha_memory _ _ _ _ _ _ _ _ HH).
Qed.

(** Process [x] has the messages [ys], newest first, and process [s] can be woken by its id. *)
Record Pending k x (ys : list Message) (id : Z) (s : nat) : Prop := {
  pn_queue : Ipc.Msgs (sendQ (pr (pm k) x)) ys;
  pn_found : getProc (pm k) id = Some s;
  pn_wake : wakeable (pm k) s
}.

(** [send] to a process that does not wait for the sender. *)
Lemma send_call_spec k Q c x r f xs : Running k Q c → Clocks k → regs_ok r → ax r = NR_K_SEND → Ipc.Peers k Q c x xs →
  s32 (bx r) = p_id (pr (pm k) x) → Owned k (cx r) msg_size f → is_s32 (p_id (pr (pm k) c)) →
  let id := p_id (pr (pm k) c) in let msg := Ipc.set_m_id id (message_at (vm_mem (vm k)) f) in
  ∃ k' r', interrupt 48 k r = Ok (k', r', []) ∧ Called k r k' r' f msg ∧ Pending k' x (msg :: xs) id c ∧
    status (pr (pm k') c) = TASK_STOPPED ∧ ∀ j, j ≠ x → sendQ (pr (pm k') j) = sendQ (pr (pm k) j).
Proof.
  intros HR HC Hr Hax HP Hbx HO Hid id msg. pose proof HP as [P1 P2 P3 P4 P5 P6 P7 P8 P9 P10 P11 P12].
  assert (HP1 : Ipc.Peers (stamped (enter k r) f id) Q c x xs) by by split.
  destruct (Ipc.send_blocks _ Q c x xs msg HP1) as (k2 & Q2 & E2 & HW2 & HQ2 & HM2 & Hst2 & Hf2 & Hg2 & Hq2).
  change (pm (stamped (enter k r) f id)) with (pm k) in *. fold id in E2, HM2. change (Ipc.set_m_id id msg) with msg in E2, HM2.
  destruct (message_call_ok (λ k mess, Ipc.send k (s32 (bx r)) mess) k Q c r (cx r) f k2 Q2 msg HR HC Hr HO Hid) as (k1 & E1 & HH).
  - cbv beta. fold id msg. by rewrite Hbx.
  - eapply calm_send. exact E2.
  - done.
  - intros j Hj. apply (ru_queued _ _ _ HR). rewrite HQ2. by right.
  - destruct (message_at_ok (vm_mem (vm k)) f (ru_bytes _ _ _ HR)) as (_ & H). split; [done|exact H].
  - rewrite <- (kernelCall_send k Q c r HR Hr Hax) in E1.
    destruct (call_interrupt k Q c r (cx r) f msg k2 k1 Q2 HR HO E1 HH) as (k' & r' & E & HCa & HRe).
    pose proof (ha_pm _ _ _ _ _ _ _ _ HH) as Hpm. exists k', r'. split_and!; [done|done| | |].
    + split.
      * rewrite (re_field _ _ HRe _ sendQ) by done. by rewrite Hpm.
      * rewrite (re_get _ _ HRe), Hpm, Hg2. exact P3.
      * apply getProc_leased in P3 as (Hlt & _). rewrite (wf_rooms _ _ P1) in Hlt. split; [done|].
        rewrite (re_status _ _ HRe), (re_field _ _ HRe _ prior), Hpm by done. split; [by left|]. destruct (Hf2 c) as [_ ->]. exact P8.
    + by rewrite (re_status _ _ HRe), Hpm.
    + intros j Hj. rewrite (re_field _ _ HRe _ sendQ), Hpm by done. by apply Hq2.
Qed.

(** A process in the table has a room. *)
Lemma running_room k Q c j : Running k Q c → leased (pm k) j → (j < nr_Proc)%nat.
Proof.
  intros HR Hj. rewrite <- (wf_rooms _ _ (ru_wf _ _ _ HR)). destruct (ru_ready _ _ _ HR j Hj) as (m & [Hm _] & _).
  apply lookup_lt_is_Some. unfold pr in Hm. destruct (room (ProcL (pm k)) !! j); [by eexists|done].
Qed.

(** [recv] from a process whose message is there. *)
Lemma recv_call_spec k Q c r f xs ys (id0 : Z) (s : nat) msg : Running k Q c → Clocks k → regs_ok r → ax r = NR_K_RECV →
  Pending k c xs id0 s → Ipc.newest_from id0 xs msg ys → s32 (bx r) = id0 → id0 ≠ PID_ANY → isValid msg = true → message_ok msg →
  Owned k (cx r) msg_size f → is_s32 (p_id (pr (pm k) c)) →
  ∃ k' r', interrupt 48 k r = Ok (k', r', []) ∧ Called k r k' r' f msg ∧ Ipc.Msgs (sendQ (pr (pm k') c)) ys ∧
    status (pr (pm k') s) = TASK_RUNNING ∧ ∀ j, j ≠ c → sendQ (pr (pm k') j) = sendQ (pr (pm k) j).
Proof.
  intros HR HC Hr Hax [N1 N2 N3] Hn Hbx Hany Hv Hok HO Hid. set (id := p_id (pr (pm k) c)) in *.
  destruct (ru_current _ _ _ HR) as (Hcur & Hlc & _). set (m0 := Ipc.set_m_id id (message_at (vm_mem (vm k)) f)).
  pose proof (running_room _ _ _ _ HR Hlc) as Hc. set (k0 := stamped (enter k r) f id).
  destruct (Ipc.recv_takes k0 Q s c id0 xs ys msg m0 (ru_wf _ _ _ HR) Hcur N2 N3 Hc Hany Hv N1 Hn) as (q & k2 & Q2 & E2 & Ew & Hq & HW2 & HQ2).
  destruct (Ipc.deque_eq_newest _ _ _ _ _ N1 Hn) as (q1 & Eq & _).
  destruct (message_call_ok (λ k mess, Ipc.recv k (s32 (bx r)) mess) k Q c r (cx r) f k2 Q2 msg HR HC Hr HO Hid) as (k1 & E1 & HH).
  - cbv beta. fold id m0. by rewrite Hbx.
  - apply (calm_recv k0 c id0 msg q1 m0 k2 msg); try done. unfold current. by rewrite (Hcur : pCurrent (pm k0) = Some c).
  - done.
  - intros j [Hj| ->]%HQ2; [by apply (ru_queued _ _ _ HR)|]. by apply getProc_leased in N2 as (_ & Hl & _).
  - done.
  - rewrite <- (kernelCall_recv k Q c r HR Hr Hax) in E1.
    destruct (call_interrupt k Q c r (cx r) f msg k2 k1 Q2 HR HO E1 HH) as (k' & r' & E & HCa & HRe).
    pose proof (ha_pm _ _ _ _ _ _ _ _ HH) as Hpm. destruct (wakeup_kept _ _ _ Ew) as [HK _].
    assert (Hsq : ∀ j, sendQ (pr (pm k') j) = sendQ (pr (pm (Ipc.upd k0 c (set_sendQ q))) j))
      by (intros j; by rewrite (re_field _ _ HRe _ sendQ), Hpm, (kt_field _ _ HK _ sendQ)).
    exists k', r'. split_and!; [done|done| | |].
    + rewrite Hsq, Ipc.upd_same; [done|]. change (pm k0) with (pm k). by rewrite (wf_rooms _ _ (ru_wf _ _ _ HR)).
    + rewrite (re_status _ _ HRe), Hpm. apply (wf_status _ _ HW2); [apply N3|]. apply HQ2. by right.
    + intros j Hj. rewrite Hsq. unfold Ipc.upd. cbn [pm with_pm]. by rewrite pr_upd_ne.
Qed.

End calls.

(** ** A concrete state: that of [System.v] with empty queues, and a valid message of process 0. *)

Definition ex_queues_k : K := Ipc.upd (Ipc.upd ex_sys 0 (Ipc.with_queues Ipc.ex_queue)) 1 (Ipc.with_queues Ipc.ex_queue).
Definition ex_msg_mem : mem := store8 Clone.ex_mem 16390 1.
Definition ex_msg_k : K := set_mem ex_queues_k ex_msg_mem.
Definition ex_send : regs := mkRegs 51 51 51 51 1 2 3 100 5 1073741824 NR_K_SEND 1073741824 43 514 2147479552 51.

Lemma calm_with_queues k i q : Calm k (Ipc.upd k i (Ipc.with_queues q)).
Proof. apply calm_upd; [|done]. intros B g (_ & H1 & H2 & H3) p. rewrite <- (H3 q p), <- (H2 q (Ipc.set_recv_anyQ q p)), <- (H1 q (set_sendQ q (Ipc.set_recv_anyQ q p))). done. Qed.

Lemma ex_queues_calm : Calm ex_sys ex_queues_k.
Proof. eapply calm_trans; apply calm_with_queues. Qed.

Lemma ex_queues_running : Running ex_queues_k ex_queues 0.
Proof.
  eapply kept_running; [exact ex_running|apply ex_queues_calm| |apply (ru_queued _ _ _ ex_running)].
  do 2 (apply wf_upd_other; [done|]). apply ex_sys_wf.
Qed.

Lemma ex_msg_running : Running ex_msg_k ex_queues 0.
Proof. apply running_mem; [exact ex_queues_running|]. apply bytes_ok_store8, Clone.ex_mm_bytes. Qed.

Lemma ex_msg_clocks : Clocks ex_msg_k.
Proof. apply (clocks_same ex_queues_k); try done. eapply clocks_calm; [exact ex_clocks|apply ex_queues_calm]. Qed.

(** Bytes of the page at 0x40000000. *)
Lemma ex_msg_walk (o a : Z) : 0 ≤ o < 4096 → in_walk Clone.ex_mem 8192 (u32 (1073741824 + o)) a → 9216 ≤ a < 9220 ∨ 12288 ≤ a < 12292.
Proof.
  intros Ho. rewrite u32_id by (unfold is_u32; lia). unfold in_walk, dir_entry.
  replace ((1073741824 + o) / 4194304) with 256 by (Z.div_mod_to_equations; lia).
  replace ((1073741824 + o) `mod` 4194304 / 4096) with 0 by (Z.div_mod_to_equations; lia).
  change (caddrEntry (dirE Clone.ex_mem 8192 256)) with 12288. cbv zeta. lia.
Qed.

Lemma ex_owned_at k (d sz : Z) : cr3_reg k = 8192 → (∀ a, in_frame k a → a < 4096) →
  (∀ a, 9216 ≤ a < 9220 ∨ 12288 ≤ a < 12292 → load8 (vm_mem (vm k)) a = load8 Clone.ex_mem a) → 0 ≤ d → d + sz ≤ 4096 →
  Owned k (1073741824 + d) sz (λ o, 16384 + d + o).
Proof.
  intros Hc Hf Hm Hd Hsz. assert (HB0 : Buffer Clone.ex_mem 8192 (1073741824 + d) sz (λ o, 16384 + d + o)).
  { split.
    - intros o Ho. rewrite u32_id by (unfold is_u32; lia). rewrite Clone.ex_translate.
      + f_equal. Z.div_mod_to_equations; lia.
      + unfold Clone.in_region, Clone.ex_region. cbn. lia.
    - intros o o' _ _. lia.
    - intros o o' Ho Ho' Hw. rewrite <- Z.add_assoc in Hw. apply ex_msg_walk in Hw; lia. }
  assert (Hw : ∀ o a, 0 ≤ o < sz → in_walk Clone.ex_mem 8192 (u32 (1073741824 + d + o)) a → 9216 ≤ a < 9220 ∨ 12288 ≤ a < 12292).
  { intros o a Ho Hw. rewrite <- Z.add_assoc in Hw. apply ex_msg_walk in Hw; lia. }
  split; rewrite ?Hc.
  - eapply buffer_same; [|exact HB0]. intros o a Ho Ha. by apply Hm, (Hw o).
  - intros o Ho Hin. apply Hf in Hin. lia.
  - intros o a Ho Ha Hin. apply Hf in Hin. apply (walk_same Clone.ex_mem (vm_mem (vm k))) in Ha.
    + apply (Hw o) in Ha; [lia|done].
    + intros b Hb. by apply Hm, (Hw o).
Qed.

Lemma ex_msg_leased j : leased (pm ex_msg_k) j → j = 0%nat ∨ j = 1%nat ∨ j = 2%nat.
Proof. intros Hj. apply ex_leased. exact (proj1 (kept_leased _ _ j (proj1 (proj2 ex_queues_calm))) Hj). Qed.

Lemma ex_msg_frame a : in_frame ex_msg_k a → a < 4096.
Proof.
  intros Ha. change (in_frame ex_queues_k a) in Ha. apply (kept_in_frame _ _ a (proj1 (proj2 ex_queues_calm))) in Ha as (j & Hj & Ha).
  assert (frame_of (pr (pm ex_sys) j) + frame_size ≤ 4096) by (by apply ex_leased in Hj as [-> | [-> | ->]]). lia.
Qed.

Lemma ex_msg_tables a : 9216 ≤ a < 9220 ∨ 12288 ≤ a < 12292 → load8 (vm_mem (vm ex_msg_k)) a = load8 Clone.ex_mem a.
Proof.
  intros Ha. change (load8 ex_msg_mem a = load8 Clone.ex_mem a). unfold ex_msg_mem. rewrite load8_store8, decide_False; [done|lia].
Qed.

Lemma ex_owned : Owned ex_msg_k 1073741824 msg_size (λ o, 16384 + o).
Proof. apply (ex_owned_at ex_msg_k 0); [done|exact ex_msg_frame|exact ex_msg_tables|lia|unfold msg_size; lia]. Qed.

Lemma ex_msg_peers : Ipc.Peers ex_msg_k ex_queues 0 1 [].
Proof.
  pose proof Ipc.ex_queue_msgs as HM. split; try done.
  - apply ex_msg_running.
  - exists []. split; [exact HM|]. intros m Hm. by apply elem_of_nil in Hm.
  - cbn. unfold nrMessage. lia.
Qed.

End Messages.
