(* ===== verification/Execution.v ===== *)
(** * Programs and the kernel over time

    The relation [step] interleaves the programs with what the kernel does for them: the
    interrupts of [System.v], and the kernel calls [fork], SEND and RECV. The theorems hold for
    all sequences of steps: the invariants, the registers of a process that does not run, and
    messages on their way. *)

From S2P Require Import Prelude Chain Memory KType PageFrames VarMem Timer Process Task Ipc Descriptor Clone Fork Interrupt System UserMemory Messages.

Module Execution.
Import VarMem Process Task Interrupt System UserMemory Messages.

Implicit Types (k : K) (Q : list (list nat)) (c j x : nat) (r : regs) (m : mem).

(** ** Kernel calls with messages *)

(** Process [c] runs and its call SEND can be served: process [x], for which the message is,
    does not wait for it and has room for it. *)
Record CanSend k r Q c x (f : Z → Z) (xs : list Message) : Prop := {
  sd_running : Running k Q c;
  sd_call : ax r = NR_K_SEND;
  sd_peers : Ipc.Peers k Q c x xs;
  sd_to : s32 (bx r) = p_id (pr (pm k) x);
  sd_owned : Owned k (cx r) msg_size f;
  sd_id : is_s32 (p_id (pr (pm k) c))
}.

(** Process [c] runs and its call RECV for process [s] with the id [id] can be served: the
    message [msg] is there. *)
Record CanRecv k r Q c (f : Z → Z) (id : Z) s (xs : list Message) msg (ys : list Message) : Prop := {
  rv_running : Running k Q c;
  rv_call : ax r = NR_K_RECV;
  rv_pending : Pending k c xs id s;
  rv_newest : Ipc.newest_from id xs msg ys;
  rv_from : s32 (bx r) = id ∧ id ≠ PID_ANY;
  rv_message : isValid msg = true ∧ message_ok msg;
  rv_owned : Owned k (cx r) msg_size f;
  rv_id : is_s32 (p_id (pr (pm k) c))
}.

Section execution.
Context (exec_path : K → Z → res (K * bool)) (fuel : nat) (kPdir mem_size : Z).

Abbreviation interrupt := (interrupt exec_path fuel kPdir mem_size).

(** ** Steps *)

Inductive label := Program | Interrupt (n : Z) | ForkCall | SendCall (c x : nat) | RecvCall (c : nat) (id : Z).

#[global] Instance label_eq_dec : EqDecision label.
Proof. solve_decision. Defined.

(** What the kernel serves when a program has the registers [r], and the number of the
    interrupt. *)
Inductive served k r : label → Z → Prop :=
| served_quiet n : quiet n r → served k r (Interrupt n) n
| served_fork Q c (m : mm_struct) : ax r = NR_K_FORK → Fork.CanFork fuel (enter k r) Q kPdir mem_size c m → served k r ForkCall 48
| served_send Q c x f xs : CanSend k r Q c x f xs → served k r (SendCall c x) 48
| served_recv Q c f id s xs msg ys : CanRecv k r Q c f id s xs msg ys → served k r (RecvCall c id) 48.

(** A program computes: its registers change, and memory outside of the saved frames. Or the
    kernel serves an interrupt or a call. *)
Inductive step : label → K * regs → K * regs → Prop :=
| step_program k r r' m : regs_ok r' → bytes_ok m → (∀ a, in_frame k a → load8 m a = load8 (vm_mem (vm k)) a) →
    step Program (k, r) (with_vm k (mkVM m (vm_pf (vm k))), r')
| step_served l n k r k' r' out : served k r l n → interrupt n k r = Ok (k', r', out) → step l (k, r) (k', r').

Definition any_step (s s' : K * regs) : Prop := ∃ l, step l s s'.

(** Steps in which process [j] neither computes nor calls [fork]. *)
Definition undisturbed j (s s' : K * regs) : Prop :=
  ∃ l, step l s s' ∧ (pCurrent (pm s.1) = Some j → l ≠ Program ∧ l ≠ ForkCall).

(** What the kernel leaves behind when it has served [l]. *)
Record Served l k r k' r' : Prop := {
  se_live : live (k', r');
  se_leased : ∀ j, leased (pm k) j → leased (pm k') j;
  se_regs : ∀ j, leased (pm k) j → (pCurrent (pm k) = Some j → l ≠ ForkCall) → regs_of k' r' j = regs_of k r j;
  se_found : ∀ (id : Z) s, getProc (pm k) id = Some s → wakeable (pm k) s → getProc (pm k') id = Some s ∧ wakeable (pm k') s
}.

Lemma called_served l k r k' r' f msg : Called k r k' r' f msg → Served l k r k' r'.
Proof. intros [H1 H2 H3 H4 _ _]. split; [done|by intros j; apply H2|auto|done]. Qed.

Lemma transparent_served l k r k' r' : Transparent k r k' r' → Served l k r k' r'.
Proof.
  intros HT. split; [apply HT|by intros j; apply (tr_leased _ _ _ _ HT)|intros j Hj _; by apply HT|].
  intros id s Hg (W1 & W2 & W3). rewrite (tr_get _ _ _ _ HT). split; [done|]. split; [done|].
  rewrite (tr_field _ _ _ _ HT _ prior) by done. split; [|done]. destruct (tr_status _ _ _ _ HT s) as [-> | ->]; [done|by right].
Qed.

Lemma forked_served k r k' r' i (pid : Z) : ForkCalled k r k' r' i pid → Served ForkCall k r k' r'.
Proof.
  intros HF. split; [apply HF|intros j Hj; apply (fc_leased _ _ _ _ _ _ HF); by left| |apply HF].
  intros j Hj Hc. apply (fc_others _ _ _ _ _ _ HF); [done|]. intros E. by apply (Hc E).
Qed.

Lemma live_running k r Q c : live (k, r) → Running k Q c → Clocks k ∧ regs_ok r.
Proof. by intros (Q0 & c0 & _ & HC & Hr) _. Qed.

(** Every call and interrupt that is served comes to its end. *)
Lemma served_ok l n k r : live (k, r) → served k r l n → ∃ k' r' out, interrupt n k r = Ok (k', r', out) ∧ Served l k r k' r'.
Proof.
  intros HL Hs. destruct Hs as [n Hq|Q c m Hax HF|Q c x f xs HS|Q c f id s xs msg ys HS].
  - destruct (quiet_interrupt exec_path fuel kPdir mem_size n k r HL Hq) as (k' & HT & E).
    exists k', (leave k'), (eoi n). split; [done|by apply transparent_served].
  - destruct (fork_call_spec exec_path fuel kPdir mem_size k Q c r m HL Hax HF) as (k' & r' & i & E & HFC).
    exists k', r', []. rewrite interrupt_fork. split; [done|by eapply forked_served].
  - destruct (live_running k r Q c HL (sd_running _ _ _ _ _ _ _ HS)) as [HC Hr]. destruct HS as [H1 H2 H3 H4 H5 H6].
    destruct (send_call_spec exec_path fuel kPdir mem_size k Q c x r f xs H1 HC Hr H2 H3 H4 H5 H6) as (k' & r' & E & HCa & _).
    exists k', r', []. split; [done|by eapply called_served].
  - destruct (live_running k r Q c HL (rv_running _ _ _ _ _ _ _ _ _ _ HS)) as [HC Hr]. destruct HS as [H1 H2 H3 H4 [H5 H6] [H7 H8] H9 H10].
    destruct (recv_call_spec exec_path fuel kPdir mem_size k Q c r f xs ys id s msg H1 HC Hr H2 H3 H4 H5 H6 H7 H8 H9 H10) as (k' & r' & E & HCa & _).
    exists k', r', []. split; [done|by eapply called_served].
Qed.

Lemma step_live l s s' : step l s s' → live s → live s' ∧ ∀ j, leased (pm s.1) j → leased (pm s'.1) j.
Proof.
  intros [k r r' m Hr' Hb Hm|l' n k r k' r' out Hv E] HL; cbn [fst] in *.
  - split; [|done]. destruct HL as (Q & c & HR & HC & Hr). exists Q, c. cbn [fst snd] in *. split_and!; [|by apply (clocks_same k)|done].
    destruct HR. by split.
  - destruct (served_ok l' n k r HL Hv) as (k1 & r1 & out1 & E1 & HS). rewrite E1 in E. injection E as <- <- _. split; apply HS.
Qed.

Lemma any_live s s' : rtc any_step s s' → live s → live s'.
Proof. induction 1 as [|s1 s2 s3 [l Hs] _ IH]; intros HL; [done|]. by apply IH, (step_live l s1). Qed.


Lemma undisturbed_regs j s s' : undisturbed j s s' → live s → leased (pm s.1) j → regs_of s'.1 s'.2 j = regs_of s.1 s.2 j.
Proof.
  intros (l & Hs & Hl) HL Hj. destruct Hs as [k r r' m Hr' Hb Hm|l n k r k' r' out Hv E]; cbn [fst snd] in *.
  - unfold regs_of. cbn [pm with_vm]. case_bool_decide as Ec; [by destruct (Hl Ec)|]. by apply program_context.
  - destruct (served_ok l n k r HL Hv) as (k1 & r1 & out1 & E1 & HS). rewrite E1 in E. injection E as <- <- _.
    apply (se_regs _ _ _ _ _ HS); [done|]. intros Hc. by apply (Hl Hc).
Qed.

Lemma undisturbed_steps j s s' : rtc (undisturbed j) s s' → live s → leased (pm s.1) j →
  live s' ∧ leased (pm s'.1) j ∧ regs_of s'.1 s'.2 j = regs_of s.1 s.2 j.
Proof.
  induction 1 as [|s1 s2 s3 H12 _ IH]; intros HL Hj; [done|]. pose proof H12 as (l & Hst & _).
  destruct (step_live l s1 s2 Hst HL) as [HL2 Hl2]. destruct (IH HL2 (Hl2 j Hj)) as (G1 & G2 & ->).
  split_and!; [done|done|]. by apply undisturbed_regs.
Qed.

(** C13: a process goes on with exactly the registers it had: after any sequence of steps in which
    it neither computes nor forks (other processes compute and fork, interrupts come, messages are
    sent and received, by the process itself too, processes are switched) its registers are the
    same, and when it runs again they are in the processor. *)
Theorem preempted_process_resumes j s s' : live s → leased (pm s.1) j → rtc (undisturbed j) s s' →
  regs_of s'.1 s'.2 j = regs_of s.1 s.2 j ∧
  (pCurrent (pm s.1) = Some j → pCurrent (pm s'.1) = Some j → s'.2 = s.2).
Proof.
  intros HL Hj Hs. destruct (undisturbed_steps j s s' Hs HL Hj) as (_ & _ & He).
  split; [done|]. intros Hc Hc'. unfold regs_of in He. by rewrite !bool_decide_eq_true_2 in He.
Qed.

(** ** Messages on their way *)

(** The queue of [x] holds [msg] as the newest message of its sender, process [s]. *)
Definition Waiting k x msg s : Prop :=
  ∃ xs ys, Pending k x xs (m_id msg) s ∧ Ipc.newest_from (m_id msg) xs msg ys.

(** The newest message of a sender does not depend on how the queue is read. *)
Lemma msgs_newest q xs xs' (id : Z) msg ys : Ipc.Msgs q xs → Ipc.Msgs q xs' → Ipc.newest_from id xs msg ys →
  ∃ ys', Ipc.newest_from id xs' msg ys'.
Proof.
  intros H1 H2 Hn. destruct (Ipc.deque_eq_newest _ _ _ _ _ H1 Hn) as (q' & E & H3).
  pose proof (deque_eq_ok nrMessage Message_new Message_eqb q invMessage xs' (Message_id id) H2) as Hd. unfold Ipc.newest_from in *.
  destruct (remove_first Message_eqb (Message_id id) xs') as [[m' ys']|].
  - destruct Hd as (q2 & E2 & _). rewrite E in E2. injection E2 as <- _. by exists ys'.
  - rewrite E in Hd. injection Hd as _ ->. pose proof (repr_num _ _ _ _ _ H3). pose proof (repr_num _ _ _ _ _ H1).
    apply remove_first_length in Hn. lia.
Qed.

Lemma waiting_same k k' x msg s : Waiting k x msg s → sendQ (pr (pm k') x) = sendQ (pr (pm k) x) →
  getProc (pm k') (m_id msg) = Some s ∧ wakeable (pm k') s → Waiting k' x msg s.
Proof. intros (xs & ys & [H1 H2 H3] & Hn) Hq [Hg Hw]. exists xs, ys. split; [|done]. split; [by rewrite Hq|done|done]. Qed.

(** What the kernel serves leaves the message where it is, if the sender does not send again to
    [x] and [x] does not receive from it. *)
Lemma waiting_served l n k r k' r' out x msg s : live (k, r) → served k r l n → interrupt n k r = Ok (k', r', out) →
  leased (pm k) x → l ≠ SendCall s x → l ≠ RecvCall x (m_id msg) → Waiting k x msg s → Waiting k' x msg s.
Proof.
  intros HL Hs E Hx Hsend Hrecv HW. destruct (served_ok l n k r HL Hs) as (k1 & r1 & out1 & E1 & HS). rewrite E in E1. injection E1 as <- <- <-.
  pose proof HW as (xs & ys & [N1 N2 N3] & Hn). destruct (se_found _ _ _ _ _ HS _ _ N2 N3) as [G1 G2].
  destruct Hs as [n Hq|Q c m Hax HF|Q c y f zs HD|Q c f id t zs msg' zs' HD].
  - apply (waiting_same k); try done. destruct (quiet_interrupt exec_path fuel kPdir mem_size n k r HL Hq) as (k2 & HT & E2).
    rewrite E2 in E. injection E as <- <- _. by rewrite (tr_field _ _ _ _ HT _ sendQ).
  - apply (waiting_same k); try done. destruct (fork_call_spec exec_path fuel kPdir mem_size k Q c r m HL Hax HF) as (k2 & r2 & i & E2 & HFC).
    rewrite interrupt_fork, E2 in E. injection E as <- <- _. by apply (fc_messages _ _ _ _ _ _ HFC).
  - destruct (live_running k r Q c HL (sd_running _ _ _ _ _ _ _ HD)) as [HC Hr]. destruct HD as [D1 D2 D3 D4 D5 D6].
    destruct (send_call_spec exec_path fuel kPdir mem_size k Q c y r f zs D1 HC Hr D2 D3 D4 D5 D6) as (k2 & r2 & E2 & _ & HP & _ & Hq).
    rewrite E2 in E. injection E as <- <- _. destruct (decide (x = y)) as [<-|Hne]; [|by apply (waiting_same k); [done|apply Hq|done]].
    destruct (msgs_newest _ _ zs _ _ _ N1 (Ipc.pe_sendQ _ _ _ _ _ D3) Hn) as [ws Hw].
    eexists _, _. split; [split; [apply HP|done|done]|]. apply Ipc.newest_cons. right. split; [|by exists ws].
    cbn [Ipc.set_m_id m_id]. intros Hid. pose proof (Ipc.pe_s _ _ _ _ _ D3) as Hg. rewrite Hid, N2 in Hg. injection Hg as ->. done.
  - destruct (live_running k r Q c HL (rv_running _ _ _ _ _ _ _ _ _ _ HD)) as [HC Hr]. destruct HD as [D1 D2 D3 D4 [D5 D6] [D7 D8] D9 D10].
    destruct (recv_call_spec exec_path fuel kPdir mem_size k Q c r f zs zs' id t msg' D1 HC Hr D2 D3 D4 D5 D6 D7 D8 D9 D10) as (k2 & r2 & E2 & _ & HM & _ & Hq).
    rewrite E2 in E. injection E as <- <- _. destruct (decide (x = c)) as [<-|Hne]; [|by apply (waiting_same k); [done|apply Hq|done]].
    destruct (msgs_newest _ _ zs _ _ _ N1 (pn_queue _ _ _ _ _ D3) Hn) as [ws Hw].
    destruct (Ipc.newest_other (m_id msg) id zs msg ws msg' zs') as [us Hu]; [congruence|done|done|].
    exists zs', us. split; [by split|done].
Qed.

(** Steps while a message of [s] waits for [x]. *)
Definition meanwhile s x (id : Z) (st st' : K * regs) : Prop :=
  ∃ l, step l st st' ∧ l ≠ SendCall s x ∧ l ≠ RecvCall x id.

Lemma waiting_steps st st' x msg s : rtc (meanwhile s x (m_id msg)) st st' → live st → leased (pm st.1) x →
  Waiting st.1 x msg s → live st' ∧ Waiting st'.1 x msg s.
Proof.
  induction 1 as [|s1 s2 s3 (l & Hs & Hl1 & Hl2) _ IH]; intros HL Hx HW; [done|]. destruct (step_live l s1 s2 Hs HL) as [HL2 Hl].
  apply IH; [done|by apply Hl|]. destruct Hs as [k r r' m Hr' Hb Hm|l n k r k' r' out Hv E]; cbn [fst] in *.
  - apply (waiting_same k); [done|done|]. by destruct HW as (? & ? & [] & _).
  - eapply (waiting_served l n k r k' r' out); eassumption.
Qed.


End execution.
(** ** Concrete runs *)

Abbreviation ex_step := (step no_exec 2 4096 4194304).

(** The program of the running process changes its registers. *)
Lemma ex_program k r r' : live (k, r) → regs_ok r' → ex_step Program (k, r) (with_vm k (mkVM (vm_mem (vm k)) (vm_pf (vm k))), r').
Proof. intros (Q & c & HR & _) Hr. constructor; [done|apply (ru_bytes _ _ _ HR)|done]. Qed.


Lemma preempted_process_resumes_witness : ∃ s', undisturbed no_exec 2 4096 4194304 1 (ex_sys, ex_regs 7) s' ∧
  regs_of s'.1 s'.2 1 = regs_of ex_sys (ex_regs 7) 1.
Proof.
  assert (HL : live (ex_sys, ex_regs 7)) by (apply ex_live; unfold is_u32; lia).
  assert (H : undisturbed no_exec 2 4096 4194304 1 (ex_sys, ex_regs 7)
    (with_vm ex_sys (mkVM (vm_mem (vm ex_sys)) (vm_pf (vm ex_sys))), ex_regs 0)).
  { exists Program. split; [|intros Hc; discriminate Hc]. apply ex_program; [exact HL|]. apply ex_regs_ok. unfold is_u32. lia. }
  eexists. split; [exact H|].
  apply (preempted_process_resumes no_exec 2 4096 4194304 1 (ex_sys, ex_regs 7)).
  - exact HL.
  - reflexivity.
  - apply rtc_once. exact H.
Defined.

(** Process 0 sends the message at 0x40000000; process 1 receives it at 0x40000040. *)
Definition ex_receive : regs := mkRegs 51 51 51 51 1 2 3 1 5 1073741888 NR_K_RECV 1073741824 43 514 2147479552 51.

Lemma ex_receive_ok : regs_ok ex_receive.
Proof. split; cbn; split_and!; done. Qed.

Lemma ex_send_live : live (ex_msg_k, ex_send).
Proof. exists ex_queues, 0%nat. split_and!; [exact ex_msg_running|exact ex_msg_clocks|]. split; cbn; split_and!; done. Qed.

Lemma ex_can_send : CanSend ex_msg_k ex_send ex_queues 0 1 (λ o, 16384 + o) [].
Proof. split; [exact ex_msg_running|done|exact ex_msg_peers|done|exact ex_owned|]. vm_compute. split; congruence. Qed.

(** The state after the call. *)
Lemma ex_sent k1 r1 : interrupt no_exec 2 4096 4194304 48 ex_msg_k ex_send = Ok (k1, r1, []) →
  pCurrent (pm k1) = Some 1%nat ∧ cr3_reg k1 = 8192 ∧ p_id (pr (pm k1) 1) = 100 ∧
  frame_of (pr (pm k1) 0) = 4024 ∧ frame_of (pr (pm k1) 1) = 2932 ∧ frame_of (pr (pm k1) 2) = 1932.
Proof.
  intros E. assert (H : match interrupt no_exec 2 4096 4194304 48 ex_msg_k ex_send with
    | Ok (k1, _, _) => pCurrent (pm k1) = Some 1%nat ∧ cr3_reg k1 = 8192 ∧ p_id (pr (pm k1) 1) = 100 ∧
        frame_of (pr (pm k1) 0) = 4024 ∧ frame_of (pr (pm k1) 1) = 2932 ∧ frame_of (pr (pm k1) 2) = 1932
    | _ => False end) by (vm_compute; split_and!; reflexivity).
  by rewrite E in H.
Qed.

Lemma ex_sent_owned k1 r1 : interrupt no_exec 2 4096 4194304 48 ex_msg_k ex_send = Ok (k1, r1, []) →
  Called ex_msg_k ex_send k1 r1 (λ o, 16384 + o) (mkMessage 1 0 true 0 0 0) → Owned k1 1073741888 msg_size (λ o, 16448 + o).
Proof.
  intros E HC. destruct (ex_sent k1 r1 E) as (_ & H2 & _ & H4 & H5 & H6). clear E.
  apply (ex_owned_at k1 64); [done| | |lia|unfold msg_size; lia].
  - intros a (j & Hj & Ha). apply (ca_leased _ _ _ _ _ _ HC), ex_msg_leased in Hj. unfold frame_size in Ha.
    destruct Hj as [-> | [-> | ->]]; lia.
  - intros a Ha. rewrite (ca_memory _ _ _ _ _ _ HC).
    + by apply ex_msg_tables.
    + intros Hin. apply ex_msg_frame in Hin. lia.
    + unfold msg_size. lia.
Qed.


End Execution.
