(* ===== verification/Syscall.v ===== *)
(** * Kernel calls as functions ([src/kernel/syscall.cpp], [src/user/syscall.cpp],
    [kernel_call_asm] of [src/kernel/asmfunc.cpp])

    A program calls the kernel through small functions: they save four registers on the stack of
    the program, load the arguments, issue the interrupt 0x30 and take the registers back. The
    instructions work on the registers of the program and on its memory, through its page tables.
    The program counter and the flags, which every instruction changes, are left out. *)

From S2P Require Import Prelude Chain Memory KType PageFrames VarMem Timer Process Task Ipc Descriptor Clone Fork Interrupt System UserMemory Messages Execution.

Module Syscall.
Import VarMem Process Task Interrupt System UserMemory Messages Execution.

Implicit Types (k : K) (Q : list (list nat)) (j : nat) (r : regs) (m : mem).

(** ** The code *)

(** The parameters of [kernel_call_asm]; those that are not given are 0. *)
Record call_args := mkArgs { a_nr : Z; a_arg1 : Z; a_arg2 : Z; a_arg3 : Z }.

Implicit Types c : call_args.

Definition sys_exec (filepath p : Z) : call_args := mkArgs NR_K_EXEC filepath p 0.
Definition sys_fork : call_args := mkArgs NR_K_FORK 0 0 0.
Definition sys_send (to message : Z) : call_args := mkArgs NR_K_SEND (u32 to) message 0.
Definition sys_recv (from message : Z) : call_args := mkArgs NR_K_RECV (u32 from) message 0.

Definition mov_bx (v : Z) (r : regs) : regs :=
  mkRegs (gs r) (fs r) (es r) (ds r) (di r) (si r) (bp r) v (dx r) (cx r) (ax r) (pc r) (cs r) (psw r) (sp r) (ss r).
Definition mov_cx (v : Z) (r : regs) : regs :=
  mkRegs (gs r) (fs r) (es r) (ds r) (di r) (si r) (bp r) (bx r) (dx r) v (ax r) (pc r) (cs r) (psw r) (sp r) (ss r).
Definition mov_sp (v : Z) (r : regs) : regs :=
  mkRegs (gs r) (fs r) (es r) (ds r) (di r) (si r) (bp r) (bx r) (dx r) (cx r) (ax r) (pc r) (cs r) (psw r) v (ss r).

(** [push] and [pop] of a program. *)
Definition push (s : K * regs) (v : Z) : res (K * regs) :=
  let a := u32 (sp s.2 - 4) in
  k ← ustore 4 s.1 a v;
  Ok (k, mov_sp a s.2).
Definition pop (s : K * regs) : res (Z * (K * regs)) :=
  v ← uload 4 s.1 (sp s.2);
  Ok (v, (s.1, mov_sp (u32 (sp s.2 + 4)) s.2)).

(** [mov o(%ebp),%reg]. *)
Definition arg (s : K * regs) (o : Z) : res Z := uload 4 s.1 (bp s.2 + o).

(** [int kernel_call_asm(u32_t nr,u32_t arg1,u32_t arg2,u32_t arg3)] in front of and behind
    [int $0x30]. *)
Definition kernel_call_enter (s : K * regs) : res (K * regs) :=
  s ← push s (ax s.2); s ← push s (bx s.2); s ← push s (cx s.2); s ← push s (dx s.2);
  v ← arg s 20; let s := (s.1, set_dx v s.2) in
  v ← arg s 16; let s := (s.1, mov_cx v s.2) in
  v ← arg s 12; let s := (s.1, mov_bx v s.2) in
  v ← arg s 8; Ok (s.1, set_ax v s.2).
Definition kernel_call_leave (s : K * regs) : res (K * regs) :=
  '(v, s) ← pop s; let s := (s.1, set_dx v s.2) in
  '(v, s) ← pop s; let s := (s.1, mov_cx v s.2) in
  '(v, s) ← pop s; let s := (s.1, mov_bx v s.2) in
  Ok (s.1, mov_sp (u32 (sp s.2 + 4)) s.2).

(** ** What the code needs *)

(** The arguments are in the frame of the function, and the stack goes on for 16 bytes. [f] are the
    physical addresses of the [sz] bytes from there to the end of the arguments. *)
Record CallFrame k r (sz : Z) (f : Z → Z) (c : call_args) : Prop := {
  cl_size : sz = bp r + 24 - (sp r - 16);
  cl_low : 16 ≤ sp r ≤ bp r;
  cl_high : bp r + 24 < 4294967296;
  cl_owned : Owned k (sp r - 16) sz f;
  cl_args : arg (k, r) 8 = Ok (a_nr c) ∧ arg (k, r) 12 = Ok (a_arg1 c) ∧ arg (k, r) 16 = Ok (a_arg2 c) ∧ arg (k, r) 20 = Ok (a_arg3 c)
}.

(** The registers at [int $0x30]. *)
Definition trap_regs r (c : call_args) : regs :=
  mov_sp (sp r - 16) (set_ax (a_nr c) (mov_bx (a_arg1 c) (mov_cx (a_arg2 c) (set_dx (a_arg3 c) r)))).

(** The memory with the saved registers. *)
Definition pushed m (f : Z → Z) r : mem := put (put (put (put m f 12 4 (ax r)) f 8 4 (bx r)) f 4 4 (cx r)) f 0 4 (dx r).

Lemma push_put k r va sz f (o : Z) v : Buffer (vm_mem (vm k)) (cr3_reg k) va sz f → 0 ≤ va → sp r = va + o + 4 → sp r < 4294967296 →
  0 ≤ o → o + 4 ≤ sz → push (k, r) v = Ok (set_mem k (put (vm_mem (vm k)) f o 4 v), mov_sp (va + o) r).
Proof.
  intros HB Hva Hsp Hr Ho Hsz. unfold push. cbn [fst snd]. rewrite u32_id by (unfold is_u32; lia).
  replace (sp r - 4) with (va + o) by lia. by rewrite (ustore_put va sz f 4 k o v HB) by lia.
Qed.

Lemma pushed_buffer m dir va sz f r : Buffer m dir va sz f → 16 ≤ sz → Buffer (pushed m f r) dir va sz f.
Proof. intros HB Hsz. unfold pushed. repeat (apply put_buffer; [|lia..]). done. Qed.

Lemma pushed_bytes m f r : bytes_ok m → bytes_ok (pushed m f r).
Proof. intros Hm. unfold pushed. by repeat apply put_bytes. Qed.

Lemma pushed_other m f r a : (∀ o, 0 ≤ o < 16 → a ≠ f o) → load8 (pushed m f r) a = load8 m a.
Proof. intros H. unfold pushed. rewrite !put_other; try done; intros i Hi; apply H; lia. Qed.

(** The function up to the interrupt. *)
Lemma kernel_call_enter_spec k r sz f c : CallFrame k r sz f c →
  kernel_call_enter (k, r) = Ok (set_mem k (pushed (vm_mem (vm k)) f r), trap_regs r c).
Proof.
  intros [Hsz Hlow Hhigh [HB Hfr Hwk] (A1 & A2 & A3 & A4)]. set (va := sp r - 16) in *.
  assert (Harg : ∀ o v, 8 ≤ o ≤ 20 → arg (k, r) o = Ok v → uload 4 (set_mem k (pushed (vm_mem (vm k)) f r)) (bp r + o) = Ok v).
  { intros o v Ho. unfold arg. cbn [fst snd]. replace (bp r + o) with (va + (bp r + o - va)) by lia.
    rewrite (uload_get k va sz f 4 HB) by lia. intros Hv. rewrite <- Hv.
    rewrite (uload_get (set_mem k _) va sz f 4) by ((apply pushed_buffer; [done|lia]) || lia). f_equal.
    apply get_same. intros i Hi. apply pushed_other. intros o' Ho' E. apply (bf_inj _ _ _ _ _ HB) in E; lia. }
  unfold kernel_call_enter. unfold pushed in Harg |- *.
  rewrite (push_put k r va sz f 12) by (done || lia). cbn [mbind res_bind fst snd].
  set (k1 := set_mem k _). rewrite (push_put k1 _ va sz f 8) by (try (apply put_buffer; [done|lia..]); cbn [sp mov_sp]; lia).
  cbn [mbind res_bind fst snd]. set (k2 := set_mem k1 _).
  rewrite (push_put k2 _ va sz f 4) by (try (repeat (apply put_buffer; [|lia..]); done); cbn [sp mov_sp]; lia).
  cbn [mbind res_bind fst snd]. set (k3 := set_mem k2 _).
  rewrite (push_put k3 _ va sz f 0) by (try (repeat (apply put_buffer; [|lia..]); done); cbn [sp mov_sp]; lia).
  cbn [mbind res_bind fst snd]. unfold arg at 1 2 3 4. cbn [fst snd bp mov_sp set_dx mov_cx mov_bx].
  match goal with |- context [uload 4 ?x] => change x with (set_mem k (put (put (put (put (vm_mem (vm k)) f 12 4 (ax r)) f 8 4 (bx r)) f 4 4 (cx r)) f 0 4 (dx r))) end.
  rewrite (Harg 20 _ ltac:(lia) A4). cbn [mbind res_bind fst snd bp mov_sp set_dx mov_cx mov_bx].
  rewrite (Harg 16 _ ltac:(lia) A3). cbn [mbind res_bind fst snd bp mov_sp set_dx mov_cx mov_bx].
  rewrite (Harg 12 _ ltac:(lia) A2). cbn [mbind res_bind fst snd bp mov_sp set_dx mov_cx mov_bx].
  rewrite (Harg 8 _ ltac:(lia) A1). cbn [mbind res_bind fst snd]. do 2 f_equal. unfold trap_regs. fold va. by rewrite Z.add_0_r.
Qed.

(** The stack of the running process in [k'], from [a] on, is that of [k]. *)
Definition same_stack k k' (a : Z) : Prop :=
  ∀ o, 0 ≤ o < 16 → Clone.vbyte (vm_mem (vm k')) (cr3_reg k') (a + o) = Clone.vbyte (vm_mem (vm k)) (cr3_reg k) (a + o).

Lemma uload_same k k' (a : Z) (n : nat) : ∀ b : Z, same_stack k k' a → 0 ≤ a → a + 16 < 4294967296 → a ≤ b → b + Z.of_nat n ≤ a + 16 →
  uload n k' b = uload n k b.
Proof.
  induction n as [|n IH]; intros b HS Ha0 Ha1 Hb Hn; cbn [uload]; [done|].
  assert (E : uload8 k' b = uload8 k b).
  { unfold uload8. rewrite u32_id by (unfold is_u32; lia). specialize (HS (b - a) ltac:(lia)).
    replace (a + (b - a)) with b in HS by lia. unfold Clone.vbyte in HS.
    destruct (translate (vm_mem (vm k')) (cr3_reg k') b), (translate (vm_mem (vm k)) (cr3_reg k) b); cbn in HS; congruence. }
  rewrite E. destruct (uload8 k b); cbn [mbind res_bind]; [|done..]. by rewrite IH by (done || lia).
Qed.

(** The words on the stack at the interrupt. *)
Lemma pushed_words k r sz f c : regs_ok r → CallFrame k r sz f c →
  let k1 := set_mem k (pushed (vm_mem (vm k)) f r) in
  uload 4 k1 (sp r - 16) = Ok (dx r) ∧ uload 4 k1 (sp r - 12) = Ok (cx r) ∧ uload 4 k1 (sp r - 8) = Ok (bx r).
Proof.
  intros Hr [Hsz Hlow Hhigh [HB Hfr Hwk] _] k1. destruct (ro_words _ Hr) as (_ & _ & _ & Hbx & Hdx & Hcx & Hax).
  pose proof (bf_inj _ _ _ _ _ HB) as Hf. set (va := sp r - 16) in *.
  assert (HB1 : Buffer (vm_mem (vm k1)) (cr3_reg k1) va sz f) by (apply pushed_buffer; [done|lia]).
  assert (Hget : ∀ (o v : Z), 0 ≤ o ≤ 8 → get (vm_mem (vm k1)) f o 4 = v `mod` 4294967296 → is_u32 v → uload 4 k1 (va + o) = Ok v).
  { intros o v Ho E Hv. rewrite (uload_get k1 va sz f 4 HB1) by lia. rewrite E. f_equal. by apply u32_id. }
  replace (sp r - 12) with (va + 4) by lia. replace (sp r - 8) with (va + 8) by lia.
  split_and!; [rewrite <- (Z.add_0_r va)| |]; apply Hget; try done; cbn [k1 set_mem with_vm vm vm_mem]; unfold pushed.
  - apply (get_put_eq sz f Hf); lia.
  - rewrite (get_put_ne sz f Hf) by lia. apply (get_put_eq sz f Hf); lia.
  - rewrite !(get_put_ne sz f Hf) by lia. apply (get_put_eq sz f Hf); lia.
Qed.

(** The function behind the interrupt, in any later state in which its stack is as it was. *)
Lemma kernel_call_leave_spec k r sz f c k' (v : Z) : regs_ok r → CallFrame k r sz f c →
  same_stack (set_mem k (pushed (vm_mem (vm k)) f r)) k' (sp r - 16) →
  kernel_call_leave (k', set_ax v (trap_regs r c)) = Ok (k', set_ax v r).
Proof.
  intros Hr HF HS. destruct (pushed_words k r sz f c Hr HF) as (W1 & W2 & W3). pose proof (cl_low _ _ _ _ _ HF). pose proof (cl_high _ _ _ _ _ HF).
  assert (Hu : ∀ b, sp r - 16 ≤ b → b + 4 ≤ sp r → uload 4 k' b = uload 4 (set_mem k (pushed (vm_mem (vm k)) f r)) b)
    by (intros b Hb1 Hb2; apply (uload_same _ _ (sp r - 16)); (done || lia)).
  unfold kernel_call_leave, pop, trap_regs. cbn [fst snd sp mov_sp set_ax set_dx mov_cx mov_bx].
  rewrite Hu, W1 by lia. cbn [mbind res_bind fst snd sp mov_sp set_ax set_dx mov_cx mov_bx].
  rewrite (u32_id (sp r - 16 + 4)) by (unfold is_u32; lia). replace (sp r - 16 + 4) with (sp r - 12) by lia.
  rewrite Hu, W2 by lia. cbn [mbind res_bind fst snd sp mov_sp set_ax set_dx mov_cx mov_bx].
  rewrite (u32_id (sp r - 12 + 4)) by (unfold is_u32; lia). replace (sp r - 12 + 4) with (sp r - 8) by lia.
  rewrite Hu, W3 by lia. cbn [mbind res_bind fst snd sp mov_sp set_ax set_dx mov_cx mov_bx].
  rewrite (u32_id (sp r - 8 + 4)) by (unfold is_u32; lia). replace (sp r - 8 + 4) with (sp r - 4) by lia.
  rewrite u32_id by (unfold is_u32; lia). replace (sp r - 4 + 4) with (sp r) by lia. by destruct r.
Qed.

Section calls.
Context (exec_path : K → Z → res (K * bool)) (fuel : nat) (kPdir mem_size : Z).

Abbreviation interrupt := (interrupt exec_path fuel kPdir mem_size).
Abbreviation step := (step exec_path fuel kPdir mem_size).
Abbreviation served := (served fuel kPdir mem_size).
Abbreviation undisturbed := (undisturbed exec_path fuel kPdir mem_size).

(** The arguments are words. *)
Lemma call_words k r sz f c : bytes_ok (vm_mem (vm k)) → CallFrame k r sz f c →
  is_u32 (a_nr c) ∧ is_u32 (a_arg1 c) ∧ is_u32 (a_arg2 c) ∧ is_u32 (a_arg3 c).
Proof.
  intros Hm [Hsz Hlow Hhigh [HB _ _] (A1 & A2 & A3 & A4)].
  assert (H : ∀ o v, 8 ≤ o ≤ 20 → arg (k, r) o = Ok v → is_u32 v).
  { intros o v Ho. unfold arg. cbn [fst snd]. replace (bp r + o) with (sp r - 16 + (bp r + o - (sp r - 16))) by lia.
    rewrite (uload_get k _ sz f 4 HB) by lia. set (g := get _ _ _ _). intros E. assert (v = g) as -> by congruence.
    apply (get_range f 4 _ Hm). }
  split_and!; [by apply (H 8)|by apply (H 12)|by apply (H 16)|by apply (H 20)].
Qed.

(** The function up to the interrupt is a step of the program. *)
Lemma enter_step k r sz f c : live (k, r) → CallFrame k r sz f c →
  step Program (k, r) (set_mem k (pushed (vm_mem (vm k)) f r), trap_regs r c).
Proof.
  intros (Q & i & HR & _ & Hr) HF. cbn [fst snd] in *. destruct (call_words k r sz f c (ru_bytes _ _ _ HR) HF) as (W1 & W2 & W3 & W4).
  destruct HF as [Hsz Hlow Hhigh [HB Hfr _] _]. constructor.
  - destruct Hr as [R1 (? & ? & ? & ? & ? & ? & ?) (? & ? & ?)]. split; cbn; split_and!; try done; try apply R1. unfold is_u32 in *. lia.
  - apply pushed_bytes, HR.
  - intros a Ha. apply pushed_other. intros o Ho ->. by apply (Hfr o); [lia|].
Qed.

(** When process [j] runs after the call, its stack being as it was, the function returns [v] to it with
    all other registers as they were. *)
Definition returns k1 r k2 r2 j (v : Z) : Prop :=
  ∀ k3 r3, rtc (undisturbed j) (k2, r2) (k3, r3) → pCurrent (pm k3) = Some j → same_stack k1 k3 (sp r - 16) →
    kernel_call_leave (k3, r3) = Ok (k3, set_ax v r).

Lemma returns_intro k r sz f c k2 r2 j (v : Z) : regs_ok r → CallFrame k r sz f c → live (k2, r2) → leased (pm k2) j →
  regs_of k2 r2 j = set_ax v (trap_regs r c) → returns (set_mem k (pushed (vm_mem (vm k)) f r)) r k2 r2 j v.
Proof.
  intros Hr HF HL Hj Hv k3 r3 Hs Hc HS. destruct (undisturbed_steps _ _ _ _ j (k2, r2) (k3, r3) Hs HL Hj) as (_ & _ & He).
  cbn [fst snd] in He. rewrite Hv in He. unfold regs_of in He. rewrite bool_decide_eq_true_2 in He by done. subst r3.
  by eapply kernel_call_leave_spec.
Qed.


End calls.

(** ** A concrete call

    Process 0 of [Messages.v] calls [sys_send(100,(Message * )0x40000000)] with its stack in the same
    page. *)

Definition ex_call_mem : mem := store32 (store32 (store32 ex_msg_mem 16472 1) 16476 100) 16480 1073741824.
Definition ex_call_k : K := set_mem ex_msg_k ex_call_mem.
Definition ex_caller : regs := mkRegs 51 51 51 51 1 2 1073741904 7 8 9 10 1073741824 43 514 1073741904 51.

Lemma ex_call_tables a : 9216 ≤ a < 9220 ∨ 12288 ≤ a < 12292 → load8 ex_call_mem a = load8 Clone.ex_mem a.
Proof. intros Ha. unfold ex_call_mem. rewrite !load8_store32_ne by lia. by apply ex_msg_tables. Qed.

Lemma ex_call_bytes : bytes_ok ex_call_mem.
Proof. do 3 apply bytes_ok_store32. apply (ru_bytes _ _ _ ex_msg_running). Qed.

Lemma ex_call_live : live (ex_call_k, ex_caller).
Proof.
  exists ex_queues, 0%nat. cbn [fst snd]. split_and!.
  - apply running_mem; [exact ex_msg_running|exact ex_call_bytes].
  - by apply (clocks_same ex_msg_k); [exact ex_msg_clocks|..].
  - split; cbn; split_and!; done.
Qed.

Lemma ex_call_frame : CallFrame ex_call_k ex_caller 40 (λ o, 16448 + o) (sys_send 100 1073741824).
Proof.
  split; try (cbn; lia).
  - apply (ex_owned_at ex_call_k 64 40); [done|exact ex_msg_frame|exact ex_call_tables|lia|lia].
  - vm_compute. split_and!; reflexivity.
Qed.

Lemma ex_call_can_send : CanSend (set_mem ex_call_k (pushed ex_call_mem (λ o, 16448 + o) ex_caller))
  (trap_regs ex_caller (sys_send 100 1073741824)) ex_queues 0 1 (λ o, 16384 + o) [].
Proof.
  destruct ex_msg_peers as [P1 P2 P3 P4 P5 P6 P7 P8 P9 P10 P11 P12]. split.
  - apply running_mem; [apply running_mem; [exact ex_msg_running|exact ex_call_bytes]|]. apply pushed_bytes, ex_call_bytes.
  - reflexivity.
  - split; assumption.
  - vm_compute. reflexivity.
  - apply (ex_owned_at (set_mem ex_call_k (pushed ex_call_mem (λ o, 16448 + o) ex_caller)) 0 msg_size); [done|exact ex_msg_frame| |lia|unfold msg_size; lia].
    intros a Ha. cbn [set_mem with_vm vm vm_mem]. rewrite pushed_other by lia. by apply ex_call_tables.
  - vm_compute. split; congruence.
Qed.


End Syscall.
