(* ===== verification/Runtime.v ===== *)
(** * Start-up code and the system functions of the C library
    ([src/kernel/loader.nas], [src/user/crt0.nas], [src/user/grue.cpp])

    [loader] of the kernel and the code in front of [main] of a program call the functions of a table one after the
    other. The functions of [grue.cpp] are what the C library of a program calls; all but [sbrk] and
    [write] do nothing but give a result. *)

From S2P Require Import Prelude Task Interrupt Syscall.

Module Runtime.

(** ** Constructors and destructors *)

Section startup.

(** [word s a] is the word at [a], [call s p] what the function at [p] does; functions keep [ebx]. *)
Context {S : Type} (word : S → Z → Z) (call : S → Z → res S).

(** [static_ctors_loop] and [static_dtors_loop] from the label [.test] on. *)
Fixpoint call_loop (fuel : nat) (s : S) (ebx end_ : Z) : res S :=
  match fuel with
  | O => NoFuel
  | Datatypes.S fuel' =>
      if ebx <? end_ then
        s ← call s (word s ebx);
        call_loop fuel' s (u32 (ebx + 4)) end_
      else Ok s
  end.

(** [loader]; a [kinit] that comes back leads to [hlt]. *)
Definition loader (fuel : nat) (kinit : S → res S) (start_ctors end_ctors start_dtors end_dtors : Z) (s : S) : res S :=
  s ← call_loop fuel s start_ctors end_ctors;
  s ← kinit s;
  call_loop fuel s start_dtors end_dtors.

(** The code of [crt0.nas]; behind the destructors is a loop without an end. *)
Definition crt0_start (fuel : nat) (main : S → res S) (start_ctors end_ctors start_dtors end_dtors : Z) (s : S) : res S :=
  s ← call_loop fuel s start_ctors end_ctors;
  s ← main s;
  call_loop fuel s start_dtors end_dtors.

(** The reference: the functions [ps] in their order. *)
Fixpoint call_all (s : S) (ps : list Z) : res S :=
  match ps with
  | [] => Ok s
  | p :: ps => s ← call s p; call_all s ps
  end.

(** [ps] is the table at [a], in every state that satisfies [P]; the functions keep [P]. *)
Record Table (P : S → Prop) (a : Z) (ps : list Z) : Prop := {
  tb_words : ∀ s (i : nat) p, P s → ps !! i = Some p → word s (a + 4 * Z.of_nat i) = p;
  tb_keeps : ∀ s p s', p ∈ ps → P s → call s p = Ok s' → P s'
}.

Lemma table_tail P a p ps : Table P a (p :: ps) → Table P (a + 4) ps.
Proof.
  intros [H1 H2]. split.
  - intros s i q Hs Hi. rewrite <- (H1 s (Datatypes.S i) q Hs Hi). f_equal. lia.
  - intros s q s' Hq. apply H2. by right.
Qed.

Lemma call_loop_spec P ps : ∀ fuel a s, Table P a ps → P s → 0 ≤ a → a + 4 * Z.of_nat (length ps) < 4294967296 →
  (length ps < fuel)%nat → call_loop fuel s a (a + 4 * Z.of_nat (length ps)) = call_all s ps.
Proof.
  induction ps as [|p ps IH]; intros [|fuel] a s HT HP Ha Hb Hf; cbn [length] in *; try lia; cbn [call_loop call_all].
  - by rewrite (proj2 (Z.ltb_ge _ _)) by lia.
  - rewrite (proj2 (Z.ltb_lt _ _)) by lia. pose proof (tb_words _ _ _ HT s 0%nat p HP eq_refl) as Hp.
    rewrite Z.mul_0_r, Z.add_0_r in Hp. rewrite Hp.
    destruct (call s p) as [s'| | |] eqn:E; cbn [mbind res_bind]; try done.
    rewrite u32_id by (unfold is_u32; lia). rewrite <- (IH fuel (a + 4) s' (table_tail _ _ _ _ HT)); [f_equal; lia| |lia|lia|lia].
    apply (tb_keeps _ _ _ HT s p); [by left|done|done].
Qed.

(** C34: the start of the kernel and of a program calls every constructor once, in the order of the
    table, then [kinit] (or [main]), then every destructor once in the order of its table. If one of them
    fails, nothing behind it is called. *)
Theorem startup_in_order (P : S → Prop) (fuel : nat) (main : S → res S) (cs ds : list Z) (a b : Z) (s : S) :
  Table P a cs → Table P b ds → P s → (∀ s s', P s → main s = Ok s' → P s') →
  0 ≤ a → 0 ≤ b → a + 4 * Z.of_nat (length cs) < 4294967296 → b + 4 * Z.of_nat (length ds) < 4294967296 →
  (length cs < fuel)%nat → (length ds < fuel)%nat →
  let run := (s ← call_all s cs; s ← main s; call_all s ds) in
  loader fuel main a (a + 4 * Z.of_nat (length cs)) b (b + 4 * Z.of_nat (length ds)) s = run ∧
  crt0_start fuel main a (a + 4 * Z.of_nat (length cs)) b (b + 4 * Z.of_nat (length ds)) s = run.
Proof.
  intros HA HB HP Hm Ha Hb Ha2 Hb2 Hf1 Hf2 run.
  assert (E : loader fuel main a (a + 4 * Z.of_nat (length cs)) b (b + 4 * Z.of_nat (length ds)) s = run); [|by split].
  assert (Hall : ∀ ps s s', (∀ s p s', p ∈ ps → P s → call s p = Ok s' → P s') → P s → call_all s ps = Ok s' → P s').
  { induction ps as [|p ps IH]; intros s0 s' Hk Hs; cbn [call_all]; [by intros [= <-]|].
    destruct (call s0 p) as [s1| | |] eqn:E1; cbn [mbind res_bind]; try done. apply IH.
    - intros s2 q s3 Hq. apply Hk. by right.
    - apply (Hk s0 p); [by left|done|done]. }
  unfold loader, run. rewrite (call_loop_spec P cs) by done.
  destruct (call_all s cs) as [s1| | |] eqn:E1; cbn [mbind res_bind]; try done.
  assert (P s1) by (eapply (Hall cs s s1); [apply (tb_keeps _ _ _ HA)|done|done]).
  destruct (main s1) as [s2| | |] eqn:E2; cbn [mbind res_bind]; try done.
  apply (call_loop_spec P ds); try done. by eapply Hm.
Qed.

End startup.

(** ** The system functions of the C library *)

Section grue.

(** The numbers of the errors and the mode of a character device are in headers of the C library;
    [end_] is the symbol of the linker. *)
Context (ENOMEM EAGAIN EINVAL EMLINK ENOENT ECHILD S_IFCHR end_ : Z).

(** [errno] and the static variable [heap_end] of [sbrk]. *)
Record lib := mkLib { errno : Z; heap_end : Z }.

Definition set_errno (v : Z) (l : lib) : lib := mkLib v (heap_end l).

Definition close (l : lib) : Z * lib := (-1, l).
Definition execve (l : lib) : Z * lib := (-1, set_errno ENOMEM l).
Definition fork (l : lib) : Z * lib := (-1, set_errno EAGAIN l).
Definition getpid (l : lib) : Z * lib := (1, l).
Definition isatty (l : lib) : Z * lib := (1, l).
Definition kill (l : lib) : Z * lib := (-1, set_errno EINVAL l).
Definition link (l : lib) : Z * lib := (-1, set_errno EMLINK l).
Definition lseek (l : lib) : Z * lib := (0, l).
Definition open (l : lib) : Z * lib := (-1, l).
Definition read (l : lib) : Z * lib := (0, l).
Definition times (l : lib) : Z * lib := (-1, l).
Definition unlink (l : lib) : Z * lib := (-1, set_errno ENOENT l).
Definition wait (l : lib) : Z * lib := (-1, set_errno ECHILD l).

(** [st->st_mode] and the result. *)
Definition fstat (l : lib) : Z * Z * lib := (S_IFCHR, 0, l).
Definition stat (l : lib) : Z * Z * lib := (S_IFCHR, 0, l).

(** [caddr_t sbrk(int incr)] with the stack pointer [sp]; [error] is a loop without an end. *)
Definition sbrk (l : lib) (sp incr : Z) : res (Z * lib) :=
  let he := if heap_end l =? 0 then end_ else heap_end l in
  if sp <? u32 (he + incr) then Panic "error"
  else Ok (he, mkLib (errno l) (u32 (he + incr))).

(** [int write(int file, char *ptr, int len)] with its local [message] at [a]: the call of the kernel
    and the result; the bytes to write are not used. *)
Definition write (a : Z) : Syscall.call_args * Z := (Syscall.sys_send Task.PID_INIT a, 0).

(** Several requests in a row. *)
Fixpoint sbrk_all (l : lib) (sp : Z) (incrs : list Z) : res (list Z * lib) :=
  match incrs with
  | [] => Ok ([], l)
  | incr :: incrs =>
      '(p, l) ← sbrk l sp incr;
      '(ps, l) ← sbrk_all l sp incrs;
      Ok (p :: ps, l)
  end.

Fixpoint sum (incrs : list Z) : Z := match incrs with [] => 0 | n :: incrs => n + sum incrs end.

Lemma sum_app l1 l2 : sum (l1 ++ l2) = sum l1 + sum l2.
Proof. induction l1 as [|n l1 IH]; cbn; lia. Qed.

Lemma sum_nonneg l : (∀ n, n ∈ l → 0 ≤ n) → 0 ≤ sum l.
Proof.
  induction l as [|n l IH]; intros H; cbn; [lia|]. specialize (IH ltac:(intros; apply H; by right)).
  specialize (H n ltac:(by left)). lia.
Qed.

Lemma in_take (m : Z) (i : nat) l : m ∈ take i l → m ∈ l.
Proof. intros H. rewrite <- (take_drop i l), elem_of_app. by left. Qed.

Lemma in_drop (m : Z) (i : nat) l : m ∈ drop i l → m ∈ l.
Proof. intros H. rewrite <- (take_drop i l), elem_of_app. by right. Qed.

(** Where the next block starts. *)
Definition break (l : lib) : Z := if heap_end l =? 0 then end_ else heap_end l.

Lemma sbrk_all_spec sp incrs : 0 < end_ → 0 ≤ sp < 4294967296 → ∀ l, (∀ n, n ∈ incrs → 0 ≤ n) → 0 < break l →
  break l + sum incrs ≤ sp →
  ∃ ps l', sbrk_all l sp incrs = Ok (ps, l') ∧ length ps = length incrs ∧ break l' = break l + sum incrs ∧ errno l' = errno l ∧
    ∀ (i : nat) p, ps !! i = Some p → p = break l + sum (take i incrs).
Proof.
  intros He Hsp. induction incrs as [|n incrs IH]; intros l Hn Hb Hs; cbn [sbrk_all].
  { exists [], l. split_and!; try done. cbn. lia. }
  assert (H0 : 0 ≤ sum incrs) by (apply sum_nonneg; intros; apply Hn; by right).
  specialize (Hn n ltac:(by left)) as Hn0. cbn [sum] in Hs. unfold sbrk at 1. fold (break l).
  rewrite u32_id by (unfold is_u32; lia). rewrite (proj2 (Z.ltb_ge _ _)) by lia. cbn [mbind res_bind].
  set (l1 := mkLib (errno l) (break l + n)).
  assert (Hb1 : break l1 = break l + n) by (unfold break at 1; cbn; by rewrite (proj2 (Z.eqb_neq _ _)) by lia).
  destruct (IH l1) as (ps & l' & -> & Hl & Hb2 & He2 & Hps); [intros; apply Hn; by right|lia|lia|]. cbn [mbind res_bind].
  exists (break l :: ps), l'. split_and!; try done; [cbn; by rewrite Hl|cbn [sum]; lia|].
  intros [|i] p; cbn [lookup list_lookup take sum].
  - intros [= <-]. lia.
  - intros Hi. rewrite (Hps i p Hi). lia.
Qed.

(** [sbrk] hands out memory like a stack: requests that fit between [end] and the stack pointer are
    all served, with blocks one behind the other from [end] on, so that no two of them overlap; the
    request that would reach beyond the stack pointer does not come back. *)
Theorem sbrk_correct (sp : Z) (incrs : list Z) (n : Z) (l : lib) : 0 < end_ → 0 ≤ sp < 4294967296 → heap_end l = 0 →
  (∀ m, m ∈ incrs → 0 ≤ m) → end_ + sum incrs ≤ sp → 0 ≤ n → end_ + sum incrs + n < 4294967296 →
  ∃ ps l', sbrk_all l sp incrs = Ok (ps, l') ∧ length ps = length incrs ∧
    (∀ (i j : nat) p q, ps !! i = Some p → ps !! j = Some q → (i < j)%nat →
       end_ ≤ p ∧ p + default 0 (incrs !! i) ≤ q ∧ q + default 0 (incrs !! j) ≤ sp) ∧
    (sp < end_ + sum incrs + n → sbrk l' sp n = Panic "error").
Proof.
  intros He Hsp Hl Hn Hs Hn0 Hw. assert (Hb : break l = end_) by (unfold break; by rewrite Hl).
  destruct (sbrk_all_spec sp incrs He Hsp l Hn) as (ps & l' & E & Hlen & Hb' & _ & Hps); [lia|lia|].
  assert (Htk : ∀ i, sum incrs = sum (take i incrs) + sum (drop i incrs)) by (intros i; by rewrite <- sum_app, take_drop).
  assert (Hpos : ∀ xs : list Z, (∀ m, m ∈ xs → m ∈ incrs) → 0 ≤ sum xs) by (intros xs Hx; apply sum_nonneg; intros m Hm; by apply Hn, Hx).
  exists ps, l'. split_and!; [done|done| |].
  - intros i j p q Hi Hj Hij. rewrite (Hps i p Hi), (Hps j q Hj), Hb.
    destruct (lookup_lt_is_Some_2 incrs i) as [x Hx]; [rewrite <- Hlen; by eapply lookup_lt_Some|].
    destruct (lookup_lt_is_Some_2 incrs j) as [y Hy]; [rewrite <- Hlen; by eapply lookup_lt_Some|].
    rewrite Hx, Hy. cbn [default from_option id]. pose proof (Hpos (take i incrs) ltac:(intros m; apply in_take)) as H1.
    split; [lia|]. split.
    + replace (take j incrs) with (take (Datatypes.S i) incrs ++ take (j - Datatypes.S i) (drop (Datatypes.S i) incrs)).
      2: { rewrite <- (take_drop (Datatypes.S i) incrs) at 3. rewrite take_app_ge by (rewrite length_take; lia). f_equal.
           rewrite length_take. pose proof (lookup_lt_Some _ _ _ Hx). f_equal. lia. }
      rewrite (take_S_r _ _ _ Hx), !sum_app. cbn [sum].
      assert (0 ≤ sum (take (j - Datatypes.S i) (drop (Datatypes.S i) incrs))); [|lia].
      apply Hpos. intros m Hm%in_take. by eapply in_drop.
    + pose proof (Htk (Datatypes.S j)) as H2. rewrite (take_S_r _ _ _ Hy), sum_app in H2. cbn [sum] in H2.
      pose proof (Hpos (drop (Datatypes.S j) incrs) ltac:(intros m; apply in_drop)). lia.
  - intros Hbig. unfold sbrk. fold (break l'). rewrite Hb', Hb, u32_id by (unfold is_u32; lia).
    by rewrite (proj2 (Z.ltb_lt _ _)).
Qed.

End grue.

(** ** Concrete runs *)

Lemma startup_in_order_witness :
  loader (S := list Z) (λ _ a, if a =? 100 then 7 else 9) (λ s p, Ok (s ++ [p])) 3 (λ s, Ok (s ++ [0])) 100 (100 + 4 * Z.of_nat 2) 104 (104 + 4 * Z.of_nat 1) [] =
    Ok [7; 9; 0; 9].
Proof.
  destruct (startup_in_order (S := list Z) (λ _ a, if a =? 100 then 7 else 9) (λ s p, Ok (s ++ [p])) (λ _, True) 3 (λ s, Ok (s ++ [0]))
    [7; 9] [9] 100 104 []) as [E _].
  - split; [|done]. intros s [|[|i]] p _ Hi; [by injection Hi|by injection Hi|done].
  - split; [|done]. intros s [|i] p _ Hi; [by injection Hi|done].
  - exact I.
  - done.
  - lia.
  - lia.
  - cbn. lia.
  - cbn. lia.
  - cbn. lia.
  - cbn. lia.
  - exact E.
Defined.

Lemma sbrk_correct_witness : ∃ ps l', sbrk_all 1073754112 (mkLib 0 0) 2147483632 [16; 4096] = Ok (ps, l') ∧
  sbrk 1073754112 l' 2147483632 1073741824 = Panic "error".
Proof.
  destruct (sbrk_correct 1073754112 2147483632 [16; 4096] 1073741824 (mkLib 0 0)) as (ps & l' & E & _ & _ & HF).
  - lia.
  - lia.
  - reflexivity.
  - intros m Hm. set_unfold in Hm. lia.
  - cbn. lia.
  - lia.
  - cbn. lia.
  - exists ps, l'. split; [exact E|]. apply HF. cbn. lia.
Defined.

End Runtime.
