(* ===== verification/Asmfunc.v ===== *)
(** * Registers of the processor ([src/kernel/asmfunc.cpp], [src/include/os/asmfunc.h])

    The functions that load control registers, and [taskswitch_asm], which leaves the kernel for the
    first process. The accessors of the ports are in [Ports.v], those of the flags in [Kmalloc.v],
    [kernel_call_asm] is in [Syscall.v]. *)

From S2P Require Import Prelude Memory Process Task Descriptor Interrupt Syscall.

Module Asmfunc.
Import Interrupt.

(** ** Control registers *)

Record cpu := mkCpu { c_regs : regs; c_cr0 : Z; c_cr3 : Z; c_tr : Z; c_idtr : Z; c_gdtr : Z }.

Definition with_regs (c : cpu) (r : regs) : cpu := mkCpu r (c_cr0 c) (c_cr3 c) (c_tr c) (c_idtr c) (c_gdtr c).
Definition with_cr (c : cpu) (r : regs) (v0 v3 : Z) : cpu := mkCpu r v0 v3 (c_tr c) (c_idtr c) (c_gdtr c).

(** [lidt (%eax)] and [lgdt (%eax)] take six bytes at the address. *)
Definition lidt_asm (addr : Z) (c : cpu) : cpu :=
  mkCpu (set_ax addr (c_regs c)) (c_cr0 c) (c_cr3 c) (c_tr c) addr (c_gdtr c).
Definition lgdt_asm (addr : Z) (c : cpu) : cpu :=
  mkCpu (set_ax addr (c_regs c)) (c_cr0 c) (c_cr3 c) (c_tr c) (c_idtr c) addr.
Definition ltr_asm (sel : Z) (c : cpu) : cpu :=
  mkCpu (c_regs c) (c_cr0 c) (c_cr3 c) (u16 sel) (c_idtr c) (c_gdtr c).

Definition load_cr3_asm (addr : Z) (c : cpu) : cpu := with_cr c (set_ax addr (c_regs c)) (c_cr0 c) addr.
Definition flashCache_asm (c : cpu) : cpu := with_cr c (set_ax (c_cr3 c) (c_regs c)) (c_cr0 c) (c_cr3 c).
Definition paging_on_asm (pagedir : Z) (c : cpu) : cpu :=
  let v := Z.lor (c_cr0 c) 2147483648 in
  with_cr c (set_ax v (c_regs c)) v pagedir.

(** The result is in [eax]. *)
Definition notInKernel_asm (c : cpu) : cpu :=
  let r := set_ax 0 (c_regs c) in
  let r := set_ax (ax r / 65536 * 65536 + u16 (cs r)) r in
  with_regs c (set_ax (ax r / 65536 * 65536 + Z.land (u16 (ax r)) 3) r).
Definition get_esp (c : cpu) : cpu := with_regs c (set_ax (sp (c_regs c)) (c_regs c)).

(** ** Leaving the kernel *)

(** [mov %ax,%ds] and the other data segments. *)
Definition mov_segs (v : Z) (r : regs) : regs :=
  mkRegs (u16 v) (u16 v) (u16 v) (u16 v) (di r) (si r) (bp r) (bx r) (dx r) (cx r) (ax r) (pc r) (cs r) (psw r) (sp r) (ss r).

Definition set_return (pc' cs' psw' sp' ss' : Z) (r : regs) : regs :=
  mkRegs (gs r) (fs r) (es r) (ds r) (di r) (si r) (bp r) (bx r) (dx r) (cx r) (ax r) pc' (u16 cs') psw' sp' (u16 ss').

(** [iretl] with the words [st] on the stack of the kernel. If it stays in the kernel, it takes three of
    them; if it leaves it, the stack pointer and its segment as well. *)
Definition iretl (st : list Z) (r : regs) : res regs :=
  match st with
  | pc' :: cs' :: psw' :: st =>
      if Z.land cs' 3 =? 0 then Ok (set_return pc' cs' psw' (u32 (sp r + 12)) (ss r) r)
      else
        match st with
        | sp' :: ss' :: _ => Ok (set_return pc' cs' psw' sp' ss' r)
        | _ => Fault
        end
  | _ => Fault
  end.

(** [void taskswitch_asm(int cs,int ss,int eip,int esp)]; [st] is what is on the stack, the last word
    first. *)
Definition taskswitch_asm (st : list Z) (cs' ss' eip esp' : Z) (r : regs) : res regs :=
  let st := ss' :: st in
  let st := esp' :: st in
  let st := 4608 :: st in
  let st := cs' :: st in
  let st := eip :: st in
  let r := set_ax ss' r in
  let r := mov_segs (ax r) r in
  iretl st r.

(** [void interrupt0x31_asm(int millisec,int myid)] in front of and behind [int $0x31]. *)
Definition mov_si (v : Z) (r : regs) : regs :=
  mkRegs (gs r) (fs r) (es r) (ds r) (di r) v (bp r) (bx r) (dx r) (cx r) (ax r) (pc r) (cs r) (psw r) (sp r) (ss r).
Definition mov_di (v : Z) (r : regs) : regs :=
  mkRegs (gs r) (fs r) (es r) (ds r) v (si r) (bp r) (bx r) (dx r) (cx r) (ax r) (pc r) (cs r) (psw r) (sp r) (ss r).

Definition interrupt0x31_enter (s : Task.K * regs) : res (Task.K * regs) :=
  s ← Syscall.push s (si s.2); s ← Syscall.push s (di s.2);
  v ← Syscall.arg s 8; let s := (s.1, mov_si v s.2) in
  v ← Syscall.arg s 12; Ok (s.1, mov_di v s.2).
Definition interrupt0x31_leave (s : Task.K * regs) : res (Task.K * regs) :=
  '(v, s) ← Syscall.pop s; let s := (s.1, mov_di v s.2) in
  '(v, s) ← Syscall.pop s; Ok (s.1, mov_si v s.2).

(** ** Proofs *)

(** [taskswitch_asm] to a segment below the privilege of the kernel. *)
Lemma taskswitch_spec st (cs' ss' eip esp' : Z) r : is_u16 cs' → is_u16 ss' → Z.land cs' 3 ≠ 0 →
  taskswitch_asm st cs' ss' eip esp' r =
    Ok (mkRegs ss' ss' ss' ss' (di r) (si r) (bp r) (bx r) (dx r) (cx r) ss' eip cs' 4608 esp' ss').
Proof.
  intros Hc Hs Hp. unfold taskswitch_asm, iretl. rewrite (proj2 (Z.eqb_neq _ _) Hp). unfold mov_segs, set_return. cbn.
  unfold is_u16 in *. unfold u16. by rewrite !Z.mod_small by lia.
Qed.

Lemma taskswitch_regs st (cs' ss' eip esp' : Z) r r' : is_u16 cs' → is_u16 ss' → Z.land cs' 3 ≠ 0 → is_u32 eip → is_u32 esp' →
  regs_ok r → taskswitch_asm st cs' ss' eip esp' r = Ok r' → regs_ok r'.
Proof.
  intros Hc Hs Hp He Hsp [_ (H1 & H2 & H3 & H4 & H5 & H6 & H7) _]. rewrite taskswitch_spec by done. intros [= <-].
  split; cbn; split_and!; try done; unfold is_u16, is_u32 in *; lia.
Qed.

(** Paging is on and the rest of [cr0] is kept; [notInKernel_asm] gives the privilege. *)
Lemma paging_on_bits pagedir c n : 0 ≤ n → Z.testbit (c_cr0 (paging_on_asm pagedir c)) n = (n =? 31) || Z.testbit (c_cr0 c) n.
Proof.
  intros Hn. cbn. change 2147483648 with (2 ^ 31). rewrite Z.lor_spec, Z.pow2_bits_eqb by lia. rewrite orb_comm. f_equal.
  apply Z.eqb_sym.
Qed.

Lemma notInKernel_spec c : is_u16 (cs (c_regs c)) → ax (c_regs (notInKernel_asm c)) = cs (c_regs c) `mod` 4.
Proof.
  intros Hc. unfold is_u16 in Hc. cbn. change 3 with (Z.ones 2). rewrite Z.land_ones by lia. unfold u16.
  rewrite (Z.mod_small (cs _)) by lia. rewrite Z.add_0_l, (Z.mod_small (cs _)) by lia. by rewrite (Z.div_small (cs _)) by lia.
Qed.

End Asmfunc.
