(* ===== verification/InitTasks.v ===== *)
(** * The first processes ([init_tasks] of [src/kernel/task.cpp])

    From the process table as its constructor leaves it: two system processes are made, the
    first is put in the run queue and becomes the running process. *)

From S2P Require Import Prelude Chain Memory KType PageFrames VarMem Timer Process Task Descriptor Clone Fork.

Module InitTasks.
Import VarMem Process Task Clone Fork.

(** ** The code *)

(** [void init_tasks()]: the part after the two calls of [makeSysProc] is
    [Task.init_tasks]. *)
Definition init_tasks (k : K) (kPdir mem_size : Z) : res K :=
  '(pinit, k) ← makeSysProc k kPdir mem_size;
  '(pkernel, k) ← makeSysProc k kPdir mem_size;
  Task.init_tasks k pinit pkernel.

(** ** Proofs *)

Implicit Types (k : K) (i j : nat).

Definition no_queues : list (list nat) := replicate nr_Level [].

Lemma new_pr q i : pr (PManager_new q) i = Proc_new q ∨ pr (PManager_new q) i = proc0.
Proof.
  unfold pr, PManager_new; cbn [ProcL Lessor_new room]. destruct (replicate nr_Proc (Proc_new q) !! i) as [x|] eqn:E; [|by right].
  apply lookup_replicate_1 in E as [-> _]. by left.
Qed.

Lemma new_wf q : Wf (PManager_new q) no_queues.
Proof.
  assert (Hc : concat no_queues = []) by done.
  assert (Hn : ∀ i, i ∉ concat no_queues) by (intros i; rewrite Hc; apply not_elem_of_nil).
  constructor; try done.
  - intros lvl l Hl. apply lookup_replicate_1 in Hl as [-> Hlt]. unfold chain, headp, PManager_new; cbn [pHead].
    by rewrite lookup_replicate_2.
  - rewrite Hc. constructor.
  - intros i Hi. by apply Hn in Hi.
  - intros i _. split; [|intros Hi; by apply Hn in Hi]. by destruct (new_pr q i) as [-> | ->].
Qed.

Lemma new_free q i : isFree (ProcL (PManager_new q)) !! i = Some true ↔ (i < nr_Proc)%nat.
Proof.
  cbn [PManager_new ProcL Lessor_new isFree]. split.
  - intros H. by apply lookup_replicate_1 in H as [_ Hlt].
  - apply lookup_replicate_2.
Qed.

(** The second part of [init_tasks], for the processes [i] and [j]. *)
Record Started k k' i j (m : mm_struct) : Prop := {
  st_queues : Wf (pm k') [[]; [i]; []; []] ∧ pCurrent (pm k') = Some i;
  st_cpu : cr3_reg k' = cr3 m ∧ tss_esp0 k' = stack_top (kernel_info (pr (pm k) i)) ∧
    tss_ss0 k' = k_ss (kernel_info (pr (pm k) i));
  st_timer : timer k' = Timer.reset_quantum (timer k) (default 0 (Process.interval (pm k) !! 0%nat)) PID_INIT;
  st_ids : p_id (pr (pm k') i) = PID_INIT ∧ p_id (pr (pm k') j) = PID_KERNEL;
  st_same : vm k' = vm k ∧ isFree (ProcL (pm k')) = isFree (ProcL (pm k)) ∧ pid_num (pm k') = pid_num (pm k);
  st_procs : ∀ l, mm (pr (pm k') l) = mm (pr (pm k) l) ∧ kernel_info (pr (pm k') l) = kernel_info (pr (pm k) l) ∧
    prior (pr (pm k') l) = prior (pr (pm k) l);
  st_status : ∀ l, status (pr (pm k') l) = if decide (l = i) then TASK_RUNNING else status (pr (pm k) l);
  st_clock : irqQue k' = irqQue k ∧ Process.interval (pm k') = Process.interval (pm k)
}.

Lemma start_spec k i j m : Wf (pm k) no_queues → (i < nr_Proc)%nat → (j < nr_Proc)%nat → i ≠ j →
  status (pr (pm k) i) = TASK_STOPPED → prior (pr (pm k) i) = Psys → mm (pr (pm k) i) = Some m →
  ∃ k', Task.init_tasks k i j = Ok k' ∧ Started k k' i j m.
Proof.
  intros HW Hi Hj Hij Hst Hpri Hmm. unfold Task.init_tasks. cbv zeta.
  match goal with |- context [upd_proc (upd_proc _ j ?f) i ?g] => set (fj := f); set (fi := g) end.
  set (p0 := upd_proc (upd_proc (pm k) j fj) i fi).
  assert (HW0 : Wf p0 no_queues) by (by do 2 (apply wf_upd_other; [done|])).
  assert (Hf : ∀ B (h : Proc → B) l, (∀ q, h (fi q) = h q) → (∀ q, h (fj q) = h q) → h (pr p0 l) = h (pr (pm k) l))
    by (intros B h l H1 H2; unfold p0; by rewrite !(pr_upd_field h)).
  assert (Hlen : (i < length (room (ProcL p0)))%nat) by (by rewrite (wf_rooms _ _ HW0)).
  destruct (runq_enque_ok p0 no_queues i 0 1 []) as [E HW1]; try done; [by rewrite (Hf _ status)|by rewrite (Hf _ prior), Hpri|unfold nr_Level; lia|].
  rewrite E. cbn [mbind res_bind]. set (p1 := linked_last p0 1 [] i) in *.
  assert (Hg : ∀ B (h : Proc → B) l, (∀ q w, h (Process.set_next w q) = h q) → (∀ q w, h (set_status w q) = h q) → h (pr p1 l) = h (pr p0 l))
    by (intros B h l H1 H2; unfold p1; by apply linked_last_field).
  cbn [with_current pm ProcL with_pm setFrame2TSS timer pCurrent pr].
  change (pr (with_current p1 (pPrev p1) (Some i))) with (pr p1). rewrite (Hg _ mm), (Hf _ mm), Hmm by done.
  assert (Ei : p_id (pr p1 i) = PID_INIT).
  { rewrite (Hg _ p_id) by done. unfold p0. rewrite pr_upd by (by rewrite procs_length_upd, (wf_rooms _ _ HW)). by rewrite decide_True. }
  assert (Ej : p_id (pr p1 j) = PID_KERNEL).
  { rewrite (Hg _ p_id) by done. unfold p0. rewrite pr_upd_ne by done. rewrite pr_upd by (by rewrite (wf_rooms _ _ HW)). by rewrite decide_True. }
  eexists. split; [reflexivity|]. unfold p1 in *. split; cbn [pm vm timer cr3_reg tss_esp0 tss_ss0 with_timer with_cr3 setFrame2TSS with_pm].
  - split; [|done]. by apply wf_with_current.
  - by rewrite (Hg _ kernel_info), (Hf _ kernel_info) by done.
  - rewrite Ei. unfold linked_last, assign. by destruct (loc_after []).
  - done.
  - done.
  - intros l. change (pr (with_current ?p _ _) l) with (pr p l). by rewrite (Hg _ mm), (Hf _ mm), (Hg _ kernel_info), (Hf _ kernel_info), (Hg _ prior), (Hf _ prior).
  - intros l. change (pr (with_current ?p _ _) l) with (pr p l). rewrite linked_last_status by done. by rewrite (Hf _ status).
  - split; [done|]. cbn [with_current Process.interval]. by rewrite linked_last_interval.
Qed.

Definition stacks : list mm_region := [stack_region sys_stack_begin_init; stack_region user_stack_begin_init].

Definition in_stack (va : Z) : Prop :=
  ∃ begin, (begin = sys_stack_begin_init ∨ begin = user_stack_begin_init) ∧ begin ≤ va < begin + 8192.

(** The state after [init_tasks]: the processes [i] (init, running) and [j] (the kernel's),
    with the page directories [di] and [dj]. *)
Record Booted k k' kPdir mem_size i j (di dj : Z) : Prop := {
  bo_run : Wf (pm k') [[]; [i]; []; []] ∧ pCurrent (pm k') = Some i;
  bo_ids : getProc (pm k') PID_INIT = Some i ∧ getProc (pm k') PID_KERNEL = Some j;
  bo_leased : ∀ l, leased (pm k') l → l = i ∨ l = j;
  bo_ready : ready_to_run k' i (mkMM di stacks) ∧ ready_to_run k' j (mkMM dj stacks);
  bo_cpu : cr3_reg k' = di ∧ tss_esp0 k' = stack_top (kernel_info (pr (pm k') i)) ∧ tss_ss0 k' = Descriptor.KDSeg ∧
    ret_from (kernel_info (pr (pm k') i)) = kernel2user;
  bo_space : Space (vm k') di ∧ Space (vm k') dj ∧ Kernel (vm k') kPdir mem_size;
  bo_stacks : ∀ va va', in_stack va → in_stack va' → ∃ x y, translate (vm_mem (vm k')) di va = Some x ∧
    translate (vm_mem (vm k')) dj va' = Some y ∧ fa_used (vm_pf (vm k')) x ∧ fa_used (vm_pf (vm k')) y ∧ x ≠ y;
  bo_memory : ∀ a, fa_used (vm_pf (vm k)) a → fa_used (vm_pf (vm k')) a ∧ load8 (vm_mem (vm k')) a = load8 (vm_mem (vm k)) a;
  bo_frames : ∀ l, l = i ∨ l = j → frame_size ≤ stack_top (kernel_info (pr (pm k') l)) < 4294967296 ∧
    ∀ o, 0 ≤ o < frame_size → fa_used (vm_pf (vm k')) (frame_of (pr (pm k') l) + o) ∧
      ∀ o', 0 ≤ o' < frame_size → frame_of (pr (pm k') i) + o ≠ frame_of (pr (pm k') j) + o';
  bo_clock : timer k' = Timer.reset_quantum (timer k) 0 PID_INIT ∧ irqQue k' = irqQue k ∧
    Process.interval (pm k') = [0; 1; 2; 3]
}.

(** The first call of [makeSysProc], the second and the rest. *)
Lemma init_tasks_steps n k q kPdir mem_size : pm k = PManager_new q → CanMake (10 + n) k no_queues kPdir mem_size →
  ∃ i j di dj k1 k2 k', init_tasks k kPdir mem_size = Ok k' ∧ i ≠ j ∧ (i < nr_Proc)%nat ∧ (j < nr_Proc)%nat ∧
    SysProc (10 + n) k k1 no_queues i di ∧ SysProc n k1 k2 no_queues j dj ∧ Started k2 k' i j (mkMM di stacks) ∧
    CanMake n k1 no_queues kPdir mem_size ∧ pr (pm k2) i = pr (pm k1) i.
Proof.
  intros Hpm HC. destruct (makeSysProc_spec _ _ _ _ _ HC) as (i & k1 & di & E1 & H1).
  destruct (sy_room _ _ _ _ _ _ H1) as [Hi Ef1]. rewrite Hpm in Hi, Ef1. apply new_free in Hi.
  assert (HC1 : CanMake n k1 no_queues kPdir mem_size).
  { eapply SysProc_next; [exact HC|exact H1|]. exists (if decide (i = 0%nat) then 1%nat else 0%nat). rewrite Ef1.
    rewrite list_lookup_insert_ne by (case_decide; lia). apply new_free. unfold nr_Proc. case_decide; lia. }
  destruct (makeSysProc_spec _ _ _ _ _ HC1) as (j & k2 & dj & E2 & H2). destruct (sy_room _ _ _ _ _ _ H2) as [Hj Ef2]. rewrite Ef1 in Hj.
  assert (Hij : i ≠ j) by (intros ->; rewrite list_lookup_insert_eq in Hj; [done|exact Hi]).
  rewrite list_lookup_insert_ne in Hj by done. apply new_free in Hj. pose proof (sy_others _ _ _ _ _ _ H2 i Hij) as Ei.
  destruct (sy_proc _ _ _ _ _ _ H1) as (Hst & Hpri & Hmm). rewrite <- Ei in Hst, Hpri, Hmm.
  destruct (start_spec k2 i j (mkMM di stacks)) as (k' & E & HS); try done; [apply (sy_queues _ _ _ _ _ _ H2)|].
  exists i, j, di, dj, k1, k2, k'. split_and!; try done. unfold init_tasks. rewrite E1. cbn [mbind res_bind]. rewrite E2. exact E.
Qed.

Lemma stack_in_region r va : r ∈ stacks → in_region r va → in_stack va.
Proof.
  intros Hr. unfold in_region, stacks, stack_region in *. set_unfold in Hr. destruct Hr as [->|[->|[]]]; cbn; intros Hva;
    eexists; (split; [|exact Hva]); auto.
Qed.

Section booted.
Context (n : nat) (k k1 k2 k' : K) (q : Que Message) (kPdir mem_size : Z) (i j : nat) (di dj : Z).
Context (Hpm : pm k = PManager_new q) (HC : CanMake (10 + n) k no_queues kPdir mem_size)
  (HC1 : CanMake n k1 no_queues kPdir mem_size) (Hij : i ≠ j) (Hi : (i < nr_Proc)%nat) (Hj : (j < nr_Proc)%nat)
  (H1 : SysProc (10 + n) k k1 no_queues i di) (H2 : SysProc n k1 k2 no_queues j dj)
  (HS : Started k2 k' i j (mkMM di stacks)) (Ei : pr (pm k2) i = pr (pm k1) i).

Lemma boot_vm : vm k' = vm k2.
Proof. apply (st_same _ _ _ _ _ HS). Qed.

Lemma boot_free l : isFree (ProcL (pm k')) !! l =
  if decide (l = i ∨ l = j) then Some false else isFree (ProcL (PManager_new q)) !! l.
Proof.
  destruct (st_same _ _ _ _ _ HS) as (_ & -> & _). destruct (sy_room _ _ _ _ _ _ H2) as [_ ->].
  destruct (sy_room _ _ _ _ _ _ H1) as [_ ->]. rewrite Hpm. set (F := isFree (ProcL (PManager_new q))).
  assert (Hlen : length F = nr_Proc) by done.
  destruct (decide (l = j)) as [->|Hlj].
  { rewrite list_lookup_insert_eq by (rewrite length_insert, Hlen; done). by rewrite decide_True by tauto. }
  rewrite list_lookup_insert_ne by done. destruct (decide (l = i)) as [->|Hli].
  - rewrite list_lookup_insert_eq by (rewrite Hlen; done). by rewrite decide_True by tauto.
  - rewrite list_lookup_insert_ne by done. by rewrite decide_False by tauto.
Qed.

Lemma boot_leased l : leased (pm k') l ↔ l = i ∨ l = j.
Proof.
  unfold leased. rewrite boot_free. case_decide; [tauto|]. split; [|tauto]. change (isFree _) with (replicate nr_Proc true). intros E.
  by apply lookup_replicate_1 in E as [? _].
Qed.

Lemma boot_ids : getProc (pm k') PID_INIT = Some i ∧ getProc (pm k') PID_KERNEL = Some j.
Proof.
  destruct (st_ids _ _ _ _ _ HS) as [Ii Ij]. destruct (st_queues _ _ _ _ _ HS) as [HW _].
  split; apply getProc_at; rewrite ?boot_leased, ?(wf_rooms _ _ HW) by done; try done; try tauto.
  - intros l Hl [->| ->]%boot_leased; [done|]. by rewrite Ij.
  - intros l Hl [->| ->]%boot_leased; [|done]. by rewrite Ii.
Qed.

Lemma boot_memory a : fa_used (vm_pf (vm k)) a → fa_used (vm_pf (vm k')) a ∧ load8 (vm_mem (vm k')) a = load8 (vm_mem (vm k)) a.
Proof.
  intros Ha. rewrite boot_vm. destruct (sy_memory _ _ _ _ _ _ H1 a Ha) as [Ha1 E1].
  destruct (sy_memory _ _ _ _ _ _ H2 a Ha1) as [Ha2 E2]. split; [done|congruence].
Qed.

(** The address space of the first process after the second one is made. *)
Lemma boot_first : Space (vm k') di ∧ ∀ va, is_va va → translate (vm_mem (vm k')) di va = translate (vm_mem (vm k1)) di va.
Proof.
  rewrite boot_vm. apply Space_keep; [apply (sy_space _ _ _ _ _ _ H1)|apply (sp_bytes _ _ (sy_space _ _ _ _ _ _ H2))|].
  apply (sy_memory _ _ _ _ _ _ H2).
Qed.

Lemma boot_stack va : in_stack va →
  ∃ x, translate (vm_mem (vm k')) di va = Some x ∧ fa_used (vm_pf (vm k1)) x ∧ fa_used (vm_pf (vm k')) x.
Proof.
  intros (b & Hb & Hva). destruct (sy_stacks _ _ _ _ _ _ H1 b va Hb Hva) as (x & Hx & Hu & _).
  assert (Hv : is_va va) by (eapply stack_user; [apply (cm_size _ _ _ _ _ HC)|done|done]).
  exists x. rewrite (proj2 boot_first) by done. split_and!; [done|done|]. rewrite boot_vm. by apply (sy_memory _ _ _ _ _ _ H2).
Qed.

Lemma boot_kernel : Kernel (vm k') kPdir mem_size.
Proof. eapply Kernel_keep; [apply (cm_kernel _ _ _ _ _ HC)|apply boot_memory]. Qed.

Lemma boot_ready : ready_to_run k' i (mkMM di stacks) ∧ ready_to_run k' j (mkMM dj stacks).
Proof.
  unfold ready_to_run. destruct (st_procs _ _ _ _ _ HS i) as (-> & -> & _). destruct (st_procs _ _ _ _ _ HS j) as (-> & -> & _).
  rewrite Ei. destruct (sy_proc _ _ _ _ _ _ H1) as (_ & _ & ->). destruct (sy_proc _ _ _ _ _ _ H2) as (_ & _ & ->).
  destruct (sy_kernel _ _ _ _ _ _ H1) as (-> & _), (sy_kernel _ _ _ _ _ _ H2) as (-> & _). auto.
Qed.

Lemma boot_info : kernel_info (pr (pm k') i) = kernel_info (pr (pm k1) i) ∧ kernel_info (pr (pm k') j) = kernel_info (pr (pm k2) j).
Proof.
  destruct (st_procs _ _ _ _ _ HS i) as (_ & -> & _), (st_procs _ _ _ _ _ HS j) as (_ & -> & _). by rewrite Ei.
Qed.

Lemma boot_frames l : l = i ∨ l = j → frame_size ≤ stack_top (kernel_info (pr (pm k') l)) < 4294967296 ∧
  ∀ o, 0 ≤ o < frame_size → fa_used (vm_pf (vm k')) (frame_of (pr (pm k') l) + o) ∧
    ∀ o', 0 ≤ o' < frame_size → frame_of (pr (pm k') i) + o ≠ frame_of (pr (pm k') j) + o'.
Proof.
  destruct boot_info as [E1 E2]. unfold frame_of. rewrite boot_vm.
  assert (Hi1 : ∀ o, 0 ≤ o < frame_size → fa_used (vm_pf (vm k1)) (frame_of (pr (pm k1) i) + o)) by (intros o Ho; by apply (sy_kernel _ _ _ _ _ _ H1)).
  assert (Hi2 : ∀ o, 0 ≤ o < frame_size → fa_used (vm_pf (vm k2)) (frame_of (pr (pm k1) i) + o)) by (intros o Ho; by apply (sy_memory _ _ _ _ _ _ H2), Hi1).
  assert (Hj2 : ∀ o, 0 ≤ o < frame_size → fa_used (vm_pf (vm k2)) (frame_of (pr (pm k2) j) + o) ∧
    ¬ fa_used (vm_pf (vm k1)) (frame_of (pr (pm k2) j) + o)) by (apply (sy_kernel _ _ _ _ _ _ H2)).
  unfold frame_of in *. rewrite E1, E2. intros [-> | ->]; rewrite ?E1, ?E2; (split; [eapply sy_top; eassumption|]);
    intros o Ho; (split; [auto; by apply Hj2|]); intros o' Ho' E; apply (Hj2 o' Ho'); rewrite <-E; by apply Hi1.
Qed.

Lemma boot_correct : Booted k k' kPdir mem_size i j di dj.
Proof.
  split; try apply HS.
  - apply boot_ids.
  - intros l. by rewrite boot_leased.
  - apply boot_ready.
  - destruct (st_cpu _ _ _ _ _ HS) as (-> & -> & ->). destruct (st_procs _ _ _ _ _ HS i) as (_ & -> & _). rewrite Ei.
    by destruct (sy_kernel _ _ _ _ _ _ H1) as (-> & -> & _).
  - split_and!; [apply boot_first|rewrite boot_vm; apply (sy_space _ _ _ _ _ _ H2)|apply boot_kernel].
  - intros va va' Hva (b & Hb & Hva'). destruct (boot_stack va Hva) as (x & Hx & Hu & Hu').
    destruct (sy_stacks _ _ _ _ _ _ H2 b va' Hb Hva') as (y & Hy & Huy & Hny). exists x, y. rewrite boot_vm in *.
    split_and!; try done. intros ->. done.
  - apply boot_memory.
  - apply boot_frames.
  - destruct (st_clock _ _ _ _ _ HS) as [-> ->]. rewrite (st_timer _ _ _ _ _ HS).
    destruct (sy_clock _ _ _ _ _ _ H2) as [-> ->], (sy_same _ _ _ _ _ _ H2) as (_ & _ & ->).
    destruct (sy_clock _ _ _ _ _ _ H1) as [-> ->], (sy_same _ _ _ _ _ _ H1) as (_ & _ & ->). by rewrite Hpm.
Qed.

(** The init process can fork at once. *)
Lemma boot_fork : (10 ≤ n)%nat → pid_num (pm k') = 100 → CanFork 3 k' [[]; [i]; []; []] kPdir mem_size i (mkMM di stacks).
Proof.
  intros Hn Hpid. destruct (st_procs _ _ _ _ _ HS i) as (_ & Eki & Epi). rewrite Ei in Eki, Epi.
  split; try apply HS.
  - cbn. intros l Hl. apply list_elem_of_singleton in Hl as ->. apply boot_leased. by left.
  - destruct (st_same _ _ _ _ _ HS) as (_ & -> & _). destruct (sy_room _ _ _ _ _ _ H2) as [_ ->]. rewrite length_insert.
    apply (cm_frees _ _ _ _ _ HC1).
  - split; [apply HS|]. apply boot_leased. by left.
  - exists (if decide (i = 0%nat ∨ j = 0%nat) then if decide (i = 1%nat ∨ j = 1%nat) then 2%nat else 1%nat else 0%nat). rewrite boot_free.
    rewrite decide_False by (repeat case_decide; lia). apply new_free. unfold nr_Proc. repeat case_decide; lia.
  - intros l. rewrite boot_leased. unfold pid_gen. rewrite Hpid. destruct (st_ids _ _ _ _ _ HS) as [Ii Ij].
    intros [-> | ->]; [by rewrite Ii|by rewrite Ij].
  - rewrite Epi. destruct (sy_proc _ _ _ _ _ _ H1) as (_ & -> & _). unfold Psys, nr_Level. lia.
  - split; [apply boot_ready|apply HS].
  - apply boot_kernel.
  - apply boot_first.
  - apply Forall_forall. intros r Hr. unfold region_mapped. assert (Hin := λ va, stack_in_region r va Hr).
    assert (Hb : (r_begin r = sys_stack_begin_init ∨ r_begin r = user_stack_begin_init) ∧ r_size r = 8192).
    { cbn in Hr. set_unfold in Hr. destruct Hr as [-> | [-> | []]]; cbn; auto. }
    destruct Hb as [Hb Hsz]. rewrite Hsz. split_and!; try done; try (destruct Hb as [-> | ->]; (reflexivity || (unfold sys_stack_begin_init, user_stack_begin_init; lia))).
    intros va Hva. apply Hin in Hva. split; [|destruct (boot_stack va Hva) as (x & ? & _ & ?); by exists x].
    destruct Hva as (b & Hb' & Hva). by apply (stack_user mem_size b va (cm_size _ _ _ _ _ HC) Hb' Hva).
  - repeat constructor; cbn; lia.
  - rewrite boot_vm. eapply fa_ready_le; [|exact (sy_frames _ _ _ _ _ _ H2)]. exact Hn.
  - intros o Ho. unfold frame_of. rewrite Eki, boot_vm. apply (sy_memory _ _ _ _ _ _ H2). by apply (sy_kernel _ _ _ _ _ _ H1).
Qed.

End booted.

Lemma init_tasks_spec k q kPdir mem_size : pm k = PManager_new q → CanMake 20 k no_queues kPdir mem_size →
  ∃ i j di dj k', init_tasks k kPdir mem_size = Ok k' ∧ Booted k k' kPdir mem_size i j di dj ∧
    CanFork 3 k' [[]; [i]; []; []] kPdir mem_size i (mkMM di stacks).
Proof.
  intros Hpm HC. destruct (init_tasks_steps 10 k q kPdir mem_size Hpm HC)
    as (i & j & di & dj & k1 & k2 & k' & E & Hij & Hi & Hj & H1 & H2 & HS & HC1 & Ei).
  exists i, j, di, dj, k'. split; [done|]. split; [by apply (boot_correct 10 k k1 k2 k' q)|].
  apply (boot_fork 10 k k1 k2 k' q kPdir mem_size i j di dj); try done.
  destruct (st_same _ _ _ _ _ HS) as (_ & _ & ->). destruct (sy_same _ _ _ _ _ _ H2) as (-> & _).
  destruct (sy_same _ _ _ _ _ _ H1) as (-> & _). by rewrite Hpm.
Qed.

(** C16: [init_tasks] starts the system. From the process table that the constructor
    made, with thirty free frames and the kernel's page directory in place: the only
    processes are init, that is the running process and alone in the run queues, and the kernel's
    process; both are found by their ids, can be switched to and have two mapped stacks in
    frames that they do not share. The processor has the page directory and the kernel stack of
    init. No byte of memory that was in use changes. Everything [fork] needs holds: init can
    fork at once. *)
Theorem init_tasks_correct k q kPdir mem_size : pm k = PManager_new q → CanMake 20 k no_queues kPdir mem_size →
  ∃ i j di dj k', init_tasks k kPdir mem_size = Ok k' ∧ Booted k k' kPdir mem_size i j di dj ∧
    CanFork 3 k' [[]; [i]; []; []] kPdir mem_size i (mkMM di stacks).
Proof. apply init_tasks_spec. Qed.

(** The state of [Fork.v] with a new process table. *)
Definition ex_boot_k : K := with_pm ex_fork_k (PManager_new (recvQ proc0)).

Lemma init_tasks_correct_witness : ∃ i k', init_tasks ex_boot_k 4096 4194304 = Ok k' ∧ getProc (pm k') PID_INIT = Some i ∧
  pCurrent (pm k') = Some i.
Proof.
  destruct (init_tasks_correct ex_boot_k (recvQ proc0) 4096 4194304 eq_refl) as (i & j & di & dj & k' & E & HB & _).
  - split; [apply new_wf|by intros j Hj; apply not_elem_of_nil in Hj|done|by exists 0%nat|exact ex_kernel_dir|exact ex_mm_bytes|lia|].
    exact ex_pf_ready.
  - exists i, k'. split_and!; [exact E|apply (bo_ids _ _ _ _ _ _ _ _ HB)|apply (bo_run _ _ _ _ _ _ _ _ HB)].
Defined.

End InitTasks.
