(* ===== verification/Ports.v ===== *)
(** * The port I/O bus

    What a driver sees of the machine: reads and writes of the I/O space, each
    of which may change the state of the devices, and the passing of time. The
    devices themselves are a parameter ([Ports]). The accessors of
    [src/kernel/asmfunc.cpp] cut the port to [dx] and the value to [al]/[ax].
    [Logged] is a bus that records every access: the safety properties of the
    drivers are statements about this record. *)

From S2P Require Import Prelude.

(** ** Devices *)

Class Ports (D : Type) := {
  in8 : Z → D → Z * D;
  in16 : Z → D → Z * D;
  in32 : Z → D → Z * D;
  out8 : Z → Z → D → D;
  out16 : Z → Z → D → D;
  delay : Z → D → D
}.

Section accessors.
Context {D : Type} `{Ports D}.

(** [void io_out8_asm(int port,int val)]. *)
Definition io_out8_asm (port val : Z) (d : D) : D := out8 (u16 port) (u8 val) d.

(** [void io_out16_asm(int port,int val)]. *)
Definition io_out16_asm (port val : Z) (d : D) : D := out16 (u16 port) (u16 val) d.

(** [u8_t io_in8_asm(int port)]. *)
Definition io_in8_asm (port : Z) (d : D) : Z * D :=
  let '(v, d) := in8 (u16 port) d in (u8 v, d).

(** [u16_t io_in16_asm(int port)]. *)
Definition io_in16_asm (port : Z) (d : D) : Z * D :=
  let '(v, d) := in16 (u16 port) d in (u16 v, d).

(** [rep insw] / [rep insl]: [n] reads of the same port. *)
Fixpoint ins16 (n : nat) (port : Z) (d : D) : list Z * D :=
  match n with
  | O => ([], d)
  | S n' => let '(v, d) := io_in16_asm port d in
            let '(vs, d) := ins16 n' port d in (v :: vs, d)
  end.

Fixpoint ins32 (n : nat) (port : Z) (d : D) : list Z * D :=
  match n with
  | O => ([], d)
  | S n' => let '(v, d) := in32 (u16 port) d in
            let '(vs, d) := ins32 n' port d in (u32 v :: vs, d)
  end.

(** [rep outsw]. *)
Fixpoint outs16 (vs : list Z) (port : Z) (d : D) : D :=
  match vs with
  | [] => d
  | v :: vs => outs16 vs port (io_out16_asm port v d)
  end.

End accessors.

(** ** A bus with a record of the accesses *)

Inductive access := In8 (port v : Z) | In16 (port v : Z) | In32 (port v : Z)
  | Out8 (port v : Z) | Out16 (port v : Z).

Record Logged (D : Type) := mkLogged { device : D; log : list access }.
Arguments mkLogged {D} _ _.
Arguments device {D} _.
Arguments log {D} _.

(** The newest access is at the end. *)
#[export] Instance Logged_Ports {D : Type} `{Ports D} : Ports (Logged D) := {
  in8 p s := let '(v, d) := in8 p (device s) in (v, mkLogged d (log s ++ [In8 p v]));
  in16 p s := let '(v, d) := in16 p (device s) in (v, mkLogged d (log s ++ [In16 p v]));
  in32 p s := let '(v, d) := in32 p (device s) in (v, mkLogged d (log s ++ [In32 p v]));
  out8 p v s := mkLogged (out8 p v (device s)) (log s ++ [Out8 p v]);
  out16 p v s := mkLogged (out16 p v (device s)) (log s ++ [Out16 p v]);
  delay n s := mkLogged (delay n (device s)) (log s)
}.

(** The writes of a record, in order. *)
Definition writes (l : list access) : list (Z * Z) :=
  omap (λ a, match a with Out8 p v | Out16 p v => Some (p, v) | _ => None end) l.

Lemma writes_app l1 l2 : writes (l1 ++ l2) = writes l1 ++ writes l2.
Proof. apply omap_app. Qed.

(** A bus where every read gives the next value of a script and writes do
    nothing: a device for concrete runs. *)
#[export] Instance Script_Ports : Ports (list Z) := {
  in8 p d := (default 0 (head d), tail d);
  in16 p d := (default 0 (head d), tail d);
  in32 p d := (default 0 (head d), tail d);
  out8 p v d := d;
  out16 p v d := d;
  delay n d := d
}.
