(* ===== verification/Vga.v ===== *)
(** * The graphics adapter ([src/kernel/vga.cpp])

    The object [vram_info] is in byte memory: the colour table, the size of the screen and
    the address of the frame buffer, at the offsets of [Vram::VramInfo]. The registers of
    the adapter are ports. The object's address is the result of [new VramInfo()], an
    argument of [init_vga]; the output on the console is left out. *)

From S2P Require Import Prelude Memory Ports.

Module Vga.

(** ** The code *)

Definition nr_color : Z := 16.

(** The members of [VramInfo] at [p]: [table_rgb] is at its beginning. *)
Definition vx (m : mem) (p : Z) : Z := load32 m (p + 48).
Definition vy (m : mem) (p : Z) : Z := load32 m (p + 52).
Definition vram (m : mem) (p : Z) : Z := load32 m (p + 56).

Definition rgb : list Z :=
  [0; 0; 0; 255; 0; 0; 0; 255; 0; 255; 255; 0; 0; 0; 255; 255; 0; 255; 0; 255; 255; 255; 255; 255;
   198; 198; 198; 132; 0; 0; 0; 132; 0; 132; 132; 0; 0; 0; 132; 132; 0; 132; 0; 132; 132; 132; 132; 132].

(** [Vram::VramInfo::VramInfo()]. *)
Definition VramInfo (m : mem) (p : Z) : mem :=
  for_loop (Z.to_nat (nr_color * 3)) 0 (λ i m, store8 m (p + i) (default 0 (rgb !! Z.to_nat i))) m.

Section vga.
Context {D : Type} `{Ports D}.

(** The devices, the memory and whether interrupts are enabled. *)
Record state := mkState { dev : D; v_mem : mem; IF : bool }.

Definition with_mem (s : state) (m : mem) : state := mkState (dev s) m (IF s).

(** [void Vram::set_qemuvga0reg(int reg, int dat)]. *)
Definition set_qemuvga0reg (d : D) (reg dat : Z) : D :=
  io_out16_asm 463 dat (io_out16_asm 462 reg d).

(** [void Vram::init_qemuvga0(int x, int y, int c, int flag)]. *)
Definition init_qemuvga0 (s : state) (p x y c flag : Z) : state :=
  let d := set_qemuvga0reg (dev s) 4 0 in
  let d := set_qemuvga0reg d 1 x in
  let d := set_qemuvga0reg d 2 y in
  let d := set_qemuvga0reg d 3 c in
  let d := set_qemuvga0reg d 5 0 in
  let d := set_qemuvga0reg d 4 flag in
  let m := store32 (v_mem s) (p + 48) (u32 x) in
  let m := store32 m (p + 52) (u32 y) in
  let m := if Z.land flag 64 =? 0 then store32 m (p + 56) 655360 else store32 m (p + 56) 3758096384 in
  mkState d m (IF s).

(** [void Vram::set_palette(int start, int end)]: the pointer [rgb] moves on with [i]. *)
Definition set_palette (s : state) (p start end_ : Z) : state :=
  let d := io_out8_asm 968 start (dev s) in
  let '(d, _) := for_loop (Z.to_nat (end_ + 1 - start)) start
    (λ _ '(d, rgb),
       let d := io_out8_asm 969 (load8 (v_mem s) rgb / 4) d in
       let d := io_out8_asm 969 (load8 (v_mem s) (rgb + 1) / 4) d in
       let d := io_out8_asm 969 (load8 (v_mem s) (rgb + 2) / 4) d in
       (d, rgb + 3)) (d, p) in
  mkState d (v_mem s) true.

(** [void Vram::init_palette(void)]. *)
Definition init_palette (s : state) (p : Z) : state := set_palette s p 0 nr_color.

(** [vram_info->vram[y * vram_info->vx + x]]: the index is unsigned. *)
Definition pixel (m : mem) (p x y : Z) : Z := u32 (vram m p + u32 (y * vx m p + x)).

(** [void Vram::boxfill8(unsigned char c, int x0, int y0, int x1, int y1)]. *)
Definition boxfill8 (m : mem) (p c x0 y0 x1 y1 : Z) : mem :=
  for_loop (Z.to_nat (y1 + 1 - y0)) y0
    (λ y m, for_loop (Z.to_nat (x1 + 1 - x0)) x0 (λ x m, store8 m (pixel m p x y) c) m) m.

(** [void Vram::init_vga()]. *)
Definition init_vga (s : state) (p : Z) : state :=
  let s := with_mem s (VramInfo (v_mem s) p) in
  let s := init_palette s p in
  let s := init_qemuvga0 s p 1024 768 8 193 in
  let s := with_mem s (boxfill8 (v_mem s) p 0 0 0 1024 768) in
  with_mem s (boxfill8 (v_mem s) p 1 300 200 400 300).

End vga.
Arguments state D : clear implicits.

(** ** [boxfill8] *)

Section box.
Context (p V W : Z).

Definition in_box (x0 y0 x1 y1 x y : Z) : Prop := x0 ≤ x ≤ x1 ∧ y0 ≤ y ≤ y1.

(** The screen is [W] pixels wide and its memory begins at [V]. *)
Definition screen (m : mem) : Prop := vx m p = W ∧ vram m p = V.

(** The memory [m] after the pixels of [D] have been set to [c]. *)
Definition painted (m0 m : mem) (c : Z) (D : Z → Z → Prop) : Prop :=
  screen m ∧ (∀ x y, D x y → load8 m (V + y * W + x) = u8 c) ∧
  ∀ a, (∀ x y, D x y → a ≠ V + y * W + x) → load8 m a = load8 m0 a.

(** Boxes inside of the 32-bit memory, away from the object itself. *)
Definition box_ok (x0 y0 x1 y1 : Z) : Prop := ∀ x y, in_box x0 y0 x1 y1 x y →
  0 ≤ V ∧ 0 ≤ y * W + x ∧ V + y * W + x < 4294967296 ∧ (V + y * W + x < p + 48 ∨ p + 60 ≤ V + y * W + x).

Lemma paint_pixel m0 m c D x y x0 y0 x1 y1 : box_ok x0 y0 x1 y1 → in_box x0 y0 x1 y1 x y → painted m0 m c D →
  painted m0 (store8 m (pixel m p x y) c) c (λ x' y', D x' y' ∨ x' = x ∧ y' = y).
Proof.
  intros Hok Hb (HS & HD & Hr). destruct (Hok x y Hb) as (HV & Hi & Ha & Hd). destruct HS as [EW EV].
  assert (Ep : pixel m p x y = V + y * W + x).
  { unfold pixel. rewrite EW, EV, (u32_id (y * W + x)) by (unfold is_u32; lia). rewrite u32_id by (unfold is_u32; lia). lia. }
  rewrite Ep. split_and!.
  - unfold screen, vx, vram, load32 in *. rewrite !load8_store8. by rewrite !decide_False by lia.
  - intros x' y'. rewrite load8_store8. case_decide as E; [done|]. intros [HD'|[-> ->]]; [by apply HD|done].
  - intros a Ha'. rewrite load8_store8, decide_False by (intros ->; apply (Ha' x y); auto). apply Hr. intros x' y' HD'. apply Ha'. auto.
Qed.

Lemma painted_mono m0 m c (D D' : Z → Z → Prop) : (∀ x y, D x y ↔ D' x y) → painted m0 m c D → painted m0 m c D'.
Proof. intros HD (H1 & H2 & H3). split_and!; [done|intros x y; rewrite <- HD; apply H2|intros a Ha; apply H3; intros x y; rewrite HD; apply Ha]. Qed.

Lemma paint_row m0 m c x0 y0 x1 y1 y : box_ok x0 y0 x1 y1 → y0 ≤ y ≤ y1 → painted m0 m c (in_box x0 y0 x1 (y - 1)) →
  painted m0 (for_loop (Z.to_nat (x1 + 1 - x0)) x0 (λ x m, store8 m (pixel m p x y) c) m) c (in_box x0 y0 x1 y).
Proof.
  intros Hok Hy Hm. set (D := λ x x' y', in_box x0 y0 x1 (y - 1) x' y' ∨ x0 ≤ x' < x ∧ y' = y).
  pose proof (for_loop_ind (λ x m, painted m0 m c (D x)) (Z.to_nat (x1 + 1 - x0)) x0
    (λ x m, store8 m (pixel m p x y) c) m) as Hl. eapply painted_mono; [|apply Hl].
  - unfold D, in_box. lia.
  - eapply painted_mono; [|exact Hm]. unfold D, in_box. lia.
  - intros x t Hx Ht. eapply painted_mono; [|eapply paint_pixel; [exact Hok| |exact Ht]]; unfold D, in_box; lia.
Qed.

Lemma boxfill8_spec m c x0 y0 x1 y1 : screen m → box_ok x0 y0 x1 y1 →
  painted m (boxfill8 m p c x0 y0 x1 y1) c (in_box x0 y0 x1 y1).
Proof.
  intros HS Hok. unfold boxfill8.
  pose proof (for_loop_ind (λ y t, painted m t c (in_box x0 y0 x1 (y - 1))) (Z.to_nat (y1 + 1 - y0)) y0
    (λ y m, for_loop (Z.to_nat (x1 + 1 - x0)) x0 (λ x m, store8 m (pixel m p x y) c) m) m) as Hl.
  eapply painted_mono; [|apply Hl].
  - unfold in_box. lia.
  - split_and!; [done|unfold in_box; lia|done].
  - intros y t Hy Ht. eapply painted_mono; [|eapply paint_row; [exact Hok|lia|exact Ht]]. unfold in_box. lia.
Qed.

End box.

(** ** [init_vga] *)

(** What [init_qemuvga0] leaves in [vram_info]. *)
Lemma init_screen {D : Type} `{Ports D} (s : state D) p x y c flag : is_u32 x → is_u32 y → Z.land flag 64 ≠ 0 →
  screen p 3758096384 x (v_mem (init_qemuvga0 s p x y c flag)) ∧
  ∀ a, ¬ (p + 48 ≤ a < p + 60) → load8 (v_mem (init_qemuvga0 s p x y c flag)) a = load8 (v_mem s) a.
Proof.
  intros Hx Hy Hf. unfold init_qemuvga0, screen, vx, vram. cbn [v_mem]. rewrite (proj2 (Z.eqb_neq _ _) Hf). split.
  - rewrite !(load32_store32_ne _ _ (p + 48)) by lia. by rewrite !u32_id, !load32_store32_eq.
  - intros a Ha. by rewrite !load8_store32_ne by lia.
Qed.

Lemma set_palette_mem {D : Type} `{Ports D} (s : state D) p start end_ :
  v_mem (set_palette s p start end_) = v_mem s ∧ IF (set_palette s p start end_) = true.
Proof. unfold set_palette. by destruct (for_loop _ _ _ _). Qed.

Lemma VramInfo_mem m p a : ¬ (p ≤ a < p + 60) → load8 (VramInfo m p) a = load8 m a.
Proof.
  intros Ha. apply (only_changes_loop (Z.to_nat (nr_color * 3)) 0 _ m p 60); [|done].
  intros j t Hj. apply only_changes_store8. unfold nr_color in Hj. lia.
Qed.

Lemma init_qemuvga0_IF {D : Type} `{Ports D} (s : state D) p x y c flag : IF (init_qemuvga0 s p x y c flag) = IF s.
Proof. reflexivity. Qed.

#[local] Opaque boxfill8 init_qemuvga0 set_palette VramInfo.

Lemma IF_with_mem {D : Type} (s : state D) m : IF (with_mem s m) = IF s.
Proof. done. Qed.

Lemma v_mem_with_mem {D : Type} (s : state D) m : v_mem (with_mem s m) = m.
Proof. done. Qed.

(** The state in front of the two boxes. *)
Definition before_boxes {D : Type} `{Ports D} (s : state D) (p : Z) : state D :=
  init_qemuvga0 (init_palette (with_mem s (VramInfo (v_mem s) p)) p) p 1024 768 8 193.

Lemma init_vga_mem {D : Type} `{Ports D} (s : state D) p :
  v_mem (init_vga s p) = boxfill8 (boxfill8 (v_mem (before_boxes s p)) p 0 0 0 1024 768) p 1 300 200 400 300.
Proof. unfold init_vga. by rewrite !v_mem_with_mem. Qed.

Lemma init_vga_IF {D : Type} `{Ports D} (s : state D) p : IF (init_vga s p) = IF (before_boxes s p).
Proof. unfold init_vga. by rewrite !IF_with_mem. Qed.

Lemma before_boxes_ok {D : Type} `{Ports D} (s : state D) p :
  IF (init_vga s p) = true ∧ screen p 3758096384 1024 (v_mem (before_boxes s p)) ∧
  ∀ a, ¬ (p ≤ a < p + 60) → load8 (v_mem (before_boxes s p)) a = load8 (v_mem s) a.
Proof.
  set (s0 := with_mem s (VramInfo (v_mem s) p)). destruct (set_palette_mem s0 p 0 nr_color) as [Hmem HIF].
  destruct (init_screen (init_palette s0 p) p 1024 768 8 193) as [HS Hr]; [done..|]. split_and!; [|exact HS|].
  { rewrite init_vga_IF. unfold before_boxes. rewrite init_qemuvga0_IF. exact HIF. }
  intros a Ha. unfold before_boxes. fold s0. rewrite Hr by lia. unfold init_palette. rewrite Hmem. by apply VramInfo_mem.
Qed.

(** C37: [init_vga] leaves a screen of 1024 by 768 pixels at 0xe0000000 that is black but for a
    box of colour 1 from (300,200) to (400,300), and enables interrupts. The black box has one row
    more than the screen: the 1025 bytes behind it are cleared as well, and no other byte of
    memory outside of [vram_info] changes. *)
Theorem init_vga_correct {D : Type} `{Ports D} (s : state D) p : 0 ≤ p → p + 60 ≤ 3758096384 →
  let m := v_mem (init_vga s p) in
  (∀ x y, 0 ≤ x < 1024 → 0 ≤ y < 768 →
     load8 m (3758096384 + y * 1024 + x) = if decide (300 ≤ x ≤ 400 ∧ 200 ≤ y ≤ 300) then 1 else 0) ∧
  (∀ x, 0 ≤ x ≤ 1024 → load8 m (3758096384 + 768 * 1024 + x) = 0) ∧
  (∀ a, ¬ (p ≤ a < p + 60) → ¬ (3758096384 ≤ a ≤ 3758096384 + 768 * 1024 + 1024) → load8 m a = load8 (v_mem s) a) ∧
  IF (init_vga s p) = true.
Proof.
  intros Hp Hhi m. unfold m. clear m. rewrite init_vga_mem. destruct (before_boxes_ok s p) as (HIF & HS & Hr).
  generalize dependent (v_mem (before_boxes s p)). intros m1 HS Hr.
  destruct (boxfill8_spec p 3758096384 1024 m1 0 0 0 1024 768 HS) as (HS2 & Hb2 & Hr2); [unfold box_ok, in_box; lia|].
  generalize dependent (boxfill8 m1 p 0 0 0 1024 768). intros m2 HS2 Hb2 Hr2.
  destruct (boxfill8_spec p 3758096384 1024 m2 1 300 200 400 300 HS2) as (_ & Hb3 & Hr3); [unfold box_ok, in_box; lia|].
  generalize dependent (boxfill8 m2 p 1 300 200 400 300). intros m3 Hb3 Hr3. unfold in_box in *. split_and!.
  - intros x y Hx Hy. case_decide as E; [rewrite Hb3 by lia; done|].
    rewrite Hr3; [rewrite Hb2 by lia; done|]. intros x' y' Hin Heq. apply E. assert (y = y') by lia. lia.
  - intros x Hx. rewrite Hr3 by lia. rewrite Hb2 by lia. done.
  - intros a Ha Hv. by rewrite Hr3, Hr2, Hr by lia.
  - exact HIF.
Qed.

(** The example: the object is at 0x1000, in the memory of the kernel. *)
Lemma init_vga_correct_witness : load8 (v_mem (init_vga (mkState [] ∅ false) 4096)) (3758096384 + 250 * 1024 + 350) = 1.
Proof.
  destruct (init_vga_correct (mkState ([] : list Z) ∅ false) 4096) as (H & _).
  - lia.
  - lia.
  - rewrite H by lia. reflexivity.
Defined.

End Vga.
