(* ===== verification/Keyboard.v ===== *)
(** * The keyboard controller ([src/include/os/init_KBC.h])

    The controller takes a byte when bit 1 of its status is clear; the code polls the status
    in front of every byte. [settles] says that the controller gets ready after a bounded
    number of polls. *)

From S2P Require Import Prelude Ports.

Module Keyboard.

(** ** The code *)

Definition PORT_KEYDAT : Z := 96.
Definition PORT_KEYCMD : Z := 100.
Definition PORT_KEYSTA : Z := 100.
Definition KEYSTA_SEND_NOTREADY : Z := 2.
Definition KEYCMD_WRITE_MODE : Z := 96.
Definition KBC_MODE : Z := 71.
Definition KEYCMD_SENDTO_MOUSE : Z := 212.
Definition MOUSECMD_ENABLE : Z := 244.

Section code.
Context {D : Type} `{Ports D}.

(** [static void wait_KBC_sendready(void)]. *)
Fixpoint wait_KBC_sendready (fuel : nat) (d : D) : res D :=
  match fuel with
  | O => NoFuel
  | S fuel' =>
    let '(v, d) := io_in8_asm PORT_KEYSTA d in
    if Z.land v KEYSTA_SEND_NOTREADY =? 0 then Ok d else wait_KBC_sendready fuel' d
  end.

(** [void init_keyboard(void)]. *)
Definition init_keyboard (fuel : nat) (d : D) : res D :=
  d ← wait_KBC_sendready fuel d;
  let d := io_out8_asm PORT_KEYCMD KEYCMD_WRITE_MODE d in
  d ← wait_KBC_sendready fuel d;
  Ok (io_out8_asm PORT_KEYDAT KBC_MODE d).

(** [void init_mouse(void)]. *)
Definition init_mouse (fuel : nat) (d : D) : res D :=
  d ← wait_KBC_sendready fuel d;
  let d := io_out8_asm PORT_KEYCMD KEYCMD_SENDTO_MOUSE d in
  d ← wait_KBC_sendready fuel d;
  Ok (io_out8_asm PORT_KEYDAT MOUSECMD_ENABLE d).

(** [void init_mouse_keyboard(void)]. *)
Definition init_mouse_keyboard (fuel : nat) (d : D) : res D :=
  d ← init_keyboard fuel d;
  init_mouse fuel d.

(** The controller is ready after at most [n] polls. *)
Fixpoint settles (n : nat) (d : D) : Prop :=
  match n with
  | O => False
  | S n' => let '(v, d) := io_in8_asm PORT_KEYSTA d in Z.land v KEYSTA_SEND_NOTREADY = 0 ∨ settles n' d
  end.

End code.

(** ** Every byte is written to a controller that is ready *)

Section proof.
Context {D : Type} `{Ports D}.

(** A status with the bit clear. *)
Definition is_ready (x : access) : Prop := ∃ v, x = In8 PORT_KEYSTA v ∧ Z.land (u8 v) KEYSTA_SEND_NOTREADY = 0.

(** Polls until the controller is ready, the last of which says so. *)
Definition polls (l : list access) : Prop := ∃ l' x, l = l' ++ [x] ∧ is_ready x ∧ writes l = [].

Lemma wait_ok n fuel d l : settles n d → (n ≤ fuel)%nat →
  ∃ d' k, wait_KBC_sendready fuel (mkLogged d l) = Ok (mkLogged d' (l ++ k)) ∧ polls k.
Proof.
  revert fuel d l. induction n as [|n IH]; intros [|fuel] d l; cbn; try done; [lia|].
  unfold io_in8_asm. cbn [in8 Logged_Ports device log]. change (u16 PORT_KEYSTA) with PORT_KEYSTA.
  destruct (in8 PORT_KEYSTA d) as [v d1] eqn:E. intros Hs Hf. destruct (Z.eqb_spec (Z.land (u8 v) KEYSTA_SEND_NOTREADY) 0) as [Hz|Hz].
  - exists d1, [In8 PORT_KEYSTA v]. split; [done|]. exists [], (In8 PORT_KEYSTA v). split_and!; [done|by exists v|done].
  - destruct Hs as [|Hs]; [done|]. destruct (IH fuel d1 (l ++ [In8 PORT_KEYSTA v]) Hs) as (d' & k & -> & l' & x & -> & Hx & Hw); [lia|].
    exists d', (In8 PORT_KEYSTA v :: l' ++ [x]). split; [by rewrite <- app_assoc|]. exists (In8 PORT_KEYSTA v :: l'), x. split_and!; done.
Qed.

(** [init_mouse_keyboard] sends the controller its mode and enables the mouse: for a controller
    that always gets ready within [n] polls it terminates, writes these four bytes in this
    order, and polls the status until it is ready in front of each. *)
Theorem init_mouse_keyboard_correct n fuel d l : (∀ d, settles n d) → (n ≤ fuel)%nat →
  ∃ d' k1 k2 k3 k4, polls k1 ∧ polls k2 ∧ polls k3 ∧ polls k4 ∧
    init_mouse_keyboard fuel (mkLogged d l) = Ok (mkLogged d' (l ++
      k1 ++ [Out8 PORT_KEYCMD KEYCMD_WRITE_MODE] ++ k2 ++ [Out8 PORT_KEYDAT KBC_MODE] ++
      k3 ++ [Out8 PORT_KEYCMD KEYCMD_SENDTO_MOUSE] ++ k4 ++ [Out8 PORT_KEYDAT MOUSECMD_ENABLE])).
Proof.
  intros Hs Hf. unfold init_mouse_keyboard, init_keyboard, init_mouse.
  destruct (wait_ok n fuel d l (Hs d) Hf) as (d1 & k1 & -> & H1). cbn [mbind res_bind].
  unfold io_out8_asm. cbn [out8 Logged_Ports device log]. set (e1 := out8 _ _ d1).
  destruct (wait_ok n fuel e1 ((l ++ k1) ++ [Out8 PORT_KEYCMD KEYCMD_WRITE_MODE]) (Hs _) Hf) as (d2 & k2 & E2 & H2).
  change (u16 PORT_KEYCMD) with PORT_KEYCMD. change (u8 KEYCMD_WRITE_MODE) with KEYCMD_WRITE_MODE. rewrite E2. cbn [mbind res_bind device log].
  set (e2 := out8 _ _ d2). change (u16 PORT_KEYDAT) with PORT_KEYDAT. change (u8 KBC_MODE) with KBC_MODE.
  destruct (wait_ok n fuel e2 ((((l ++ k1) ++ [Out8 PORT_KEYCMD KEYCMD_WRITE_MODE]) ++ k2) ++ [Out8 PORT_KEYDAT KBC_MODE]) (Hs _) Hf)
    as (d3 & k3 & -> & H3). cbn [mbind res_bind device log].
  set (e3 := out8 _ _ d3). change (u8 KEYCMD_SENDTO_MOUSE) with KEYCMD_SENDTO_MOUSE.
  edestruct (wait_ok n fuel e3) as (d4 & k4 & -> & H4); [apply Hs|done|]. cbn [mbind res_bind device log].
  change (u8 MOUSECMD_ENABLE) with MOUSECMD_ENABLE. eexists _, k1, k2, k3, k4. split_and!; try done. by rewrite <- !app_assoc.
Qed.

Lemma wait_ends n fuel (d : D) : settles n d → (n ≤ fuel)%nat → ∃ d', wait_KBC_sendready fuel d = Ok d'.
Proof.
  revert fuel d. induction n as [|n IH]; intros [|fuel] d; cbn; try done; [lia|].
  destruct (io_in8_asm PORT_KEYSTA d) as [v d1]. intros Hs Hf. destruct (Z.eqb_spec (Z.land v KEYSTA_SEND_NOTREADY) 0) as [Hz|Hz]; [by exists d1|].
  destruct Hs as [|Hs]; [done|]. apply IH; [done|lia].
Qed.

Lemma init_mouse_keyboard_ends n fuel (d : D) : (∀ d, settles n d) → (n ≤ fuel)%nat → ∃ d', init_mouse_keyboard fuel d = Ok d'.
Proof.
  intros Hs Hf. unfold init_mouse_keyboard, init_keyboard, init_mouse.
  destruct (wait_ends n fuel d (Hs d) Hf) as (d1 & ->). cbn [mbind res_bind].
  edestruct (wait_ends n fuel) as (d2 & ->); [apply Hs|done|]. cbn [mbind res_bind].
  edestruct (wait_ends n fuel) as (d3 & ->); [apply Hs|done|]. cbn [mbind res_bind].
  edestruct (wait_ends n fuel) as (d4 & ->); [apply Hs|done|]. cbn [mbind res_bind]. by eexists.
Qed.

End proof.

(** A controller that needs two polls: its state counts them. *)
#[local] Instance Kbc_Ports : Ports bool := {
  in8 p busy := (if busy then 2 else 0, negb busy);
  in16 p busy := (0, busy);
  in32 p busy := (0, busy);
  out8 p v busy := true;
  out16 p v busy := busy;
  delay n busy := busy
}.

Lemma init_mouse_keyboard_correct_witness : ∃ d' k1 k2 k3 k4, polls k1 ∧ polls k2 ∧ polls k3 ∧ polls k4 ∧
  init_mouse_keyboard 2 (mkLogged true []) = Ok (mkLogged d' (k1 ++ [Out8 PORT_KEYCMD KEYCMD_WRITE_MODE] ++ k2 ++
    [Out8 PORT_KEYDAT KBC_MODE] ++ k3 ++ [Out8 PORT_KEYCMD KEYCMD_SENDTO_MOUSE] ++ k4 ++ [Out8 PORT_KEYDAT MOUSECMD_ENABLE])).
Proof.
  apply (init_mouse_keyboard_correct 2 2 true []); [|lia].
  intros []; cbn; [right; left|left]; reflexivity.
Defined.

End Keyboard.
