(* ===== verification/IdeHdd.v ===== *)
(** * The PIO disk driver ([src/kernel/ide_hdd.c])

    Every function of the driver, over the bus of [Ports.v]. The static
    [max_logical_sector_num] is an explicit argument and result. [inb]/[outb]/
    [inw]/[outw]/[wait_loop_usec] and the PCI layer come from headers outside the
    tree ([asm/io.h], [mikoOS/pci.h]): they are the bus and the Section variables
    of [pci]. [AtaDisk] states what the driver relies on of a drive: its status
    bits, its task-file registers and the PIO data phases of the ATA command set;
    [disk] is a drive with these laws. *)

From S2P Require Import Prelude Ports.

Module IdeHdd.

Definition DATA_REGISTER : Z := 496.
Definition ERROR_REGISTER : Z := 497.
Definition FEATURES_REGISTER : Z := 497.
Definition SECTOR_COUNT_REGISTER : Z := 498.
Definition SECTOR_NUMBER_REGISTER : Z := 499.
Definition CYLINDER_LOW_REGISTER : Z := 500.
Definition CYLINDER_HIGH_REGISTER : Z := 501.
Definition DEVICE_HEAD_REGISTER : Z := 502.
Definition STATUS_REGISTER : Z := 503.
Definition COMMAND_REGISTER : Z := 503.
Definition ALTERNATE_STATUS_REGISTER : Z := 1014.
Definition DEVICE_CONTROL_REGISTER : Z := 1014.
Definition PIO_SECTOR_WRITE_CMD : Z := 48.
Definition PIO_SECTOR_READ_CMD : Z := 32.

(** ** The driver *)

Section driver.
Context {D : Type} `{Ports D}.

Definition inb (port : Z) (d : D) : Z * D := let '(v, d) := in8 port d in (u8 v, d).
Definition outb (port v : Z) (d : D) : D := out8 port (u8 v) d.
Definition inw (port : Z) (d : D) : Z * D := let '(v, d) := in16 port d in (u16 v, d).
Definition outw (port v : Z) (d : D) : D := out16 port (u16 v) d.
Definition wait_loop_usec (n : Z) (d : D) : D := delay n d.

(** The do-while loop: [n] more reads after the first one. *)
Fixpoint poll_BSY_DRQ (n : nat) (port : Z) (d : D) : bool * D :=
  let '(data, d) := inb port d in
  let bsy := Z.land (Z.shiftr data 7) 1 in
  let drq := Z.land (Z.shiftr data 3) 1 in
  if (bsy =? 0) && (drq =? 0) then (true, d)
  else match n with O => (false, d) | S n' => poll_BSY_DRQ n' port d end.

Definition wait_until_BSY_and_DRQ_are_zero (port : Z) (d : D) : bool * D := poll_BSY_DRQ 999 port d.

Fixpoint poll_BSY (n : nat) (port : Z) (d : D) : bool * D :=
  let '(data, d) := inb port d in
  let bsy := Z.land (Z.shiftr data 7) 1 in
  if bsy =? 0 then (true, d)
  else match n with O => (false, d) | S n' => poll_BSY n' port d end.

Definition wait_until_BSY_is_zero (port : Z) (d : D) : bool * D := poll_BSY 999 port d.

Definition set_device_number (device : Z) (d : D) : D :=
  let '(data, d) := inb DEVICE_HEAD_REGISTER d in
  let data := if device =? 0 then Z.land data 15 else Z.lor data 16 in
  let d := outb DEVICE_HEAD_REGISTER data d in
  wait_loop_usec 5 d.

Definition do_device_selection_protocol (device : Z) (d : D) : bool * D :=
  let '(ret, d) := wait_until_BSY_and_DRQ_are_zero ALTERNATE_STATUS_REGISTER d in
  if ret then
    let d := set_device_number device d in
    let d := wait_loop_usec 2 d in
    wait_until_BSY_and_DRQ_are_zero ALTERNATE_STATUS_REGISTER d
  else (ret, d).

(** Not called by the driver. *)
Definition set_cylinder_register (high low : Z) (d : D) : D :=
  outb CYLINDER_HIGH_REGISTER high (outb CYLINDER_LOW_REGISTER low d).

Definition get_cylinder_regster (port : Z) (d : D) : Z * D := inb port d.

(** Not called by the driver. *)
Definition set_sector_count_register (data : Z) (d : D) : D := outb SECTOR_COUNT_REGISTER data d.

Definition get_DRDY (d : D) : Z * D :=
  let '(data, d) := inb STATUS_REGISTER d in (Z.land (Z.shiftr data 6) 1, d).

Definition write_command (com : Z) (d : D) : D := outb COMMAND_REGISTER com d.

Definition is_error (data : Z) : bool := negb (Z.land data 1 =? 0).

Definition is_drq_active (data : Z) : bool := Z.land (Z.shiftr data 3) 1 =? 1.

(** The value printed is dropped. *)
Definition print_error_register (device : Z) (d : D) : D :=
  let '(b, d) := do_device_selection_protocol device d in
  if b then (inb ERROR_REGISTER d).2 else d.

Definition is_device_fault (d : D) : bool * D :=
  let '(data, d) := inb STATUS_REGISTER d in (Z.land (Z.shiftr data 5) 1 =? 1, d).

(** [for (i = 0; i < 5; i++)]. *)
Fixpoint ready_loop (n : nat) (device : Z) (d : D) : bool * D :=
  match n with
  | O => (false, d)
  | S n' =>
    let '(b, d) := do_device_selection_protocol device d in
    if b then (true, d) else ready_loop n' device (wait_loop_usec 5 d)
  end.

Definition wait_until_device_is_ready (device : Z) (d : D) : bool * D := ready_loop 5 device d.

(** The [read_status_register_again] loop; [n] is [6 - loop], so the read with
    [loop > 5] is the last one. *)
Fixpoint rw_status (n : nat) (device : Z) (d : D) : bool * D :=
  let '(status, d) := inb STATUS_REGISTER d in
  if is_error status then (false, print_error_register device d)
  else if negb (is_drq_active status) then
    match n with O => (false, d) | S n' => rw_status n' device d end
  else (true, d).

Definition sector_rw_common (max_logical_sector_num cmd device sector : Z) (d : D) : bool * D :=
  if max_logical_sector_num <? sector then (false, d) else
  let '(b, d) := wait_until_device_is_ready device d in
  if negb b then (false, d) else
  let d := outb DEVICE_CONTROL_REGISTER 2 d in
  let d := outb FEATURES_REGISTER 0 d in
  let d := outb SECTOR_NUMBER_REGISTER (Z.land sector 255) d in
  let d := outb CYLINDER_LOW_REGISTER (Z.land (Z.shiftr sector 8) 255) d in
  let d := outb CYLINDER_HIGH_REGISTER (Z.land (Z.shiftr sector 16) 255) d in
  let d := outb DEVICE_HEAD_REGISTER (Z.lor (Z.land (Z.shiftr sector 24) 31) 64) d in
  let d := outb SECTOR_COUNT_REGISTER 1 d in
  let d := outb COMMAND_REGISTER cmd d in
  let d := wait_loop_usec 4 d in
  let '(_, d) := inb ALTERNATE_STATUS_REGISTER d in
  rw_status 6 device d.

Definition finish_sector_rw (d : D) : D :=
  (inb STATUS_REGISTER (inb ALTERNATE_STATUS_REGISTER d).2).2.

(** [for (i = 0; i < n; i++) buf[i] = inw(DATA_REGISTER)]. *)
Fixpoint read_words (n : nat) (d : D) : list Z * D :=
  match n with
  | O => ([], d)
  | S n' => let '(w, d) := inw DATA_REGISTER d in
            let '(ws, d) := read_words n' d in (w :: ws, d)
  end.

Fixpoint write_words (ws : list Z) (d : D) : D :=
  match ws with
  | [] => d
  | w :: ws => write_words ws (outw DATA_REGISTER w d)
  end.

(** The result is the return value and, when it is 0, what is in [buf]; a
    [buf_size] other than 256 makes the driver loop for ever ([NoFuel]). *)
Definition read_sector (max_logical_sector_num device sector buf_size : Z) (d : D)
    : res (Z * list Z * D) :=
  if negb (buf_size =? 256) then NoFuel else
  let '(ret, d) := sector_rw_common max_logical_sector_num PIO_SECTOR_READ_CMD device sector d in
  if negb ret then Ok (-1, [], d) else
  let '(buf, d) := read_words (Z.to_nat buf_size) d in
  Ok (0, buf, finish_sector_rw d).

(** [buf] holds the [buf_size] words to write. *)
Definition write_sector (max_logical_sector_num device sector : Z) (buf : list Z) (d : D) : Z * D :=
  let '(ret, d) := sector_rw_common max_logical_sector_num PIO_SECTOR_WRITE_CMD device sector d in
  if negb ret then (-1, d) else
  let d := finish_sector_rw d in
  (0, write_words buf d).

(** The [read_status_register] loop has no bound: [fuel]. *)
Fixpoint identify_status (fuel : nat) (device : Z) (d : D) : res (bool * D) :=
  match fuel with
  | O => NoFuel
  | S fuel' =>
    let '(data, d) := inb STATUS_REGISTER d in
    if is_error data then Ok (false, print_error_register device d)
    else if negb (is_drq_active data) then identify_status fuel' device d
    else Ok (true, d)
  end.

(** [None] is [false]; on [Some] the words stored in [buf], [[]] when the device
    is not ready and [buf] keeps its zeroes. *)
Definition do_identify_device (fuel : nat) (device : Z) (d : D) : res (option (list Z) * D) :=
  let '(_, d) := do_device_selection_protocol device d in
  let '(ret, d) := get_DRDY d in
  if negb (ret =? 0) then
    let d := write_command 236 d in
    let d := wait_loop_usec 5 d in
    let '(b, d) := wait_until_BSY_is_zero STATUS_REGISTER d in
    if negb b then Ok (None, d) else
    let '(_, d) := inb ALTERNATE_STATUS_REGISTER d in
    '(b, d) ← identify_status fuel device d;
    if negb b then Ok (None, d) else
    let '(b, d) := is_device_fault d in
    if b : bool then Ok (None, d) else
    let '(buf, d) := read_words 256 d in
    Ok (Some buf, d)
  else Ok (Some [], d).

Definition do_soft_reset (device : Z) (d : D) : D :=
  let d := set_device_number device d in
  let d := write_command 8 d in
  wait_loop_usec 5 d.

Inductive dev_type := DEV_TYPE_UNKNOWN | DEV_TYPE_ATA | DEV_TYPE_ATAPI.

Definition get_device_type (high low : Z) : dev_type :=
  if (high =? 0) && (low =? 0) then DEV_TYPE_ATA
  else if (high =? 235) && (low =? 20) then DEV_TYPE_ATAPI
  else DEV_TYPE_UNKNOWN.

(** [max] is [max_logical_sector_num] before and after; a word the device did not
    deliver is one of the zeroes [buf] was filled with. *)
Definition initialize_common (fuel : nat) (device : Z) (max : Z) (d : D) : res (bool * Z * D) :=
  let d := do_soft_reset device d in
  let '(low, d) := get_cylinder_regster CYLINDER_LOW_REGISTER d in
  let '(high, d) := get_cylinder_regster CYLINDER_HIGH_REGISTER d in
  match get_device_type high low with
  | DEV_TYPE_ATA =>
    '(buf, d) ← do_identify_device fuel device d;
    match buf with
    | None => Ok (false, max, d)
    | Some buf =>
      Ok (true, Z.lor (u32 (Z.shiftl (default 0 (buf !! 61%nat)) 16)) (default 0 (buf !! 60%nat)), d)
    end
  | _ => Ok (false, max, d)
  end.

Definition initialize_ata (fuel : nat) (max : Z) (d : D) : res (bool * Z * D) :=
  '(ret, max, d) ← initialize_common fuel 0 max d;
  if ret : bool then
    '(_, max, d) ← initialize_common fuel 1 max d;
    Ok (true, max, d)
  else Ok (ret, max, d).

Definition open_ATA_disk (fuel : nat) (max : Z) (d : D) : res (Z * Z * D) :=
  '(ret, max, d) ← initialize_ata fuel max d;
  if negb ret then Ok (-1, max, d) else Ok (0, max, d).

End driver.

(** ** The PCI part *)

Section pci.
Context {P dev : Type}.
Context (get_pci_device : Z → Z → Z → option dev).
Context (pci_data_read : dev → Z → P → Z) (pci_data_write : dev → Z → Z → P → P).
Context (register_blk_driver : P → P).

(** [{ 0x8086, 0x7010, 1 }]. *)
Definition ata_info : list (Z * Z * Z) := [(32902, 28688, 1)].

Fixpoint find_loop (l : list (Z * Z * Z)) : option dev :=
  match l with
  | [] => None
  | (vender, devid, func) :: l =>
    match get_pci_device vender devid func with
    | Some this_device => Some this_device
    | None => find_loop l
    end
  end.

Definition find_ata_device : option dev := find_loop ata_info.

Definition set_bus_master_bit (this_device : dev) (p : P) : P :=
  let data := Z.lor (pci_data_read this_device 4 p) 4 in
  pci_data_write this_device 4 data p.

(** [for (i = 0x10; i <= 0x24; i += 0x04)]: the value left in [base_address]. *)
Fixpoint bar_loop (n : nat) (i : Z) (this_device : dev) (p : P) : Z :=
  let base_address := pci_data_read this_device i p in
  match n with
  | O => base_address
  | S n' => if negb (base_address =? 0) then base_address else bar_loop n' (i + 4) this_device p
  end.

Definition get_base_address (this_device : dev) (p : P) : Z := bar_loop 5 16 this_device p.

(** The result: success, the device and its base address. *)
Definition init_ata_disk_driver (p : P) : bool * option (dev * Z) * P :=
  match find_ata_device with
  | None => (false, None, p)
  | Some this_device =>
    let p := set_bus_master_bit this_device p in
    let base := get_base_address this_device p in
    (true, Some (this_device, base), register_blk_driver p)
  end.

End pci.

(** ** What the driver relies on of a drive *)

(** The data phase of a PIO command. *)
Inductive phase := Idle | Reading (ws : list Z) | Writing (ws : list Z).

(** The task-file registers by port, the sectors by drive and address, and the
    identification of each drive. *)
Record disk := mkDisk {
  ph : phase;
  regs : gmap Z Z;
  media : gmap (Z * Z) (list Z);
  ident : gmap Z (list Z)
}.

Definition with_ph (v : disk) (p : phase) : disk := mkDisk p (regs v) (media v) (ident v).
Definition with_reg (v : disk) (r x : Z) : disk :=
  mkDisk (ph v) (<[r := x]> (regs v)) (media v) (ident v).
Definition reg (v : disk) (r : Z) : Z := default 0 (regs v !! r).

(** The drive and the LBA28 address the registers hold. *)
Definition drive_sel (v : disk) : Z := Z.b2z (Z.testbit (reg v DEVICE_HEAD_REGISTER) 4).
Definition lba_sel (v : disk) : Z :=
  reg v SECTOR_NUMBER_REGISTER + reg v CYLINDER_LOW_REGISTER * 256 +
  reg v CYLINDER_HIGH_REGISTER * 65536 + (reg v DEVICE_HEAD_REGISTER `mod` 16) * 16777216.

Definition data_in (ws : list Z) : phase := match ws with [] => Idle | _ => Reading ws end.

Definition sector_at (v : disk) (drive lba : Z) : list Z := default [] (media v !! (drive, lba)).

(** The data of [n] consecutive sectors. *)
Definition sectors (v : disk) (drive lba : Z) (n : nat) : list Z :=
  concat ((λ i : nat, sector_at v drive (lba + Z.of_nat i)) <$> seq 0 n).

(** READ SECTOR(S), WRITE SECTOR(S) of one sector, IDENTIFY DEVICE and DEVICE RESET. *)
Definition command (v : disk) (c : Z) : disk :=
  if c =? 32 then
    with_ph v (data_in (sectors v (drive_sel v) (lba_sel v) (Z.to_nat (reg v SECTOR_COUNT_REGISTER))))
  else if c =? 48 then with_ph v (Writing [])
  else if c =? 236 then with_ph v (data_in (default [] (ident v !! drive_sel v)))
  else if c =? 8 then with_reg (with_reg v CYLINDER_LOW_REGISTER 0) CYLINDER_HIGH_REGISTER 0
  else v.

(** A word of a write: the 256th ends the phase and the sector is on the medium. *)
Definition data_out (v : disk) (ws : list Z) (w : Z) : disk :=
  if (length (ws ++ [w]) =? 256)%nat
  then mkDisk Idle (regs v) (<[(drive_sel v, lba_sel v) := ws ++ [w]]> (media v)) (ident v)
  else with_ph v (Writing (ws ++ [w])).

(** BSY, DF and ERR clear, DRDY set, DRQ exactly during a data phase. *)
Record status_ok (v : disk) (s : Z) : Prop := {
  st_bsy : Z.testbit s 7 = false;
  st_drdy : Z.testbit s 6 = true;
  st_df : Z.testbit s 5 = false;
  st_drq : Z.testbit s 3 = match ph v with Idle => false | _ => true end;
  st_err : Z.testbit s 0 = false
}.

Definition is_status (p : Z) : Prop := p = STATUS_REGISTER ∨ p = ALTERNATE_STATUS_REGISTER.
Definition is_taskfile (p : Z) : Prop := FEATURES_REGISTER ≤ p ≤ DEVICE_HEAD_REGISTER.

Class AtaDisk (D : Type) `{Ports D} := {
  view : D → disk;
  ata_status : ∀ d p, is_status p → view (in8 p d).2 = view d ∧ status_ok (view d) (in8 p d).1;
  ata_reg_in : ∀ d p, is_taskfile p → p ≠ ERROR_REGISTER →
    view (in8 p d).2 = view d ∧ (in8 p d).1 = reg (view d) p;
  ata_reg_out : ∀ d p x, ph (view d) = Idle → is_taskfile p → view (out8 p x d) = with_reg (view d) p x;
  ata_control : ∀ d x, view (out8 DEVICE_CONTROL_REGISTER x d) = view d;
  ata_command : ∀ d c, ph (view d) = Idle →
    c = 8 ∨ c = 236 ∨
    1 ≤ reg (view d) SECTOR_COUNT_REGISTER ∧ (c = 48 → reg (view d) SECTOR_COUNT_REGISTER = 1) ∧
    Z.testbit (reg (view d) DEVICE_HEAD_REGISTER) 6 = true →
    view (out8 COMMAND_REGISTER c d) = command (view d) c;
  ata_data_in : ∀ d w ws, ph (view d) = Reading (w :: ws) →
    (in16 DATA_REGISTER d).1 = w ∧ view (in16 DATA_REGISTER d).2 = with_ph (view d) (data_in ws);
  ata_data_out : ∀ d ws w, ph (view d) = Writing ws →
    view (out16 DATA_REGISTER w d) = data_out (view d) ws w;
  ata_delay : ∀ d n, view (delay n d) = view d
}.

(** A drive that behaves like this. *)
#[global] Instance disk_Ports : Ports disk := {
  in8 p v :=
    if (p =? STATUS_REGISTER) || (p =? ALTERNATE_STATUS_REGISTER)
    then (match ph v with Idle => 64 | _ => 72 end, v)
    else (reg v p, v);
  in16 p v :=
    match ph v with
    | Reading (w :: ws) => (w, with_ph v (data_in ws))
    | _ => (0, v)
    end;
  in32 p v := (0, v);
  out8 p x v :=
    if p =? COMMAND_REGISTER then command v x
    else if p =? DEVICE_CONTROL_REGISTER then v
    else with_reg v p x;
  out16 p w v := match ph v with Writing ws => data_out v ws w | _ => v end;
  delay n v := v
}.

#[global] Instance disk_AtaDisk : AtaDisk disk.
Proof.
  refine {| view := λ v : disk, v |}.
  - intros d p [-> | ->]; cbn; (split; [done|]); destruct (ph d) eqn:E; split; rewrite ?E; done.
  - intros d p Hp Hne. unfold is_taskfile, FEATURES_REGISTER, DEVICE_HEAD_REGISTER in Hp. cbn.
    unfold STATUS_REGISTER, ALTERNATE_STATUS_REGISTER.
    by rewrite (proj2 (Z.eqb_neq p 503)), (proj2 (Z.eqb_neq p 1014)) by lia.
  - intros d p x Hi Hp. unfold is_taskfile, FEATURES_REGISTER, DEVICE_HEAD_REGISTER in Hp. cbn.
    unfold COMMAND_REGISTER, DEVICE_CONTROL_REGISTER.
    by rewrite (proj2 (Z.eqb_neq p 503)), (proj2 (Z.eqb_neq p 1014)) by lia.
  - done.
  - done.
  - intros d w ws E. cbn. by rewrite E.
  - intros d ws w E. cbn. by rewrite E.
  - done.
Defined.

(** ** Bit fields *)

Lemma bit_field x n : 0 ≤ n → Z.land (Z.shiftr x n) 1 = Z.b2z (Z.testbit x n).
Proof.
  intros Hn. change 1 with (Z.ones 1). rewrite Z.land_ones by lia.
  rewrite <- Z.bit0_mod. by rewrite Z.shiftr_spec, Z.add_0_l by lia.
Qed.

Lemma u8_testbit x n : 0 ≤ n < 8 → Z.testbit (u8 x) n = Z.testbit x n.
Proof. intros Hn. unfold u8. change 256 with (2 ^ 8). by rewrite Z.mod_pow2_bits_low by lia. Qed.

Lemma status_fields v s : status_ok v s →
  Z.land (Z.shiftr (u8 s) 7) 1 = 0 ∧ Z.land (Z.shiftr (u8 s) 6) 1 = 1 ∧
  Z.land (Z.shiftr (u8 s) 5) 1 = 0 ∧
  Z.land (Z.shiftr (u8 s) 3) 1 = match ph v with Idle => 0 | _ => 1 end ∧ is_error (u8 s) = false.
Proof.
  intros [H7 H6 H5 H3 H0]. rewrite !bit_field, !u8_testbit, H7, H6, H5, H3 by lia.
  repeat split; [by destruct (ph v)|]. unfold is_error.
  change (Z.land (u8 s) 1) with (Z.land (Z.shiftr (u8 s) 0) 1).
  by rewrite bit_field, u8_testbit, H0 by lia.
Qed.

Lemma sectors_one v drive lba : sectors v drive lba (Z.to_nat 1) = sector_at v drive lba.
Proof.
  change (Z.to_nat 1) with 1%nat. unfold sectors. cbn. by rewrite Z.add_0_r, app_nil_r.
Qed.

(** ** The driver against such a drive *)

Section disk.
Context {D : Type} `{AtaDisk D}.
Implicit Types d : D.

(** Reading a status register. *)
Lemma inb_status d p : is_status p →
  ∃ s d', inb p d = (s, d') ∧ view d' = view d ∧ Z.land (Z.shiftr s 7) 1 = 0 ∧
    Z.land (Z.shiftr s 6) 1 = 1 ∧ Z.land (Z.shiftr s 5) 1 = 0 ∧
    Z.land (Z.shiftr s 3) 1 = match ph (view d) with Idle => 0 | _ => 1 end ∧ is_error s = false.
Proof.
  intros Hp. destruct (ata_status d p Hp) as [Hv Hs]. apply status_fields in Hs.
  unfold inb. destruct (in8 p d) as [s d'] eqn:E. exists (u8 s), d'. cbn in *. naive_solver.
Qed.

Lemma wait_idle d p : is_status p → ph (view d) = Idle →
  ∃ d', wait_until_BSY_and_DRQ_are_zero p d = (true, d') ∧ view d' = view d.
Proof.
  intros Hp Hi. destruct (inb_status d p Hp) as (s & d' & E & Hv & H7 & _ & _ & H3 & _).
  exists d'. split; [|done]. unfold wait_until_BSY_and_DRQ_are_zero. cbn [poll_BSY_DRQ].
  by rewrite E, H7, H3, Hi.
Qed.

Lemma wait_not_busy d p : is_status p →
  ∃ d', wait_until_BSY_is_zero p d = (true, d') ∧ view d' = view d.
Proof.
  intros Hp. destruct (inb_status d p Hp) as (s & d' & E & Hv & H7 & _).
  exists d'. split; [|done]. unfold wait_until_BSY_is_zero. cbn [poll_BSY]. by rewrite E, H7.
Qed.

(** What [set_device_number] leaves in the Device/Head register. *)
Definition head_for (device old : Z) : Z :=
  u8 (if device =? 0 then Z.land (u8 old) 15 else Z.lor (u8 old) 16).

Lemma set_device_number_view device d : ph (view d) = Idle →
  view (set_device_number device d) =
  with_reg (view d) DEVICE_HEAD_REGISTER (head_for device (reg (view d) DEVICE_HEAD_REGISTER)).
Proof.
  intros Hi. unfold set_device_number, inb, wait_loop_usec, outb.
  destruct (ata_reg_in d DEVICE_HEAD_REGISTER) as [Hv Hr]; [done..|].
  destruct (in8 DEVICE_HEAD_REGISTER d) as [v d'] eqn:E. cbn in Hv, Hr. subst v.
  rewrite ata_delay, ata_reg_out; [by rewrite Hv|by rewrite Hv|done].
Qed.

Lemma select_view device d : ph (view d) = Idle →
  ∃ d', do_device_selection_protocol device d = (true, d') ∧
    view d' = with_reg (view d) DEVICE_HEAD_REGISTER
                (head_for device (reg (view d) DEVICE_HEAD_REGISTER)).
Proof.
  intros Hi. unfold do_device_selection_protocol.
  destruct (wait_idle d ALTERNATE_STATUS_REGISTER) as (d1 & -> & H1); [by right|done|].
  assert (Hi1 : ph (view d1) = Idle) by (by rewrite H1).
  destruct (wait_idle (wait_loop_usec 2 (set_device_number device d1)) ALTERNATE_STATUS_REGISTER)
    as (d2 & -> & H2); [by right| |].
  { unfold wait_loop_usec. rewrite ata_delay, set_device_number_view by done. done. }
  exists d2. split; [done|]. unfold wait_loop_usec in H2.
  rewrite H2, ata_delay, set_device_number_view by done. by rewrite H1.
Qed.

Lemma ready_view device d : ph (view d) = Idle →
  ∃ d', wait_until_device_is_ready device d = (true, d') ∧
    view d' = with_reg (view d) DEVICE_HEAD_REGISTER
                (head_for device (reg (view d) DEVICE_HEAD_REGISTER)).
Proof.
  intros Hi. destruct (select_view device d Hi) as (d' & E & Hv).
  exists d'. split; [|done]. unfold wait_until_device_is_ready. cbn [ready_loop]. by rewrite E.
Qed.

(** The registers as [sector_rw_common] programs them select the sector, and the
    drive that bit 28 of the sector number says. *)
Definition programmed (v : disk) (sector : Z) : disk :=
  with_reg (with_reg (with_reg (with_reg (with_reg (with_reg v
    FEATURES_REGISTER 0)
    SECTOR_NUMBER_REGISTER (u8 (Z.land sector 255)))
    CYLINDER_LOW_REGISTER (u8 (Z.land (Z.shiftr sector 8) 255)))
    CYLINDER_HIGH_REGISTER (u8 (Z.land (Z.shiftr sector 16) 255)))
    DEVICE_HEAD_REGISTER (u8 (Z.lor (Z.land (Z.shiftr sector 24) 31) 64)))
    SECTOR_COUNT_REGISTER 1.

Lemma head_value x : u8 (Z.lor (Z.land x 31) 64) = x `mod` 32 + 64.
Proof.
  change 31 with (Z.ones 5). rewrite Z.land_ones by lia. change (2 ^ 5) with 32.
  pose proof (Z.mod_pos_bound x 32). assert (Hd : Z.land (x `mod` 32) 64 = 0).
  { apply Z.bits_inj'. intros n Hn. rewrite Z.land_spec, Z.bits_0.
    change 64 with (2 ^ 6). rewrite Z.pow2_bits_eqb by lia.
    destruct (Z.eqb_spec 6 n) as [<-|]; [|apply andb_false_r].
    change 32 with (2 ^ 5). by rewrite Z.mod_pow2_bits_high by lia. }
  rewrite <- Z.lxor_lor, <- Z.add_nocarry_lxor by done. apply u8_id. unfold is_u8. lia.
Qed.

Lemma byte_value x n : 0 ≤ n → u8 (Z.land (Z.shiftr x n) 255) = (x / 2 ^ n) `mod` 256.
Proof.
  intros Hn. change 255 with (Z.ones 8). rewrite Z.land_ones, Z.shiftr_div_pow2 by lia.
  change (2 ^ 8) with 256. apply u8_id. apply (u8_range (x / 2 ^ n)).
Qed.

Lemma reg_with v r x r' : reg (with_reg v r x) r' = if decide (r' = r) then x else reg v r'.
Proof.
  unfold reg, with_reg. cbn [regs]. rewrite lookup_insert.
  by repeat case_decide; subst.
Qed.

Lemma programmed_selects v sector : 0 ≤ sector →
  drive_sel (programmed v sector) = Z.b2z (Z.testbit sector 28) ∧
  lba_sel (programmed v sector) = sector `mod` 268435456 ∧
  Z.testbit (reg (programmed v sector) DEVICE_HEAD_REGISTER) 6 = true.
Proof.
  intros Hs. unfold drive_sel, lba_sel, programmed. rewrite !reg_with.
  repeat first [rewrite decide_True by done | rewrite decide_False by done].
  rewrite head_value, !byte_value by lia.
  replace (u8 (Z.land sector 255)) with (u8 (Z.land (Z.shiftr sector 0) 255)) by done.
  rewrite byte_value, Z.shiftr_div_pow2 by lia.
  rewrite Z.div_1_r. change (2 ^ 8) with 256. change (2 ^ 16) with 65536.
  change (2 ^ 24) with 16777216. split; [|split].
  - f_equal. change 64 with (2 * 2 ^ 5). change 32 with (2 ^ 5).
    rewrite Z.testbit_eqb, (Z.testbit_eqb sector) by lia.
    change (2 ^ 4) with 16; change (2 ^ 5) with 32; change (2 ^ 28) with 268435456.
    f_equal. Z.div_mod_to_equations. lia.
  - Z.div_mod_to_equations. lia.
  - rewrite Z.testbit_eqb by lia. change (2 ^ 6) with 64.
    apply Z.eqb_eq. Z.div_mod_to_equations. lia.
Qed.

Lemma rw_status_ready device d n : ph (view d) ≠ Idle →
  ∃ d', rw_status n device d = (true, d') ∧ view d' = view d.
Proof.
  intros Hp. destruct (inb_status d STATUS_REGISTER) as (s & d' & E & Hv & _ & _ & _ & H3 & He);
    [by left|].
  exists d'. split; [|done]. destruct n; cbn [rw_status]; rewrite E, He; unfold is_drq_active;
    rewrite H3; by destruct (ph (view d)).
Qed.

(** The command is issued for the programmed registers; it is accepted when it
    starts a data phase. *)
Lemma sector_rw_common_view max cmd device sector d :
  ph (view d) = Idle → 0 ≤ sector ≤ max → is_u8 cmd →
  let v := programmed (with_reg (view d) DEVICE_HEAD_REGISTER
             (head_for device (reg (view d) DEVICE_HEAD_REGISTER))) sector in
  ph (command v cmd) ≠ Idle →
  ∃ d', sector_rw_common max cmd device sector d = (true, d') ∧ view d' = command v cmd.
Proof.
  intros Hi Hs Hc v Hp. unfold sector_rw_common.
  rewrite (proj2 (Z.ltb_ge max sector)) by lia.
  destruct (ready_view device d Hi) as (d1 & -> & H1). cbn [negb].
  unfold outb, wait_loop_usec.
  match goal with |- context [inb ALTERNATE_STATUS_REGISTER (delay 4 (out8 _ (u8 cmd) ?x))] =>
    set (d2 := x) end.
  assert (H2 : view d2 = v).
  { subst d2 v. unfold programmed. change (u8 0) with 0. change (u8 1) with 1.
    repeat (rewrite ata_reg_out; [| |done]); rewrite ?ata_control, ?H1; done. }
  clearbody d2. rewrite (u8_id cmd Hc).
  assert (H3 : view (delay 4 (out8 COMMAND_REGISTER cmd d2)) = command v cmd).
  { rewrite ata_delay, ata_command, H2; [done| |].
    - rewrite H2. subst v. by cbn.
    - right; right. rewrite H2. subst v. unfold programmed at 1 2. rewrite reg_with, decide_True by done.
      split_and!; [lia|done|apply programmed_selects; lia]. }
  destruct (inb_status (delay 4 (out8 COMMAND_REGISTER cmd d2)) ALTERNATE_STATUS_REGISTER)
    as (s & d3 & -> & Hv3 & _); [by right|].
  destruct (rw_status_ready device d3 6) as (d4 & -> & Hv4); [by rewrite Hv3, H3|].
  exists d4. split; [done|]. by rewrite Hv4, Hv3, H3.
Qed.

Lemma finish_view d : view (finish_sector_rw d) = view d.
Proof.
  unfold finish_sector_rw.
  destruct (inb_status d ALTERNATE_STATUS_REGISTER) as (s & d1 & -> & H1 & _); [by right|]. cbn.
  destruct (inb_status d1 STATUS_REGISTER) as (s2 & d2 & -> & H2 & _); [by left|]. cbn.
  by rewrite H2, H1.
Qed.

(** A data phase delivers its words in order and ends. *)
Lemma read_words_view ws d : Forall is_u16 ws → ph (view d) = data_in ws →
  ∃ d', read_words (length ws) d = (ws, d') ∧ view d' = with_ph (view d) Idle.
Proof.
  revert d. induction ws as [|w ws IH]; intros d Hw Hp.
  - exists d. split; [done|]. by destruct (view d); cbn in *; subst.
  - apply Forall_cons in Hw as [Hw Hws]. destruct (ata_data_in d w ws Hp) as [E1 E2].
    cbn [length read_words]. unfold inw. destruct (in16 DATA_REGISTER d) as [x d1] eqn:E.
    cbn in E1, E2. subst x. destruct (IH d1 Hws) as (d2 & -> & H2); [by rewrite E2|].
    exists d2. rewrite u16_id by done. split; [done|]. by rewrite H2, E2.
Qed.

Lemma write_words_view ws ws0 d : Forall is_u16 ws → ph (view d) = Writing ws0 →
  ws ≠ [] → length (ws0 ++ ws) = 256%nat →
  view (write_words ws d) =
  mkDisk Idle (regs (view d)) (<[(drive_sel (view d), lba_sel (view d)) := ws0 ++ ws]> (media (view d)))
    (ident (view d)).
Proof.
  revert ws0 d. induction ws as [|w ws IH]; intros ws0 d Hw Hp Hne Hlen; [done|].
  apply Forall_cons in Hw as [Hw Hws]. cbn [write_words]. unfold outw. rewrite u16_id by done.
  pose proof (ata_data_out d ws0 w Hp) as E. unfold data_out in E.
  rewrite length_app in Hlen; cbn in Hlen. rewrite length_app in E; cbn [length] in E.
  destruct ws as [|w' ws].
  - cbn [length] in Hlen. rewrite (proj2 (Nat.eqb_eq _ _)) in E by lia. cbn [write_words]. by rewrite E.
  - rewrite (proj2 (Nat.eqb_neq _ _)) in E by (cbn [length] in Hlen; lia).
    rewrite (IH (ws0 ++ [w])); rewrite ?E; cbn [ph regs media ident with_ph]; try done.
    + by rewrite <- app_assoc.
    + rewrite !length_app. cbn [length] in *. lia.
Qed.

(** ** Reading and writing sectors *)

(** A sector of 256 16-bit words is on the medium. *)
Definition holds (v : disk) (drive lba : Z) (ws : list Z) : Prop :=
  media v !! (drive, lba) = Some ws ∧ length ws = 256%nat ∧ Forall is_u16 ws.

Lemma data_in_not_idle ws : length ws = 256%nat → data_in ws ≠ Idle.
Proof. by destruct ws. Qed.

Lemma low_sector sector : 0 ≤ sector < 268435456 →
  Z.b2z (Z.testbit sector 28) = 0 ∧ sector `mod` 268435456 = sector.
Proof.
  intros Hs. rewrite Z.testbit_eqb by lia. change (2 ^ 28) with 268435456.
  by rewrite Z.div_small, (Z.mod_small sector) by lia.
Qed.

Lemma read_sector_view max device sector ws d :
  ph (view d) = Idle → 0 ≤ sector ≤ max →
  holds (view d) (Z.b2z (Z.testbit sector 28)) (sector `mod` 268435456) ws →
  ∃ d', read_sector max device sector 256 d = Ok (0, ws, d') ∧ ph (view d') = Idle ∧
    media (view d') = media (view d) ∧ ident (view d') = ident (view d).
Proof.
  intros Hi Hs (Hm & Hl & Hu). unfold read_sector. cbn [negb Z.eqb Pos.eqb].
  pose proof (sector_rw_common_view max PIO_SECTOR_READ_CMD device sector d Hi Hs) as Hc.
  cbv zeta in Hc. set (v := programmed _ sector) in Hc.
  assert (Ev : command v PIO_SECTOR_READ_CMD = with_ph v (data_in ws)).
  { change (command v PIO_SECTOR_READ_CMD)
      with (with_ph v (data_in (sectors v (drive_sel v) (lba_sel v) (Z.to_nat (reg v SECTOR_COUNT_REGISTER))))).
    replace (reg v SECTOR_COUNT_REGISTER) with 1
      by (unfold v, programmed; by rewrite reg_with, decide_True).
    destruct (programmed_selects (with_reg (view d) DEVICE_HEAD_REGISTER
      (head_for device (reg (view d) DEVICE_HEAD_REGISTER))) sector) as (E1 & E2 & _); [lia|].
    fold v in E1, E2. rewrite sectors_one, E1, E2. unfold sector_at.
    change (media v) with (media (view d)). by rewrite Hm. }
  destruct Hc as (d1 & -> & H1); [done|rewrite Ev; by apply data_in_not_idle|]. cbn [negb].
  change (Z.to_nat 256) with 256%nat. rewrite <- Hl.
  destruct (read_words_view ws d1 Hu) as (d2 & -> & H2); [by rewrite H1, Ev|].
  exists (finish_sector_rw d2). rewrite finish_view, H2, H1, Ev. done.
Qed.

(** [read_sector] on drive 0 returns 0 and fills [buf] with exactly the 256
    words of the requested sector, for every sector number below 2^28 that is within
    the capacity check; the medium is unchanged and the drive is idle again. *)
Theorem read_sector_correct max sector ws d :
  ph (view d) = Idle → 0 ≤ sector ≤ max → sector < 268435456 → holds (view d) 0 sector ws →
  ∃ d', read_sector max 0 sector 256 d = Ok (0, ws, d') ∧ ph (view d') = Idle ∧
    media (view d') = media (view d).
Proof.
  intros Hi Hs Hlt Hh. destruct (read_sector_view max 0 sector ws d) as (d' & E & H1 & H2 & _); try done.
  - by destruct (low_sector sector) as [-> ->]; [lia|].
  - by exists d'.
Qed.

(** [read_sector] on drive 1 returns the sector of drive 0: the write of
    the top address bits to the Device/Head register clears the drive bit that the
    device selection has just set. *)
Theorem read_sector_ignores_device max sector ws d :
  ph (view d) = Idle → 0 ≤ sector ≤ max → sector < 268435456 → holds (view d) 0 sector ws →
  ∃ d', read_sector max 1 sector 256 d = Ok (0, ws, d').
Proof.
  intros Hi Hs Hlt Hh. destruct (read_sector_view max 1 sector ws d) as (d' & E & _); try done.
  - by destruct (low_sector sector) as [-> ->]; [lia|].
  - by exists d'.
Qed.

Lemma write_sector_view max device sector ws d :
  ph (view d) = Idle → 0 ≤ sector ≤ max → length ws = 256%nat → Forall is_u16 ws →
  ∃ d', write_sector max device sector ws d = (0, d') ∧ ph (view d') = Idle ∧
    media (view d') =
    <[(Z.b2z (Z.testbit sector 28), sector `mod` 268435456) := ws]> (media (view d)).
Proof.
  intros Hi Hs Hl Hu. unfold write_sector.
  pose proof (sector_rw_common_view max PIO_SECTOR_WRITE_CMD device sector d Hi Hs) as Hc.
  cbv zeta in Hc. set (v := programmed _ sector) in Hc.
  change (command v PIO_SECTOR_WRITE_CMD) with (with_ph v (Writing [])) in Hc.
  destruct Hc as (d1 & -> & H1); [done..|]. cbn [negb].
  eexists. split; [done|].
  rewrite (write_words_view ws []); rewrite ?finish_view, ?H1; try done; [|by intros ->].
  cbn [ph media]. destruct (programmed_selects (with_reg (view d) DEVICE_HEAD_REGISTER
      (head_for device (reg (view d) DEVICE_HEAD_REGISTER))) sector) as (E1 & E2 & _); [lia|].
  fold v in E1, E2. change (drive_sel (with_ph v (Writing []))) with (drive_sel v).
  change (lba_sel (with_ph v (Writing []))) with (lba_sel v). by rewrite E1, E2.
Qed.


(** ** Initialisation *)

Lemma head_for_drive device old : (device = 0 ∨ device = 1) →
  Z.b2z (Z.testbit (head_for device old) 4) = device.
Proof.
  intros Hd. unfold head_for. rewrite u8_testbit by lia. destruct Hd as [-> | ->]; cbn [Z.eqb].
  - rewrite Z.land_spec. change (Z.testbit 15 4) with false. by rewrite andb_false_r.
  - rewrite Z.lor_spec. change (Z.testbit 16 4) with true. by rewrite orb_true_r.
Qed.

Lemma reset_view device d : ph (view d) = Idle →
  view (do_soft_reset device d) =
  with_reg (with_reg (with_reg (view d) DEVICE_HEAD_REGISTER
    (head_for device (reg (view d) DEVICE_HEAD_REGISTER))) CYLINDER_LOW_REGISTER 0)
    CYLINDER_HIGH_REGISTER 0.
Proof.
  intros Hi. unfold do_soft_reset, wait_loop_usec, write_command, outb.
  rewrite ata_delay, ata_command; [..|by left]; by rewrite set_device_number_view.
Qed.

Lemma inb_reg d p : is_taskfile p → p ≠ ERROR_REGISTER →
  ∃ d', inb p d = (u8 (reg (view d) p), d') ∧ view d' = view d.
Proof.
  intros Hp He. destruct (ata_reg_in d p Hp He) as [Hv Hr]. unfold inb.
  destruct (in8 p d) as [x d'] eqn:E. cbn in Hv, Hr. subst x. by exists d'.
Qed.

(** The identification words of a drive. *)
Definition identifies (v : disk) (drive : Z) (ws : list Z) : Prop :=
  ident v !! drive = Some ws ∧ length ws = 256%nat ∧ Forall is_u16 ws.

Lemma identify_view fuel device ws d : (0 < fuel)%nat → (device = 0 ∨ device = 1) →
  ph (view d) = Idle → identifies (view d) device ws →
  ∃ d', do_identify_device fuel device d = Ok (Some ws, d') ∧ ph (view d') = Idle ∧
    media (view d') = media (view d) ∧ ident (view d') = ident (view d).
Proof.
  intros Hf Hd Hi (Hw & Hl & Hu). unfold do_identify_device.
  destruct (select_view device d Hi) as (d1 & -> & H1).
  unfold get_DRDY. destruct (inb_status d1 STATUS_REGISTER) as (s1 & d2 & -> & H2 & _ & H6 & _);
    [by left|]. rewrite H6. cbn [negb Z.eqb Pos.eqb]. unfold write_command, wait_loop_usec, outb.
  set (v := with_reg (view d) DEVICE_HEAD_REGISTER
             (head_for device (reg (view d) DEVICE_HEAD_REGISTER))) in *.
  assert (Hds : drive_sel v = device).
  { unfold drive_sel, v. rewrite reg_with, decide_True by done. by apply head_for_drive. }
  set (d3 := delay 5 _).
  assert (H3 : view d3 = with_ph v (data_in ws)).
  { unfold d3. rewrite ata_delay, ata_command, H2, H1; [| |right; by left].
    - change (command v (u8 236)) with (with_ph v (data_in (default [] (ident v !! drive_sel v)))).
      rewrite Hds. change (ident v) with (ident (view d)). by rewrite Hw.
    - rewrite H2, H1. done. }
  clearbody d3.
  destruct (wait_not_busy d3 STATUS_REGISTER) as (d4 & -> & H4); [by left|]. cbn [negb].
  destruct (inb_status d4 ALTERNATE_STATUS_REGISTER) as (s5 & d5 & -> & H5 & _); [by right|].
  destruct fuel as [|fuel]; [lia|]. cbn [identify_status].
  destruct (inb_status d5 STATUS_REGISTER) as (s7 & d6 & -> & H6' & _ & _ & _ & E3 & Ee); [by left|].
  assert (Hv5 : view d5 = with_ph v (data_in ws)) by (by rewrite H5, H4, H3).
  rewrite Ee. unfold is_drq_active. rewrite E3, Hv5. cbn [ph with_ph].
  replace (match data_in ws with Idle => 0 | _ => 1 end) with 1
    by (destruct ws; [done|reflexivity]).
  cbn [negb Z.eqb Pos.eqb mbind res_bind]. unfold is_device_fault.
  destruct (inb_status d6 STATUS_REGISTER) as (s8 & d7 & -> & H7 & _ & _ & E5 & _); [by left|].
  rewrite E5. cbn [Z.eqb]. rewrite <- Hl.
  destruct (read_words_view ws d7 Hu) as (d8 & -> & H8); [by rewrite H7, H6', Hv5|].
  exists d8. rewrite H8, H7, H6', Hv5. done.
Qed.

(** The capacity in words 60 and 61. *)
Definition capacity (ws : list Z) : Z := default 0 (ws !! 61%nat) * 65536 + default 0 (ws !! 60%nat).

Lemma capacity_spec ws : Forall is_u16 ws →
  Z.lor (u32 (Z.shiftl (default 0 (ws !! 61%nat)) 16)) (default 0 (ws !! 60%nat)) = capacity ws.
Proof.
  intros Hu. assert (Hx : ∀ i : nat, is_u16 (default 0 (ws !! i))).
  { intros i. destruct (ws !! i) eqn:E; cbn; [|unfold is_u16; lia].
    rewrite Forall_lookup in Hu. by eapply Hu. }
  unfold capacity. pose proof (Hx 61%nat) as Ha. pose proof (Hx 60%nat) as Hb.
  set (a := default 0 (ws !! 61%nat)) in *. set (b := default 0 (ws !! 60%nat)) in *.
  clearbody a b. unfold is_u16 in *.
  assert (Hd : Z.land (Z.shiftl a 16) b = 0).
  { apply Z.bits_inj'. intros n Hn. rewrite Z.land_spec, Z.bits_0.
    destruct (Z.lt_ge_cases n 16).
    - by rewrite Z.shiftl_spec_low by lia.
    - rewrite (Z.bits_above_log2 b n); [apply andb_false_r|lia|].
      destruct (Z.eq_dec b 0) as [->|]; [cbn; lia|]. apply Z.log2_lt_pow2; [lia|].
      apply Z.lt_le_trans with (2 ^ 16); [lia|]. apply Z.pow_le_mono_r; lia. }
  rewrite u32_id by (rewrite Z.shiftl_mul_pow2 by lia; unfold is_u32; lia).
  rewrite <- Z.lxor_lor, <- Z.add_nocarry_lxor by done. by rewrite Z.shiftl_mul_pow2 by lia.
Qed.

Lemma initialize_common_view fuel device max ws d : (0 < fuel)%nat → (device = 0 ∨ device = 1) →
  ph (view d) = Idle → identifies (view d) device ws →
  ∃ d', initialize_common fuel device max d = Ok (true, capacity ws, d') ∧ ph (view d') = Idle ∧
    ident (view d') = ident (view d).
Proof.
  intros Hf Hd Hi Hw. unfold initialize_common, get_cylinder_regster.
  pose proof (reset_view device d Hi) as Hr. set (d1 := do_soft_reset device d) in *. clearbody d1.
  destruct (inb_reg d1 CYLINDER_LOW_REGISTER) as (d2 & -> & H2); [done..|].
  destruct (inb_reg d2 CYLINDER_HIGH_REGISTER) as (d3 & -> & H3); [done..|].
  rewrite H2, Hr, !reg_with. rewrite !decide_True, decide_False by done. cbn [get_device_type].
  change (get_device_type (u8 0) (u8 0)) with DEV_TYPE_ATA. cbv match.
  destruct (identify_view fuel device ws d3) as (d4 & -> & H4 & _ & H5); [done..| | |].
  - by rewrite H3, H2, Hr.
  - by rewrite H3, H2, Hr.
  - cbn [mbind res_bind]. destruct Hw as (_ & _ & Hu). exists d4.
    rewrite capacity_spec by done. rewrite H5, H3, H2, Hr. done.
Qed.

(** With two ATA drives present [initialize_ata] succeeds and leaves
    the capacity of the SECOND drive in the one [max_logical_sector_num] that
    bounds the accesses to both drives. *)
Theorem initialize_ata_keeps_slave_capacity fuel max ws0 ws1 d :
  (0 < fuel)%nat → ph (view d) = Idle → identifies (view d) 0 ws0 → identifies (view d) 1 ws1 →
  ∃ d', initialize_ata fuel max d = Ok (true, capacity ws1, d').
Proof.
  intros Hf Hi Hw0 Hw1. unfold initialize_ata.
  destruct (initialize_common_view fuel 0 max ws0 d Hf (or_introl eq_refl) Hi Hw0)
    as (d1 & -> & Hi1 & He1).
  cbn [mbind res_bind].
  destruct (initialize_common_view fuel 1 (capacity ws0) ws1 d1 Hf (or_intror eq_refl) Hi1)
    as (d2 & -> & _ & _); [unfold identifies; by rewrite He1|]. by exists d2.
Qed.

End disk.

(** ** Concrete drives *)

Definition ex_disk : disk :=
  mkDisk Idle ∅ {[ (0, 5) := replicate 256 7; (1, 5) := replicate 256 9 ]}
    {[ 0 := replicate 256 3; 1 := replicate 256 1 ]}.

Lemma replicate_u16 n x : is_u16 x → Forall is_u16 (replicate n x).
Proof. intros. by apply Forall_replicate. Qed.

Lemma read_sector_correct_witness :
  ∃ d', read_sector 10 0 5 256 ex_disk = Ok (0, replicate 256 7, d') ∧ ph (view d') = Idle ∧
    media (view d') = media (view ex_disk).
Proof.
  apply read_sector_correct; [reflexivity|lia|lia|].
  split; [reflexivity|]. split; [reflexivity|]. apply replicate_u16. unfold is_u16. lia.
Defined.

Lemma read_sector_ignores_device_witness :
  ∃ d', read_sector 10 1 5 256 ex_disk = Ok (0, replicate 256 7, d').
Proof.
  apply read_sector_ignores_device; [reflexivity|lia|lia|].
  split; [reflexivity|]. split; [reflexivity|]. apply replicate_u16. unfold is_u16. lia.
Defined.


Lemma initialize_ata_keeps_slave_capacity_witness :
  ∃ d', initialize_ata 1 0 ex_disk = Ok (true, capacity (replicate 256 1), d').
Proof.
  apply (initialize_ata_keeps_slave_capacity 1 0 (replicate 256 3)); [lia|reflexivity| |];
    (split; [reflexivity|]); (split; [reflexivity|]); apply replicate_u16; unfold is_u16; lia.
Defined.

(** [set_bus_master_bit] writes the command register back with bit 2 set and every
    other bit kept; [get_base_address] is the first base register that is not 0. *)
Lemma set_bus_master_bit_spec {P dev} (rd : dev → Z → P → Z) (wr : dev → Z → Z → P → P) t p :
  ∃ v, set_bus_master_bit rd wr t p = wr t 4 v p ∧ Z.testbit v 2 = true ∧
    ∀ n, 0 ≤ n → n ≠ 2 → Z.testbit v n = Z.testbit (rd t 4 p) n.
Proof.
  eexists. split; [reflexivity|]. split; [by rewrite Z.lor_spec, orb_true_r|].
  intros n Hn Hne. rewrite Z.lor_spec. change 4 with (2 ^ 2).
  rewrite Z.pow2_bits_eqb by lia. by rewrite (proj2 (Z.eqb_neq 2 n)), orb_false_r by lia.
Qed.

End IdeHdd.
