(* ===== verification/Kmalloc.v ===== *)
(** * The kernel heap ([src/kernel/kmalloc.cpp], [src/include/os/kmalloc.h])

    The heap is a circular list of block headers inside the memory it manages; a
    pointer to a block that is in use carries a 1 in bit 0. The operations work on
    the bytes of [Memory.v]; [Heap] relates a memory to the list of blocks it
    holds, and the theorems say what [kmalloc] and [kfree] do to this list. *)

From S2P Require Import Prelude Memory.

Module Kmalloc.

(** ** Tagged pointers: [class kmalloc_header_ptr] *)

Definition KMALLOC_USED : Z := 1.
Definition KMALLOC_ALIGN : Z := 4.
Definition sizeof_header : Z := 8.

(** [reset_ptr], [operator->], [operator*] and [operator u32_t]. *)
Definition reset_ptr (ptr : Z) : Z := Z.land ptr (u32 (Z.lnot KMALLOC_USED)).
Definition set_used (ptr : Z) (used : bool) : Z :=
  if used then Z.lor ptr KMALLOC_USED else Z.land ptr (u32 (Z.lnot KMALLOC_USED)).
Definition is_used (ptr : Z) : bool := negb (Z.land ptr KMALLOC_USED =? 0).

(** [struct kmalloc_header { kmalloc_header_ptr next; u32_t size; }]. *)
Definition hnext (m : mem) (p : Z) : Z := load32 m (reset_ptr p).
Definition hsize (m : mem) (p : Z) : Z := load32 m (reset_ptr p + 4).
Definition set_hnext (m : mem) (p v : Z) : mem := store32 m (reset_ptr p) v.
Definition set_hsize (m : mem) (p v : Z) : mem := store32 m (reset_ptr p + 4) (u32 v).

(** ** The heap *)

Record heap := mkHeap {
  h_mem : mem;
  base : Z;
  next_free : Z;
  eflags : Z
}.

Definition io_load_eflags (h : heap) : Z := eflags h.
Definition io_store_eflags (h : heap) (e : Z) : heap := mkHeap (h_mem h) (base h) (next_free h) e.
Definition cli_asm (h : heap) : heap := io_store_eflags h (Z.land (eflags h) (u32 (Z.lnot 512))).
Definition sti_asm (h : heap) : heap := io_store_eflags h (Z.lor (eflags h) 512).
Definition with_mem (h : heap) (m : mem) : heap := mkHeap m (base h) (next_free h) (eflags h).
Definition with_next_free (h : heap) (p : Z) : heap := mkHeap (h_mem h) (base h) p (eflags h).

(** [void init_kmalloc()]: 0x20 frames of the page-frame allocator. *)
Definition init_kmalloc {A : Type} `{FrameAlloc A} (m : mem) (pf : A) (e : Z) : res (heap * A) :=
  '(aligned, pf) ← fa_alloc pf 32;
  let m := set_hnext m aligned aligned in
  let m := set_hsize m aligned 131072 in
  Ok (mkHeap m aligned aligned e, pf).

(** The inner loop [do p = p->next; while(p.is_used())]. *)
Fixpoint skip_used (fuel : nat) (m : mem) (p : Z) : res Z :=
  match fuel with
  | O => NoFuel
  | S fuel' =>
    let p := hnext m p in
    if is_used p then skip_used fuel' m p else Ok p
  end.

(** What is done with the block [p] that is large enough. *)
Definition carve (h : heap) (p rsize : Z) : Z * heap :=
  let h := with_next_free h p in
  let p := u32 (reset_ptr p + hsize (h_mem h) (next_free h) - rsize) in
  let p := set_used p true in
  let m := set_hnext (h_mem h) p (hnext (h_mem h) (next_free h)) in
  let m := set_hsize m p rsize in
  let m := set_hnext m (next_free h) p in
  let m := set_hsize m (next_free h) (hsize m (next_free h) - rsize) in
  (u32 (reset_ptr p + sizeof_header), with_mem h m).

(** The outer loop [do ... while(p!=base)]. *)
Fixpoint search (fuel : nat) (h : heap) (p rsize : Z) : res (Z * heap) :=
  match fuel with
  | O => NoFuel
  | S fuel' =>
    if rsize <=? hsize (h_mem h) p then Ok (carve h p rsize)
    else
      p ← skip_used fuel (h_mem h) p;
      if reset_ptr p =? reset_ptr (base h) then Panic "malloc error \n"
      else search fuel' h p rsize
  end.

Definition round_size (size : Z) : Z :=
  Z.land (u32 (size + sizeof_header + KMALLOC_ALIGN - 1)) (u32 (- KMALLOC_ALIGN)).

(** [void *kmalloc(size_t size)]; [size<0] cannot hold for a [size_t]. *)
Definition kmalloc (fuel : nat) (h : heap) (size : Z) : res (Z * heap) :=
  let e := io_load_eflags h in
  let h := cli_asm h in
  '(a, h) ← search fuel h (next_free h) (round_size size);
  Ok (a, io_store_eflags h e).

(** [while((tp = p->next) != freed) p = tp;]: the final [p] and [tp]. *)
Fixpoint find_prev (fuel : nat) (m : mem) (p freed : Z) : res (Z * Z) :=
  match fuel with
  | O => NoFuel
  | S fuel' =>
    let tp := hnext m p in
    if reset_ptr tp =? reset_ptr freed then Ok (p, tp) else find_prev fuel' m tp freed
  end.

(** The part of [kfree] behind the search. *)
Definition merge (m : mem) (prev freed next : Z) (is_prev_used is_next_used : bool) : mem :=
  if negb is_prev_used then
    let m := set_hsize m prev (hsize m prev + hsize m freed) in
    let m := set_hnext m prev (hnext m freed) in
    if negb is_next_used then
      let m := set_hsize m prev (hsize m prev + hsize m next) in
      set_hnext m prev (hnext m next)
    else m
  else if negb is_next_used then
    let m := set_hnext m prev (set_used (hnext m prev) false) in
    let m := set_hsize m freed (hsize m freed + hsize m next) in
    set_hnext m freed (hnext m next)
  else
    let freed := set_used freed false in
    set_hnext m prev freed.

(** [void kfree(void *addr)]. *)
Definition kfree (fuel : nat) (h : heap) (addr : Z) : res heap :=
  let e := io_load_eflags h in
  let h := cli_asm h in
  let m := h_mem h in
  let freed := u32 (addr - sizeof_header) in
  '(prev, tp) ← find_prev fuel m (base h) freed;
  let next := hnext m tp in
  let is_prev_used := is_used prev in
  let is_next_used := is_used next in
  let is_prev_used := if reset_ptr freed =? reset_ptr (base h) then true else is_prev_used in
  let is_next_used := if reset_ptr next =? reset_ptr (base h) then true else is_next_used in
  Ok (io_store_eflags (with_mem h (merge m prev freed next is_prev_used is_next_used)) e).

(** [operator new], [operator new[]], [operator delete], [operator delete[]]. *)
Definition operator_new (fuel : nat) (h : heap) (size : Z) : res (Z * heap) := kmalloc fuel h size.
Definition operator_delete (fuel : nat) (h : heap) (p : Z) : res heap := kfree fuel h p.

(** ** Specification: the list of blocks *)

(** Size (header included) and whether the block is in use. *)
Abbreviation block := (Z * bool)%type.

Fixpoint total (l : list block) : Z :=
  match l with
  | [] => 0
  | b :: r => b.1 + total r
  end.

(** The pointer to the blocks [l] that begin at [a]; [fin] ends the list. *)
Definition link (fin a : Z) (l : list block) : Z :=
  match l with
  | [] => fin
  | (_, u) :: _ => a + Z.b2z u
  end.

(** The headers of consecutive blocks [l] from [a] on, the last of which points
    to [fin]. *)
Fixpoint hdrs (m : mem) (fin a : Z) (l : list block) : Prop :=
  match l with
  | [] => True
  | (sz, u) :: r =>
    load32 m a = link fin (a + sz) r ∧ load32 m (a + 4) = sz ∧ 8 ≤ sz ∧ sz `mod` 4 = 0 ∧
    hdrs m fin (a + sz) r
  end.

(** The heap holds the blocks [l]; the first one, at [base], is never in use. *)
Record Heap (h : heap) (l : list block) : Prop := {
  hp_hdrs : hdrs (h_mem h) (base h) (base h) l;
  hp_first : ∃ sz r, l = (sz, false) :: r;
  hp_align : base h `mod` 4 = 0;
  hp_low : 0 ≤ base h;
  hp_high : base h + total l < 4294967296
}.

(** The search starts at the free block behind the blocks [pre]. *)
Definition starts_at (h : heap) (pre post : list block) : Prop :=
  next_free h = base h + total pre ∧ ∃ sz r, post = (sz, false) :: r.

(** The list after [kfree] of the block between [pre] and [post]. *)
Definition coalesce (pre : list block) (sz : Z) (post : list block) : list block :=
  let '(mid, post') :=
    match post with
    | (ns, false) :: post' => (sz + ns, post')
    | _ => (sz, post)
    end in
  match rev pre with
  | (ps, false) :: pre' => rev pre' ++ (ps + mid, false) :: post'
  | _ => pre ++ (mid, false) :: post'
  end.

(** ** Tags *)

Lemma reset_even a u : is_u32 a → a `mod` 2 = 0 → reset_ptr (a + Z.b2z u) = a.
Proof.
  intros Ha He. unfold reset_ptr, KMALLOC_USED. change (u32 (Z.lnot 1)) with (4294967296 - 2 ^ 1).
  rewrite land_high_mask by (destruct u; cbn; unfold is_u32 in *; Z.div_mod_to_equations; lia).
  destruct u; cbn [Z.b2z]; change (2 ^ 1) with 2; Z.div_mod_to_equations; lia.
Qed.

Lemma used_even a u : a `mod` 2 = 0 → is_used (a + Z.b2z u) = u.
Proof.
  intros He. unfold is_used, KMALLOC_USED. change 1 with (Z.ones 1). rewrite Z.land_ones by lia.
  change (2 ^ 1) with 2. destruct u; cbn [Z.b2z].
  - rewrite (proj2 (Z.eqb_neq _ _)); [done|]. Z.div_mod_to_equations; lia.
  - by rewrite Z.add_0_r, He.
Qed.

Lemma set_used_even a : a `mod` 2 = 0 → set_used a true = a + Z.b2z true.
Proof.
  intros He. unfold set_used, KMALLOC_USED. cbn [Z.b2z].
  assert (Z.land a 1 = 0).
  { change 1 with (Z.ones 1). rewrite Z.land_ones by lia. exact He. }
  by rewrite <- Z.lxor_lor, <- Z.add_nocarry_lxor.
Qed.

Lemma set_unused_even a u : is_u32 a → a `mod` 2 = 0 → set_used (a + Z.b2z u) false = a.
Proof. exact (reset_even a u). Qed.

(** ** Headers *)

Lemma total_app l1 l2 : total (l1 ++ l2) = total l1 + total l2.
Proof. induction l1 as [|[s u] l1 IH]; cbn; [done|]. rewrite IH. lia. Qed.

Lemma hdrs_total m fin a l : hdrs m fin a l → 0 ≤ total l ∧ total l `mod` 4 = 0.
Proof.
  revert a. induction l as [|[s u] l IH]; cbn; intros a Hh; [done|].
  destruct Hh as (_ & _ & H8 & H4 & Hr). apply IH in Hr as [Hr1 Hr2].
  split; [lia|]. Z.div_mod_to_equations; lia.
Qed.

Lemma hdrs_app m fin a l1 l2 :
  hdrs m fin a (l1 ++ l2) ↔ hdrs m (link fin (a + total l1) l2) a l1 ∧ hdrs m fin (a + total l1) l2.
Proof.
  revert a. induction l1 as [|[s u] l1 IH]; intros a; cbn [app hdrs total fst].
  - rewrite Z.add_0_r. naive_solver.
  - rewrite IH. replace (a + (s + total l1)) with (a + s + total l1) by lia.
    assert (El : link fin (a + s) (l1 ++ l2) =
                 link (link fin (a + s + total l1) l2) (a + s) l1).
    { destruct l1 as [|[s' u'] l1]; cbn [app link]; [|done]. cbn. by rewrite Z.add_0_r. }
    rewrite El. naive_solver.
Qed.

(** Headers depend only on the bytes of their blocks. *)
Lemma hdrs_frame m m' fin a l :
  hdrs m fin a l → (∀ x, a ≤ x < a + total l → load8 m' x = load8 m x) → hdrs m' fin a l.
Proof.
  revert a. induction l as [|[s u] l IH]; intros a Hh Hf; [done|].
  cbn [hdrs total fst] in *. destruct Hh as (Hn & Hs & H8 & H4 & Hr).
  pose proof (hdrs_total _ _ _ _ Hr) as [Ht _].
  unfold load32 in *. rewrite !Hf by lia. split_and!; try done. apply IH; [done|].
  intros x Hx. apply Hf. lia.
Qed.

Lemma load32_frame m m' a : (∀ x, a ≤ x < a + 4 → load8 m' x = load8 m x) → load32 m' a = load32 m a.
Proof. intros Hf. unfold load32. by rewrite !Hf by lia. Qed.

(** ** The search *)

Section blocks.
Context (m : mem) (fin : Z).
Context (Hfe : fin `mod` 4 = 0).

Lemma hnext_at a u l r : is_u32 a → a `mod` 4 = 0 → hdrs m fin a (l :: r) →
  hnext m (a + Z.b2z u) = link fin (a + l.1) r ∧ hsize m (a + Z.b2z u) = l.1.
Proof.
  intros Ha Hm Hh. destruct l as [s v]. cbn in Hh. destruct Hh as (Hn & Hs & _).
  unfold hnext, hsize. rewrite reset_even by (done || (Z.div_mod_to_equations; lia)). done.
Qed.

(** Skipping the used blocks [us] behind a block. *)
Lemma skip_used_blocks fuel a b us r :
  (length us < fuel)%nat → 0 ≤ a → a + b.1 + total us + total r < 4294967296 → a `mod` 4 = 0 →
  hdrs m fin a (b :: us ++ r) → Forall (λ c : block, c.2 = true) us →
  (match r with [] => True | c :: _ => c.2 = false end) →
  ∀ u, skip_used fuel m (a + Z.b2z u) = Ok (link fin (a + b.1 + total us) r).
Proof.
  revert fuel a b. induction us as [|[s v] us IH]; intros fuel a b Hf Ha Hb Hm Hh Hu Hr u.
  - destruct fuel as [|fuel]; [cbn in Hf; lia|]. cbn [app total] in *.
    rewrite Z.add_0_r in *. cbn [skip_used].
    assert (0 ≤ total r).
    { destruct b. cbn in Hh. destruct Hh as (_ & _ & _ & _ & Hh). by apply hdrs_total in Hh as [? _]. }
    assert (8 ≤ b.1 ∧ b.1 `mod` 4 = 0) as [H8 H4] by (destruct b; cbn in *; naive_solver).
    destruct (hnext_at a u b r) as [-> _]; [unfold is_u32; lia|done|done|].
    destruct r as [|[s v] r]; cbn [link].
    + rewrite <- (Z.add_0_r fin) at 1. change 0 with (Z.b2z false) at 1.
      rewrite used_even by (Z.div_mod_to_equations; lia). done.
    + cbn in Hr. subst v. rewrite used_even by (Z.div_mod_to_equations; lia). done.
  - destruct fuel as [|fuel]; [cbn in Hf; lia|]. cbn [skip_used].
    apply Forall_cons in Hu as [Hv Hu]. cbn in Hv. subst v.
    assert (Hh' := Hh). destruct b as [bs bu]. cbn [app] in Hh. cbn [hdrs] in Hh'.
    destruct Hh' as (_ & _ & H8 & H4 & Hh').
    cbn [total fst length] in *.
    pose proof (hdrs_total _ _ _ _ Hh') as [Ht _]. cbn [app total fst] in Ht. rewrite total_app in Ht.
    destruct (hnext_at a u (bs, bu) ((s, true) :: us ++ r)) as [-> _]; [unfold is_u32; lia|done|done|].
    cbn [link fst]. rewrite used_even by (Z.div_mod_to_equations; lia).
    rewrite (IH fuel (a + bs) (s, true)); cbn [fst]; try done; try lia.
    + f_equal. f_equal. lia.
    + Z.div_mod_to_equations; lia.
Qed.

End blocks.

Lemma span_used (l : list block) : ∃ us r, l = us ++ r ∧ Forall (λ c : block, c.2 = true) us ∧
  match r with [] => True | c :: _ => c.2 = false end.
Proof.
  induction l as [|[s u] l (us & r & -> & Hu & Hr)]; [by exists [], []|].
  destruct u.
  - exists ((s, true) :: us), r. by split_and!; [|constructor|].
  - exists [], ((s, false) :: us ++ r). by split_and!.
Qed.

Lemma reset_base a : is_u32 a → a `mod` 4 = 0 → reset_ptr a = a.
Proof.
  intros Ha Hm. rewrite <- (Z.add_0_r a) at 1. change 0 with (Z.b2z false) at 1.
  apply reset_even; [done|]. Z.div_mod_to_equations; lia.
Qed.

(** First fit, from the block at [a] up to the end of the list. *)
Lemma search_finds h rsize sz post : is_u32 (base h) → base h `mod` 4 = 0 → rsize ≤ sz →
  ∀ n mid fuel a, (length mid ≤ n)%nat → (length mid < fuel)%nat → base h ≤ a → a `mod` 4 = 0 →
  a + total (mid ++ (sz, false) :: post) < 4294967296 →
  hdrs (h_mem h) (base h) a (mid ++ (sz, false) :: post) →
  (match mid with [] => True | c :: _ => c.2 = false end) →
  Forall (λ c : block, c.2 = false → c.1 < rsize) mid →
  search fuel h a rsize = Ok (carve h (a + total mid) rsize).
Proof.
  intros Hb Hbm Hsz. induction n as [|n IH]; intros mid fuel a Hn Hf Ha Hm Ht Hh Hfst Hsm.
  all: destruct fuel as [|fuel]; [lia|]; cbn [search];
    pose proof (hdrs_total _ _ _ _ Hh) as [Ht0 _];
    assert (Hua : is_u32 a) by (unfold is_u32 in *; lia).
  all: destruct mid as [|[s u] mid]; [|try (cbn in Hn; lia)].
  1, 2: destruct (hnext_at (h_mem h) (base h) a false (sz, false) post Hua Hm Hh) as [_ Hs];
      cbn [Z.b2z fst] in Hs; rewrite Z.add_0_r in Hs; rewrite Hs, (proj2 (Z.leb_le _ _)) by lia;
      cbn [total]; by rewrite Z.add_0_r.
  cbn in Hfst. subst u. apply Forall_cons in Hsm as [Hs Hsm]. specialize (Hs eq_refl). cbn in Hs.
  destruct (hnext_at (h_mem h) (base h) a false (s, false) (mid ++ (sz, false) :: post) Hua Hm Hh)
    as [_ Hsz']; cbn [Z.b2z fst] in Hsz'; rewrite Z.add_0_r in Hsz'.
  rewrite Hsz', (proj2 (Z.leb_gt _ _)) by lia.
  destruct (span_used mid) as (us & r & -> & Hu & Hr).
  cbn [app hdrs] in Hh. rewrite <- app_assoc in Hh. destruct (id Hh) as (_ & _ & H8 & H4 & Hh').
  apply hdrs_app in Hh' as [Hus Hh']. apply hdrs_total in Hus as [Hus0 Hus4].
  pose proof (hdrs_total _ _ _ _ Hh') as [Hr0 _].
  cbn [app total fst] in Ht. rewrite <- app_assoc, total_app in Ht.
  rewrite length_cons, length_app in *.
  pose proof (skip_used_blocks (h_mem h) (base h) Hbm (S fuel) a (s, false) us
    (r ++ (sz, false) :: post)) as Hk; cbn [fst] in Hk. specialize (Hk ltac:(lia) ltac:(unfold is_u32 in Hb; lia)
    ltac:(lia) Hm ltac:(exact Hh) Hu ltac:(by destruct r) false).
  cbn [Z.b2z] in Hk. rewrite Z.add_0_r in Hk. rewrite Hk. cbn [mbind res_bind].
  assert (El : link (base h) (a + s + total us) (r ++ (sz, false) :: post) = a + s + total us).
  { destruct r as [|[s' u'] r]; cbn in Hr |- *; [lia|]. subst u'. cbn. lia. }
  rewrite El. assert (Ham : (a + s + total us) `mod` 4 = 0) by (Z.div_mod_to_equations; lia).
  rewrite !reset_base; [|done|done|unfold is_u32 in *; lia|done].
  rewrite (proj2 (Z.eqb_neq _ _)) by lia.
  rewrite (IH r); [|lia|lia|lia|done|lia|exact Hh'|done|by apply Forall_app in Hsm as [_ ?]].
  cbn [total fst]. rewrite total_app. do 2 f_equal. lia.
Qed.

(** ** [kmalloc] *)

Lemma round_size_spec size : 0 ≤ size → size + 11 < 4294967296 →
  round_size size = (size + 11) / 4 * 4 ∧ size + 8 ≤ round_size size.
Proof.
  intros H0 H1. unfold round_size, sizeof_header, KMALLOC_ALIGN.
  replace (size + 8 + 4 - 1) with (size + 11) by lia. rewrite (u32_id (size + 11)) by (unfold is_u32; lia).
  change (u32 (- (4))) with (4294967296 - 2 ^ 2). rewrite land_high_mask by (unfold is_u32; lia).
  change (2 ^ 2) with 4. split; [done|]. Z.div_mod_to_equations; lia.
Qed.

Lemma link_u32 m fin a l : is_u32 fin → 0 ≤ a → a + total l < 4294967296 → hdrs m fin a l →
  is_u32 (link fin a l).
Proof.
  intros Hf Ha Ht Hh. destruct l as [|[s u] l]; cbn; [done|]. cbn in Hh, Ht.
  destruct Hh as (_ & _ & H8 & _ & Hr). apply hdrs_total in Hr as [Hr _].
  unfold is_u32. destruct u; cbn; lia.
Qed.

(** The bytes of the two headers [kmalloc] writes. *)
Definition in_headers (a p x : Z) : Prop := a ≤ x < a + 8 ∨ p ≤ x < p + 8.

Lemma carve_spec h pre sz post rsize a :
  Heap h (pre ++ (sz, false) :: post) → a = base h + total pre →
  8 ≤ rsize → rsize `mod` 4 = 0 → rsize + 8 ≤ sz →
  ∃ h', carve h a rsize = (a + (sz - rsize) + 8, h') ∧
    hdrs (h_mem h') (base h) (base h) (pre ++ (sz - rsize, false) :: (rsize, true) :: post) ∧
    base h' = base h ∧ next_free h' = a ∧ eflags h' = eflags h ∧
    (∀ x, ¬ in_headers a (a + (sz - rsize)) x → load8 (h_mem h') x = load8 (h_mem h) x).
Proof.
  intros [Hh _ Hal Hlo Hhi] -> H8 H4 Hle. set (a := base h + total pre).
  apply hdrs_app in Hh as [Hpre Hpost]. fold a in Hpre, Hpost.
  pose proof (hdrs_total _ _ _ _ Hpre) as [Hp0 Hp4].
  rewrite total_app in Hhi. cbn [total fst] in Hhi. cbn [hdrs] in Hpost.
  destruct Hpost as (Hn & Hs & Hs8 & Hs4 & Hpost). pose proof (hdrs_total _ _ _ _ Hpost) as [Hq0 _].
  assert (Ham : a `mod` 4 = 0) by (unfold a; Z.div_mod_to_equations; lia).
  assert (Ha : is_u32 a) by (unfold a, is_u32; lia).
  unfold carve, hsize, hnext, set_hsize, set_hnext, sizeof_header.
  cbn [with_next_free next_free h_mem with_mem]. rewrite (reset_base a Ha Ham), Hs.
  set (p := a + (sz - rsize)). replace (a + sz - rsize) with p by (unfold p; lia).
  assert (Hpm : p `mod` 4 = 0) by (unfold p; Z.div_mod_to_equations; lia).
  assert (Hp : is_u32 p) by (unfold p, a, is_u32; lia).
  rewrite (u32_id p Hp), (set_used_even p) by (Z.div_mod_to_equations; lia).
  rewrite (reset_even p true Hp) by (Z.div_mod_to_equations; lia). cbn [Z.b2z].
  assert (Hl : is_u32 (link (base h) (a + sz) post)).
  { eapply link_u32; [| | |exact Hpost]; unfold a, is_u32; lia. }
  assert (a + 8 ≤ p ∧ p + rsize = a + sz) as [Hd Hpe] by (unfold p; lia).
  eexists. split.
  { rewrite (u32_id (p + 8)) by (unfold is_u32, p, a; lia). reflexivity. }
  cbn [h_mem base next_free eflags].
  rewrite (u32_id rsize) by (unfold is_u32, a in *; lia).
  set (m3 := store32 (store32 (store32 (h_mem h) p (load32 (h_mem h) a)) (p + 4) rsize) a (p + 1)).
  assert (E3 : load32 m3 (a + 4) = sz).
  { unfold m3. by rewrite !load32_store32_ne by lia. }
  rewrite E3, (u32_id (sz - rsize)) by (unfold is_u32, a in *; lia).
  set (m4 := store32 m3 (a + 4) (sz - rsize)).
  assert (Hf : ∀ x, ¬ in_headers a p x → load8 m4 x = load8 (h_mem h) x).
  { intros x Hx. unfold in_headers in Hx. unfold m4, m3. by rewrite !load8_store32_ne by lia. }
  change (h_mem (with_mem (with_next_free h a) m4)) with m4.
  split_and!; try done. apply hdrs_app. fold a. split.
  - cbn [link]. cbn [link] in Hpre. eapply hdrs_frame; [exact Hpre|].
    intros x Hx. apply Hf. unfold in_headers. unfold a in *. lia.
  - cbn [hdrs link fst]. change (a + (sz - rsize)) with p. replace (p + rsize) with (a + sz) by lia.
    split_and!; try done; try lia.
    + unfold m4. rewrite load32_store32_ne by lia. unfold m3. apply load32_store32_eq.
      unfold is_u32, a in *. cbn [Z.b2z]. lia.
    + unfold m4. apply load32_store32_eq. unfold is_u32, a in *; lia.
    + Z.div_mod_to_equations; lia.
    + unfold m4, m3. rewrite !load32_store32_ne by lia. rewrite Hn. by apply load32_store32_eq.
    + unfold m4, m3. rewrite load32_store32_ne by lia. rewrite load32_store32_ne by lia.
      apply load32_store32_eq. unfold is_u32, a in *; lia.
    + eapply hdrs_frame; [exact Hpost|]. intros x Hx. apply Hf. unfold in_headers. lia.
Qed.

Lemma kmalloc_spec fuel h size pre mid sz post :
  Heap h (pre ++ mid ++ (sz, false) :: post) → starts_at h pre (mid ++ (sz, false) :: post) →
  0 ≤ size → size + 11 < 4294967296 → round_size size + 8 ≤ sz →
  Forall (λ b : block, b.2 = false → b.1 < round_size size) mid → (length mid < fuel)%nat →
  let rsize := round_size size in
  let a := base h + total (pre ++ mid) in
  let p := a + (sz - rsize) in
  ∃ h', kmalloc fuel h size = Ok (p + 8, h') ∧ size + 8 ≤ rsize ∧
    Heap h' (pre ++ mid ++ (sz - rsize, false) :: (rsize, true) :: post) ∧
    starts_at h' (pre ++ mid) ((sz - rsize, false) :: (rsize, true) :: post) ∧
    base h' = base h ∧ eflags h' = eflags h ∧
    (∀ x, ¬ in_headers a p x → load8 (h_mem h') x = load8 (h_mem h) x).
Proof.
  intros HH [Hnf Hst] H0 H1 Hsz Hmid Hf rsize a p. destruct (round_size_spec size H0 H1) as [Hrs Hle].
  destruct (id HH) as [Hh Hfst Hal Hlo Hhi].
  apply hdrs_app in Hh as [Hpre Hrest]. pose proof (hdrs_total _ _ _ _ Hpre) as [Hp0 Hp4].
  pose proof (hdrs_total _ _ _ _ Hrest) as [Hr0 _]. rewrite total_app in Hhi.
  set (h0 := cli_asm h).
  assert (HH0 : Heap h0 ((pre ++ mid) ++ (sz, false) :: post)).
  { rewrite <- app_assoc. by destruct HH. }
  unfold kmalloc. fold h0. change (next_free h0) with (next_free h). rewrite Hnf.
  assert (Es : search fuel h0 (base h + total pre) rsize = Ok (carve h0 a rsize)).
  { unfold a. rewrite total_app, Z.add_assoc.
    eapply (search_finds h0 rsize sz post); try done; cbn [h0 cli_asm io_store_eflags base h_mem]; try lia.
    - unfold is_u32. cbn. lia.
    - Z.div_mod_to_equations; lia.
    - destruct mid as [|[s u] mid]; [done|]. destruct Hst as (s' & r & [= _ -> _]). done. }
  fold rsize. rewrite Es. cbn [mbind res_bind].
  destruct (carve_spec h0 (pre ++ mid) sz post rsize a HH0) as (h1 & -> & Hh1 & Hb1 & Hn1 & _ & Hx1).
  { done. } { lia. } { unfold rsize. rewrite Hrs. Z.div_mod_to_equations; lia. } { done. }
  eexists. split; [reflexivity|]. split; [exact Hle|].
  cbn [io_store_eflags h_mem base next_free eflags] in *.
  assert (Ht : total (pre ++ mid ++ (sz - rsize, false) :: (rsize, true) :: post) =
               total pre + total (mid ++ (sz, false) :: post)).
  { rewrite !total_app. cbn [total fst]. lia. }
  split_and!; try done.
  - split; cbn [io_store_eflags h_mem base]; rewrite ?Hb1; cbn [h0 cli_asm io_store_eflags base]; try done.
    + by rewrite <- app_assoc in Hh1.
    + destruct Hfst as (s & r & E). destruct pre as [|[s0 u0] pre]; [|injection E as -> -> _; by eexists _, _].
      destruct mid as [|[s0 u0] mid]; [by eexists _, _|]. injection E as -> -> _. by eexists _, _.
    + rewrite Ht. lia.
  - unfold starts_at; cbn [io_store_eflags next_free base]. rewrite Hn1, Hb1. split; [done|by eexists _, _].
Qed.

(** [kmalloc] writes bytes. *)
Lemma search_bytes fuel h p rsize a h' : search fuel h p rsize = Ok (a, h') → bytes_ok (h_mem h) → bytes_ok (h_mem h').
Proof.
  revert p. induction fuel as [|fuel IH]; intros p; cbn [search]; [done|]. split_if.
  - intros [= _ <-] Hm. unfold set_hnext, set_hsize. by repeat apply bytes_ok_store32.
  - destruct (skip_used _ _ _) as [q| | |]; cbn [mbind res_bind]; try done. split_if; [done|]. apply IH.
Qed.

Lemma kmalloc_bytes fuel h size a h' : kmalloc fuel h size = Ok (a, h') → bytes_ok (h_mem h) → bytes_ok (h_mem h').
Proof.
  unfold kmalloc. destruct (search _ _ _ _) as [[b h1]| | |] eqn:E; cbn [mbind res_bind]; try done.
  intros [= _ <-] Hm. by apply (search_bytes _ _ _ _ _ _ E).
Qed.

(** C17: [kmalloc] implements next-fit on the list of blocks: when the search
    from [next_free] meets a first free block that can hold the rounded request and
    a header besides, the returned block is cut from its end, all other blocks stay
    as they are, only the two headers are written, and the interrupt flag is the one
    of the caller. *)
Theorem kmalloc_correct fuel h size pre mid sz post :
  Heap h (pre ++ mid ++ (sz, false) :: post) → starts_at h pre (mid ++ (sz, false) :: post) →
  0 ≤ size → size + 11 < 4294967296 → round_size size + 8 ≤ sz →
  Forall (λ b : block, b.2 = false → b.1 < round_size size) mid → (length mid < fuel)%nat →
  let rsize := round_size size in
  let a := base h + total (pre ++ mid) in
  let p := a + (sz - rsize) in
  ∃ h', kmalloc fuel h size = Ok (p + 8, h') ∧ size + 8 ≤ rsize ∧
    Heap h' (pre ++ mid ++ (sz - rsize, false) :: (rsize, true) :: post) ∧
    starts_at h' (pre ++ mid) ((sz - rsize, false) :: (rsize, true) :: post) ∧
    base h' = base h ∧ eflags h' = eflags h ∧
    (∀ x, ¬ in_headers a p x → load8 (h_mem h') x = load8 (h_mem h) x).
Proof. apply kmalloc_spec. Qed.

(** ** [kfree] *)

Lemma find_prev_blocks m fin ps pu sz u post : ∀ l fuel a,
  (length l < fuel)%nat → 0 ≤ a → a `mod` 4 = 0 →
  a + total (l ++ (ps, pu) :: (sz, u) :: post) < 4294967296 →
  hdrs m fin a (l ++ (ps, pu) :: (sz, u) :: post) →
  find_prev fuel m (link fin a (l ++ (ps, pu) :: (sz, u) :: post)) (a + total l + ps) =
  Ok (a + total l + Z.b2z pu, a + total l + ps + Z.b2z u).
Proof.
  induction l as [|[s v] l IH]; intros fuel a Hf Ha Hm Hb Hh; (destruct fuel as [|fuel]; [cbn in Hf; lia|]);
    pose proof (hdrs_total _ _ _ _ Hh) as [H0 _]; assert (Hua : is_u32 a) by (unfold is_u32; lia);
    cbn [find_prev app link].
  - rewrite app_nil_l in Hh, Hb. pose proof (hnext_at m fin a pu _ _ Hua Hm Hh) as [-> _].
    cbn [hdrs total fst link] in Hh, Hb |- *. destruct Hh as (_ & _ & H8 & H4 & _ & _ & H8' & H4' & Hr).
    apply hdrs_total in Hr as [Hr _]. rewrite Z.add_0_r.
    rewrite reset_even, reset_base by (unfold is_u32; Z.div_mod_to_equations; lia).
    by rewrite Z.eqb_refl.
  - pose proof (hnext_at m fin a v _ _ Hua Hm Hh) as [-> _]. cbn [app hdrs total fst] in Hh, Hb |- *.
    destruct Hh as (_ & _ & H8 & H4 & Hh). pose proof (hdrs_total _ _ _ _ Hh) as [Hr0 _].
    pose proof Hh as Hl. apply hdrs_app in Hl as [Hl Hl2].
    pose proof (hdrs_total _ _ _ _ Hl) as [Hl0 Hl4]. cbn [hdrs] in Hl2.
    destruct Hl2 as (_ & _ & Hp8 & Hp4 & _ & _ & Hs8 & Hs4 & Hpo). apply hdrs_total in Hpo as [Hpo _].
    rewrite total_app in Hb. cbn [total fst] in Hb.
    specialize (IH fuel (a + s) ltac:(cbn in Hf; lia) ltac:(lia) ltac:(Z.div_mod_to_equations; lia)).
    rewrite total_app in IH. cbn [total fst] in IH. specialize (IH ltac:(lia) Hh).
    replace (a + (s + total l)) with (a + s + total l) by lia.
    rewrite (proj2 (Z.eqb_neq _ _)); [exact IH|].
    rewrite (reset_base (a + s + total l + ps)) by (unfold is_u32; Z.div_mod_to_equations; lia).
    destruct l as [|[s' v'] l]; cbn [app link];
      rewrite reset_even by (unfold is_u32; Z.div_mod_to_equations; lia); [cbn; lia|].
    cbn [hdrs] in Hl. destruct Hl as (_ & _ & H8' & _ & Hl). apply hdrs_total in Hl as [Hl' _].
    cbn [total fst]. lia.
Qed.

(** Replacing the blocks between [l] and [r] by one free or used block. *)
Lemma hdrs_replace m m' fin a l mid r q u :
  hdrs m fin a (l ++ mid ++ r) → mid ≠ [] → total mid = q → 8 ≤ q → q `mod` 4 = 0 →
  (match mid with [] => True | c :: _ => c.2 = u end) →
  load32 m' (a + total l) = link fin (a + total l + q) r → load32 m' (a + total l + 4) = q →
  (∀ x, x < a + total l ∨ a + total l + q ≤ x → load8 m' x = load8 m x) →
  hdrs m' fin a (l ++ (q, u) :: r).
Proof.
  intros Hh Hne Hq H8 H4 Hu Hn Hs Hf. apply hdrs_app in Hh as [Hl Hh]. apply hdrs_app in Hh as [Hmid Hr].
  apply hdrs_app. split.
  - cbn [link]. destruct mid as [|[c v] mid]; [done|]. cbn in Hu. subst v. cbn [app link] in Hl.
    eapply hdrs_frame; [exact Hl|]. intros x Hx. apply Hf. lia.
  - cbn [hdrs]. split_and!; try done. rewrite <- Hq at 1. eapply hdrs_frame; [exact Hr|].
    intros x Hx. apply Hf. lia.
Qed.

(** A block becomes free: the pointer in front of it loses its tag. *)
Lemma hdrs_untag m m' fin a l ps pu sz q mid r :
  hdrs m fin a (l ++ (ps, pu) :: (sz, true) :: mid ++ r) → sz + total mid = q → q `mod` 4 = 0 → 8 ≤ q →
  load32 m' (a + total l) = a + total l + ps → load32 m' (a + total l + 4) = ps →
  load32 m' (a + total l + ps) = link fin (a + total l + ps + q) r →
  load32 m' (a + total l + ps + 4) = q →
  (∀ x, x < a + total l ∨ a + total l + ps + q ≤ x → load8 m' x = load8 m x) →
  hdrs m' fin a (l ++ (ps, pu) :: (q, false) :: r).
Proof.
  intros Hh Hq Hq4 Hq8 E1 E2 E3 E4 Hf. apply hdrs_app in Hh as [Hl Hh]. cbn [hdrs] in Hh.
  destruct Hh as (_ & _ & H8 & H4 & _ & _ & _ & _ & Hh). apply hdrs_app in Hh as [_ Hr].
  apply hdrs_app. split.
  - eapply hdrs_frame; [exact Hl|]. intros x Hx. apply Hf. lia.
  - cbn [hdrs link]. cbn [Z.b2z]. rewrite Z.add_0_r. split_and!; try done.
    replace (a + total l + ps + q) with (a + total l + ps + sz + total mid) by lia.
    eapply hdrs_frame; [exact Hr|]. intros x Hx. apply Hf. lia.
Qed.

(** The list of blocks that [kfree] leaves, with the previous block singled out. *)
Definition freed_list (l : list block) (ps : Z) (pu : bool) (sz : Z) (post : list block) : list block :=
  match pu, post with
  | false, (ns, false) :: post' => l ++ (ps + sz + ns, false) :: post'
  | false, _ => l ++ (ps + sz, false) :: post
  | true, (ns, false) :: post' => l ++ (ps, true) :: (sz + ns, false) :: post'
  | true, _ => l ++ (ps, true) :: (sz, false) :: post
  end.

Lemma coalesce_snoc l ps pu sz post : coalesce (l ++ [(ps, pu)]) sz post = freed_list l ps pu sz post.
Proof.
  unfold coalesce, freed_list. rewrite rev_app_distr. cbn [rev app].
  destruct pu, post as [|[ns []] post']; rewrite ?rev_involutive, <- ?app_assoc; cbn [app];
    rewrite ?Z.add_assoc; done.
Qed.

(** Reading words through a stack of stores. *)
Ltac words :=
  repeat match goal with
  | |- context [load32 (store32 _ ?a _) ?a] => rewrite (load32_store32_eq _ a) by (unfold is_u32 in *; lia)
  | |- context [load32 (store32 _ _ _) _] => rewrite load32_store32_ne by lia
  end.

Ltac word_frame := intros x Hx; unfold in_headers in *; rewrite !load8_store32_ne by lia; reflexivity.

Section kfree.
Context (m : mem) (b : Z) (l : list block) (ps : Z) (pu : bool) (sz : Z) (post : list block).
Context (Hh : hdrs m b b (l ++ (ps, pu) :: (sz, true) :: post)).
Context (Hlo : 0 ≤ b) (Hal : b `mod` 4 = 0).
Context (Hhi : b + total (l ++ (ps, pu) :: (sz, true) :: post) < 4294967296).
Let P := b + total l.
Let F := P + ps.
Let N := F + sz.

Record layout : Prop := {
  ly_PF : F = P + ps ∧ N = F + sz ∧ b ≤ P ∧ 8 ≤ ps ∧ 8 ≤ sz ∧ ps `mod` 4 = 0 ∧ sz `mod` 4 = 0;
  ly_P : is_u32 P ∧ P `mod` 4 = 0 ∧ P `mod` 2 = 0;
  ly_F : is_u32 F ∧ F `mod` 4 = 0 ∧ F `mod` 2 = 0;
  ly_N : N `mod` 4 = 0 ∧ 0 ≤ total post ∧ N + total post < 4294967296;
  ly_m : load32 m P = F + 1 ∧ load32 m (P + 4) = ps ∧ load32 m F = link b N post ∧ load32 m (F + 4) = sz;
  ly_link : is_u32 (link b N post);
  ly_end : b + total (l ++ (ps, pu) :: (sz, true) :: post) = N + total post
}.

Lemma kfree_layout : layout.
Proof.
  destruct (proj1 (hdrs_app _ _ _ _ _) Hh) as [Hl Hh2]. pose proof (hdrs_total _ _ _ _ Hl) as [Hl0 Hl4].
  fold P in Hl, Hh2. cbn [hdrs link Z.b2z] in Hh2. fold F in Hh2. fold N in Hh2.
  destruct Hh2 as (HPn & HPs & Hp8 & Hp4 & HFn & HFs & Hs8 & Hs4 & Hpo).
  pose proof (hdrs_total _ _ _ _ Hpo) as [Hpo0 Hpo4].
  assert (Hhi' := Hhi). rewrite total_app in Hhi'. cbn [total fst] in Hhi'.
  assert (Hend : b + total (l ++ (ps, pu) :: (sz, true) :: post) = N + total post)
    by (rewrite total_app; cbn [total fst]; unfold N, F, P; lia).
  split; try done; unfold is_u32, N, F, P in *;
    try (split_and!; first [done | lia | Z.div_mod_to_equations; lia]).
  eapply link_u32; [| | |exact Hpo]; unfold is_u32; lia.
Qed.

(** The free block behind the freed one. *)
Lemma next_layout ns post' : post = (ns, false) :: post' →
  8 ≤ ns ∧ ns `mod` 4 = 0 ∧ link b N post = N ∧ is_u32 N ∧ load32 m N = link b (N + ns) post' ∧
  load32 m (N + 4) = ns ∧ is_u32 (link b (N + ns) post') ∧ 0 ≤ total post' ∧ total post = ns + total post'.
Proof.
  intros Ep. pose proof kfree_layout as Ly. destruct (proj1 (hdrs_app _ _ _ _ _) Hh) as [_ Hh2].
  fold P in Hh2. cbn [hdrs] in Hh2. fold F in Hh2. fold N in Hh2.
  destruct Hh2 as (_ & _ & _ & _ & _ & _ & _ & _ & Hpo).
  destruct Ly as [(_ & _ & ? & _) _ [? _] (_ & _ & HNt) _ _ _].
  rewrite Ep in Hpo, HNt |- *. cbn [hdrs total fst link] in Hpo, HNt |- *.
  destruct Hpo as (E1 & E2 & H8 & H4 & Hr). pose proof (hdrs_total _ _ _ _ Hr) as [Hr0 _].
  pose proof kfree_layout as [(E3 & E4 & ?) _ _ _ _ _ _].
  split_and!; try done; try (cbn; lia); try (unfold is_u32 in *; lia).
  eapply link_u32; [| | |exact Hr]; unfold is_u32 in *; lia.
Qed.

(** Neither neighbour is free: the pointer in front of the block loses its tag. *)
Lemma merge_none next : pu = true →
  let m' := merge m (P + Z.b2z pu) F next true true in
  hdrs m' b b (l ++ (ps, pu) :: (sz, false) :: post) ∧
  ∀ x, ¬ in_headers P F x → load8 m' x = load8 m x.
Proof.
  intros Ep m'. destruct kfree_layout as [(EF & EN & Hb & H8 & H8' & H4 & H4') (HP & HP4 & HP2)
    (HF & HF4 & HF2) (HN & Ht & Hb') (E1 & E2 & E3 & E4) HL _].
  assert (Em : m' = store32 m P F).
  { unfold m', merge, set_hnext. cbn [negb]. rewrite (reset_even P pu HP HP2).
    change (set_used F false) with (reset_ptr F). by rewrite (reset_base F HF HF4). }
  rewrite Em. split; [|word_frame].
  apply (hdrs_untag m _ b b l ps pu sz sz [] post); try done; try (cbn; lia); change (b + total l) with P.
  - words. lia.
  - by words.
  - rewrite <- EF, <- EN. by words.
  - rewrite <- EF. by words.
  - word_frame.
Qed.

(** The next block is free, the previous one is not. *)
Lemma merge_next ns post' : pu = true → post = (ns, false) :: post' →
  let m' := merge m (P + Z.b2z pu) F N true false in
  hdrs m' b b (l ++ (ps, pu) :: (sz + ns, false) :: post') ∧
  ∀ x, ¬ in_headers P F x → load8 m' x = load8 m x.
Proof.
  intros Ep Epost m'. destruct (next_layout ns post' Epost) as (Hn8 & Hn4 & EL & HNu & E5 & E6 & HL' & Ht' & Et).
  destruct kfree_layout as [(EF & EN & Hb & H8 & H8' & H4 & H4') (HP & HP4 & HP2)
    (HF & HF4 & HF2) (HN & Ht & Hb') (E1 & E2 & E3 & E4) HL _].
  assert (Em : m' = store32 (store32 (store32 m P F) (F + 4) (sz + ns)) F (link b (N + ns) post')).
  { unfold m', merge, set_hnext, set_hsize, hnext, hsize. cbn [negb].
    rewrite (reset_even P pu HP HP2), (reset_base F HF HF4), (reset_base N HNu HN), E1.
    change (F + 1) with (F + Z.b2z true). rewrite (set_unused_even F true HF HF2). words. rewrite E4, E6.
    rewrite (u32_id (sz + ns)) by (unfold is_u32 in *; lia). words. by rewrite E5. }
  rewrite Em. split; [|word_frame].
  apply (hdrs_untag m _ b b l ps pu sz (sz + ns) [(ns, false)] post'); change (b + total l) with P.
  - cbn [app]. by rewrite <- Epost.
  - cbn. lia.
  - Z.div_mod_to_equations; lia.
  - lia.
  - words. lia.
  - by words.
  - rewrite <- EF, Z.add_assoc, <- EN. by words.
  - rewrite <- EF. by words.
  - word_frame.
Qed.

(** The previous block is free, the next one is not. *)
Lemma merge_prev next : pu = false →
  let m' := merge m (P + Z.b2z pu) F next false true in
  hdrs m' b b (l ++ (ps + sz, false) :: post) ∧
  ∀ x, ¬ in_headers P F x → load8 m' x = load8 m x.
Proof.
  intros Ep m'. destruct kfree_layout as [(EF & EN & Hb & H8 & H8' & H4 & H4') (HP & HP4 & HP2)
    (HF & HF4 & HF2) (HN & Ht & Hb') (E1 & E2 & E3 & E4) HL _].
  assert (Em : m' = store32 (store32 m (P + 4) (ps + sz)) P (link b N post)).
  { unfold m', merge, set_hnext, set_hsize, hnext, hsize. cbn [negb].
    rewrite (reset_even P pu HP HP2), (reset_base F HF HF4). words. rewrite E2, E4, E3.
    by rewrite (u32_id (ps + sz)) by (unfold is_u32 in *; lia). }
  rewrite Em. split; [|word_frame].
  eapply (hdrs_replace m _ b b l [(ps, pu); (sz, true)] post); try done; change (b + total l) with P.
  - cbn. lia.
  - lia.
  - Z.div_mod_to_equations; lia.
  - replace (P + (ps + sz)) with N by lia. by words.
  - words. lia.
  - word_frame.
Qed.

(** Both neighbours are free. *)
Lemma merge_both ns post' : pu = false → post = (ns, false) :: post' →
  let m' := merge m (P + Z.b2z pu) F N false false in
  hdrs m' b b (l ++ (ps + sz + ns, false) :: post') ∧
  ∀ x, ¬ in_headers P F x → load8 m' x = load8 m x.
Proof.
  intros Ep Epost m'. destruct (next_layout ns post' Epost) as (Hn8 & Hn4 & EL & HNu & E5 & E6 & HL' & Ht' & Et).
  destruct kfree_layout as [(EF & EN & Hb & H8 & H8' & H4 & H4') (HP & HP4 & HP2)
    (HF & HF4 & HF2) (HN & Ht & Hb') (E1 & E2 & E3 & E4) HL _].
  assert (Em : m' = store32 (store32 (store32 (store32 m (P + 4) (ps + sz)) P N)
                      (P + 4) (ps + sz + ns)) P (link b (N + ns) post')).
  { unfold m', merge, set_hnext, set_hsize, hnext, hsize. cbn [negb].
    rewrite (reset_even P pu HP HP2), (reset_base F HF HF4), (reset_base N HNu HN). rewrite E2, E4.
    rewrite (u32_id (ps + sz)) by (unfold is_u32 in *; lia). words. rewrite E3, EL, E6.
    words. by rewrite (u32_id (ps + sz + ns)), E5 by (unfold is_u32 in *; lia). }
  rewrite Em. split; [|word_frame].
  eapply (hdrs_replace m _ b b l [(ps, pu); (sz, true); (ns, false)] post'); change (b + total l) with P.
  - cbn [app]. by rewrite <- Epost.
  - done.
  - cbn. lia.
  - lia.
  - Z.div_mod_to_equations; lia.
  - done.
  - replace (P + (ps + sz + ns)) with (N + ns) by lia. by words.
  - by words.
  - word_frame.
Qed.

End kfree.

Lemma freed_list_total l ps pu sz post :
  total (freed_list l ps pu sz post) = total (l ++ (ps, pu) :: (sz, true) :: post).
Proof.
  unfold freed_list. destruct pu, post as [|[ns []] post']; rewrite !total_app; cbn [total fst]; lia.
Qed.

(** The blocks before the freed one end with its predecessor. *)
Lemma merged h l ps pu sz post :
  Heap h (l ++ (ps, pu) :: (sz, true) :: post) →
  let P := base h + total l in
  let next := link (base h) (P + ps + sz) post in
  let nu := match post with (_, false) :: _ => false | _ => true end in
  hdrs (merge (h_mem h) (P + Z.b2z pu) (P + ps) next pu nu) (base h) (base h) (freed_list l ps pu sz post) ∧
  ∀ x, ¬ in_headers P (P + ps) x →
    load8 (merge (h_mem h) (P + Z.b2z pu) (P + ps) next pu nu) x = load8 (h_mem h) x.
Proof.
  intros [Hh _ Hal Hlo Hhi] P next nu. subst P next nu. unfold freed_list.
  destruct post as [|[ns []] post'] eqn:Ep; destruct pu eqn:Epu.
  - by apply (merge_none _ _ l ps true sz []).
  - by apply (merge_prev _ _ l ps false sz []).
  - by apply (merge_none _ _ l ps true sz ((ns, true) :: post')).
  - by apply (merge_prev _ _ l ps false sz ((ns, true) :: post')).
  - cbn [link Z.b2z]. rewrite (Z.add_0_r (_ + sz)).
    by apply (merge_next _ _ l ps true sz ((ns, false) :: post')).
  - cbn [link Z.b2z]. rewrite (Z.add_0_r (_ + sz)).
    by apply (merge_both _ _ l ps false sz ((ns, false) :: post')).
Qed.

Lemma kfree_spec fuel h pre sz post :
  Heap h (pre ++ (sz, true) :: post) → (length pre < fuel)%nat →
  ∃ h', kfree fuel h (base h + total pre + 8) = Ok h' ∧
    Heap h' (coalesce pre sz post) ∧ total (coalesce pre sz post) = total (pre ++ (sz, true) :: post) ∧
    base h' = base h ∧ next_free h' = next_free h ∧ eflags h' = eflags h ∧
    (∀ q b, pre = q ++ [b] → ∀ x, ¬ in_headers (base h + total q) (base h + total pre) x →
       load8 (h_mem h') x = load8 (h_mem h) x).
Proof.
  intros HH Hf. destruct (exists_last (l := pre)) as (l & [ps pu] & ->).
  { intros ->. destruct HH as [_ (s & r & [=]) _ _ _]. }
  rewrite coalesce_snoc, <- app_assoc in *. cbn [app] in HH. rewrite length_app in Hf. cbn in Hf.
  destruct (id HH) as [Hh Hfst Hal Hlo Hhi].
  pose proof (kfree_layout _ _ _ _ _ _ _ Hh Hlo Hal Hhi)
    as [(_ & _ & Hb & H8 & H8' & H4 & H4') (HP & HP4 & HP2) (HF & HF4 & HF2) (HN & Ht & Hb') _ HL _].
  rewrite total_app. cbn [total fst]. rewrite Z.add_0_r, Z.add_assoc.
  unfold kfree. set (h0 := cli_asm h).
  replace (u32 (base h + total l + ps + 8 - sizeof_header)) with (base h + total l + ps)
    by (unfold sizeof_header; rewrite u32_id; unfold is_u32 in *; lia).
  pose proof (find_prev_blocks (h_mem h) (base h) ps pu sz true post l fuel (base h) ltac:(lia) Hlo Hal Hhi Hh) as Hp.
  replace (link (base h) (base h) (l ++ (ps, pu) :: (sz, true) :: post)) with (base h) in Hp.
  2: { destruct Hfst as (s & r & ->). cbn. lia. }
  change (h_mem h0) with (h_mem h). change (base h0) with (base h). rewrite Hp. cbn [mbind res_bind].
  unfold hnext at 1 2 3. rewrite (reset_even _ true HF HF2).
  pose proof Hh as Hh2. apply hdrs_app in Hh2 as [Hl Hh2]. cbn [hdrs] in Hh2.
  destruct Hh2 as (_ & _ & _ & _ & EF & _ & _ & _ & Hpo). rewrite EF.
  rewrite (used_even _ pu HP2), (reset_base _ HF HF4).
  rewrite (reset_base (base h)) by (unfold is_u32; lia || done).
  pose proof (hdrs_total _ _ _ _ Hl) as [Hl0 _].
  rewrite (proj2 (Z.eqb_neq (base h + total l + ps) (base h))) by lia.
  set (next := link (base h) (base h + total l + ps + sz) post).
  assert (Enu : (if reset_ptr next =? base h then true else is_used next) =
                match post with (_, false) :: _ => false | _ => true end).
  { subst next. destruct post as [|[ns u] post']; cbn [link].
    - rewrite reset_base by (unfold is_u32; lia || done). by rewrite Z.eqb_refl.
    - cbn [link total hdrs fst] in HL, Hb', Hpo. destruct Hpo as (_ & _ & Hn8 & Hn4 & Hpo).
      apply hdrs_total in Hpo as [Hpo _]. rewrite reset_even, used_even
        by (unfold is_u32 in *; Z.div_mod_to_equations; lia).
      rewrite (proj2 (Z.eqb_neq _ _)) by lia. by destruct u. }
  rewrite Enu. destruct (merged h l ps pu sz post HH) as [Hm Hx].
  eexists. split; [reflexivity|]. cbn [io_store_eflags with_mem h_mem base next_free eflags].
  split_and!; try done.
  - split; cbn [io_store_eflags with_mem h_mem base]; try done.
    + destruct Hfst as (s & r & E). unfold freed_list. destruct l as [|[s0 u0] l].
      * injection E as -> -> _. destruct post as [|[ns []] post']; cbn [app]; by eexists _, _.
      * injection E as -> -> _. destruct pu, post as [|[ns []] post']; cbn [app]; by eexists _, _.
    + change (base h0) with (base h). by rewrite freed_list_total.
  - rewrite freed_list_total. rewrite !total_app. cbn [total fst]. lia.
  - intros q c Eq. apply app_inj_tail in Eq as [-> <-]. exact Hx.
Qed.

(** C18: [kfree] of a block in use returns it to the list of blocks, joined with
    the free neighbours on both sides; the heap stays well formed and of the same
    size, only the headers of the block and of its predecessor are written, and the
    interrupt flag is the one of the caller. *)
Theorem kfree_correct fuel h pre sz post :
  Heap h (pre ++ (sz, true) :: post) → (length pre < fuel)%nat →
  ∃ h', kfree fuel h (base h + total pre + 8) = Ok h' ∧
    Heap h' (coalesce pre sz post) ∧ total (coalesce pre sz post) = total (pre ++ (sz, true) :: post) ∧
    base h' = base h ∧ next_free h' = next_free h ∧ eflags h' = eflags h ∧
    (∀ q b, pre = q ++ [b] → ∀ x, ¬ in_headers (base h + total q) (base h + total pre) x →
       load8 (h_mem h') x = load8 (h_mem h) x).
Proof. apply kfree_spec. Qed.

(** Writing into a block behind its header keeps the heap. *)
Lemma Heap_payload h l1 sz u l2 m' :
  Heap h (l1 ++ (sz, u) :: l2) →
  (∀ x, ¬ (base h + total l1 + 8 ≤ x < base h + total l1 + sz) → load8 m' x = load8 (h_mem h) x) →
  Heap (with_mem h m') (l1 ++ (sz, u) :: l2).
Proof.
  intros [Hh Hfst Hal Hlo Hhi] Hf. split; cbn [with_mem h_mem base]; try done.
  apply hdrs_app in Hh as [H1 H2]. cbn [hdrs] in H2. destruct H2 as (E1 & E2 & H8 & H4 & H3).
  apply hdrs_app. split.
  - eapply hdrs_frame; [exact H1|]. intros x Hx. apply Hf. lia.
  - cbn [hdrs]. rewrite !(load32_frame (h_mem h) m') by (intros x Hx; apply Hf; lia).
    split_and!; try done. eapply hdrs_frame; [exact H3|]. intros x Hx. apply Hf. lia.
Qed.

(** The bytes a client may use: the payload of the blocks in use. *)
Fixpoint used_byte (a : Z) (l : list block) (x : Z) : Prop :=
  match l with
  | [] => False
  | (sz, u) :: r => u = true ∧ a + 8 ≤ x < a + sz ∨ used_byte (a + sz) r x
  end.

(** A byte that belongs to a client of the heap or lies outside of it. *)
Definition safe (h : heap) (l : list block) (x : Z) : Prop :=
  x < base h ∨ base h + total l ≤ x ∨ used_byte (base h) l x.

Lemma used_byte_app a l1 l2 x :
  used_byte a (l1 ++ l2) x ↔ used_byte a l1 x ∨ used_byte (a + total l1) l2 x.
Proof.
  revert a. induction l1 as [|[s u] l1 IH]; intros a; cbn [app used_byte total fst].
  - rewrite Z.add_0_r. tauto.
  - rewrite IH. replace (a + s + total l1) with (a + (s + total l1)) by lia. tauto.
Qed.

Lemma used_byte_range m fin a l x : hdrs m fin a l → used_byte a l x → a + 8 ≤ x < a + total l.
Proof.
  revert a. induction l as [|[s u] l IH]; intros a Hh Hx; [done|]. cbn [hdrs used_byte total fst] in *.
  destruct Hh as (_ & _ & H8 & _ & Hh). pose proof (hdrs_total _ _ _ _ Hh) as [Ht _].
  destruct Hx as [[_ Hx]|Hx]; [lia|]. specialize (IH _ Hh Hx). lia.
Qed.

(** Headers do not depend on the bytes in use. *)
Lemma hdrs_used m m' fin a l :
  hdrs m fin a l → (∀ x, a ≤ x < a + total l → ¬ used_byte a l x → load8 m' x = load8 m x) →
  hdrs m' fin a l.
Proof.
  revert a. induction l as [|[s u] l IH]; intros a Hh Hf; [done|].
  cbn [hdrs used_byte total fst] in *. destruct Hh as (Hn & Hs & H8 & H4 & Hr).
  pose proof (hdrs_total _ _ _ _ Hr) as [Ht _].
  assert (Hhd : ∀ x, a ≤ x < a + 8 → load8 m' x = load8 m x).
  { intros x Hx. apply Hf; [lia|]. intros [[_ ?]|Hu]; [lia|].
    pose proof (used_byte_range _ _ _ _ _ Hr Hu). lia. }
  rewrite !(load32_frame m m') by (intros x Hx; apply Hhd; lia). split_and!; try done.
  apply IH; [done|]. intros x Hx Hu. apply Hf; [lia|]. intros [[_ ?]|?]; [lia|done].
Qed.

Lemma Heap_safe h l m' :
  Heap h l → (∀ x, ¬ safe h l x → load8 m' x = load8 (h_mem h) x) → Heap (with_mem h m') l.
Proof.
  intros [Hh Hfst Hal Hlo Hhi] Hf. split; cbn [with_mem h_mem base]; try done.
  eapply hdrs_used; [exact Hh|]. intros x Hx Hu. apply Hf. unfold safe. intros [?|[?|?]]; [lia|lia|done].
Qed.

(** A free block has no byte in use. *)
Lemma safe_not_free h m fin Q sz post x : hdrs m fin (base h) (Q ++ (sz, false) :: post) →
  safe h (Q ++ (sz, false) :: post) x → ¬ (base h + total Q ≤ x < base h + total Q + sz).
Proof.
  intros Hh Hs. apply hdrs_app in Hh as [Hq Hh]. cbn [hdrs] in Hh. destruct Hh as (_ & _ & H8 & _ & Hp).
  pose proof (hdrs_total _ _ _ _ Hq) as [Hq0 _]. pose proof (hdrs_total _ _ _ _ Hp) as [Hp0 _].
  unfold safe in Hs. rewrite total_app, used_byte_app in Hs. cbn [total fst used_byte] in Hs.
  destruct Hs as [?|[?|[Hu|[[? _]|Hu]]]]; [lia|lia| |done|].
  - pose proof (used_byte_range _ _ _ _ _ Hq Hu). lia.
  - pose proof (used_byte_range _ _ _ _ _ Hp Hu). lia.
Qed.

(** ** [init_kmalloc] *)

(** The heap after [init_kmalloc] is one free block of 0x20 frames. *)
Lemma init_kmalloc_heap {A : Type} `{FrameAlloc A} m (pf pf' : A) e a :
  fa_alloc pf 32 = Ok (a, pf') → 0 ≤ a → a `mod` 4 = 0 → a + 131072 < 4294967296 →
  ∃ h, init_kmalloc m pf e = Ok (h, pf') ∧ Heap h [(131072, false)] ∧ starts_at h [] [(131072, false)] ∧
    base h = a ∧ eflags h = e ∧ only_changes m (h_mem h) a 8 ∧ (bytes_ok m → bytes_ok (h_mem h)).
Proof.
  intros E H0 H4 Hb. unfold init_kmalloc. rewrite E. cbn [mbind res_bind].
  eexists. split; [reflexivity|]. unfold set_hnext, set_hsize.
  rewrite reset_base by (unfold is_u32; lia || done). change (u32 131072) with 131072.
  split; [|split; [|split_and!; [done|done|eapply only_changes_trans; apply only_changes_store32; lia|intros Hm; by repeat apply bytes_ok_store32]]].
  - split; cbn [h_mem base total fst hdrs link]; try done; try lia; [|by eexists _, _].
    split_and!; try done.
    + rewrite load32_store32_ne by lia. apply load32_store32_eq. unfold is_u32; lia.
    + apply load32_store32_eq. unfold is_u32; lia.
  - split; cbn [next_free base total]; [lia|by eexists _, _].
Qed.

(** ** Where the list breaks *)

(** A heap at 0x1000 with the given blocks. *)
Fixpoint build (fin a : Z) (l : list block) (m : mem) : mem :=
  match l with
  | [] => m
  | (sz, u) :: r => build fin (a + sz) r (store32 (store32 m a (link fin (a + sz) r)) (a + 4) sz)
  end.

Definition ex_heap (l : list block) (nf : Z) : heap := mkHeap (build 4096 4096 l ∅) 4096 nf 512.

Ltac heap_by_compute :=
  split; [cbn [hdrs app]; split_and!; try exact I; vm_compute; (reflexivity || discriminate) | by eexists _, _ | reflexivity | vm_compute; discriminate | vm_compute; reflexivity].

Lemma skip_used_self_loop m p : hnext m p = p → is_used p = true → ∀ fuel, skip_used fuel m p = NoFuel.
Proof.
  intros Hn Hu fuel. induction fuel as [|fuel IH]; cbn [skip_used]; [done|]. by rewrite Hn, Hu.
Qed.


(** The search ends at [base] without looking at it: with [next_free] behind
    the first block, a request that the first block could serve panics. *)
Theorem kmalloc_skips_first_block :
  Heap (ex_heap [(128, false); (64, true); (32, false); (48, true)] 4288)
    [(128, false); (64, true); (32, false); (48, true)] ∧
  starts_at (ex_heap [(128, false); (64, true); (32, false); (48, true)] 4288)
    [(128, false); (64, true)] [(32, false); (48, true)] ∧
  kmalloc 10 (ex_heap [(128, false); (64, true); (32, false); (48, true)] 4288) 40 = Panic "malloc error \n" ∧
  round_size 40 + 8 ≤ 128.
Proof.
  split; [heap_by_compute|]. split; [split; [reflexivity|by eexists _, _]|].
  split; [vm_compute; reflexivity|vm_compute; discriminate].
Qed.

Lemma find_prev_two_cycle m p q freed :
  hnext m p = q → hnext m q = p → reset_ptr p ≠ reset_ptr freed → reset_ptr q ≠ reset_ptr freed →
  ∀ fuel, find_prev fuel m p freed = NoFuel ∧ find_prev fuel m q freed = NoFuel.
Proof.
  intros Hp Hq Hnp Hnq fuel. induction fuel as [|fuel [IH1 IH2]]; [done|]. cbn [find_prev].
  rewrite Hp, Hq, (proj2 (Z.eqb_neq _ _) Hnp), (proj2 (Z.eqb_neq _ _) Hnq). done.
Qed.

Definition ex_before : heap := ex_heap [(128, false); (64, true); (32, false); (48, true)] 4288.
Definition ex_freed : heap := match kfree 10 ex_before 4232 with Ok h => h | _ => ex_before end.
Definition ex_stale : heap := match kmalloc 10 ex_freed 4 with Ok (_, h) => h | _ => ex_before end.

(** When [kfree] joins the block that [next_free] points to with its left
    neighbour, [next_free] keeps pointing into the joined block: the next [kmalloc]
    returns memory that the list still holds as free, and [kfree] of it never ends. *)
Theorem kfree_leaves_stale_next_free :
  kfree 10 ex_before 4232 = Ok ex_freed ∧ Heap ex_freed [(224, false); (48, true)] ∧
  kmalloc 10 ex_freed 4 = Ok (4316, ex_stale) ∧ Heap ex_stale [(224, false); (48, true)] ∧
  4096 + 8 ≤ 4316 < 4096 + 224 ∧ ∀ fuel, kfree fuel ex_stale 4316 = NoFuel.
Proof.
  split; [vm_compute; reflexivity|]. split; [heap_by_compute|]. split; [vm_compute; reflexivity|].
  split; [heap_by_compute|]. split; [lia|]. intros fuel. unfold kfree.
  change (find_prev fuel (h_mem (cli_asm ex_stale)) (base (cli_asm ex_stale)) (u32 (4316 - sizeof_header)))
    with (find_prev fuel (h_mem ex_stale) (base ex_stale) 4308).
  assert (Eb : base ex_stale = 4096) by (vm_compute; reflexivity). rewrite Eb.
  rewrite (proj1 (find_prev_two_cycle (h_mem ex_stale) 4096 4321 4308
      ltac:(vm_compute; reflexivity) ltac:(vm_compute; reflexivity)
      ltac:(vm_compute; discriminate) ltac:(vm_compute; discriminate) fuel)).
  reflexivity.
Qed.

(** ** Witnesses *)

Lemma kmalloc_correct_witness :
  let h := ex_heap [(256, false)] 4096 in
  ∃ h', kmalloc 1 h 20 = Ok (4332, h') ∧ 20 + 8 ≤ 28 ∧
    Heap h' [(228, false); (28, true)] ∧ starts_at h' [] [(228, false); (28, true)] ∧
    base h' = base h ∧ eflags h' = eflags h ∧ (∀ x, ¬ in_headers 4096 4324 x → load8 (h_mem h') x = load8 (h_mem h) x).
Proof.
  intros h. apply (kmalloc_correct 1 h 20 [] [] 256 []);
    [heap_by_compute|split; [reflexivity|by eexists _, _]|lia|lia|vm_compute; discriminate|constructor|cbn; lia].
Defined.

Lemma kfree_correct_witness :
  let h := ex_heap [(128, false); (64, true); (32, false); (48, true)] 4096 in
  ∃ h', kfree 2 h 4232 = Ok h' ∧
    Heap h' [(224, false); (48, true)] ∧ 272 = 272 ∧
    base h' = base h ∧ next_free h' = next_free h ∧ eflags h' = eflags h ∧
    (∀ q b, [(128, false)] = q ++ [b] → ∀ x, ¬ in_headers (base h + total q) (base h + 128) x →
       load8 (h_mem h') x = load8 (h_mem h) x).
Proof.
  intros h. apply (kfree_correct 2 h [(128, false)] 64 [(32, false); (48, true)]); [|cbn; lia].
  heap_by_compute.
Defined.

End Kmalloc.
