(* ===== verification/Start.v ===== *)
(** * The start of the system ([kinit] of [src/kernel/kinit.cpp])

    [kinit] calls the initialisation functions one after the other: the memory map, the
    tables of the processor, paging, the heap, the first processes. From then on interrupts
    drive the kernel: its last state satisfies the invariants of [System.v]. *)

From S2P Require Import Prelude Memory KType PageFrames FrameRemoval Boot VarMem Timer Process Task Ports Keyboard Descriptor.
From S2P Require Import Clone Fork PagingStart Interrupt System Execution Asmfunc InitTasks Kmalloc.

Module Start.
Import VarMem Process Task Clone Fork InitTasks Interrupt System Execution.

(** ** The code *)

Section code.
Context {D : Type} `{Ports D}.

(** [init_pit] and [init_pic] are not in the repository; [invalid] and [isr n] are the addresses
    of the entry points in [isr.nas]. *)
Context (init_pit init_pic : D → D) (invalid : Z) (isr : Z → Z).

(** What [kinit] leaves behind: the kernel, [bootinfo.mem_size], the tables of the processor,
    the page directory, the heap's [base] and [next_free], the address [x], and the devices. *)
Record started := mkStarted {
  s_kernel : K;
  s_mem_size : Z;
  s_tss : Z;
  s_idtr : Z * Z;
  s_gdtr : Z * Z;
  s_kPdir : Z;
  s_kPtables : Z;
  s_heap : Kmalloc.heap;
  s_x : Z;
  s_devices : D
}.

(** [void kinit( void* mbd, unsigned int magic )] without the output and the endless loop at its
    end; [e] are the processor's flags. *)
Definition kinit (fuel : nat) (k : K) (d : D) (e mem_size mbd magic : Z) : res started :=
  '(pf, mem_size) ← Boot.mbi_read (vm_mem (vm k)) fuel (vm_pf (vm k)) mem_size mbd magic;
  '(tss_p, m, pf) ← Descriptor.initTSS (vm_mem (vm k)) pf;
  '(idtaddr, m, pf) ← Descriptor.initIDT m pf invalid isr;
  '(gdtaddr, m, pf) ← Descriptor.initGDT m pf tss_p;
  let idtr := Descriptor.lidt idtaddr in
  let gdtr := Descriptor.lgdt gdtaddr in
  let d := init_pit d in
  let d := init_pic d in
  d ← Keyboard.init_mouse_keyboard fuel d;
  '(kPdir, kPtables, st) ← initPaging (mkVM m pf) mem_size 0;
  '(h, pf) ← Kmalloc.init_kmalloc (vm_mem st) (vm_pf st) e;
  let d := io_out8_asm 33 254 d in
  '(x, h) ← Kmalloc.kmalloc fuel h 4;
  let h := Kmalloc.with_mem h (store32 (Kmalloc.h_mem h) x 1) in
  k ← init_tasks (with_vm k (mkVM (Kmalloc.h_mem h) pf)) kPdir mem_size;
  Ok (mkStarted k mem_size tss_p idtr gdtr kPdir kPtables h x d).

End code.

(** ** After [init_tasks] the system runs *)

Section live.
Context (k k' : K) (kPdir mem_size : Z) (i j : nat) (di dj : Z) (HB : Booted k k' kPdir mem_size i j di dj).

Lemma booted_members : leased (pm k') i ∧ leased (pm k') j.
Proof.
  destruct (bo_ids _ _ _ _ _ _ _ _ HB) as [Hi Hj]. apply getProc_leased in Hi as (_ & Hi & _), Hj as (_ & Hj & _). done.
Qed.

Lemma booted_ne : i ≠ j.
Proof. intros ->. destruct (bo_frames _ _ _ _ _ _ _ _ HB j (or_introl eq_refl)) as [_ H]. destruct (H 0) as [_ H']; [done|]. by apply (H' 0). Qed.

Lemma booted_apart : frame_of (pr (pm k') i) + frame_size ≤ frame_of (pr (pm k') j) ∨
  frame_of (pr (pm k') j) + frame_size ≤ frame_of (pr (pm k') i).
Proof.
  destruct (bo_frames _ _ _ _ _ _ _ _ HB i (or_introl eq_refl)) as [_ H]. unfold frame_size in *.
  set (fi := frame_of (pr (pm k') i)) in *. set (fj := frame_of (pr (pm k') j)) in *.
  destruct (Z.le_gt_cases (fi + 68) fj), (Z.le_gt_cases (fj + 68) fi); auto. exfalso.
  destruct (Z.le_gt_cases fi fj).
  - destruct (H (fj - fi)) as [_ H']; [lia|]. apply (H' 0); lia.
  - destruct (H 0) as [_ H']; [lia|]. apply (H' (fi - fj)); lia.
Qed.

Lemma booted_running : Running k' [[]; [i]; []; []] i.
Proof.
  pose proof booted_ne as Hij. destruct booted_members as [Hi Hj]. destruct (bo_run _ _ _ _ _ _ _ _ HB) as [HW Hc].
  destruct (bo_cpu _ _ _ _ _ _ _ _ HB) as (Hc3 & Ht & _ & Hret). destruct (bo_ready _ _ _ _ _ _ _ _ HB) as [Ri Rj].
  pose proof (bo_leased _ _ _ _ _ _ _ _ HB) as Hl. pose proof (bo_frames _ _ _ _ _ _ _ _ HB) as Hf.
  split; try done.
  - cbn. intros l ->%list_elem_of_singleton. done.
  - intros l [-> | ->]%Hl; eexists; (split; [eassumption|]); [done|]. intros E. by destruct Hij.
  - intros l Hll. by apply Hf, Hl.
  - intros a b [-> | ->]%Hl [-> | ->]%Hl Hab; try done; [by apply booted_apart|]. destruct booted_apart; [by right|by left].
  - apply (bo_space _ _ _ _ _ _ _ _ HB).
  - intros a (l & Hll & Ha). apply Hl in Hll. destruct (Hf l Hll) as [_ H].
    replace a with (frame_of (pr (pm k') l) + (a - frame_of (pr (pm k') l))) by lia. apply H. lia.
Qed.

Lemma booted_clocks : Timer.head (timer k) = [] → Repr nr_irq invalid_entry (irqQue k) invalid_entry [] → Clocks k'.
Proof.
  intros Ht Hi. destruct (bo_clock _ _ _ _ _ _ _ _ HB) as (Et & Ei & Ev).
  assert (Hh : Timer.head (timer k') = [Timer.mkEntry 0 Timer.TaskSwitch 1]).
  { rewrite Et. unfold Timer.reset_quantum. rewrite Ht. reflexivity. }
  split.
  - rewrite Hh. repeat constructor.
  - rewrite Hh. by intros e ->%list_elem_of_singleton.
  - rewrite Hh. by intros e ->%list_elem_of_singleton.
  - rewrite Ev. intros v Hv. set_unfold in Hv. lia.
  - rewrite Ei. exists []. split; [done|]. intros e He. by apply elem_of_nil in He.
Qed.

Lemma booted_live r : Timer.head (timer k) = [] → Repr nr_irq invalid_entry (irqQue k) invalid_entry [] → regs_ok r →
  live (k', r).
Proof. intros Ht Hi Hr. exists [[]; [i]; []; []], i. split_and!; [by apply booted_running|by apply booted_clocks|done]. Qed.

End live.

(** ** Memory that grows *)

(** What is not free memory stays so, with its bytes. *)
Definition Extends (st st' : VarMem.vm PFAllocator.state) : Prop :=
  bytes_ok (vm_mem st') ∧
  ∀ a, fa_used (vm_pf st) a → fa_used (vm_pf st') a ∧ load8 (vm_mem st') a = load8 (vm_mem st) a.

Lemma Extends_trans st1 st2 st3 : Extends st1 st2 → Extends st2 st3 → Extends st1 st3.
Proof. intros [_ H1] [Hb H2]. split; [done|]. intros a Ha. destruct (H1 a Ha) as [Ha2 E]. destruct (H2 a Ha2) as [Ha3 E']. split; [done|congruence]. Qed.

Lemma Extends_word st st' a : Extends st st' → (∀ o, 0 ≤ o < 4 → fa_used (vm_pf st) (a + o)) →
  load32 (vm_mem st') a = load32 (vm_mem st) a.
Proof.
  intros [_ H] Ha. apply PagingStart.load32_bytes. intros b Hb. apply H. replace b with (a + (b - a)) by lia. apply Ha. lia.
Qed.

(** An initialisation that takes a run of [n] frames and writes to it. *)
Lemma Extends_run (m : mem) (pf : PFAllocator.state) (n k : Z) (c : nat) : PFAllocator.run_ready pf (k + n) (S c) → 0 ≤ n < 65536 → 0 < k →
  ∃ p pf', fa_alloc pf n = Ok (p, pf') ∧ PFAllocator.run_ready pf' k c ∧ p `mod` 4096 = 0 ∧ 0 ≤ p ∧ p + 4096 * n < 4294967296 ∧
    (∀ a, p ≤ a < p + 4096 * n → fa_used pf' a) ∧
    ∀ m' s, s ≤ 4096 * n → bytes_ok m' → only_changes m m' p s → Extends (mkVM m pf) (mkVM m' pf').
Proof.
  intros Hr Hn Hk. destruct (PFAllocator.alloc_run pf n k c Hr Hn Hk) as (p & pf' & E & Hr' & Hal & H0 & H1 & Hus & Hfr).
  exists p, pf'. split_and!; try done.
  - intros a Ha. apply Hus. by right.
  - intros m' s Hs Hb Hc. split; [done|]. cbn [vm_mem vm_pf]. intros a Ha. split; [apply Hus; by left|].
    apply Hc. intros Hin. apply (Hfr a); [lia|done].
Qed.


(** ** The heap of [kinit] *)

(** The heap with one block of twelve bytes, and 1 in it. *)
Definition first_blocks : list Kmalloc.block := [(131060, false); (12, true)].

Record HeapUp (st st' : VarMem.vm PFAllocator.state) (h : Kmalloc.heap) (x : Z) : Prop := {
  hu_heap : Kmalloc.Heap h first_blocks ∧ Kmalloc.starts_at h [] first_blocks;
  hu_x : x = Kmalloc.base h + 131068 ∧ load32 (vm_mem st') x = 1;
  hu_mem : Kmalloc.h_mem h = vm_mem st';
  hu_used : ∀ a, Kmalloc.base h ≤ a < Kmalloc.base h + 131072 → fa_used (vm_pf st') a;
  hu_extends : Extends st st'
}.

Lemma heap_up (fuel c : nat) (m : mem) (pf : PFAllocator.state) (e k : Z) : bytes_ok m → PFAllocator.run_ready pf (k + 32) (S c) → 0 < k →
  (0 < fuel)%nat →
  ∃ h1 pf' x h2, Kmalloc.init_kmalloc m pf e = Ok (h1, pf') ∧ Kmalloc.kmalloc fuel h1 4 = Ok (x, h2) ∧
    let h := Kmalloc.with_mem h2 (store32 (Kmalloc.h_mem h2) x 1) in
    HeapUp (mkVM m pf) (mkVM (Kmalloc.h_mem h) pf') h x ∧ PFAllocator.run_ready pf' k c.
Proof.
  intros Hm Hr Hk Hf. destruct (Extends_run m pf 32 k c Hr) as (a & pf' & E & Hr' & Hal & H0 & H1 & Hus & Hex); [lia|done|].
  destruct (Kmalloc.init_kmalloc_heap m pf pf' e a E H0) as (h1 & E1 & HH & Hs & Hb & _ & Hc & Hby); [Z.div_mod_to_equations; lia|lia|].
  specialize (Hby Hm).
  destruct (Kmalloc.kmalloc_spec fuel h1 4 [] [] 131072 [] HH Hs) as (h2 & E2 & _ & HH2 & Hs2 & Hb2 & _ & Hc2);
    [lia|lia|done|constructor|done|]. change (Kmalloc.round_size 4) with 12 in *. rewrite Hb in *.
  cbn [app Kmalloc.total] in *. rewrite Z.add_0_r in *. replace (a + (131072 - 12) + 8) with (a + 131068) in E2 by lia.
  change (131072 - 12) with 131060 in *.
  pose proof (Kmalloc.kmalloc_bytes _ _ _ _ _ E2 Hby) as Hby2. exists h1, pf', (a + 131068), h2. split_and!; [done|done| |done].
  set (h := Kmalloc.with_mem h2 _). assert (Hbh : Kmalloc.base h = a) by done. split; cbn [vm_mem vm_pf].
  - split; [|exact Hs2]. destruct HH2 as [G1 G2 G3 G4 G5]. split; try done. rewrite Hbh. rewrite Hb2 in G1.
    cbn [Kmalloc.hdrs Kmalloc.link first_blocks h Kmalloc.h_mem Kmalloc.with_mem] in *. by rewrite !load32_store32_ne by lia.
  - rewrite Hbh. split; [done|]. by apply load32_store32_eq.
  - done.
  - rewrite Hbh. intros b Hb'. apply Hus. lia.
  - apply (Hex _ 131072); [lia|by apply bytes_ok_store32|]. eapply only_changes_trans; [eapply only_changes_mono; [exact Hc|lia|lia]|].
    eapply only_changes_trans; [|apply only_changes_store32; lia]. intros b Hb'. apply Hc2. unfold Kmalloc.in_headers. lia.
Qed.

(** ** What later writes leave alone *)

Lemma gates_kept (st st' : VarMem.vm PFAllocator.state) t n offset ar : Extends st st' → 0 ≤ n < 256 →
  (∀ a, t ≤ a < t + 2048 → fa_used (vm_pf st) a) →
  Descriptor.gate_is (vm_mem st) (t + 8 * n) offset ar → Descriptor.gate_is (vm_mem st') (t + 8 * n) offset ar.
Proof. intros [_ HX] Hn Hu. apply Descriptor.gate_same. intros o Ho. apply HX, Hu. lia. Qed.

Lemma segments_kept (st st' : VarMem.vm PFAllocator.state) g tss : Extends st st' → (∀ a, g ≤ a < g + 16384 → fa_used (vm_pf st) a) →
  Descriptor.gdt_at (vm_mem st) g tss → Descriptor.gdt_at (vm_mem st') g tss.
Proof.
  intros [_ HX] Hu [Hs Hz]. assert (HE : ∀ o, 0 ≤ o < 16384 → load8 (vm_mem st') (g + o) = load8 (vm_mem st) (g + o)) by (intros o Ho; apply HX, Hu; lia).
  split; [|intros o Ho Hf; rewrite HE by done; by apply Hz]. unfold Descriptor.gdt_segments in *. rewrite !Forall_cons in *.
  unfold Descriptor.KCSeg, Descriptor.KDSeg, Descriptor.UCSeg, Descriptor.UDSeg, Descriptor.TCSeg, Descriptor.TDSeg, Descriptor.TssDesc in *.
  destruct Hs as (? & ? & ? & ? & ? & ? & ? & _). split_and!; try apply Forall_nil_2;
    (eapply Descriptor.seg_same; [|eassumption]; intros o Ho; rewrite <- !Z.add_assoc; apply HE; lia).
Qed.

Lemma translate_kept (st st' : VarMem.vm PFAllocator.state) kPdir mem_size va : Clone.Kernel st kPdir mem_size → Extends st st' → is_va va →
  Clone.kslot mem_size (va / 4194304) → translate (vm_mem st') kPdir va = translate (vm_mem st) kPdir va.
Proof.
  intros HK HX Hva Hs. pose proof (slot_range va Hva) as Hi. pose proof (idx_range va) as Hj.
  assert (Hd : dir_entry (vm_mem st') kPdir va = dir_entry (vm_mem st) kPdir va).
  { unfold dir_entry, dirE. apply (Extends_word st st'); [done|]. intros o Ho. apply (Clone.ke_used _ _ _ HK). lia. }
  apply translate_ext; [done|]. intros Hex. unfold table_entry. rewrite Hd. apply (Extends_word st st'); [done|].
  intros o Ho. apply (Clone.ke_table _ _ _ HK _ Hi Hs Hex). unfold dir_entry. lia.
Qed.

Lemma heap_kept (st st' : VarMem.vm PFAllocator.state) h x : Kmalloc.h_mem h = vm_mem st → Extends st st' → 
  (∀ a, Kmalloc.base h ≤ a < Kmalloc.base h + 131072 → fa_used (vm_pf st) a) → x = Kmalloc.base h + 131068 →
  Kmalloc.Heap h first_blocks → load32 (vm_mem st) x = 1 →
  Kmalloc.Heap (Kmalloc.with_mem h (vm_mem st')) first_blocks ∧ load32 (vm_mem st') x = 1.
Proof.
  intros Hm HX Hu -> [H1 H2 H3 H4 H5] Hx. split.
  - split; try done. cbn [Kmalloc.with_mem Kmalloc.h_mem Kmalloc.base]. eapply Kmalloc.hdrs_frame; [exact H1|].
    intros a Ha. rewrite Hm. apply HX, Hu. cbn in Ha. lia.
  - rewrite (Extends_word st st'); [done..|]. intros o Ho. apply Hu. lia.
Qed.

(** ** [kinit] *)

Section kinit.
Context {D : Type} `{Ports D} (init_pit init_pic : D → D) (invalid : Z) (isr : Z → Z).

(** The state that the boot loader and the constructors leave. [mbi_read] finds the frames of [pf] and
    [mem_size] bytes of memory; address 0 is not free; there is one run of frames for the tables, the
    heap and the first processes. *)
Record CanStart (fuel : nat) (k : K) (d : D) (ms0 mbd magic : Z) (pf : PFAllocator.state) (mem_size : Z) : Prop := {
  cs_bytes : bytes_ok (vm_mem (vm k));
  cs_map : Boot.mbi_read (vm_mem (vm k)) fuel (vm_pf (vm k)) ms0 mbd magic = Ok (pf, mem_size);
  cs_size : 0 ≤ mem_size ≤ 1069547520;
  cs_zero : fa_used pf 0;
  cs_frames : PFAllocator.run_ready pf (mem_size / dir_entrySize + 86) 38;
  cs_procs : ∃ q, pm k = PManager_new q;
  cs_timer : Timer.head (timer k) = [];
  cs_irq : Repr nr_irq invalid_entry (irqQue k) invalid_entry [];
  cs_keyboard : ∃ n, (n ≤ fuel)%nat ∧ ∀ d, Keyboard.settles n d;
  cs_entries : is_u32 invalid ∧ ∀ n, is_u32 (isr n)
}.

(** The system that runs. *)
Record SystemUp (k : K) (pf : PFAllocator.state) (mem_size : Z) (s : started (D := D)) : Prop := {
  su_live : ∀ r, regs_ok r → live (s_kernel s, r);
  su_init : ∃ i dir, getProc (pm (s_kernel s)) PID_INIT = Some i ∧ pCurrent (pm (s_kernel s)) = Some i ∧
    CanFork 3 (s_kernel s) [[]; [i]; []; []] (s_kPdir s) mem_size i (mkMM dir stacks);
  su_gates : ∀ n, 0 ≤ n < 255 → Descriptor.gate_is (vm_mem (vm (s_kernel s))) (snd (s_idtr s) + 8 * n)
    (match Descriptor.gate_entry n with Some e => isr e | None => invalid end)
    (if (n =? 48) || (n =? 128) then Descriptor.AR_INT_p3 else Descriptor.AR_INT);
  su_segments : Descriptor.gdt_at (vm_mem (vm (s_kernel s))) (snd (s_gdtr s)) (s_tss s);
  su_paging : ∀ va, 0 ≤ va < mem_size / dir_entrySize * dir_entrySize →
    translate (vm_mem (vm (s_kernel s))) (s_kPdir s) va = Some (va `mod` dir_entrySize);
  su_vram : ∀ va, PagingStart.vram ≤ va < PagingStart.vram + 2097152 → translate (vm_mem (vm (s_kernel s))) (s_kPdir s) va = Some va;
  su_heap : Kmalloc.Heap (Kmalloc.with_mem (s_heap s) (vm_mem (vm (s_kernel s)))) first_blocks ∧
    load32 (vm_mem (vm (s_kernel s))) (s_x s) = 1;
  su_memory : Extends (mkVM (vm_mem (vm k)) pf) (vm (s_kernel s))
}.

(** The tables of the processor. *)
Lemma tables_up (m : mem) (pf : PFAllocator.state) (k : Z) (c : nat) : bytes_ok m → is_u32 invalid → (∀ n, is_u32 (isr n)) →
  PFAllocator.run_ready pf (k + 21) (3 + c) → 0 < k →
  ∃ tss t g m1 m2 m3 pf1 pf2 pf3, Descriptor.initTSS m pf = Ok (tss, m1, pf1) ∧
    Descriptor.initIDT m1 pf1 invalid isr = Ok (t, m2, pf2) ∧ Descriptor.initGDT m2 pf2 tss = Ok (g, m3, pf3) ∧
    Extends (mkVM m pf) (mkVM m3 pf3) ∧ PFAllocator.run_ready pf3 k c ∧
    (∀ n, 0 ≤ n < 255 → Descriptor.gate_is m3 (t + 8 * n) (match Descriptor.gate_entry n with Some e => isr e | None => invalid end)
      (if (n =? 48) || (n =? 128) then Descriptor.AR_INT_p3 else Descriptor.AR_INT)) ∧
    (∀ a, t ≤ a < t + 2048 → fa_used pf3 a) ∧ Descriptor.gdt_at m3 g tss ∧ (∀ a, g ≤ a < g + 16384 → fa_used pf3 a).
Proof.
  intros Hm Hi Hisr Hr Hk. replace (k + 21) with (k + 20 + 1) in Hr by lia.
  destruct (Extends_run m pf 1 (k + 20) (2 + c) Hr) as (tss & pf1 & E1 & Hr1 & _ & T0 & T1 & _ & X1); [lia|lia|].
  destruct (Descriptor.initTSS_spec m pf pf1 tss Hm E1) as (m1 & F1 & Hm1 & C1 & _).
  replace (k + 20) with (k + 10 + 10) in Hr1 by lia.
  destruct (Extends_run m1 pf1 10 (k + 10) (1 + c) Hr1) as (t & pf2 & E2 & Hr2 & _ & _ & _ & U2 & X2); [lia|lia|].
  destruct (Descriptor.initIDT_spec m1 pf1 pf2 invalid isr t Hm1 Hi Hisr E2) as (m2 & F2 & Hm2 & C2 & Hg).
  destruct (Extends_run m2 pf2 10 k c Hr2) as (g & pf3 & E3 & Hr3 & _ & _ & _ & U3 & X3); [lia|lia|].
  destruct (Descriptor.initGDT_spec m2 pf2 pf3 tss g Hm2) as (m3 & F3 & Hm3 & C3 & Hs); [unfold is_u32; lia|done|].
  specialize (X1 m1 104 ltac:(lia) Hm1 C1). specialize (X2 m2 2048 ltac:(lia) Hm2 C2). specialize (X3 m3 16384 ltac:(lia) Hm3 C3).
  exists tss, t, g, m1, m2, m3, pf1, pf2, pf3. split_and!; try done.
  - eapply Extends_trans; [exact X1|]. by eapply Extends_trans.
  - intros n Hn. apply (gates_kept _ _ _ _ _ _ X3); [lia| |by apply Hg]. intros a Ha. apply U2. lia.
  - intros a Ha. apply X3. apply U2. lia.
  - intros a Ha. apply U3. lia.
Qed.

(** Paging, the heap and the first processes, from the state [st] behind the tables. *)
Record LowerUp (k : K) (st : VarMem.vm PFAllocator.state) (mem_size : Z) (k' : K) (kPdir : Z) (h : Kmalloc.heap) (x : Z) : Prop := {
  lu_live : ∀ r, regs_ok r → live (k', r);
  lu_init : ∃ i dir, getProc (pm k') PID_INIT = Some i ∧ pCurrent (pm k') = Some i ∧
    CanFork 3 k' [[]; [i]; []; []] kPdir mem_size i (mkMM dir stacks);
  lu_low : ∀ va, 0 ≤ va < mem_size / dir_entrySize * dir_entrySize →
    translate (vm_mem (vm k')) kPdir va = Some (va `mod` dir_entrySize);
  lu_vram : ∀ va, PagingStart.vram ≤ va < PagingStart.vram + 2097152 → translate (vm_mem (vm k')) kPdir va = Some va;
  lu_heap : Kmalloc.Heap (Kmalloc.with_mem h (vm_mem (vm k'))) first_blocks ∧ load32 (vm_mem (vm k')) x = 1;
  lu_memory : Extends st (vm k')
}.

Lemma lower_up (fuel : nat) (k : K) q (e mem_size : Z) (st : VarMem.vm PFAllocator.state) : bytes_ok (vm_mem st) → pm k = PManager_new q →
  Timer.head (timer k) = [] → Repr nr_irq invalid_entry (irqQue k) invalid_entry [] → 0 ≤ mem_size ≤ 1069547520 →
  fa_used (vm_pf st) 0 → PFAllocator.run_ready (vm_pf st) (mem_size / dir_entrySize + 65) 35 → (0 < fuel)%nat →
  ∃ kPdir kPtables st1 h1 pf2 x h2 k', initPaging st mem_size 0 = Ok (kPdir, kPtables, st1) ∧
    Kmalloc.init_kmalloc (vm_mem st1) (vm_pf st1) e = Ok (h1, pf2) ∧ Kmalloc.kmalloc fuel h1 4 = Ok (x, h2) ∧
    let h := Kmalloc.with_mem h2 (store32 (Kmalloc.h_mem h2) x 1) in
    init_tasks (with_vm k (mkVM (Kmalloc.h_mem h) pf2)) kPdir mem_size = Ok k' ∧ LowerUp k st mem_size k' kPdir h x.
Proof.
  intros Hm Hq Ht Hirq Hsz H0 Hr Hf.
  destruct (PagingStart.initPaging_spec st mem_size 0 62 31) as (D' & T & st1 & E1 & HP); [done|lia|unfold is_u32; lia|lia|by replace (62 + mem_size / dir_entrySize + 3) with (mem_size / dir_entrySize + 65) by lia|].
  pose proof (PagingStart.po_kernel _ _ _ _ _ _ _ HP H0) as HK1. pose proof (PagingStart.po_bytes _ _ _ _ _ _ _ HP) as Hm1.
  assert (X1 : Extends st st1) by (split; [done|apply HP]).
  destruct (heap_up fuel 30 (vm_mem st1) (vm_pf st1) e 30 Hm1) as (h1 & pf2 & x & h2 & E2 & E3 & HU & Hr2); [apply HP|lia|done|].
  cbv zeta in HU. set (h := Kmalloc.with_mem h2 _) in *. replace (mkVM (vm_mem st1) (vm_pf st1)) with st1 in HU by by destruct st1.
  destruct HU as [[Hh _] [Hx Hx1] Hhm Hu X2]. set (st2 := mkVM (Kmalloc.h_mem h) pf2) in *.
  assert (HK2 : Clone.Kernel st2 D' mem_size) by (eapply Kernel_keep; [exact HK1|apply X2]).
  destruct (init_tasks_spec (with_vm k st2) q D' mem_size Hq) as (i & j & di & dj & k' & E4 & HB & HF).
  { split; cbn [pm vm with_vm]; rewrite ?Hq; try done; [apply new_wf|intros l Hl; by apply not_elem_of_nil in Hl|by exists 0%nat|exact (proj1 X2)|lia|].
    by apply (PFAllocator.run_ready_ready pf2 30 30). }
  exists D', T, st1, h1, pf2, x, h2, k'. do 3 (split; [done|]). cbv zeta. fold h. fold st2. split; [exact E4|].
  assert (X3 : Extends st2 (vm k')) by (split; [apply (bo_space _ _ _ _ _ _ _ _ HB)|apply (bo_memory _ _ _ _ _ _ _ _ HB)]).
  assert (X13 : Extends st1 (vm k')) by by eapply Extends_trans. assert (Hsz' : 0 ≤ mem_size / dir_entrySize < 256) by (unfold dir_entrySize; Z.div_mod_to_equations; lia).
  split.
  - intros r Hrg. eapply booted_live; [exact HB|exact Ht|exact Hirq|done].
  - exists i, di. split_and!; [apply (bo_ids _ _ _ _ _ _ _ _ HB)|apply (bo_run _ _ _ _ _ _ _ _ HB)|done].
  - intros va Hva. rewrite (translate_kept st1 (vm k') D' mem_size va HK1 X13); [by apply HP|..].
    + unfold is_va, dir_entrySize in *. lia.
    + left. unfold dir_entrySize in *. Z.div_mod_to_equations; lia.
  - intros va Hva. rewrite (translate_kept st1 (vm k') D' mem_size va HK1 X13); [by apply HP|..]; unfold PagingStart.vram in Hva.
    + unfold is_va. lia.
    + right. Z.div_mod_to_equations; lia.
  - eapply (heap_kept st2); done.
  - by eapply Extends_trans.
Qed.

Lemma kinit_spec (fuel : nat) (k : K) (d : D) (e ms0 mbd magic : Z) (pf : PFAllocator.state) (mem_size : Z) :
  CanStart fuel k d ms0 mbd magic pf mem_size →
  ∃ s, kinit init_pit init_pic invalid isr fuel k d e ms0 mbd magic = Ok s ∧ s_mem_size s = mem_size ∧ SystemUp k pf mem_size s.
Proof.
  intros [Hm Hmap Hsz H0 Hr (q & Hq) Ht Hirq (n & Hn & Hkb) (Hinv & Hisr)].
  assert (Hf : (0 < fuel)%nat) by (destruct n; [by destruct (Hkb d)|lia]).
  assert (Hnr : 0 ≤ mem_size / dir_entrySize) by (unfold dir_entrySize; Z.div_mod_to_equations; lia).
  replace (mem_size / dir_entrySize + 86) with (mem_size / dir_entrySize + 65 + 21) in Hr by lia.
  destruct (tables_up (vm_mem (vm k)) pf (mem_size / dir_entrySize + 65) 35 Hm Hinv Hisr Hr)
    as (tss & t & g & m1 & m2 & m3 & pf1 & pf2 & pf3 & E1 & E2 & E3 & X & Hr3 & Hg & Ug & Hs & Us); [lia|].
  destruct (Keyboard.init_mouse_keyboard_ends n fuel (init_pic (init_pit d)) Hkb Hn) as (d1 & Ed).
  destruct (lower_up fuel k q e mem_size (mkVM m3 pf3)) as (D' & T & st1 & h1 & pf4 & x & h2 & k' & E4 & E5 & E6 & E7 & HL);
    try done; [apply X|by apply X|].
  eexists. split; [|split; [|split]].
  { unfold kinit. rewrite Hmap. cbn [mbind res_bind]. rewrite E1. cbn [mbind res_bind]. rewrite E2. cbn [mbind res_bind].
    rewrite E3. cbn [mbind res_bind]. rewrite Ed. cbn [mbind res_bind]. rewrite E4. cbn [mbind res_bind]. rewrite E5. cbn [mbind res_bind].
    rewrite E6. cbn [mbind res_bind]. rewrite E7. reflexivity. }
  all: cbn [s_mem_size s_kernel s_kPdir s_idtr s_gdtr s_tss s_heap s_x snd Descriptor.lidt Descriptor.lgdt]; try (apply HL).
  - done.
  - intros i Hi. apply (gates_kept _ _ _ _ _ _ (lu_memory _ _ _ _ _ _ _ HL)); [lia|done|by apply Hg].
  - by apply (segments_kept _ _ _ _ (lu_memory _ _ _ _ _ _ _ HL)).
  - eapply Extends_trans; [exact X|apply HL].
Qed.




End kinit.

(** ** A machine with 8 MiB

    The boot loader's information is at 0x8000; the memory from 1 MiB on is free. *)

Definition ex_info : mem :=
  store32 (store32 (store32 (store32 (store32 (store32 (store32 ∅ 32768 64) (32768 + 44) 24) (32768 + 48) 36864) 36864 20)
    (36864 + 4) 1048576) (36864 + 12) 7340032) (36864 + 20) 1.

Definition ex_free : PFAllocator.state :=
  PFAllocator.mkState (PFAllocator.mkSeg false 1048576 1792 None :: replicate 127 (PFAllocator.mkSeg true 0 0 None)) (Some 0%nat) None.

Definition ex_static : K :=
  mkK (PManager_new (recvQ proc0)) Timer.Timer_new false ex_irqQue 0 0 0 0 0 (mkVM ex_info PFAllocator.PFAllocator_new).

(** The controller of [Keyboard.v]. *)
#[local] Existing Instance Keyboard.Kbc_Ports.

Lemma wf_ex_free : PFAllocator.Wf ex_free [0%nat] [].
Proof.
  assert (H0 : ∀ i, i ∈ [0%nat] ++ [] ↔ i = 0%nat) by (intros i; cbn; apply list_elem_of_singleton).
  assert (Ht : ∀ i, (i < 127)%nat → PFAllocator.sg ex_free (S i) = PFAllocator.mkSeg true 0 0 None).
  { intros i Hi. unfold PFAllocator.sg.
    change (PFAllocator.segs ex_free !! S i) with (replicate 127 (PFAllocator.mkSeg true 0 0 None) !! i). by rewrite lookup_replicate_2. }
  constructor; [|done|done|by apply (bool_decide_unpack _); vm_compute]. constructor.
  - done.
  - intros i ->%H0. unfold PFAllocator.MaxNumSeg. lia.
  - intros [|i] Hi; [rewrite H0; done|]. rewrite Ht by (unfold PFAllocator.MaxNumSeg in Hi; lia). cbn. split; [|done]. intros _. rewrite H0. lia.
  - intros i ->%H0. unfold PFAllocator.seg_ok, PFAllocator.sg, ex_free, PFAllocator.ChunkSize; cbn; split_and!; lia || reflexivity.
  - intros i j a ->%H0 ->%H0. done.
Qed.

Lemma ex_can_start : CanStart 1048576 (λ _, 1048592) 2 ex_static true 0 32768 Boot.MULTIBOOT_BOOTLOADER_MAGIC ex_free 8388608.
Proof.
  split.
  - unfold ex_static, ex_info. cbn [vm vm_mem]. repeat apply bytes_ok_store32. apply bytes_ok_empty.
  - vm_compute. reflexivity.
  - lia.
  - exists [0%nat], []. split; [apply wf_ex_free|]. intros (i & ->%list_elem_of_singleton & Ho). unfold PFAllocator.owns in Ho. cbn in Ho. lia.
  - exists [0%nat], []. split_and!; [apply wf_ex_free| |cbn; unfold PFAllocator.MaxNumSeg; lia]. exists 0%nat. split; [by left|]. done.
  - by eexists.
  - done.
  - unfold ex_static. cbn [irqQue]. unfold ex_irqQue. destruct (Que_new_repr nr_irq invalid_entry invalid_entry) as (q & E & HR). by rewrite E.
  - exists 2%nat. split; [lia|]. intros []; cbn; [right; left|left]; reflexivity.
  - split; [|intros _]; unfold is_u32; lia.
Qed.




End Start.
