(* ===== verification/Ata.v ===== *)
(** * The ATA driver ([src/kernel/ata.cpp], [src/include/os/ata.h])

    The class [Ata] over the bus of [Ports.v] and the heap of [Kmalloc.v]. The
    static members ([channels], [ide_devices], [atapi_packet], [ide_irq_invoked],
    [isInit]) and the members of the object are one record. Data segments are flat,
    so the selector argument of the transfers is ignored. The loops that wait for
    the device have no bound in the code: they take fuel. The theorems run the
    driver against the drives of [IdeHdd.v]. *)

From S2P Require Import Prelude Memory Ports Kmalloc KString IdeHdd.

Module Ata.
Import Kmalloc.

(** ** Constants of [ata.h] *)

Definition ATA_SR_BSY : Z := 128.
Definition ATA_SR_DF : Z := 32.
Definition ATA_SR_DRQ : Z := 8.
Definition ATA_SR_ERR : Z := 1.

Definition ATA_ER_BBK : Z := 128.
Definition ATA_ER_UNC : Z := 64.
Definition ATA_ER_MC : Z := 32.
Definition ATA_ER_IDNF : Z := 16.
Definition ATA_ER_MCR : Z := 8.
Definition ATA_ER_ABRT : Z := 4.
Definition ATA_ER_TK0NF : Z := 2.
Definition ATA_ER_AMNF : Z := 1.

Definition ATA_CMD_READ_PIO : Z := 32.
Definition ATA_CMD_READ_PIO_EXT : Z := 36.
Definition ATA_CMD_READ_DMA : Z := 200.
Definition ATA_CMD_READ_DMA_EXT : Z := 37.
Definition ATA_CMD_WRITE_PIO : Z := 48.
Definition ATA_CMD_WRITE_PIO_EXT : Z := 52.
Definition ATA_CMD_WRITE_DMA : Z := 202.
Definition ATA_CMD_WRITE_DMA_EXT : Z := 53.
Definition ATA_CMD_CACHE_FLUSH : Z := 231.
Definition ATA_CMD_CACHE_FLUSH_EXT : Z := 234.
Definition ATA_CMD_PACKET : Z := 160.
Definition ATA_CMD_IDENTIFY_PACKET : Z := 161.
Definition ATA_CMD_IDENTIFY : Z := 236.
Definition ATAPI_CMD_EJECT : Z := 27.

Definition ATA_IDENT_DEVICETYPE : Z := 0.
Definition ATA_IDENT_MODEL : Z := 54.
Definition ATA_IDENT_CAPABILITIES : Z := 98.
Definition ATA_IDENT_MAX_LBA : Z := 120.
Definition ATA_IDENT_COMMANDSETS : Z := 164.
Definition ATA_IDENT_MAX_LBA_EXT : Z := 200.

Definition IDE_ATA : Z := 0.
Definition IDE_ATAPI : Z := 1.

Definition ATA_REG_DATA : Z := 0.
Definition ATA_REG_ERROR : Z := 1.
Definition ATA_REG_SECCOUNT0 : Z := 2.
Definition ATA_REG_LBA0 : Z := 3.
Definition ATA_REG_LBA1 : Z := 4.
Definition ATA_REG_LBA2 : Z := 5.
Definition ATA_REG_HDDEVSEL : Z := 6.
Definition ATA_REG_COMMAND : Z := 7.
Definition ATA_REG_STATUS : Z := 7.
Definition ATA_REG_SECCOUNT1 : Z := 8.
Definition ATA_REG_LBA3 : Z := 9.
Definition ATA_REG_LBA4 : Z := 10.
Definition ATA_REG_LBA5 : Z := 11.
Definition ATA_REG_CONTROL : Z := 12.
Definition ATA_REG_ALTSTATUS : Z := 12.

Definition ATA_PRIMARY : Z := 0.
Definition ATA_SECONDARY : Z := 1.
Definition ATA_READ : Z := 0.
Definition ATA_WRITE : Z := 1.

(** ** Data *)

Record IDEChannelRegisters := mkChan { c_base : Z; c_ctrl : Z; c_bmide : Z; c_nIEN : Z }.

Record ide_device := mkDev {
  Reserved : Z;
  Channel : Z;
  Drive : Z;
  Type_ : Z;
  Signature : Z;
  Capabilities : Z;
  CommandSets : Z;
  Size : Z;
  Model : list Z
}.

Definition chan0 : IDEChannelRegisters := mkChan 0 0 0 0.
Definition dev0 : ide_device := mkDev 0 0 0 0 0 0 0 0 (replicate 41 0).

Definition set_nIEN (v : Z) (c : IDEChannelRegisters) : IDEChannelRegisters :=
  mkChan (c_base c) (c_ctrl c) (c_bmide c) v.
Definition set_Reserved (v : Z) (d : ide_device) : ide_device :=
  mkDev v (Channel d) (Drive d) (Type_ d) (Signature d) (Capabilities d) (CommandSets d) (Size d) (Model d).

(** A masked bit is set. *)
Definition has (x mask : Z) : bool := negb (Z.land x mask =? 0).

Section driver.
Context {D : Type} `{Ports D}.

Record ata := mkAta {
  bus : D;
  hp : heap;
  ide_irq_invoked : Z;
  isInit : Z;
  channels : list IDEChannelRegisters;
  ide_devices : list ide_device;
  atapi_packet : list Z;
  package0 : Z;
  ata_drive : Z
}.

Definition with_bus (a : ata) (d : D) : ata :=
  mkAta d (hp a) (ide_irq_invoked a) (isInit a) (channels a) (ide_devices a) (atapi_packet a) (package0 a) (ata_drive a).
Definition with_hp (a : ata) (h : heap) : ata :=
  mkAta (bus a) h (ide_irq_invoked a) (isInit a) (channels a) (ide_devices a) (atapi_packet a) (package0 a) (ata_drive a).
Definition with_irq (a : ata) (v : Z) : ata :=
  mkAta (bus a) (hp a) v (isInit a) (channels a) (ide_devices a) (atapi_packet a) (package0 a) (ata_drive a).
Definition with_isInit (a : ata) (v : Z) : ata :=
  mkAta (bus a) (hp a) (ide_irq_invoked a) v (channels a) (ide_devices a) (atapi_packet a) (package0 a) (ata_drive a).
Definition with_channels (a : ata) (l : list IDEChannelRegisters) : ata :=
  mkAta (bus a) (hp a) (ide_irq_invoked a) (isInit a) l (ide_devices a) (atapi_packet a) (package0 a) (ata_drive a).
Definition with_devices (a : ata) (l : list ide_device) : ata :=
  mkAta (bus a) (hp a) (ide_irq_invoked a) (isInit a) (channels a) l (atapi_packet a) (package0 a) (ata_drive a).
Definition with_packet (a : ata) (l : list Z) : ata :=
  mkAta (bus a) (hp a) (ide_irq_invoked a) (isInit a) (channels a) (ide_devices a) l (package0 a) (ata_drive a).
Definition with_package (a : ata) (v : Z) : ata :=
  mkAta (bus a) (hp a) (ide_irq_invoked a) (isInit a) (channels a) (ide_devices a) (atapi_packet a) v (ata_drive a).
Definition with_drive (a : ata) (v : Z) : ata :=
  mkAta (bus a) (hp a) (ide_irq_invoked a) (isInit a) (channels a) (ide_devices a) (atapi_packet a) (package0 a) v.

Definition chan (a : ata) (c : Z) : IDEChannelRegisters := default chan0 (channels a !! Z.to_nat c).
Definition dev (a : ata) (i : Z) : ide_device := default dev0 (ide_devices a !! Z.to_nat i).
Definition upd_chan (a : ata) (c : Z) (f : IDEChannelRegisters → IDEChannelRegisters) : ata :=
  with_channels a (alter f (Z.to_nat c) (channels a)).
Definition upd_dev (a : ata) (i : Z) (f : ide_device → ide_device) : ata :=
  with_devices a (alter f (Z.to_nat i) (ide_devices a)).

Definition a_mem (a : ata) : mem := h_mem (hp a).
Definition with_a_mem (a : ata) (m : mem) : ata := with_hp a (with_mem (hp a) m).

(** ** Registers *)

(** The port of a register, as the four ranges of [ide_read] and [ide_write] have it. *)
Definition reg_port (c : IDEChannelRegisters) (reg : Z) : option Z :=
  if reg <? 8 then Some (c_base c + reg - 0)
  else if reg <? 12 then Some (c_base c + reg - 6)
  else if reg <? 14 then Some (c_ctrl c + reg - 10)
  else if reg <? 22 then Some (c_bmide c + reg - 14)
  else None.

(** The [io_out8_asm] of [ide_write]; the recursive calls for the control register
    do no more than this. *)
Definition ide_out (a : ata) (channel reg data : Z) : ata :=
  match reg_port (chan a channel) reg with
  | Some p => with_bus a (io_out8_asm p data (bus a))
  | None => a
  end.

Definition is_high (reg : Z) : bool := (7 <? reg) && (reg <? 12).

(** [void Ata::ide_write(u8_t channel,u8_t reg,u8_t data)]. *)
Definition ide_write (a : ata) (channel reg data : Z) : ata :=
  let a := if is_high reg then ide_out a channel ATA_REG_CONTROL (Z.lor 128 (c_nIEN (chan a channel))) else a in
  let a := ide_out a channel reg data in
  if is_high reg then ide_out a channel ATA_REG_CONTROL (c_nIEN (chan a channel)) else a.

(** [u8_t Ata::ide_read(u8_t channel,u8_t reg)]; no register is above 0x15. *)
Definition ide_read (a : ata) (channel reg : Z) : Z * ata :=
  let a := if is_high reg then ide_write a channel ATA_REG_CONTROL (Z.lor 128 (c_nIEN (chan a channel))) else a in
  let '(result, a) :=
    match reg_port (chan a channel) reg with
    | Some p => let '(v, d) := io_in8_asm p (bus a) in (v, with_bus a d)
    | None => (0, a)
    end in
  let a := if is_high reg then ide_write a channel ATA_REG_CONTROL (c_nIEN (chan a channel)) else a in
  (result, a).

(** [void Ata::ide_read_buffer(u8_t channel,u8_t reg,u32_t buffer,u32_t quads)]: the
    double words that are stored in the buffer. *)
Definition ide_read_buffer (a : ata) (channel reg : Z) (quads : nat) : list Z * ata :=
  let a := if is_high reg then ide_write a channel ATA_REG_CONTROL (Z.lor 128 (c_nIEN (chan a channel))) else a in
  let '(ws, a) :=
    match reg_port (chan a channel) reg with
    | Some p => let '(ws, d) := ins32 quads p (bus a) in (ws, with_bus a d)
    | None => ([], a)
    end in
  let a := if is_high reg then ide_write a channel ATA_REG_CONTROL (c_nIEN (chan a channel)) else a in
  (ws, a).

(** [while (ide_read(channel, ATA_REG_STATUS) & ATA_SR_BSY);]. *)
Fixpoint wait_not_bsy (fuel : nat) (a : ata) (channel : Z) : res ata :=
  match fuel with
  | O => NoFuel
  | S fuel' =>
    let '(s, a) := ide_read a channel ATA_REG_STATUS in
    if has s ATA_SR_BSY then wait_not_bsy fuel' a channel else Ok a
  end.

(** [for(i = 0; i < 4; i++) ide_read(channel, ATA_REG_ALTSTATUS);]. *)
Definition read_alt4 (a : ata) (channel : Z) : ata :=
  for_loop 4 0 (λ _ a, (ide_read a channel ATA_REG_ALTSTATUS).2) a.

(** [u8_t Ata::ide_polling(u8_t channel, u32_t advanced_check)]. *)
Definition ide_polling (fuel : nat) (a : ata) (channel : Z) (advanced_check : bool) : res (Z * ata) :=
  let a := read_alt4 a channel in
  a ← wait_not_bsy fuel a channel;
  if advanced_check then
    let '(state, a) := ide_read a channel ATA_REG_STATUS in
    if has state ATA_SR_ERR then Ok (2, a)
    else if has state ATA_SR_DF then Ok (1, a)
    else if Z.land state ATA_SR_DRQ =? 0 then Ok (3, a)
    else Ok (0, a)
  else Ok (0, a).

(** The code of the last error bit that is set. *)
Definition error_code (err st : Z) : Z :=
  let err := if has st ATA_ER_AMNF then 7 else err in
  let err := if has st ATA_ER_TK0NF then 3 else err in
  let err := if has st ATA_ER_ABRT then 20 else err in
  let err := if has st ATA_ER_MCR then 3 else err in
  let err := if has st ATA_ER_IDNF then 21 else err in
  let err := if has st ATA_ER_MC then 3 else err in
  let err := if has st ATA_ER_UNC then 22 else err in
  if has st ATA_ER_BBK then 13 else err.

(** [u8_t Ata::ide_print_error(u32_t drive,u8_t err)], without the messages. *)
Definition ide_print_error (a : ata) (drive err : Z) : Z * ata :=
  if err =? 0 then (err, a)
  else if err =? 1 then (19, a)
  else if err =? 2 then
    let '(st, a) := ide_read a (Channel (dev a drive)) ATA_REG_ERROR in (error_code err st, a)
  else if err =? 3 then (23, a)
  else if err =? 4 then (8, a)
  else (err, a).

(** ** [u8_t Ata::ide_ata_access(...)] *)

(** [lba_mode], [lba_io] and [head]. *)
Definition lba_regs (lba caps : Z) : Z * list Z * Z :=
  if 268435456 <=? lba then
    (2, [Z.land lba 255; Z.shiftr (Z.land lba 65280) 8; Z.shiftr (Z.land lba 16711680) 16;
         Z.shiftr (Z.land lba 4278190080) 24; 0; 0], 0)
  else if has caps 512 then
    (1, [Z.land lba 255; Z.shiftr (Z.land lba 65280) 8; Z.shiftr (Z.land lba 16711680) 16; 0; 0; 0],
     Z.shiftr (Z.land lba 251658240) 24)
  else
    let sect := u8 (lba `mod` 63 + 1) in
    let cyl := u16 (u32 (lba + 1 - sect) / (16 * 63)) in
    (0, [sect; Z.land (Z.shiftr cyl 0) 255; Z.land (Z.shiftr cyl 8) 255; 0; 0; 0],
     u8 ((u32 (lba + 1 - sect)) `mod` (16 * 63) / 63)).

(** The command for [lba_mode] and [direction]; [dma] is 0. *)
Definition access_cmd (lba_mode direction : Z) : Z :=
  if direction =? 0 then
    if lba_mode =? 2 then ATA_CMD_READ_PIO_EXT else ATA_CMD_READ_PIO
  else
    if lba_mode =? 2 then ATA_CMD_WRITE_PIO_EXT else ATA_CMD_WRITE_PIO.

(** PIO read of [n] sectors: 0 or the error that ends the transfer. *)
Fixpoint pio_read (fuel n : nat) (a : ata) (channel bus_ edi : Z) : res (Z * ata) :=
  match n with
  | O => Ok (0, a)
  | S n' =>
    '(err, a) ← ide_polling fuel a channel true;
    if negb (err =? 0) then Ok (err, a) else
    let '(ws, d) := ins16 256 bus_ (bus a) in
    let a := with_a_mem (with_bus a d) (store_words (a_mem a) edi ws) in
    pio_read fuel n' a channel bus_ (u32 (edi + 512))
  end.

Definition load_words (m : mem) (edi : Z) (n : nat) : list Z :=
  (λ i : nat, load16 m (edi + 2 * Z.of_nat i)) <$> seq 0 n.

Fixpoint pio_write (fuel n : nat) (a : ata) (channel bus_ edi : Z) : res ata :=
  match n with
  | O => Ok a
  | S n' =>
    '(_, a) ← ide_polling fuel a channel false;
    let a := with_bus a (outs16 (load_words (a_mem a) edi 256) bus_ (bus a)) in
    pio_write fuel n' a channel bus_ (u32 (edi + 512))
  end.

(** The register writes between the wait and the transfer. *)
Definition send_command (a : ata) (direction lba numsects channel slavebit caps : Z) : ata :=
  let '(lba_mode, lba_io, head) := lba_regs lba caps in
  let io (i : nat) := default 0 (lba_io !! i) in
  let a := ide_write a channel ATA_REG_HDDEVSEL
             (Z.lor (Z.lor (if lba_mode =? 0 then 160 else 224) (Z.shiftl slavebit 4)) head) in
  let a := if lba_mode =? 2 then
      let a := ide_write a channel ATA_REG_SECCOUNT1 0 in
      let a := ide_write a channel ATA_REG_LBA3 (io 3%nat) in
      let a := ide_write a channel ATA_REG_LBA4 (io 4%nat) in
      ide_write a channel ATA_REG_LBA5 (io 5%nat)
    else a in
  let a := ide_write a channel ATA_REG_SECCOUNT0 numsects in
  let a := ide_write a channel ATA_REG_LBA0 (io 0%nat) in
  let a := ide_write a channel ATA_REG_LBA1 (io 1%nat) in
  let a := ide_write a channel ATA_REG_LBA2 (io 2%nat) in
  ide_write a channel ATA_REG_COMMAND (access_cmd lba_mode direction).

Definition ide_ata_access (fuel : nat) (a : ata) (direction drive lba numsects edi : Z) : res (Z * ata) :=
  let channel := Channel (dev a drive) in
  let slavebit := Drive (dev a drive) in
  let bus_ := c_base (chan a channel) in
  let caps := Capabilities (dev a drive) in
  let a := upd_chan (with_irq a 0) channel (set_nIEN 2) in
  let a := ide_write a channel ATA_REG_CONTROL 2 in
  a ← wait_not_bsy fuel a channel;
  let a := send_command a direction lba numsects channel slavebit caps in
  if direction =? 0 then pio_read fuel (Z.to_nat numsects) a channel bus_ edi
  else
    a ← pio_write fuel (Z.to_nat numsects) a channel bus_ edi;
    let lba_mode := (lba_regs lba caps).1.1 in
    let a := ide_write a channel ATA_REG_COMMAND
               (if lba_mode =? 2 then ATA_CMD_CACHE_FLUSH_EXT else ATA_CMD_CACHE_FLUSH) in
    '(_, a) ← ide_polling fuel a channel false;
    Ok (0, a).

(** ** Sectors; [err0] is the uninitialised [err] of the source *)

(** [void Ata::ide_read_sectors(...)]. *)
Definition ide_read_sectors (fuel : nat) (a : ata) (drive numsects lba edi err0 : Z) : res ata :=
  if (3 <? drive) || (Reserved (dev a drive) =? 0) then Ok (with_package a 1)
  else if (Size (dev a drive) <? u32 (lba + numsects)) && (Type_ (dev a drive) =? IDE_ATA)
  then Ok (with_package a 2)
  else
    '(err, a) ← (if Type_ (dev a drive) =? IDE_ATA
                 then ide_ata_access fuel a ATA_READ drive lba numsects edi
                 else Ok (err0, a));
    let '(p, a) := ide_print_error a drive err in
    Ok (with_package a p).

(** [void Ata::ide_write_sectors(...)]. *)
Definition ide_write_sectors (fuel : nat) (a : ata) (drive numsects lba edi err0 : Z) : res ata :=
  if (3 <? drive) || (Reserved (dev a drive) =? 0) then Ok (with_package a 1)
  else if (Size (dev a drive) <? u32 (lba + numsects)) && (Type_ (dev a drive) =? IDE_ATA)
  then Ok (with_package a 2)
  else
    '(err, a) ← (if Type_ (dev a drive) =? IDE_ATA
                 then ide_ata_access fuel a ATA_WRITE drive lba numsects edi
                 else if Type_ (dev a drive) =? IDE_ATAPI then Ok (4, a)
                 else Ok (err0, a));
    let '(p, a) := ide_print_error a drive err in
    Ok (with_package a p).

(** ** The device operations *)

(** [u32_t Ata::read(u32_t pos,u8_t* buffer,u32_t sizee)]. *)
Definition read (fuel : nat) (a : ata) (pos buffer sizee err0 : Z) : res (Z * ata) :=
  let count := s32 sizee in
  if buffer =? 0 then Ok (u32 (-1), a) else
  let offset := s32 pos in
  let bl_begin := Z.quot offset 512 in
  let bl_end := Z.quot (s32 (offset + count)) 512 in
  let blocks := bl_end - bl_begin + 1 in
  if 255 <? blocks then Ok (0, a) else
  '(bl_buffer, h) ← kmalloc fuel (hp a) (u32 (blocks * 512));
  let a := with_hp a h in
  a ← ide_read_sectors fuel a (ata_drive a) (u8 blocks) (u32 bl_begin) bl_buffer err0;
  let a := with_a_mem a
    (KString.memcpy (a_mem a) buffer (u32 (bl_buffer + Z.rem offset 512)) (Z.to_nat (u32 count))) in
  h ← kfree fuel (hp a) bl_buffer;
  Ok (u32 count, with_hp a h).

(** The number of blocks that [Ata::write] transfers. *)
Definition write_blocks (offset count sizee : Z) : Z :=
  let bl_begin := Z.quot offset 512 in
  let bl_end := Z.quot (s32 (offset + count)) 512 in
  if sizee `mod` 512 =? 0 then bl_end - bl_begin else bl_end - bl_begin + 1.

(** [u32_t Ata::write(u32_t pos,u8_t* buffer,u32_t sizee)]. *)
Definition write (fuel : nat) (a : ata) (pos buffer sizee err0 : Z) : res (Z * ata) :=
  let count := s32 sizee in
  if buffer =? 0 then Ok (u32 (-1), a) else
  let offset := s32 pos in
  let bl_begin := Z.quot offset 512 in
  let blocks := write_blocks offset count sizee in
  '(bl_buffer, h) ← kmalloc fuel (hp a) (u32 (blocks * 512));
  let a := with_hp a h in
  a ← ide_read_sectors fuel a (ata_drive a) (u8 blocks) (u32 bl_begin) bl_buffer err0;
  let a := with_a_mem a
    (KString.memcpy (a_mem a) (u32 (bl_buffer + Z.rem offset 512)) buffer (Z.to_nat (u32 count))) in
  a ← ide_write_sectors fuel a (ata_drive a) (u8 blocks) (u32 bl_begin) bl_buffer err0;
  h ← kfree fuel (hp a) bl_buffer;
  Ok (u32 count, with_hp a h).

(** [Ata::open], [Ata::close]: nothing to do. *)
Definition open (flag : Z) (a : ata) : Z * ata := (1, a).
Definition close (a : ata) : Z * ata := (1, a).

(** [u32_t Ata::ioctl(u32_t idd,u8_t* buffer)] with the constants of [ioctl.h]. *)
Definition ioctl (idd : Z) : Z :=
  if idd =? 1 then 2 else if idd =? 2 then 1 else if idd =? 3 then 2 else 0.

(** [void Ata::ide_irq()] and the two [atapi_irq_handler]s. *)
Definition ide_irq (a : ata) : ata := with_irq a 1.

(** [void Ata::ide_wait_irq()]: without an interrupt the loop does not end. *)
Definition ide_wait_irq (a : ata) : res ata :=
  if ide_irq_invoked a =? 0 then NoFuel else Ok (with_irq a 0).

(** [void Ata::ide_atapi_eject(u8_t drive)]; [interrupt] is what the interrupt
    handlers do until [ide_wait_irq] looks. *)
Definition ide_atapi_eject (interrupt : ata → ata) (fuel : nat) (a : ata) (drive : Z) : res ata :=
  let channel := Channel (dev a drive) in
  let slavebit := Drive (dev a drive) in
  let bus_ := c_base (chan a channel) in
  let a := with_irq a 0 in
  if (3 <? drive) || (Reserved (dev a drive) =? 0) then Ok (with_package a 1)
  else if Type_ (dev a drive) =? IDE_ATA then Ok (with_package a 20)
  else
    let a := upd_chan (with_irq a 0) channel (set_nIEN 0) in
    let a := ide_write a channel ATA_REG_CONTROL 0 in
    let a := with_packet a [ATAPI_CMD_EJECT; 0; 0; 0; 2; 0; 0; 0; 0; 0; 0; 0] in
    let a := ide_write a channel ATA_REG_HDDEVSEL (Z.shiftl slavebit 4) in
    let a := read_alt4 a channel in
    let a := ide_write a channel ATA_REG_COMMAND ATA_CMD_PACKET in
    '(_, a) ← ide_polling fuel a channel true;
    let word i := default 0 (atapi_packet a !! i) + default 0 (atapi_packet a !! S i) * 256 in
    let a := with_bus a (outs16 (word <$> [0; 2; 4; 6; 8; 10]%nat) bus_ (bus a)) in
    a ← ide_wait_irq (interrupt a);
    '(err, a) ← ide_polling fuel a channel true;
    let err := if err =? 3 then 0 else err in
    let '(p, a) := ide_print_error a drive err in
    Ok (with_package a p).

(** ** Identification *)

(** Byte, word and double word of the buffer that [ide_read_buffer] filled. *)
Definition buf8 (ws : list Z) (k : Z) : Z :=
  u8 (default 0 (ws !! Z.to_nat (k / 4)) / 256 ^ (k `mod` 4)).
Definition buf16 (ws : list Z) (k : Z) : Z := buf8 ws k + buf8 ws (k + 1) * 256.
Definition buf32 (ws : list Z) (k : Z) : Z := buf16 ws k + buf16 ws (k + 2) * 65536.

(** [Model]: the bytes of each word swapped, 40 characters and a NUL. *)
Definition model_of (ws : list Z) : list Z :=
  (λ k : nat, buf8 ws (ATA_IDENT_MODEL + (if Nat.even k then Z.of_nat k + 1 else Z.of_nat k - 1)))
    <$> seq 0 40.

Definition identified (i j type : Z) (ws : list Z) : ide_device :=
  let CommandSets_ := buf32 ws ATA_IDENT_COMMANDSETS in
  mkDev 1 i j type (buf16 ws ATA_IDENT_DEVICETYPE) (buf16 ws ATA_IDENT_CAPABILITIES) CommandSets_
    (if has CommandSets_ 67108864 then buf32 ws ATA_IDENT_MAX_LBA_EXT else buf32 ws ATA_IDENT_MAX_LBA)
    (model_of ws ++ [0]).

(** The [while(1)] loop: whether the error bit ended it. *)
Fixpoint identify_wait (fuel : nat) (a : ata) (i : Z) : res (bool * ata) :=
  match fuel with
  | O => NoFuel
  | S fuel' =>
    let '(status, a) := ide_read a i ATA_REG_STATUS in
    if has status ATA_SR_ERR then Ok (true, a)
    else if negb (has status ATA_SR_BSY) && has status ATA_SR_DRQ then Ok (false, a)
    else identify_wait fuel' a i
  end.

(** One iteration of the loops over channels and drives; [count] is the index of
    the next device. *)
Definition identify_drive (fuel : nat) (a : ata) (i j count : Z) : res (Z * ata) :=
  let a := upd_dev a count (set_Reserved 0) in
  let a := ide_write a i ATA_REG_HDDEVSEL (Z.lor 160 (Z.shiftl j 4)) in
  let a := ide_write a i ATA_REG_COMMAND ATA_CMD_IDENTIFY in
  let '(s, a) := ide_read a i ATA_REG_STATUS in
  if s =? 0 then Ok (count, a) else
  '(err, a) ← identify_wait fuel a i;
  let finish a type :=
    let '(ws, a) := ide_read_buffer a i ATA_REG_DATA 128 in
    Ok (count + 1, upd_dev a count (λ _, identified i j type ws)) in
  if err : bool then
    let '(cl, a) := ide_read a i ATA_REG_LBA1 in
    let '(ch, a) := ide_read a i ATA_REG_LBA2 in
    if (cl =? 20) && (ch =? 235) || (cl =? 105) && (ch =? 150) then
      let a := ide_write a i ATA_REG_COMMAND ATA_CMD_IDENTIFY_PACKET in
      finish a IDE_ATAPI
    else Ok (count, a)
  else finish a IDE_ATA.

(** [new Ata(ata_name,i)]: a 9-byte object whose first byte is [ata_drive]; the
    pointer is dropped. *)
Definition new_Ata (fuel : nat) (a : ata) (i : Z) : res ata :=
  if Reserved (dev a i) =? 1 then
    '(p, h) ← operator_new fuel (hp a) 9;
    let a := with_hp a h in
    Ok (with_a_mem a (store8 (a_mem a) p i))
  else Ok a.

Definition bar (b dflt : Z) : Z := u16 (Z.land b 4294967292 + (if b =? 0 then dflt else 0)).

(** [void Ata::ide_initialize(u32_t BAR0,...,u32_t BAR4)]. *)
Definition ide_initialize (fuel : nat) (a : ata) (BAR0 BAR1 BAR2 BAR3 BAR4 : Z) : res ata :=
  let a := upd_chan a ATA_PRIMARY (λ c, mkChan (bar BAR0 496) (bar BAR1 1012) (bar BAR4 0) (c_nIEN c)) in
  let a := upd_chan a ATA_SECONDARY
    (λ c, mkChan (bar BAR2 368) (bar BAR3 884) (u16 (Z.land BAR4 4294967292 + 8)) (c_nIEN c)) in
  let a := ide_write a ATA_PRIMARY ATA_REG_CONTROL 2 in
  let a := ide_write a ATA_SECONDARY ATA_REG_CONTROL 2 in
  '(count, a) ← identify_drive fuel a 0 0 0;
  '(count, a) ← identify_drive fuel a 0 1 count;
  '(count, a) ← identify_drive fuel a 1 0 count;
  '(_, a) ← identify_drive fuel a 1 1 count;
  for_loop_res 4 0 (λ i a, new_Ata fuel a i) a.

(** [Ata::Ata(char* n)]. *)
Definition Ata_new (fuel : nat) (a : ata) : res ata :=
  a ← (if isInit a =? 0 then
         a ← ide_initialize fuel a 496 1012 368 884 0;
         Ok (with_isInit a 1)
       else Ok a);
  Ok (with_drive a 0).

End driver.

(** ** Words in memory *)

Lemma load8_store16 m a v x :
  load8 (store16 m a v) x =
  if decide (x = a + 1) then u8 (v / 256) else if decide (x = a) then u8 v else load8 m x.
Proof. unfold store16. by rewrite !load8_store8. Qed.

(** Byte [j] of a sequence of 16-bit words. *)
Definition word_byte (ws : list Z) (j : Z) : Z :=
  u8 (default 0 (ws !! Z.to_nat (j / 2)) / (if j `mod` 2 =? 0 then 1 else 256)).

Lemma word_byte_cons w ws j : 2 ≤ j → word_byte (w :: ws) j = word_byte ws (j - 2).
Proof.
  intros Hj. unfold word_byte.
  replace (Z.to_nat (j / 2)) with (S (Z.to_nat ((j - 2) / 2))) by (Z.div_mod_to_equations; lia).
  replace ((j - 2) `mod` 2) with (j `mod` 2) by (Z.div_mod_to_equations; lia). done.
Qed.

Lemma load8_store_words ws m a x :
  load8 (store_words m a ws) x =
  if decide (a ≤ x < a + 2 * Z.of_nat (length ws)) then word_byte ws (x - a) else load8 m x.
Proof.
  revert m a. induction ws as [|w ws IH]; intros m a; cbn [store_words].
  - by rewrite decide_False by (cbn; lia).
  - rewrite IH, load8_store16. rewrite length_cons. repeat case_decide; try lia; try done.
    + rewrite word_byte_cons by lia. f_equal. lia.
    + subst x. unfold word_byte. replace (a + 1 - a) with 1 by lia. done.
    + subst x. unfold word_byte. rewrite Z.sub_diag. cbn. by rewrite Z.div_1_r.
Qed.

Lemma store_words_app m a ws1 ws2 :
  store_words m a (ws1 ++ ws2) = store_words (store_words m a ws1) (a + 2 * Z.of_nat (length ws1)) ws2.
Proof.
  revert m a. induction ws1 as [|w ws1 IH]; intros m a; cbn [app store_words length].
  - f_equal. lia.
  - rewrite IH. f_equal. lia.
Qed.

Lemma has_bit x k : 0 ≤ k → has x (2 ^ k) = Z.testbit x k.
Proof.
  intros Hk. unfold has. destruct (Z.testbit x k) eqn:E.
  - apply negb_true_iff, Z.eqb_neq. intros H0.
    assert (Hb : Z.testbit (Z.land x (2 ^ k)) k = false) by (by rewrite H0, Z.bits_0).
    rewrite Z.land_spec, E, Z.pow2_bits_true in Hb by lia. done.
  - apply negb_false_iff, Z.eqb_eq. apply Z.bits_inj'. intros n Hn.
    rewrite Z.land_spec, Z.bits_0, Z.pow2_bits_eqb by lia.
    destruct (Z.eqb_spec k n) as [<-|]; [by rewrite E|apply andb_false_r].
Qed.

(** ** The driver against a drive *)

Section disk.
Context {D : Type} `{AtaDisk : IdeHdd.AtaDisk D}.
Implicit Types a : ata (D := D).

(** The primary channel at the standard ports. *)
Definition primary a : Prop := c_base (chan a 0) = 496 ∧ c_ctrl (chan a 0) = 1012.

Lemma primary_with_bus a d : primary a → primary (with_bus a d).
Proof. done. Qed.

(** Registers 0 to 7 are at 0x1f0 to 0x1f7, the control register is at 0x3f6. *)
Lemma ide_write_low a reg data : primary a → 0 ≤ reg < 8 →
  ide_write a 0 reg data = with_bus a (out8 (496 + reg) (u8 data) (bus a)).
Proof.
  intros [Hb Hc] Hr. unfold ide_write, is_high, ide_out, reg_port.
  rewrite (proj2 (Z.ltb_ge 7 reg)), (proj2 (Z.ltb_lt reg 8)) by lia. cbn [andb].
  rewrite Hb. unfold io_out8_asm. rewrite (u16_id (496 + reg - 0)) by (unfold is_u16; lia).
  by replace (496 + reg - 0) with (496 + reg) by lia.
Qed.

Lemma ide_write_control a data : primary a →
  ide_write a 0 ATA_REG_CONTROL data = with_bus a (out8 1014 (u8 data) (bus a)).
Proof. intros [Hb Hc]. unfold ide_write, ide_out, reg_port. cbn. by rewrite Hc. Qed.

(** A status register of the drive. *)
Lemma ide_read_status a reg : primary a → reg = ATA_REG_STATUS ∨ reg = ATA_REG_ALTSTATUS →
  ∃ s d, ide_read a 0 reg = (s, with_bus a d) ∧ IdeHdd.view d = IdeHdd.view (bus a) ∧
    has s ATA_SR_BSY = false ∧ has s ATA_SR_ERR = false ∧ has s ATA_SR_DF = false ∧
    (Z.land s ATA_SR_DRQ =? 0) =
      match IdeHdd.ph (IdeHdd.view (bus a)) with IdeHdd.Idle => true | _ => false end.
Proof.
  intros [Hb Hc] Hr.
  assert (E : ide_read a 0 reg =
    let '(v, d) := in8 (if reg =? 7 then 503 else 1014) (bus a) in (u8 v, with_bus a d)).
  { destruct Hr as [-> | ->]; unfold ide_read, reg_port; cbn; rewrite ?Hb, ?Hc; unfold io_in8_asm;
      cbn; by destruct (in8 _ _). }
  rewrite E. set (p := if reg =? 7 then 503 else 1014).
  destruct (IdeHdd.ata_status (bus a) p) as [Hv Hs].
  { destruct Hr as [-> | ->]; [by left|by right]. }
  destruct (in8 p (bus a)) as [v d]. cbn [fst snd] in Hv, Hs. exists (u8 v), d. split; [done|].
  destruct Hs as [H7 _ H5 H3 H0].
  change ATA_SR_BSY with (2 ^ 7). change ATA_SR_ERR with (2 ^ 0). change ATA_SR_DF with (2 ^ 5).
  rewrite !has_bit, !IdeHdd.u8_testbit by lia. split_and!; try done.
  pose proof (has_bit (u8 v) 3 ltac:(lia)) as Hd. unfold has in Hd.
  rewrite IdeHdd.u8_testbit, H3 in Hd by lia. change (2 ^ 3) with ATA_SR_DRQ in Hd.
  apply (f_equal negb) in Hd. rewrite negb_involutive in Hd. rewrite Hd.
  by destruct (IdeHdd.ph _).
Qed.

Lemma wait_not_bsy_ok fuel a : primary a → (0 < fuel)%nat →
  ∃ d, wait_not_bsy fuel a 0 = Ok (with_bus a d) ∧ IdeHdd.view d = IdeHdd.view (bus a).
Proof.
  intros Hp Hf. destruct fuel as [|fuel]; [lia|]. cbn [wait_not_bsy].
  destruct (ide_read_status a ATA_REG_STATUS Hp) as (s & d & -> & Hv & -> & _); [by left|]. by exists d.
Qed.

Lemma read_alt4_ok a : primary a →
  ∃ d, read_alt4 a 0 = with_bus a d ∧ IdeHdd.view d = IdeHdd.view (bus a).
Proof.
  intros Hp. unfold read_alt4. apply (for_loop_ind (λ _ x, ∃ d, x = with_bus a d ∧ IdeHdd.view d = IdeHdd.view (bus a)) 4).
  - exists (bus a). by destruct a.
  - intros j t _ (d & -> & Hv).
    destruct (ide_read_status (with_bus a d) ATA_REG_ALTSTATUS Hp) as (s & d' & -> & Hv' & _); [by right|].
    exists d'. by rewrite Hv', <- Hv.
Qed.

Lemma ide_polling_ok fuel a adv : primary a → (0 < fuel)%nat →
  (adv = true → IdeHdd.ph (IdeHdd.view (bus a)) ≠ IdeHdd.Idle) →
  ∃ d, ide_polling fuel a 0 adv = Ok (0, with_bus a d) ∧ IdeHdd.view d = IdeHdd.view (bus a).
Proof.
  intros Hp Hf Hi. unfold ide_polling. destruct (read_alt4_ok a Hp) as (d1 & -> & H1).
  destruct (wait_not_bsy_ok fuel (with_bus a d1) Hp Hf) as (d2 & -> & H2). cbn [mbind res_bind].
  cbn [bus with_bus] in H2. destruct adv; [|exists d2; by rewrite H2, H1].
  destruct (ide_read_status (with_bus (with_bus a d1) d2) ATA_REG_STATUS Hp)
    as (s & d3 & -> & H3 & _ & -> & -> & Hd); [by left|]. cbn [bus with_bus] in H3, Hd. rewrite Hd.
  rewrite H2, H1. specialize (Hi eq_refl). exists d3. rewrite H3, H2, H1.
  by destruct (IdeHdd.ph (IdeHdd.view (bus a))).
Qed.

(** A data phase delivers words in order. *)
Lemma ins16_ok ws ws2 (d : D) : Forall is_u16 ws → IdeHdd.ph (IdeHdd.view d) = IdeHdd.data_in (ws ++ ws2) →
  ∃ d', ins16 (length ws) 496 d = (ws, d') ∧
    IdeHdd.view d' = IdeHdd.with_ph (IdeHdd.view d) (IdeHdd.data_in ws2).
Proof.
  revert d. induction ws as [|w ws IH]; intros d Hu Hp; cbn [length ins16].
  - exists d. split; [done|]. by destruct (IdeHdd.view d); cbn in *; subst.
  - apply Forall_cons in Hu as [Hw Hu]. destruct (IdeHdd.ata_data_in d w (ws ++ ws2) Hp) as [E1 E2].
    unfold io_in16_asm. change (u16 496) with IdeHdd.DATA_REGISTER.
    destruct (in16 IdeHdd.DATA_REGISTER d) as [x d1]. cbn [fst snd] in E1, E2. subst x.
    destruct (IH d1 Hu) as (d2 & -> & H2); [by rewrite E2|]. rewrite u16_id by done.
    exists d2. by rewrite H2, E2.
Qed.

(** The transfer of [n] sectors stores their words one after the other. *)
Lemma pio_read_ok fuel : (0 < fuel)%nat → ∀ (ss : list (list Z)) a edi, primary a →
  Forall (λ ws, length ws = 256%nat ∧ Forall is_u16 ws) ss → 0 ≤ edi →
  edi + 512 * Z.of_nat (length ss) < 4294967296 →
  IdeHdd.ph (IdeHdd.view (bus a)) = IdeHdd.data_in (concat ss) →
  ∃ d, pio_read fuel (length ss) a 0 496 edi =
       Ok (0, with_a_mem (with_bus a d) (store_words (a_mem a) edi (concat ss))) ∧
    IdeHdd.view d = IdeHdd.with_ph (IdeHdd.view (bus a)) IdeHdd.Idle.
Proof.
  intros Hf ss. induction ss as [|ws ss IH]; intros a edi Hp Hs Hlo Hhi Hph; cbn [length pio_read concat].
  - exists (bus a). cbn [store_words]. split; [by destruct a as [? [] ? ? ? ? ? ? ?]|].
    by destruct (IdeHdd.view (bus a)); cbn in *; subst.
  - apply Forall_cons in Hs as [[Hl Hu] Hs]. cbn [concat] in Hph.
    destruct (ide_polling_ok fuel a true Hp Hf) as (d1 & -> & H1).
    { intros _. rewrite Hph. by destruct ws. }
    cbn [mbind res_bind Z.eqb negb]. rewrite <- Hl.
    destruct (ins16_ok ws (concat ss) d1 Hu) as (d2 & E2 & H2); [by rewrite H1|].
    cbn [bus with_bus]. rewrite E2.
    destruct (IH (with_a_mem (with_bus (with_bus a d1) d2) (store_words (a_mem (with_bus a d1)) edi ws))
      (u32 (edi + 512))) as (d3 & -> & H3); try done.
    + apply u32_range.
    + rewrite u32_id by (unfold is_u32; cbn [length] in Hhi; lia). cbn [length] in Hhi. lia.
    + cbn [bus with_bus with_a_mem with_hp]. by rewrite H2.
    + exists d3. cbn [bus with_bus with_a_mem with_hp a_mem hp h_mem with_mem] in H3 |- *. split.
      * rewrite store_words_app, Hl, u32_id by (unfold is_u32; cbn [length] in Hhi; lia).
        by replace (edi + 2 * Z.of_nat 256) with (edi + 512) by lia.
      * by rewrite H3, H2, H1.
Qed.

(** What the drive has to be: LBA28, master or slave of the primary channel. *)
Record lba_drive a (drive s : Z) : Prop := {
  ld_chan : Channel (dev a drive) = 0;
  ld_slave : Drive (dev a drive) = s;
  ld_s : s = 0 ∨ s = 1;
  ld_caps : has (Capabilities (dev a drive)) 512 = true
}.

Lemma devsel_bits s h : (s = 0 ∨ s = 1) → 0 ≤ h < 16 →
  let x := u8 (Z.lor (Z.lor 224 (Z.shiftl s 4)) h) in
  Z.b2z (Z.testbit x 4) = s ∧ x `mod` 16 = h ∧ Z.testbit x 6 = true.
Proof.
  intros Hs Hh. assert (Hin : h ∈ seqZ 0 16) by (apply elem_of_seqZ; lia).
  cbn in Hin. destruct Hs as [-> | ->];
    repeat (apply elem_of_cons in Hin as [->|Hin]; [by vm_compute|]); by apply elem_of_nil in Hin.
Qed.

Lemma lba28_regs lba caps : 0 ≤ lba < 268435456 → has caps 512 = true →
  lba_regs lba caps = (1, [lba `mod` 256; (lba / 256) `mod` 256; (lba / 65536) `mod` 256; 0; 0; 0],
                       lba / 16777216).
Proof.
  intros Hl Hc. unfold lba_regs. rewrite (proj2 (Z.leb_gt _ _)), Hc by lia.
  rewrite !Z.shiftr_land. change (Z.shiftr 65280 8) with (Z.ones 8).
  change (Z.shiftr 16711680 16) with (Z.ones 8). change (Z.shiftr 251658240 24) with (Z.ones 4).
  change 255 with (Z.ones 8). rewrite !Z.land_ones, !Z.shiftr_div_pow2 by lia.
  change (2 ^ 8) with 256. change (2 ^ 16) with 65536. change (2 ^ 24) with 16777216.
  change (2 ^ 4) with 16. rewrite (Z.mod_small (lba / 16777216) 16) by (Z.div_mod_to_equations; lia). done.
Qed.

(** The registers as [send_command] leaves them. *)
Definition sent (v : IdeHdd.disk) (lba numsects s : Z) : IdeHdd.disk :=
  IdeHdd.with_reg (IdeHdd.with_reg (IdeHdd.with_reg (IdeHdd.with_reg (IdeHdd.with_reg v
    IdeHdd.DEVICE_HEAD_REGISTER (u8 (Z.lor (Z.lor 224 (Z.shiftl s 4)) (lba / 16777216))))
    IdeHdd.SECTOR_COUNT_REGISTER (u8 numsects))
    IdeHdd.SECTOR_NUMBER_REGISTER (u8 (lba `mod` 256)))
    IdeHdd.CYLINDER_LOW_REGISTER (u8 ((lba / 256) `mod` 256)))
    IdeHdd.CYLINDER_HIGH_REGISTER (u8 ((lba / 65536) `mod` 256)).

Lemma sent_selects v lba numsects s : 0 ≤ lba < 268435456 → (s = 0 ∨ s = 1) → 1 ≤ numsects ≤ 255 →
  IdeHdd.drive_sel (sent v lba numsects s) = s ∧ IdeHdd.lba_sel (sent v lba numsects s) = lba ∧
  IdeHdd.reg (sent v lba numsects s) IdeHdd.SECTOR_COUNT_REGISTER = numsects ∧
  Z.testbit (IdeHdd.reg (sent v lba numsects s) IdeHdd.DEVICE_HEAD_REGISTER) 6 = true.
Proof.
  intros Hl Hs Hn. destruct (devsel_bits s (lba / 16777216)) as (E4 & Em & E6);
    [done|Z.div_mod_to_equations; lia|].
  unfold IdeHdd.drive_sel, IdeHdd.lba_sel, sent. rewrite !IdeHdd.reg_with.
  repeat first [rewrite decide_True by done | rewrite decide_False by done].
  split_and!; [done| |apply u8_id; unfold is_u8; lia|done].
  rewrite Em. unfold u8. Z.div_mod_to_equations. lia.
Qed.

Lemma send_command_read a lba numsects s caps : primary a → (s = 0 ∨ s = 1) → has caps 512 = true →
  0 ≤ lba < 268435456 → 1 ≤ numsects ≤ 255 → IdeHdd.ph (IdeHdd.view (bus a)) = IdeHdd.Idle →
  ∃ d, send_command a ATA_READ lba numsects 0 s caps = with_bus a d ∧
    IdeHdd.view d = IdeHdd.with_ph (sent (IdeHdd.view (bus a)) lba numsects s)
      (IdeHdd.data_in (IdeHdd.sectors (IdeHdd.view (bus a)) s lba (Z.to_nat numsects))).
Proof.
  intros Hp Hs Hc Hl Hn Hi. unfold send_command. rewrite (lba28_regs lba caps Hl Hc).
  cbn [Z.eqb Pos.eqb lookup list_lookup default].
  unfold access_cmd. cbn [ATA_READ Z.eqb Pos.eqb].
  unfold ATA_REG_HDDEVSEL, ATA_REG_SECCOUNT0, ATA_REG_LBA0, ATA_REG_LBA1, ATA_REG_LBA2, ATA_REG_COMMAND.
  rewrite !ide_write_low by (done || lia). cbn [bus with_bus].
  eexists. split; [reflexivity|].
  match goal with |- IdeHdd.view (out8 _ _ ?x) = _ => set (d2 := x) end.
  assert (H2 : IdeHdd.view d2 = sent (IdeHdd.view (bus a)) lba numsects s).
  { subst d2. unfold sent. repeat (rewrite IdeHdd.ata_reg_out; [| |done]); done. }
  clearbody d2. destruct (sent_selects (IdeHdd.view (bus a)) lba numsects s Hl Hs Hn) as (E1 & E2 & E3 & E4).
  change (496 + 7) with IdeHdd.COMMAND_REGISTER. change (u8 ATA_CMD_READ_PIO) with 32.
  rewrite IdeHdd.ata_command; rewrite H2.
  - unfold IdeHdd.command. cbn [Z.eqb Pos.eqb]. by rewrite E1, E2, E3.
  - done.
  - right; right. split_and!; [lia|done|done].
Qed.

(** The sectors of the drive as a list of sectors. *)
Definition sector_list (v : IdeHdd.disk) (drive lba : Z) (n : nat) : list (list Z) :=
  (λ i : nat, IdeHdd.sector_at v drive (lba + Z.of_nat i)) <$> seq 0 n.

(** All of them are on the medium. *)
Definition readable (v : IdeHdd.disk) (drive lba : Z) (n : nat) : Prop :=
  Forall (λ ws, length ws = 256%nat ∧ Forall is_u16 ws) (sector_list v drive lba n).

(** What a transfer leaves alone besides the medium. *)
Definition same_setup a a' : Prop :=
  primary a' ∧ (0 < length (channels a'))%nat ∧ ide_devices a' = ide_devices a ∧ ata_drive a' = ata_drive a.

Lemma ide_ata_access_read fuel a drive s lba numsects edi :
  primary a → (0 < length (channels a))%nat → lba_drive a drive s → (0 < fuel)%nat →
  0 ≤ lba < 268435456 → 1 ≤ numsects ≤ 255 → 0 ≤ edi → edi + 512 * numsects < 4294967296 →
  IdeHdd.ph (IdeHdd.view (bus a)) = IdeHdd.Idle →
  readable (IdeHdd.view (bus a)) s lba (Z.to_nat numsects) →
  ∃ a', ide_ata_access fuel a ATA_READ drive lba numsects edi = Ok (0, a') ∧
    hp a' = with_mem (hp a)
      (store_words (a_mem a) edi (IdeHdd.sectors (IdeHdd.view (bus a)) s lba (Z.to_nat numsects))) ∧
    IdeHdd.ph (IdeHdd.view (bus a')) = IdeHdd.Idle ∧
    IdeHdd.media (IdeHdd.view (bus a')) = IdeHdd.media (IdeHdd.view (bus a)) ∧
    same_setup a a'.
Proof.
  intros Hp Hlen [Hch Hdr Hs Hcaps] Hf Hl Hn Hlo Hhi Hi Hr. unfold ide_ata_access.
  rewrite Hch, Hdr. destruct (id Hp) as [-> _]. set (a1 := upd_chan (with_irq a 0) 0 (set_nIEN 2)).
  assert (Hp1 : primary a1).
  { unfold primary, chan, a1, upd_chan in *. cbn [channels with_channels with_irq].
    change (Z.to_nat 0) with 0%nat in *. destruct (channels a) as [|c cs]; [cbn in Hlen; lia|]. exact Hp. }
  rewrite (ide_write_control a1) by done. change (bus a1) with (bus a).
  set (a2 := with_bus a1 _).
  assert (H2 : IdeHdd.view (bus a2) = IdeHdd.view (bus a)) by apply IdeHdd.ata_control.
  destruct (wait_not_bsy_ok fuel a2 Hp1 Hf) as (d3 & -> & H3). cbn [mbind res_bind].
  destruct (send_command_read (with_bus a2 d3) lba numsects s (Capabilities (dev a drive)))
    as (d4 & -> & H4); try done; [by cbn [bus with_bus]; rewrite H3, H2|].
  cbn [ATA_READ Z.eqb]. cbn [bus with_bus] in H4. rewrite H3, H2 in H4.
  set (ss := sector_list (IdeHdd.view (bus a)) s lba (Z.to_nat numsects)).
  assert (Hss : length ss = Z.to_nat numsects) by (unfold ss, sector_list; by rewrite length_fmap, length_seq).
  destruct (pio_read_ok fuel Hf ss (with_bus (with_bus a2 d3) d4) edi) as (d5 & E5 & H5); try done.
  - rewrite Hss. lia.
  - cbn [bus with_bus]. by rewrite H4.
  - rewrite Hss in E5. rewrite E5. eexists. split; [reflexivity|].
    cbn [bus with_bus with_a_mem with_hp hp a_mem]. rewrite H5. cbn [bus with_bus]. rewrite H4.
    split_and!; try done. unfold same_setup. split_and!; try done.
    change (0 < length (channels a1))%nat. unfold a1, upd_chan. cbn [channels with_channels with_irq].
    by rewrite length_alter.
Qed.

(** The guards of [ide_read_sectors] let the request through. *)
Lemma ide_read_sectors_ok fuel a drive s lba numsects edi err0 :
  primary a → (0 < length (channels a))%nat → lba_drive a drive s → (0 < fuel)%nat →
  drive ≤ 3 → Reserved (dev a drive) = 1 → Type_ (dev a drive) = IDE_ATA →
  0 ≤ lba → lba + numsects ≤ Size (dev a drive) → lba < 268435456 →
  1 ≤ numsects ≤ 255 → 0 ≤ edi → edi + 512 * numsects < 4294967296 →
  IdeHdd.ph (IdeHdd.view (bus a)) = IdeHdd.Idle →
  readable (IdeHdd.view (bus a)) s lba (Z.to_nat numsects) →
  ∃ a', ide_read_sectors fuel a drive numsects lba edi err0 = Ok a' ∧ package0 a' = 0 ∧
    hp a' = with_mem (hp a)
      (store_words (a_mem a) edi (IdeHdd.sectors (IdeHdd.view (bus a)) s lba (Z.to_nat numsects))) ∧
    IdeHdd.ph (IdeHdd.view (bus a')) = IdeHdd.Idle ∧
    IdeHdd.media (IdeHdd.view (bus a')) = IdeHdd.media (IdeHdd.view (bus a)) ∧ same_setup a a'.
Proof.
  intros Hp Hlen Hd Hf H3 HR HT Hl Hsz Hl28 Hn Hlo Hhi Hi Hr. unfold ide_read_sectors.
  rewrite (proj2 (Z.ltb_ge 3 drive)), HR, HT by lia. cbn [orb Z.eqb].
  rewrite u32_id by (unfold is_u32; lia). rewrite (proj2 (Z.ltb_ge _ _)) by lia. cbn [andb].
  destruct (ide_ata_access_read fuel a drive s lba numsects edi) as (a' & -> & E1 & E2 & E3 & E4); try done.
  cbn [mbind res_bind ide_print_error Z.eqb]. eexists. split; [reflexivity|]. done.
Qed.

(** ** [Ata::read] *)

(** Byte [k] of a drive. *)
Definition disk_byte (v : IdeHdd.disk) (drive k : Z) : Z :=
  word_byte (IdeHdd.sector_at v drive (k / 512)) (k `mod` 512).

Lemma concat_length (ss : list (list Z)) : Forall (λ ws, length ws = 256%nat) ss →
  length (concat ss) = (256 * length ss)%nat.
Proof.
  induction 1 as [|ws ss Hl _ IH]; [done|]. cbn [concat length]. rewrite length_app, Hl, IH. lia.
Qed.

Lemma concat_byte (ss : list (list Z)) j : Forall (λ ws, length ws = 256%nat) ss →
  0 ≤ j < 512 * Z.of_nat (length ss) →
  word_byte (concat ss) j = word_byte (default [] (ss !! Z.to_nat (j / 512))) (j `mod` 512).
Proof.
  intros Hs. revert j. induction Hs as [|ws ss Hl Hs IH]; intros j Hj; [cbn in Hj; lia|].
  cbn [concat]. destruct (Z.lt_ge_cases j 512).
  - rewrite Z.div_small, Z.mod_small by lia. change (default [] ((ws :: ss) !! Z.to_nat 0)) with ws.
    unfold word_byte. do 3 f_equal. apply lookup_app_l. rewrite Hl. Z.div_mod_to_equations; lia.
  - rewrite length_cons in Hj.
    replace (Z.to_nat (j / 512)) with (S (Z.to_nat ((j - 512) / 512))) by (Z.div_mod_to_equations; lia).
    change ((ws :: ss) !! S (Z.to_nat ((j - 512) / 512))) with (ss !! Z.to_nat ((j - 512) / 512)).
    replace (j `mod` 512) with ((j - 512) `mod` 512) by (Z.div_mod_to_equations; lia).
    rewrite <- IH by lia. unfold word_byte.
    replace ((j - 512) `mod` 2) with (j `mod` 2) by (Z.div_mod_to_equations; lia).
    do 3 f_equal. rewrite lookup_app_r by (rewrite Hl; Z.div_mod_to_equations; lia).
    f_equal. rewrite Hl. Z.div_mod_to_equations; lia.
Qed.

Lemma readable_lengths v drive lba n : readable v drive lba n →
  Forall (λ ws : list Z, length ws = 256%nat) (sector_list v drive lba n).
Proof. intros Hr. eapply Forall_impl; [exact Hr|]. by intros ws [? _]. Qed.

Lemma sectors_length v drive lba n : readable v drive lba n →
  length (IdeHdd.sectors v drive lba n) = (256 * n)%nat.
Proof.
  intros Hr. change (IdeHdd.sectors v drive lba n) with (concat (sector_list v drive lba n)).
  rewrite concat_length by (by apply readable_lengths). unfold sector_list. by rewrite length_fmap, length_seq.
Qed.

Lemma sectors_byte v drive lba n j : readable v drive lba n → 0 ≤ j < 512 * Z.of_nat n →
  word_byte (IdeHdd.sectors v drive lba n) j = disk_byte v drive (lba * 512 + j).
Proof.
  intros Hr Hj. change (IdeHdd.sectors v drive lba n) with (concat (sector_list v drive lba n)).
  assert (Hl : length (sector_list v drive lba n) = n) by (unfold sector_list; by rewrite length_fmap, length_seq).
  rewrite concat_byte by (rewrite ?Hl; auto using readable_lengths). unfold disk_byte.
  replace ((lba * 512 + j) / 512) with (lba + j / 512) by (Z.div_mod_to_equations; lia).
  replace ((lba * 512 + j) `mod` 512) with (j `mod` 512) by (Z.div_mod_to_equations; lia).
  unfold sector_list. rewrite list_lookup_fmap, lookup_seq_lt by (Z.div_mod_to_equations; lia).
  replace (lba + j / 512) with (lba + Z.of_nat (0 + Z.to_nat (j / 512))); [done|].
  rewrite Nat.add_0_l, Z2Nat.id; [done|]. apply Z.div_pos; lia.
Qed.

(** Number of sectors that [Ata::read] transfers. *)
Definition read_blocks (pos count : Z) : Z := (pos + count) / 512 - pos / 512 + 1.

(** The buffer of the driver: blocks of the heap around the one it is taken from. *)
Record room (h : heap) (blocks : Z) (pre mid : list (Z * bool)) (sz : Z) (post : list (Z * bool)) : Prop := {
  rm_heap : Heap h (pre ++ mid ++ (sz, false) :: post);
  rm_start : starts_at h pre (mid ++ (sz, false) :: post);
  rm_mid : Forall (λ b : Z * bool, b.2 = false → b.1 < round_size (blocks * 512)) mid;
  rm_size : round_size (blocks * 512) + 8 ≤ sz;
  rm_post : ∀ ns r, post ≠ (ns, false) :: r
}.

(** The drive of the object is an idle LBA drive of the primary channel. *)
Record online a (s : Z) : Prop := {
  on_prim : primary a ∧ (0 < length (channels a))%nat;
  on_drive : lba_drive a (ata_drive a) s ∧ ata_drive a ≤ 3;
  on_dev : Reserved (dev a (ata_drive a)) = 1 ∧ Type_ (dev a (ata_drive a)) = IDE_ATA;
  on_idle : IdeHdd.ph (IdeHdd.view (bus a)) = IdeHdd.Idle
}.

Lemma online_same a a' s : online a s → same_setup a a' →
  IdeHdd.ph (IdeHdd.view (bus a')) = IdeHdd.Idle → online a' s.
Proof.
  intros [_ [[? ? ? ?] ?] [? ?] _] (Hp & Hl & Ed & Ea) Hi.
  assert (Edev : dev a' (ata_drive a') = dev a (ata_drive a)) by (unfold dev; by rewrite Ed, Ea).
  split; [done| |by rewrite Edev|done]. split; [|by rewrite Ea]. by split; rewrite ?Edev.
Qed.

(** The request is within the drive and the transfer limit. *)
Record in_drive a (s pos count : Z) : Prop := {
  id_pos : 0 ≤ pos ∧ 0 ≤ count ∧ pos + count < 2147483648;
  id_blocks : read_blocks pos count ≤ 255;
  id_end : pos / 512 + read_blocks pos count ≤ Size (dev a (ata_drive a));
  id_media : readable (IdeHdd.view (bus a)) s (pos / 512) (Z.to_nat (read_blocks pos count))
}.

Lemma kfree_of_carved fuel h Q x r post m : (∀ ns l, post ≠ (ns, false) :: l) →
  Heap (with_mem h m) (Q ++ (x, false) :: (r, true) :: post) → (S (length Q) < fuel)%nat →
  ∃ h', kfree fuel (with_mem h m) (base h + total Q + x + 8) = Ok h' ∧
    Heap h' (Q ++ (x + r, false) :: post) ∧ base h' = base h ∧ next_free h' = next_free h ∧
    eflags h' = eflags h ∧
    ∀ y, ¬ (base h + total Q ≤ y < base h + total Q + (x + r)) → load8 (h_mem h') y = load8 m y.
Proof.
  intros Hpost HH Hf.
  replace (Q ++ (x, false) :: (r, true) :: post) with ((Q ++ [(x, false)]) ++ (r, true) :: post) in *
    by (by rewrite <- app_assoc).
  destruct (kfree_spec fuel _ _ _ _ HH) as (h' & E & H1 & _ & H2 & H3 & H4 & H5).
  { rewrite length_app. cbn. lia. }
  destruct HH as [Hh _ _ _ _]. cbn [with_mem base h_mem] in *.
  pose proof Hh as Hh'. apply hdrs_app in Hh' as [Hq Hr]. pose proof (hdrs_total _ _ _ _ Hq) as [Hq0 _].
  cbn [hdrs] in Hr. destruct Hr as (_ & _ & Hr8 & _ & Hr). apply hdrs_total in Hr as [Hr0 _].
  rewrite total_app in E, Hq0. cbn [total fst] in E, Hq0.
  replace (base h + total Q + x + 8) with (base h + (total Q + (x + 0)) + 8) by lia.
  exists h'. split; [exact E|]. split.
  { rewrite coalesce_snoc in H1. unfold freed_list in H1.
    destruct post as [|[ns []] post']; [done|done|]. by destruct (Hpost ns post'). }
  split; [done|]. split; [done|]. split; [done|]. intros y Hy. eapply H5; [reflexivity|].
  apply hdrs_app in Hq as [Hq1 Hq2]. apply hdrs_total in Hq1 as [Hq1 _]. cbn [hdrs] in Hq2.
  destruct Hq2 as (_ & _ & Hx8 & _). unfold in_headers. rewrite total_app. cbn [total fst]. lia.
Qed.

(** The bounds of a request in 32-bit arithmetic. *)
Lemma read_bounds pos count : 0 ≤ pos → 0 ≤ count → pos + count < 2147483648 →
  read_blocks pos count ≤ 255 →
  1 ≤ read_blocks pos count ∧ pos `mod` 512 + count ≤ read_blocks pos count * 512 ∧
  0 ≤ pos / 512 < 268435456 ∧ Z.quot (s32 pos) 512 = pos / 512 ∧
  Z.quot (s32 (s32 pos + s32 count)) 512 - Z.quot (s32 pos) 512 + 1 = read_blocks pos count ∧
  Z.rem (s32 pos) 512 = pos `mod` 512.
Proof.
  intros H0 H1 H2 H3. unfold read_blocks in *.
  rewrite !s32_id by (unfold is_s32; lia || (rewrite !s32_id by (unfold is_s32; lia); unfold is_s32; lia)).
  rewrite !Z.quot_div_nonneg, Z.rem_mod_nonneg by lia.
  split_and!; try done; Z.div_mod_to_equations; lia.
Qed.

(** The temporary buffer of [Ata::read], loaded from the drive. *)
Lemma loaded_bytes (m : mem) v s pos count p i :
  0 ≤ pos → readable v s (pos / 512) (Z.to_nat (read_blocks pos count)) →
  pos `mod` 512 + count ≤ read_blocks pos count * 512 → 1 ≤ read_blocks pos count → 0 ≤ i < count →
  load8 (store_words m (p + 8) (IdeHdd.sectors v s (pos / 512) (Z.to_nat (read_blocks pos count))))
    (p + 8 + pos `mod` 512 + i) = disk_byte v s (pos + i).
Proof.
  intros H0 Hr Hcov H1 Hi. pose proof (Z.mod_pos_bound pos 512).
  rewrite load8_store_words, decide_True by (rewrite sectors_length by done; lia).
  rewrite sectors_byte by (done || (rewrite Z2Nat.id by lia; lia)).
  f_equal. Z.div_mod_to_equations; lia.
Qed.

(** The stages of [Ata::read] between [kmalloc] and [kfree]: the temporary block
    [p] of [r] bytes, cut from the free block behind [Q], is loaded and copied to
    [buffer]; the heap is kept and nothing else changes. *)
Lemma staged h1 Q x r post (m2 m3 : mem) ws buffer src (count : nat) :
  let L := Q ++ (x, false) :: (r, true) :: post in
  let p := base h1 + total Q + x in
  Heap h1 L → m2 = store_words (h_mem h1) (p + 8) ws → 8 + 2 * Z.of_nat (length ws) ≤ r →
  KString.copied m2 m3 buffer src count →
  (∀ y, buffer ≤ y < buffer + Z.of_nat count → safe h1 (Q ++ (x + r, false) :: post) y) →
  Heap (with_mem h1 m3) L ∧
  ∀ y, ¬ (buffer ≤ y < buffer + Z.of_nat count) → ¬ (p ≤ y < p + r) → load8 m3 y = load8 (h_mem h1) y.
Proof.
  intros L p HH -> Hws [_ Hc] Hbuf. split.
  - change (with_mem h1 m3) with (with_mem (with_mem h1 (store_words (h_mem h1) (p + 8) ws)) m3).
    apply Heap_safe.
    + unfold L in *. replace (Q ++ (x, false) :: (r, true) :: post)
        with ((Q ++ [(x, false)]) ++ (r, true) :: post) in * by (by rewrite <- app_assoc).
      apply Heap_payload; [done|]. rewrite total_app. cbn [total fst]. intros y Hy.
      rewrite load8_store_words, decide_False; [done|]. unfold p. lia.
    + intros y Hy. cbn [with_mem h_mem] in *. apply Hc. intros Hin. apply Hy. specialize (Hbuf y Hin).
      unfold safe, L in *. cbn [with_mem base]. rewrite !total_app, !used_byte_app in *.
      cbn [total fst used_byte] in *. rewrite Z.add_assoc in Hbuf.
      replace (base h1 + total Q + x + r) with (base h1 + total Q + (x + r)) in * by lia.
      destruct Hbuf as [?|[?|[?|[[? _]|?]]]]; [by left| |tauto|done|tauto]. right; left. lia.
  - intros y Hy Hp. rewrite Hc by done. rewrite load8_store_words, decide_False by lia. done.
Qed.

Lemma read_spec fuel a s pos buffer count err0 pre mid sz post :
  online a s → in_drive a s pos count → room (hp a) (read_blocks pos count) pre mid sz post →
  (S (length (pre ++ mid)) < fuel)%nat → 0 < buffer →
  (∀ x, buffer ≤ x < buffer + count → safe (hp a) (pre ++ mid ++ (sz, false) :: post) x) →
  ∃ a', read fuel a pos buffer count err0 = Ok (count, a') ∧
    (∀ k, 0 ≤ k < count → load8 (a_mem a') (buffer + k) = disk_byte (IdeHdd.view (bus a)) s (pos + k)) ∧
    (∀ x, ¬ (buffer ≤ x < buffer + count) → safe (hp a) (pre ++ mid ++ (sz, false) :: post) x →
       load8 (a_mem a') x = load8 (a_mem a) x) ∧
    Heap (hp a') (pre ++ mid ++ (sz, false) :: post) ∧
    starts_at (hp a') (pre ++ mid) ((sz, false) :: post) ∧ base (hp a') = base (hp a) ∧
    online a' s ∧ IdeHdd.media (IdeHdd.view (bus a')) = IdeHdd.media (IdeHdd.view (bus a)) ∧
    ide_devices a' = ide_devices a ∧ ata_drive a' = ata_drive a.
Proof.
  intros Hon [(H0 & H1 & H2) Hb Hend Hm] [HH Hst Hmid Hsz Hpost] Hf Hbuf Hsafe.
  destruct (id Hon) as [[Hp Hlen] [Hld H3] [HR HT] Hi].
  destruct (read_bounds pos count H0 H1 H2 Hb) as (Hb1 & Hcov & Hl28 & Eq1 & Eq2 & Er).
  set (n := read_blocks pos count) in *.
  unfold read. rewrite (proj2 (Z.eqb_neq buffer 0)) by lia. cbv zeta.
  rewrite Eq2, Er, Eq1, (proj2 (Z.ltb_ge 255 n)) by lia.
  rewrite (s32_id count), (u32_id (n * 512)), (u32_id count), (u8_id n), (u32_id (pos / 512))
    by (unfold is_s32, is_u32, is_u8; lia).
  rewrite length_app in Hf. destruct (id HH) as [Hh _ _ Hlo Hhi].
  destruct (kmalloc_spec fuel (hp a) (n * 512) pre mid sz post HH Hst ltac:(lia) ltac:(lia) Hsz Hmid ltac:(lia))
    as (h1 & -> & Hrs & HH1 & Hst1 & Hb1' & _ & Hx1). cbn [mbind res_bind].
  set (r := round_size (n * 512)) in *. set (Q := pre ++ mid) in *.
  rewrite !(app_assoc pre mid) in HH1, Hh, Hhi, Hsafe |- *. change (pre ++ mid) with Q in HH1, Hh, Hhi, Hsafe |- *.
  rewrite <- Hb1' in *. set (p := base h1 + total Q + (sz - r)) in *.
  pose proof (hdrs_total _ _ _ _ (proj1 (proj1 (hdrs_app _ _ _ _ _) Hh))) as [Hq0 _].
  rewrite total_app in Hhi. cbn [total fst] in Hhi.
  pose proof (proj2 (proj1 (hdrs_app _ _ _ _ _) Hh)) as Hh2. cbn [hdrs] in Hh2.
  destruct Hh2 as (_ & _ & _ & _ & Hpo). apply hdrs_total in Hpo as [Hpo _].
  assert (Hnf : ∀ x, safe (hp a) (Q ++ (sz, false) :: post) x → ¬ (base h1 + total Q ≤ x < base h1 + total Q + sz)).
  { intros x. rewrite Hb1' in Hh |- *. by apply (safe_not_free (hp a) (h_mem (hp a)) (base (hp a))). }
  change (ata_drive (with_hp a h1)) with (ata_drive a).
  destruct (ide_read_sectors_ok fuel (with_hp a h1) (ata_drive a) s (pos / 512) n (p + 8) err0)
    as (a2 & -> & _ & E2 & Hi2 & Hm2 & Hsame); try done; try lia; try (unfold p; lia).
  { by destruct Hld; split. }
  cbn [mbind res_bind]. rewrite (u32_id (p + 8 + pos `mod` 512)) by (unfold is_u32, p; Z.div_mod_to_equations; lia).
  change (a_mem (with_hp a h1)) with (h_mem h1) in E2. cbn [hp with_hp bus] in E2, Hm2.
  set (ws := IdeHdd.sectors _ _ _ _) in E2. set (m2 := store_words (h_mem h1) (p + 8) ws) in *.
  assert (Em2 : a_mem a2 = m2) by (unfold a_mem; by rewrite E2). rewrite Em2.
  assert (Hws : Z.of_nat (length ws) = 256 * n) by (unfold ws; rewrite sectors_length by done; lia).
  assert (Hsrc : ∀ i, 0 ≤ i < count →
    load8 m2 (p + 8 + pos `mod` 512 + i) = disk_byte (IdeHdd.view (bus a)) s (pos + i))
    by (intros i Hin; by apply loaded_bytes).
  pose proof (KString.copy_up m2 buffer (p + 8 + pos `mod` 512) (Z.to_nat count)) as Hcp.
  fold (KString.memcpy m2 buffer (p + 8 + pos `mod` 512) (Z.to_nat count)) in Hcp.
  set (m3 := KString.memcpy m2 buffer (p + 8 + pos `mod` 512) (Z.to_nat count)) in *. clearbody m3.
  rewrite Z2Nat.id in Hcp by lia. destruct Hcp as [Hc1 Hc2].
  { intros i Hin. rewrite (Hsrc i Hin). apply u8_range. }
  { destruct (Z.eq_dec count 0) as [->|]; [pose proof (Z.mod_pos_bound pos 512); lia|].
    pose proof (Hnf buffer (Hsafe buffer ltac:(lia))). pose proof (Z.mod_pos_bound pos 512). unfold p in *. lia. }
  rewrite Z2Nat.id in Hc1, Hc2 by lia.
  destruct (staged h1 Q (sz - r) r post m2 m3 ws buffer (p + 8 + pos `mod` 512) (Z.to_nat count)) as [HH3 Hx3].
  { done. } { done. } { lia. } { split; rewrite Z2Nat.id by lia; done. }
  { rewrite Z2Nat.id by lia. replace (sz - r + r) with sz by lia. intros y Hy. specialize (Hsafe y Hy).
    unfold safe in *. by rewrite Hb1' in *. }
  rewrite Z2Nat.id in Hx3 by lia. fold p in Hx3.
  replace (hp (with_a_mem a2 m3)) with (with_mem h1 m3) by (cbn [hp with_hp with_a_mem]; by rewrite E2).
  destruct (kfree_of_carved fuel h1 Q (sz - r) r post m3 Hpost HH3) as (h4 & E4 & H4 & Hb4 & Hn4 & _ & Hx4).
  { unfold Q. rewrite length_app. lia. }
  fold p in E4. rewrite E4. cbn [mbind res_bind]. replace (sz - r + r) with sz in * by lia.
  eexists. split; [reflexivity|]. unfold a_mem. cbn [hp with_hp bus ide_devices ata_drive with_a_mem].
  split_and!; try done.
  - intros k Hk. rewrite Hx4, Hc1 by (lia || (replace (sz - r + r) with sz by lia; apply Hnf, Hsafe; lia)). by apply Hsrc.
  - intros x Hx Hs. specialize (Hnf x Hs). rewrite Hx4, Hx3 by (done || (unfold p; lia)). apply Hx1.
    unfold in_headers, p. lia.
  - destruct Hst1 as [Hst1 _]. split; [|by eexists _, _]. by rewrite Hn4, Hb4.
  - eapply online_same; [exact Hon| |done]. by destruct Hsame as (? & ? & ? & ?).
  - by destruct Hsame as (_ & _ & ? & _).
  - by destruct Hsame as (_ & _ & _ & ?).
Qed.


(** A transfer that ends exactly at the end of the drive asks for one block too
    many and is refused without any access to the drive. *)
Lemma read_to_end_refused fuel a pos count edi err0 :
  Reserved (dev a (ata_drive a)) = 1 → Type_ (dev a (ata_drive a)) = IDE_ATA → ata_drive a ≤ 3 →
  0 ≤ pos → 0 ≤ count → pos + count = Size (dev a (ata_drive a)) * 512 → pos + count < 2147483648 →
  read_blocks pos count ≤ 255 →
  ide_read_sectors fuel a (ata_drive a) (read_blocks pos count) (pos / 512) edi err0 = Ok (with_package a 2).
Proof.
  intros HR HT H3 H0 H1 He Hb Hn. unfold ide_read_sectors.
  rewrite (proj2 (Z.ltb_ge 3 _)), HR, HT by lia. cbn [orb Z.eqb].
  unfold read_blocks in *. rewrite u32_id by (unfold is_u32; Z.div_mod_to_equations; lia).
  rewrite (proj2 (Z.ltb_lt _ _)); [done|]. Z.div_mod_to_equations; lia.
Qed.

(** In [Ata::write] a block-sized request at an unaligned position is given one
    block too few: the data end behind the temporary buffer. *)
Lemma write_buffer_too_small pos count : 0 ≤ pos → 0 < count → pos + count < 2147483648 →
  count `mod` 512 = 0 → pos `mod` 512 ≠ 0 →
  write_blocks pos count count * 512 < Z.rem pos 512 + count.
Proof.
  intros H0 H1 H2 Hc Hp. unfold write_blocks. rewrite s32_id by (unfold is_s32; lia).
  rewrite Hc, Z.rem_mod_nonneg, !Z.quot_div_nonneg by lia. cbn [Z.eqb]. Z.div_mod_to_equations; lia.
Qed.

End disk.

(** ** Concrete runs *)

Definition ex_bus : IdeHdd.disk :=
  IdeHdd.mkDisk IdeHdd.Idle ∅
    {[ (0, 0) := replicate 256 16705; (0, 1) := replicate 256 17219; (0, 2) := replicate 256 17733 ]} ∅.

Definition ex_ata : ata (D := IdeHdd.disk) :=
  mkAta ex_bus (ex_heap [(8192, false)] 4096) 0 1 [mkChan 496 1012 0 0; mkChan 368 884 0 0]
    [mkDev 1 0 0 0 0 512 0 3 []; dev0; dev0; dev0] [] 0 0.


(** Reading the last sector of a drive fails without notice: [Ata::read]
    returns the size of the request as if it had been served, the drive was never
    accessed, and the buffer does not hold the sector. *)
Theorem ata_read_last_sector_lost :
  match read 10 ex_ata 1024 65536 512 0 with
  | Ok (n, a') => n = 512 ∧ package0 a' = 2 ∧ bus a' = bus ex_ata ∧
      load8 (a_mem a') 65536 = 0 ∧ disk_byte (IdeHdd.view (bus ex_ata)) 0 1024 = 69
  | _ => False
  end.
Proof. vm_compute. done. Qed.

End Ata.
