(* ===== verification/KernelIO.v ===== *)
(** * The services the file system runs on

    [Ext2], [FileSystem] and the ELF loader use the rest of the kernel through
    three things only: bytes of memory, the heap ([new], [delete], [kmalloc]) and
    [Ata::read]. [KernelIO] is the interface of these operations and
    [KernelIOSpec] what they promise; [AtaIO.v] shows that the heap and the ATA
    driver keep the promise. On top of the interface this file defines [kheap]:
    which heap blocks a client holds, with their contents, and how much of the
    heap is left. *)

From S2P Require Import Prelude Memory.

(** ** Operations *)

Class KernelIO (S : Type) := {
  io_mem : S → mem;
  io_set : S → mem → S;
  io_new : S → Z → res (Z * S);
  io_delete : S → Z → res S;
  io_read : S → Z → Z → Z → res (Z * S)
}.

(** What a request of [n] bytes takes from the heap: the header and the rounding. *)
Definition cost (n : Z) : Z := (n + 11) / 4 * 4.

(** ** Promises

    [static] never changes: the bytes outside of the heap, and the disk. [dyn] is
    the arrangement of the heap: its blocks in use ([block w p k]: the [k] bytes at
    [p]), how many bytes can be allocated in any case, and whether the block at [p]
    is the one that was allocated last. *)
Class KernelIOSpec (S : Type) `{KernelIO S} := {
  static : Type;
  dyn : Type;
  outside : static → Z → Prop;
  dbyte : static → Z → Z;
  dlimit : static → Z;
  block : static → dyn → Z → Z → Prop;
  budget : dyn → Z;
  newest : static → dyn → Z → Prop;
  io_inv : S → static → dyn → Prop;

  dbyte_range : ∀ σ x, 0 ≤ dbyte σ x < 256;
  dlimit_range : ∀ s σ w, io_inv s σ w → dlimit σ < 2147483648;

  block_range : ∀ s σ w p k, io_inv s σ w → block σ w p k → 0 < p ∧ 0 ≤ k ∧ p + k < 4294967296;
  block_size : ∀ s σ w p k j, io_inv s σ w → block σ w p k → block σ w p j → k = j;
  block_outside : ∀ s σ w p k x, io_inv s σ w → block σ w p k → outside σ x → ¬ (p ≤ x < p + k);
  block_disjoint : ∀ s σ w p k q j x, io_inv s σ w → block σ w p k → block σ w q j → p ≠ q →
    p ≤ x < p + k → ¬ (q ≤ x < q + j);

  io_mem_set : ∀ s m, io_mem (io_set s m) = m;
  io_set_spec : ∀ s σ w m, io_inv s σ w →
    (∀ x, ¬ outside σ x → (∀ p k, block σ w p k → ¬ (p ≤ x < p + k)) → load8 m x = load8 (io_mem s) x) →
    io_inv (io_set s m) σ w;

  io_new_spec : ∀ s σ w n, io_inv s σ w → 0 ≤ n → cost n ≤ budget w →
    ∃ p s' w', io_new s n = Ok (p, s') ∧ io_inv s' σ w' ∧ budget w' = budget w - cost n ∧
      block σ w' p (cost n - 8) ∧ newest σ w' p ∧
      (∀ q j, block σ w q j → block σ w' q j ∧ q ≠ p) ∧
      (∀ x, outside σ x ∨ (∃ q j, block σ w q j ∧ q ≤ x < q + j) →
         load8 (io_mem s') x = load8 (io_mem s) x);

  io_delete_spec : ∀ s σ w p k, io_inv s σ w → block σ w p k →
    ∃ s' w', io_delete s p = Ok s' ∧ io_inv s' σ w' ∧
      budget w ≤ budget w' ∧ (newest σ w p → budget w + k + 8 ≤ budget w') ∧
      (∀ q j, block σ w q j → q ≠ p → block σ w' q j) ∧
      (∀ x, outside σ x ∨ (∃ q j, block σ w q j ∧ q ≠ p ∧ q ≤ x < q + j) →
         load8 (io_mem s') x = load8 (io_mem s) x);

  io_read_spec : ∀ s σ w pos buffer count, io_inv s σ w → 0 < buffer → 0 ≤ pos → 0 ≤ count ≤ 65536 →
    pos + count ≤ dlimit σ → cost (count + 1024) ≤ budget w →
    (∀ x, buffer ≤ x < buffer + count → outside σ x ∨ ∃ q j, block σ w q j ∧ q ≤ x < q + j) →
    ∃ s', io_read s pos buffer count = Ok (count, s') ∧ io_inv s' σ w ∧
      (∀ i, 0 ≤ i < count → load8 (io_mem s') (buffer + i) = dbyte σ (pos + i)) ∧
      (∀ x, ¬ (buffer ≤ x < buffer + count) →
         outside σ x ∨ (∃ q j, block σ w q j ∧ q ≤ x < q + j) →
         load8 (io_mem s') x = load8 (io_mem s) x)
}.

(** ** Bytes *)

(** The [n] bytes at [p], in memory and on the disk. *)
Definition bytes_of (f : Z → Z) (p : Z) (n : nat) : list Z := (λ i : nat, f (p + Z.of_nat i)) <$> seq 0 n.

Lemma bytes_of_length f p n : length (bytes_of f p n) = n.
Proof. unfold bytes_of. by rewrite length_fmap, length_seq. Qed.

Lemma bytes_of_lookup f p (n i : nat) : (i < n)%nat → bytes_of f p n !! i = Some (f (p + Z.of_nat i)).
Proof.
  intros Hi. unfold bytes_of. rewrite list_lookup_fmap, lookup_seq_lt by done. done.
Qed.

Lemma bytes_of_ext f g p q n : (∀ i, 0 ≤ i < Z.of_nat n → f (p + i) = g (q + i)) →
  bytes_of f p n = bytes_of g q n.
Proof.
  intros H. apply list_fmap_ext. intros i j Hj. apply lookup_seq in Hj as [-> Hj]. apply H. lia.
Qed.

Lemma bytes_of_eq f p l : (∀ (i : nat) b, l !! i = Some b → f (p + Z.of_nat i) = b) →
  bytes_of f p (length l) = l.
Proof.
  intros H. apply list_eq. intros i. destruct (l !! i) as [b|] eqn:E.
  - rewrite bytes_of_lookup by (by eapply lookup_lt_Some). by rewrite (H _ _ E).
  - apply lookup_ge_None in E. apply lookup_ge_None. by rewrite bytes_of_length.
Qed.

Lemma bytes_of_app f p n1 n2 : bytes_of f p (n1 + n2) = bytes_of f p n1 ++ bytes_of f (p + Z.of_nat n1) n2.
Proof.
  apply list_eq. intros i. destruct (decide (i < n1)%nat); [|destruct (decide (i < n1 + n2)%nat)].
  - rewrite lookup_app_l, !bytes_of_lookup by (rewrite ?bytes_of_length; lia). done.
  - rewrite lookup_app_r, bytes_of_length, !bytes_of_lookup by (rewrite ?bytes_of_length; lia). do 2 f_equal. lia.
  - by rewrite !(proj2 (lookup_ge_None _ _)) by (rewrite ?length_app, !bytes_of_length; lia).
Qed.

(** [bs] with the bytes from [o] on replaced by [new]. *)
Definition splice (o : nat) (new bs : list Z) : list Z := take o bs ++ new ++ drop (o + length new) bs.

Lemma splice_length o new bs : (o + length new ≤ length bs)%nat → length (splice o new bs) = length bs.
Proof. intros H. unfold splice. rewrite !length_app, length_take, length_drop. lia. Qed.

Lemma splice_in o new bs i : (o + length new ≤ length bs)%nat → (o ≤ i < o + length new)%nat →
  splice o new bs !! i = new !! (i - o)%nat.
Proof.
  intros H Hi. unfold splice. rewrite lookup_app_r by (rewrite length_take; lia).
  rewrite length_take, lookup_app_l by lia. f_equal. lia.
Qed.

Lemma splice_out o new bs i : (o + length new ≤ length bs)%nat → (i < o ∨ o + length new ≤ i)%nat →
  splice o new bs !! i = bs !! i.
Proof.
  intros H [Hi|Hi]; unfold splice.
  - rewrite lookup_app_l by (rewrite length_take; lia). by rewrite lookup_take_lt by lia.
  - rewrite lookup_app_r, length_take by (rewrite length_take; lia).
    rewrite lookup_app_r by lia. rewrite lookup_drop. f_equal. lia.
Qed.

Lemma splice_splice o new1 new2 bs : length new1 = length new2 → (o + length new1 ≤ length bs)%nat →
  splice o new2 (splice o new1 bs) = splice o new2 bs.
Proof.
  intros El Hl. apply list_eq. intros i. pose proof (splice_length o new1 bs Hl).
  destruct (decide (o ≤ i < o + length new2)%nat).
  - rewrite !splice_in by lia. done.
  - rewrite !splice_out by lia. done.
Qed.

Lemma splice_all new bs : length new = length bs → splice 0 new bs = new.
Proof. intros H. unfold splice. rewrite take_0, drop_ge by lia. by rewrite app_nil_r. Qed.

(** ** The blocks a client holds *)

Section kheap.
Context {S : Type} {KI : KernelIO S} {KS : KernelIOSpec S}.
Implicit Types (s : S) (H : gmap Z (list Z)).

(** The contents of the disk from [pos] on. *)
Definition dbytes (σ : static) (pos : Z) (n : nat) : list Z := bytes_of (dbyte σ) pos n.

(** The bytes outside of the heap are the same. *)
Definition keeps (σ : static) s s' : Prop :=
  ∀ x, outside σ x → load8 (io_mem s') x = load8 (io_mem s) x.

(** The client holds the heap blocks [H] with their contents; [B] bytes can still
    be allocated; [T] is the block allocated last and what it took. *)
Definition kheap s (σ : static) H (B : Z) (T : option (Z * Z)) : Prop :=
  ∃ w, io_inv s σ w ∧ B ≤ budget w ∧
    (∀ p bs, H !! p = Some bs → ∃ k, block σ w p k ∧ Z.of_nat (length bs) ≤ k ∧
       ∀ (i : nat) b, bs !! i = Some b → load8 (io_mem s) (p + Z.of_nat i) = b) ∧
    (∀ p c, T = Some (p, c) → newest σ w p ∧ ∃ k, block σ w p k ∧ c ≤ k + 8).

Lemma keeps_refl σ s : keeps σ s s.
Proof. done. Qed.

Lemma keeps_trans σ s1 s2 s3 : keeps σ s1 s2 → keeps σ s2 s3 → keeps σ s1 s3.
Proof. intros H1 H2 x Hx. by rewrite H2, H1. Qed.

Lemma kheap_weaken s σ Hp B T B' : B' ≤ B → kheap s σ Hp B T → kheap s σ Hp B' None.
Proof. intros HB (w & Hi & Hb & Hm & _). exists w. split_and!; try done. lia. Qed.

Lemma kheap_dlimit s σ Hp B T : kheap s σ Hp B T → dlimit σ < 2147483648.
Proof. intros (w & Hi & _). by eapply dlimit_range. Qed.

Lemma kheap_byte s σ Hp B T p bs (i : nat) b : kheap s σ Hp B T → Hp !! p = Some bs → bs !! i = Some b →
  load8 (io_mem s) (p + Z.of_nat i) = b.
Proof. intros (w & _ & _ & Hm & _) E. destruct (Hm _ _ E) as (k & _ & _ & Hb). apply Hb. Qed.

Lemma kheap_range s σ Hp B T p bs : kheap s σ Hp B T → Hp !! p = Some bs →
  0 < p ∧ p + Z.of_nat (length bs) < 4294967296.
Proof.
  intros (w & Hi & _ & Hm & _) E. destruct (Hm _ _ E) as (k & Hb & Hl & _).
  pose proof (block_range _ _ _ _ _ Hi Hb). lia.
Qed.

(** Forgetting a block. *)
Lemma kheap_drop s σ Hp B T p : kheap s σ Hp B T → kheap s σ (delete p Hp) B T.
Proof.
  intros (w & Hi & Hb & Hm & HT). exists w. split_and!; try done.
  intros q bs [_ E]%lookup_delete_Some. by apply Hm.
Qed.

Lemma cost_bounds n : 0 ≤ n → n + 8 ≤ cost n ≤ n + 11.
Proof. unfold cost. intros. Z.div_mod_to_equations; lia. Qed.

Lemma kheap_new s σ Hp B T n : kheap s σ Hp B T → 0 ≤ n → cost n ≤ B →
  ∃ p s', io_new s n = Ok (p, s') ∧ Hp !! p = None ∧
    kheap s' σ (<[p := bytes_of (load8 (io_mem s')) p (Z.to_nat n)]> Hp) (B - cost n) (Some (p, cost n)) ∧
    keeps σ s s'.
Proof.
  intros (w & Hi & Hb & Hm & _) Hn Hc. pose proof (cost_bounds n Hn).
  destruct (io_new_spec s σ w n) as (p & s' & w' & E & Hi' & Hb' & Hbl & Hnw & Hold & Hsame); try done; [lia|].
  assert (Hp0 : Hp !! p = None).
  { destruct (Hp !! p) eqn:Ep; [|done]. destruct (Hm _ _ Ep) as (k & Hk & _).
    by destruct (Hold _ _ Hk). }
  exists p, s'. split; [done|]. split; [done|]. split; [|intros x Hx; apply Hsame; by left].
  exists w'. split; [done|]. split; [lia|]. split.
  - intros q bs [[<- <-]|[Hne Eq]]%lookup_insert_Some.
    + exists (cost n - 8). rewrite bytes_of_length. split; [done|]. split; [lia|].
      intros i b Hib. pose proof (lookup_lt_Some _ _ _ Hib) as Hl. rewrite bytes_of_length in Hl.
      rewrite bytes_of_lookup in Hib by done. by injection Hib.
    + destruct (Hm _ _ Eq) as (k & Hk & Hl & Hby). exists k. split; [by apply Hold|]. split; [done|].
      intros i b Hib. rewrite Hsame; [by apply Hby|]. right. exists q, k. split; [done|].
      apply lookup_lt_Some in Hib. lia.
  - intros q c [= <- <-]. split; [done|]. exists (cost n - 8). split; [done|]. lia.
Qed.

Lemma kheap_delete_gen s σ Hp B T p bs : kheap s σ Hp B T → Hp !! p = Some bs →
  ∃ s', io_delete s p = Ok s' ∧ keeps σ s s' ∧
    kheap s' σ (delete p Hp) (B + match T with Some (q, c) => if q =? p then c else 0 | None => 0 end) None.
Proof.
  intros (w & Hi & Hb & Hm & HT) E. destruct (Hm _ _ E) as (k & Hk & _).
  destruct (io_delete_spec s σ w p k Hi Hk) as (s' & w' & Ed & Hi' & Hb' & Hb2 & Hold & Hsame).
  exists s'. split; [done|]. split; [intros x Hx; apply Hsame; by left|].
  exists w'. split; [done|]. split; [|split; [|done]].
  - destruct T as [[q c]|]; [|lia]. destruct (Z.eqb_spec q p) as [->|]; [|lia].
    destruct (HT _ _ eq_refl) as (Hn & k' & Hk' & Hc). specialize (Hb2 Hn).
    rewrite <- (block_size _ _ _ _ _ _ Hi Hk Hk') in Hc. lia.
  - intros q bs' [Hne Eq]%lookup_delete_Some. destruct (Hm _ _ Eq) as (j & Hj & Hl & Hby). exists j.
    split; [by apply Hold|]. split; [done|].
    intros i b Hib. rewrite Hsame; [by apply Hby|]. right. exists q, j. split_and!; try done; [lia|].
    apply lookup_lt_Some in Hib. lia.
Qed.

Lemma kheap_delete s σ Hp B T p bs : kheap s σ Hp B T → Hp !! p = Some bs →
  (∀ q c, T = Some (q, c) → 0 ≤ c) →
  ∃ s', io_delete s p = Ok s' ∧ keeps σ s s' ∧ kheap s' σ (delete p Hp) B None.
Proof.
  intros HK E Hc. destruct (kheap_delete_gen _ _ _ _ _ _ _ HK E) as (s' & Ed & Hk & HK').
  exists s'. split; [done|]. split; [done|]. eapply kheap_weaken; [|exact HK'].
  destruct T as [[q c]|]; [|lia]. specialize (Hc _ _ eq_refl). case_match; lia.
Qed.

(** The block allocated last gives back what it took. *)
Lemma kheap_delete_newest s σ Hp B p c bs : kheap s σ Hp B (Some (p, c)) → Hp !! p = Some bs →
  ∃ s', io_delete s p = Ok s' ∧ keeps σ s s' ∧ kheap s' σ (delete p Hp) (B + c) None.
Proof.
  intros HK E. destruct (kheap_delete_gen _ _ _ _ _ _ _ HK E) as (s' & Ed & Hk & HK').
  rewrite Z.eqb_refl in HK'. by exists s'.
Qed.

(** Writing inside a block of the client. *)
Lemma kheap_write s σ Hp B T p bs new m : kheap s σ Hp B T → Hp !! p = Some bs → length new = length bs →
  (∀ x, ¬ (p ≤ x < p + Z.of_nat (length bs)) → load8 m x = load8 (io_mem s) x) →
  (∀ (i : nat) b, new !! i = Some b → load8 m (p + Z.of_nat i) = b) →
  kheap (io_set s m) σ (<[p := new]> Hp) B T ∧ keeps σ s (io_set s m).
Proof.
  intros (w & Hi & Hb & Hm & HT) E El Hm' Hnew. destruct (Hm _ _ E) as (k & Hk & Hl & _).
  split.
  2: { intros x Hx. rewrite io_mem_set. apply Hm'. intros Hr.
       apply (block_outside _ _ _ _ _ _ Hi Hk Hx). lia. }
  exists w. split_and!; [|done| |done].
  - apply io_set_spec; [done|]. intros x Ho Hx. apply Hm'. intros Hr. apply (Hx _ _ Hk). lia.
  - rewrite io_mem_set. intros q bs' [[<- <-]|[Hne Eq]]%lookup_insert_Some.
    + exists k. split_and!; [done|lia|done].
    + destruct (Hm _ _ Eq) as (j & Hj & Hjl & Hby). exists j. split_and!; [done|done|].
      intros i b Hib. rewrite Hm'; [by apply Hby|]. intros Hr. apply lookup_lt_Some in Hib.
      apply (block_disjoint _ _ _ p k q j (q + Z.of_nat i) Hi Hk Hj Hne); lia.
Qed.

(** Writing outside of the heap. *)
Lemma kheap_write_outside s σ Hp B T m : kheap s σ Hp B T →
  (∀ x, ¬ outside σ x → load8 m x = load8 (io_mem s) x) → kheap (io_set s m) σ Hp B T.
Proof.
  intros (w & Hi & Hb & Hm & HT) Hm'. exists w. split_and!; [|done| |done].
  - apply io_set_spec; [done|]. intros x Ho _. by apply Hm'.
  - rewrite io_mem_set. intros q bs' Eq. destruct (Hm _ _ Eq) as (j & Hj & Hjl & Hby).
    exists j. split_and!; try done. intros i b Hib. rewrite Hm'; [by apply Hby|]. intros Ho.
    apply lookup_lt_Some in Hib. apply (block_outside _ _ _ _ _ _ Hi Hj Ho). lia.
Qed.

(** Reading the disk into a block of the client. *)
Lemma kheap_read s σ Hp B T p bs (o n : nat) pos : kheap s σ Hp B T → Hp !! p = Some bs →
  (o + n ≤ length bs)%nat → Z.of_nat n ≤ 65536 → 0 ≤ pos → pos + Z.of_nat n ≤ dlimit σ →
  cost (Z.of_nat n + 1024) ≤ B →
  ∃ s', io_read s pos (p + Z.of_nat o) (Z.of_nat n) = Ok (Z.of_nat n, s') ∧ keeps σ s s' ∧
    kheap s' σ (<[p := splice o (dbytes σ pos n) bs]> Hp) B T.
Proof.
  intros (w & Hi & Hb & Hm & HT) E Ho Hn Hpos Hlim Hc. destruct (Hm _ _ E) as (k & Hk & Hl & Hby0).
  pose proof (block_range _ _ _ _ _ Hi Hk) as Hr.
  destruct (io_read_spec s σ w pos (p + Z.of_nat o) (Z.of_nat n)) as (s' & Er & Hi' & Hnew & Hsame);
    try done; try lia.
  { intros x Hx. right. exists p, k. split; [done|]. lia. }
  assert (Hdl : length (dbytes σ pos n) = n) by apply bytes_of_length.
  exists s'. split; [done|]. split.
  { intros x Hx. apply Hsame; [|by left]. intros Hin. apply (block_outside _ _ _ _ _ _ Hi Hk Hx). lia. }
  exists w. split_and!; [done|done| |done].
  intros q bs' [[<- <-]|[Hne Eq]]%lookup_insert_Some.
  - exists k. split; [done|]. rewrite splice_length by lia. split; [done|].
    intros i b Hib. pose proof (lookup_lt_Some _ _ _ Hib) as Hil. rewrite splice_length in Hil by lia.
    destruct (decide (o ≤ i < o + n)%nat) as [Hin|Hout].
    + rewrite splice_in in Hib by lia. unfold dbytes in Hib. rewrite bytes_of_lookup in Hib by lia.
      injection Hib as <-. replace (p + Z.of_nat i) with (p + Z.of_nat o + Z.of_nat (i - o)) by lia.
      apply Hnew. lia.
    + rewrite splice_out in Hib by lia. rewrite Hsame; [by apply Hby0|lia|].
      right. exists p, k. split; [done|]. lia.
  - destruct (Hm _ _ Eq) as (j & Hj & Hjl & Hby). exists j. split_and!; [done|done|].
    intros i b Hib. pose proof (lookup_lt_Some _ _ _ Hib). rewrite Hsame; [by apply Hby| |].
    + intros Hr'. apply (block_disjoint _ _ _ p k q j (q + Z.of_nat i) Hi Hk Hj Hne); lia.
    + right. exists q, j. split; [done|]. lia.
Qed.

(** Reading the disk into memory outside of the heap. *)
Lemma kheap_read_outside s σ Hp B T buffer (n : nat) pos : kheap s σ Hp B T → 0 < buffer →
  (∀ x, buffer ≤ x < buffer + Z.of_nat n → outside σ x) → Z.of_nat n ≤ 65536 → 0 ≤ pos →
  pos + Z.of_nat n ≤ dlimit σ → cost (Z.of_nat n + 1024) ≤ B →
  ∃ s', io_read s pos buffer (Z.of_nat n) = Ok (Z.of_nat n, s') ∧
    (∀ i, 0 ≤ i < Z.of_nat n → load8 (io_mem s') (buffer + i) = dbyte σ (pos + i)) ∧
    (∀ x, outside σ x → ¬ (buffer ≤ x < buffer + Z.of_nat n) → load8 (io_mem s') x = load8 (io_mem s) x) ∧
    kheap s' σ Hp B T.
Proof.
  intros (w & Hi & Hb & Hm & HT) Hbuf Hout Hn Hpos Hlim Hc.
  destruct (io_read_spec s σ w pos buffer (Z.of_nat n)) as (s' & Er & Hi' & Hnew & Hsame); try done; try lia.
  { intros x Hx. left. by apply Hout. }
  exists s'. split_and!; [done|done|intros x Hx Hx'; apply Hsame; [done|by left]|].
  exists w. split_and!; [done|done| |done].
  intros q bs' Eq. destruct (Hm _ _ Eq) as (j & Hj & Hjl & Hby). exists j. split_and!; [done|done|].
  intros i b Hib. pose proof (lookup_lt_Some _ _ _ Hib). rewrite Hsame; [by apply Hby| |].
  - intros Hr%Hout. apply (block_outside _ _ _ _ _ _ Hi Hj Hr). lia.
  - right. exists q, j. split; [done|]. lia.
Qed.

(** ** Destinations

    A transfer goes to memory outside of the heap ([None]) or into the block [q] of
    the client ([Some q]). *)

Definition target_ok (t : option Z) (σ : static) H (a n : Z) : Prop :=
  match t with
  | None => 0 < a ∧ ∀ x, a ≤ x < a + n → outside σ x
  | Some q => ∃ bs, H !! q = Some bs ∧ q ≤ a ∧ a + n ≤ q + Z.of_nat (length bs)
  end.

(** The blocks after the bytes [l] were written to [a]. *)
Definition put (t : option Z) H (a : Z) (l : list Z) : gmap Z (list Z) :=
  match t with
  | None => H
  | Some q => alter (splice (Z.to_nat (a - q)) l) q H
  end.

(** What the memory outside of the heap shows of the same transfer. *)
Definition wrote (t : option Z) (σ : static) s s' (a : Z) (l : list Z) : Prop :=
  match t with
  | None =>
    (∀ (i : nat) b, l !! i = Some b → load8 (io_mem s') (a + Z.of_nat i) = b) ∧
    (∀ x, outside σ x → ¬ (a ≤ x < a + Z.of_nat (length l)) → load8 (io_mem s') x = load8 (io_mem s) x)
  | Some _ => keeps σ s s'
  end.

Lemma wrote_keeps_l t σ s1 s2 s3 a l : keeps σ s1 s2 → wrote t σ s2 s3 a l → wrote t σ s1 s3 a l.
Proof.
  destruct t; cbn; [apply keeps_trans|]. intros Hk [Hw Hs]. split; [done|]. intros x Ho Hx. by rewrite Hs, Hk.
Qed.

Lemma wrote_keeps_r t σ H s1 s2 s3 a l : target_ok t σ H a (Z.of_nat (length l)) →
  wrote t σ s1 s2 a l → keeps σ s2 s3 → wrote t σ s1 s3 a l.
Proof.
  destruct t; cbn; [intros _; apply keeps_trans|]. intros [_ Ho] [Hw Hs] Hk. split.
  - intros i b Hi. rewrite Hk; [by apply Hw|]. apply Ho. apply lookup_lt_Some in Hi. lia.
  - intros x Hx Hn. by rewrite Hk, Hs.
Qed.

Lemma splice_app o l1 l2 bs : (o + length l1 + length l2 ≤ length bs)%nat →
  splice (o + length l1) l2 (splice o l1 bs) = splice o (l1 ++ l2) bs.
Proof.
  intros Hl. apply list_eq. intros i. pose proof (splice_length o l1 bs ltac:(lia)) as E1.
  pose proof (length_app l1 l2) as El.
  destruct (decide (o ≤ i < o + length l1)%nat); [|destruct (decide (o + length l1 ≤ i < o + length l1 + length l2)%nat)].
  - rewrite splice_out, !splice_in, lookup_app_l by lia. done.
  - rewrite !splice_in, lookup_app_r by lia. f_equal. lia.
  - rewrite !splice_out by lia. done.
Qed.

(** Two transfers in a row are one. *)
Lemma put_app t σ H a l1 l2 : target_ok t σ H a (Z.of_nat (length l1 + length l2)) →
  put t (put t H a l1) (a + Z.of_nat (length l1)) l2 = put t H a (l1 ++ l2).
Proof.
  destruct t as [q|]; [|done]. intros (bs & E & Hq & Hl). cbn [put].
  apply map_eq. intros k. destruct (decide (k = q)) as [->|Hne].
  - rewrite !lookup_alter_eq, E. cbn. f_equal. rewrite <- splice_app by lia. f_equal. lia.
  - by rewrite !lookup_alter_ne by done.
Qed.

Lemma wrote_app t σ H s1 s2 s3 a l1 l2 : target_ok t σ H a (Z.of_nat (length l1 + length l2)) →
  wrote t σ s1 s2 a l1 → wrote t σ s2 s3 (a + Z.of_nat (length l1)) l2 → wrote t σ s1 s3 a (l1 ++ l2).
Proof.
  destruct t; cbn; [intros _; apply keeps_trans|]. intros [_ Ho] [W1 F1] [W2 F2]. split.
  - intros i b Hi. destruct (decide (i < length l1)%nat) as [Hlt|Hge].
    + rewrite lookup_app_l in Hi by done. rewrite F2; [by apply W1|apply Ho; lia|lia].
    + rewrite lookup_app_r in Hi by lia. specialize (W2 _ _ Hi). rewrite <- W2. f_equal. lia.
  - intros x Hx Hn. rewrite length_app in Hn. rewrite F2, F1 by (done || lia). done.
Qed.

Lemma put_nil t σ H a : target_ok t σ H a 0 → put t H a [] = H.
Proof.
  destruct t as [q|]; [|done]. intros (bs & E & _). cbn [put]. apply map_eq. intros k.
  destruct (decide (k = q)) as [->|Hne]; [|by rewrite lookup_alter_ne].
  rewrite lookup_alter_eq, E. cbn. f_equal. unfold splice. cbn. rewrite Nat.add_0_r. apply take_drop.
Qed.

Lemma wrote_nil t σ s a : wrote t σ s s a [].
Proof. by destruct t. Qed.

Lemma target_ok_sub t σ H a n b k : target_ok t σ H a n → a ≤ b → b + k ≤ a + n → target_ok t σ H b k.
Proof.
  destruct t as [q|]; cbn.
  - intros (bs & E & Hq & Hl) ? ?. exists bs. split_and!; [done|lia|lia].
  - intros [Ha Ho] ? ?. split; [lia|]. intros x Hx. apply Ho. lia.
Qed.

Lemma target_ok_put t σ H a l b k : target_ok t σ H a (Z.of_nat (length l)) → target_ok t σ H b k →
  target_ok t σ (put t H a l) b k.
Proof.
  destruct t as [q|]; cbn; [|done]. intros (bs & E & Hq & Hl) (bs' & E' & Hq' & Hl').
  rewrite E in E'. injection E' as <-. exists (splice (Z.to_nat (a - q)) l bs).
  rewrite lookup_alter_eq, E. split; [done|]. rewrite splice_length by lia. lia.
Qed.

(** A write of [l] at [a]. *)
Lemma kheap_put t s σ H B T a l m : kheap s σ H B T → target_ok t σ H a (Z.of_nat (length l)) →
  (∀ x, ¬ (a ≤ x < a + Z.of_nat (length l)) → load8 m x = load8 (io_mem s) x) →
  (∀ (i : nat) b, l !! i = Some b → load8 m (a + Z.of_nat i) = b) →
  kheap (io_set s m) σ (put t H a l) B T ∧ wrote t σ s (io_set s m) a l.
Proof.
  intros HK Ht Hf Hw. destruct t as [q|]; cbn [put wrote].
  - destruct Ht as (bs & E & Hq & Hl).
    replace (alter (splice (Z.to_nat (a - q)) l) q H) with (<[q := splice (Z.to_nat (a - q)) l bs]> H).
    2: { apply map_eq. intros k. destruct (decide (k = q)) as [->|Hne].
         - by rewrite lookup_insert_eq, lookup_alter_eq, E.
         - by rewrite lookup_insert_ne, lookup_alter_ne. }
    eapply kheap_write; [exact HK|exact E|rewrite splice_length; lia|intros x Hx; apply Hf; lia|].
    intros i b Hi. destruct (decide (Z.to_nat (a - q) ≤ i < Z.to_nat (a - q) + length l)%nat).
    + rewrite splice_in in Hi by lia. rewrite <- (Hw _ _ Hi). f_equal. lia.
    + rewrite splice_out in Hi by lia. rewrite Hf by lia. by eapply kheap_byte.
  - destruct Ht as [Ha Ho]. split.
    + apply kheap_write_outside; [done|]. intros x Hx. apply Hf. intros Hr. by apply Hx, Ho.
    + rewrite io_mem_set. split; [done|]. intros x _ Hx. by apply Hf.
Qed.

(** The start of a target is not inside of another block. *)
Lemma kheap_apart t s σ H B T a n p bs : kheap s σ H B T → H !! p = Some bs → t ≠ Some p →
  target_ok t σ H a n → 0 < n → ¬ (p ≤ a < p + Z.of_nat (length bs)).
Proof.
  intros (w & Hi & _ & Hm & _) E Ht Htgt Hn Ha. destruct (Hm _ _ E) as (k & Hk & Hl & _).
  destruct t as [q|].
  - destruct Htgt as (bs' & E' & Hq & Hl'). destruct (Hm _ _ E') as (j & Hj & Hlj & _).
    eapply (block_disjoint _ _ _ p k q j a); try done; [congruence|lia|lia].
  - destruct Htgt as [_ Ho]. apply (block_outside _ _ _ _ _ _ Hi Hk (Ho a ltac:(lia))). lia.
Qed.

(** ** Addresses a client can rely on *)

Definition known (σ : static) H (x : Z) : Prop :=
  outside σ x ∨ ∃ p bs, H !! p = Some bs ∧ p ≤ x < p + Z.of_nat (length bs).

Lemma known_insert σ H p bs x : H !! p = None → known σ H x → known σ (<[p := bs]> H) x.
Proof.
  intros Hp [Ho|(q & bs' & E & Hx)]; [by left|]. right. exists q, bs'. split; [|done].
  rewrite lookup_insert_ne by congruence. done.
Qed.

Lemma known_fresh s σ H B T p bs x : kheap s σ (<[p := bs]> H) B T → H !! p = None → known σ H x →
  ¬ (p ≤ x < p + Z.of_nat (length bs)).
Proof.
  intros (w & Hi & _ & Hm & _) Hp Hk Hx. destruct (Hm _ _ (lookup_insert_eq _ _ _)) as (k & Hbl & Hl & _).
  destruct Hk as [Ho|(q & bs' & E & Hq)].
  - apply (block_outside _ _ _ _ _ _ Hi Hbl Ho). lia.
  - assert (p ≠ q) by congruence. destruct (Hm q bs') as (j & Hj & Hlj & _); [by rewrite lookup_insert_ne|].
    apply (block_disjoint _ _ _ p k q j x Hi Hbl Hj); [done|lia|lia].
Qed.

Lemma known_same s s' σ H H' B B' T T' x : kheap s σ H B T → kheap s' σ H' B' T' → keeps σ s s' → H ⊆ H' →
  known σ H x → load8 (io_mem s') x = load8 (io_mem s) x.
Proof.
  intros HK HK' Hk Hsub [Ho|(q & bs & E & Hx)]; [by apply Hk|].
  destruct (lookup_lt_is_Some_2 bs (Z.to_nat (x - q))) as [b Hb]; [lia|].
  replace x with (q + Z.of_nat (Z.to_nat (x - q))) by lia.
  rewrite (kheap_byte _ _ _ _ _ _ _ _ _ HK E Hb). eapply kheap_byte; [exact HK'| |exact Hb].
  by eapply lookup_weaken.
Qed.

End kheap.
