(* ===== verification/AtaIO.v ===== *)
(** * The heap and the ATA driver implement [KernelIO]

    The state is the driver object of [Ata.v], which holds the memory and the heap.
    The invariant keeps the heap in the shape in which [kmalloc] always succeeds
    while the first block has room: the search starts at the first block, which is
    never in use, and no two free blocks are adjacent. *)

From S2P Require Import Prelude Memory Ports IdeHdd Kmalloc Ata KernelIO.

Module AtaIO.
Import Kmalloc Ata.

(** ** Lists of blocks *)

(** The [k] bytes at [p] are the payload of a block in use. *)
Fixpoint used_at (a : Z) (l : list (Z * bool)) (p k : Z) : Prop :=
  match l with
  | [] => False
  | (sz, u) :: r => u = true ∧ p = a + 8 ∧ k + 8 = sz ∨ used_at (a + sz) r p k
  end.

(** No two adjacent blocks are free; [prev]: the block before the list is in use. *)
Fixpoint no_adj (prev : bool) (l : list (Z * bool)) : Prop :=
  match l with
  | [] => True
  | (_, u) :: r => prev || u = true ∧ no_adj u r
  end.

Fixpoint last_used (prev : bool) (l : list (Z * bool)) : bool :=
  match l with
  | [] => prev
  | (_, u) :: r => last_used u r
  end.

Abbreviation sized := (Forall (λ b : Z * bool, 8 ≤ b.1)).

Lemma hdrs_sized m fin a l : hdrs m fin a l → sized l.
Proof.
  revert a. induction l as [|[sz u] l IH]; intros a; [done|]. cbn [hdrs]. intros (_ & _ & H8 & _ & Hr).
  constructor; [done|]. by eapply IH.
Qed.

Lemma total_pos l : sized l → 8 * Z.of_nat (length l) ≤ total l.
Proof.
  induction 1 as [|b l Hb _ IH]; cbn [total length]; [lia|]. cbn in Hb. lia.
Qed.

Lemma used_at_app a l1 l2 p k : used_at a (l1 ++ l2) p k ↔ used_at a l1 p k ∨ used_at (a + total l1) l2 p k.
Proof.
  revert a. induction l1 as [|[sz u] l1 IH]; intros a; cbn [app used_at total fst].
  - rewrite Z.add_0_r. tauto.
  - rewrite IH. replace (a + sz + total l1) with (a + (sz + total l1)) by lia. tauto.
Qed.

Lemma used_at_range a l p k : sized l → used_at a l p k → a + 8 ≤ p ∧ 0 ≤ k ∧ p + k ≤ a + total l.
Proof.
  intros Hs. revert a. induction Hs as [|[sz u] l Hb Hl IH]; intros a; [done|]. cbn [used_at total fst] in *.
  pose proof (total_pos _ Hl). intros [(_ & -> & <-)|Hu]; [lia|]. specialize (IH _ Hu). lia.
Qed.

Lemma used_at_split a l p k : used_at a l p k →
  ∃ l1 l2, l = l1 ++ (k + 8, true) :: l2 ∧ p = a + total l1 + 8.
Proof.
  revert a. induction l as [|[sz u] l IH]; intros a; [done|]. cbn [used_at].
  intros [(-> & -> & <-)|Hu].
  - exists [], l. cbn. split; [done|lia].
  - destruct (IH _ Hu) as (l1 & l2 & -> & ->). exists ((sz, u) :: l1), l2. cbn. split; [done|lia].
Qed.

(** Two blocks in use are the same or apart. *)
Lemma used_at_order a l p k q j : sized l → used_at a l p k → used_at a l q j →
  (p = q ∧ k = j) ∨ p + k + 8 ≤ q ∨ q + j + 8 ≤ p.
Proof.
  intros Hs. revert a. induction Hs as [|[sz u] l Hb Hl IH]; intros a; [done|]. cbn [used_at].
  intros [(_ & -> & <-)|Hp] [(_ & -> & Ej)|Hq].
  - left. lia.
  - right; left. pose proof (used_at_range _ _ _ _ Hl Hq). lia.
  - right; right. pose proof (used_at_range _ _ _ _ Hl Hp). lia.
  - by eapply IH.
Qed.

Lemma used_byte_at a l x : used_byte a l x ↔ ∃ p k, used_at a l p k ∧ p ≤ x < p + k.
Proof.
  revert a. induction l as [|[sz u] l IH]; intros a; cbn [used_byte used_at]; [naive_solver|].
  rewrite IH. split.
  - intros [[-> Hx]|(p & k & Hu & Hx)]; [|by eauto 10]. exists (a + 8), (sz - 8). split; [left|]; lia.
  - intros (p & k & [(-> & -> & <-)|Hu] & Hx); [left; lia|right; eauto].
Qed.

(** The header of a block is not part of a payload. *)
Lemma header_free a l1 b l2 x p k : sized (l1 ++ b :: l2) → used_at a (l1 ++ b :: l2) p k →
  a + total l1 ≤ x < a + total l1 + 8 → ¬ (p ≤ x < p + k).
Proof.
  intros Hs Hu Hx. apply Forall_app in Hs as [H1 Hs]. apply Forall_cons in Hs as [Hb H2].
  apply used_at_app in Hu as [Hu|Hu].
  - pose proof (used_at_range _ _ _ _ H1 Hu). lia.
  - destruct b as [sz u]. cbn [used_at] in Hu. destruct Hu as [(_ & -> & _)|Hu]; [lia|].
    pose proof (used_at_range _ _ _ _ H2 Hu). cbn in Hb. lia.
Qed.

Lemma no_adj_app prev l1 l2 : no_adj prev (l1 ++ l2) ↔ no_adj prev l1 ∧ no_adj (last_used prev l1) l2.
Proof.
  revert prev. induction l1 as [|[sz u] l1 IH]; intros prev; cbn [app no_adj last_used]; [tauto|].
  rewrite IH. tauto.
Qed.

Lemma no_adj_freed l ps pu sz post : no_adj true (l ++ (ps, pu) :: (sz, true) :: post) →
  no_adj true (freed_list l ps pu sz post).
Proof.
  intros (Hl & Hp & _ & Hpost)%no_adj_app. unfold freed_list.
  destruct pu, post as [|[ns []] post']; apply no_adj_app; cbn [no_adj] in *; tauto.
Qed.

(** The blocks in use after [kfree]: all others stay where they are. *)
Lemma used_at_freed a l ps pu sz post q j : sized (l ++ (ps, pu) :: (sz, true) :: post) →
  used_at a (l ++ (ps, pu) :: (sz, true) :: post) q j → q ≠ a + total l + ps + 8 →
  used_at a (freed_list l ps pu sz post) q j.
Proof.
  intros Hs Hu Hne. apply used_at_app in Hu as [Hu|Hu].
  { unfold freed_list. destruct pu, post as [|[ns []] post']; apply used_at_app; by left. }
  cbn [used_at] in Hu. destruct Hu as [Hu|[(_ & -> & _)|Hu]]; [|lia|].
  - destruct Hu as (-> & Hu). unfold freed_list.
    destruct post as [|[ns []] post']; apply used_at_app; right; cbn [used_at]; tauto.
  - unfold freed_list. destruct pu, post as [|[ns []] post']; try done; apply used_at_app; right;
      cbn [used_at] in *.
    all: replace (a + total l + (ps + sz + ns)) with (a + total l + ps + sz + ns) by lia.
    all: replace (a + total l + (ps + sz)) with (a + total l + ps + sz) by lia.
    all: replace (a + total l + ps + (sz + ns)) with (a + total l + ps + sz + ns) by lia.
    all: naive_solver.
Qed.

(** ** The instance *)

Section instance.
Context {D : Type} `{AtaDisk : IdeHdd.AtaDisk D}.
Context (fuel : nat) (err0 : Z).

#[export] Instance ata_KernelIO : KernelIO (ata (D := D)) := {
  io_mem := a_mem;
  io_set := with_a_mem;
  io_new a n := '(p, h) ← operator_new fuel (hp a) n; Ok (p, with_hp a h);
  io_delete a p := h ← operator_delete fuel (hp a) p; Ok (with_hp a h);
  io_read a pos buffer count := read fuel a pos buffer count err0
}.

Record ata_static := mkStatic {
  st_base : Z;
  st_total : Z;
  st_drive : Z;
  st_media : gmap (Z * Z) (list Z);
  st_limit : Z
}.

Definition st_disk (σ : ata_static) : IdeHdd.disk := IdeHdd.mkDisk IdeHdd.Idle ∅ (st_media σ) ∅.

Definition first_size (w : list (Z * bool)) : Z := match w with (sz, _) :: _ => sz | [] => 0 end.

Definition is_newest (σ : ata_static) (w : list (Z * bool)) (p : Z) : Prop :=
  ∃ x r post, w = (x, false) :: (r, true) :: post ∧ p = st_base σ + x + 8.

Record ata_inv (a : ata (D := D)) (σ : ata_static) (w : list (Z * bool)) : Prop := {
  ai_online : online a (st_drive σ);
  ai_heap : Heap (hp a) w;
  ai_next : next_free (hp a) = base (hp a);
  ai_adj : no_adj true w;
  ai_base : base (hp a) = st_base σ;
  ai_total : total w = st_total σ;
  ai_fuel : st_total σ + 16 ≤ 8 * Z.of_nat fuel;
  ai_media : IdeHdd.media (IdeHdd.view (bus a)) = st_media σ;
  ai_limit : 0 ≤ st_limit σ < 2147483647;
  ai_size : st_limit σ / 512 + 1 ≤ Size (dev a (ata_drive a));
  ai_sectors : ∀ k, 0 ≤ k ≤ st_limit σ / 512 →
    length (IdeHdd.sector_at (st_disk σ) (st_drive σ) k) = 256%nat ∧
    Forall is_u16 (IdeHdd.sector_at (st_disk σ) (st_drive σ) k)
}.

Lemma inv_sized a σ w : ata_inv a σ w → sized w.
Proof. intros [_ [Hh _ _ _ _] _ _ _ _ _ _ _ _ _]. by eapply hdrs_sized. Qed.

Lemma inv_fuel a σ w l1 l2 : ata_inv a σ w → w = l1 ++ l2 → (S (length l1) < fuel)%nat.
Proof.
  intros HI ->. pose proof (total_pos _ (inv_sized _ _ _ HI)) as Ht. destruct HI as [_ _ _ _ _ Et Hf _ _ _ _].
  rewrite length_app in Ht. lia.
Qed.

(** The heap part of the invariant changes, the rest stays. *)
Lemma inv_with_hp a σ w h w' : ata_inv a σ w → Heap h w' → next_free h = base h → no_adj true w' →
  base h = base (hp a) → total w' = total w → ata_inv (with_hp a h) σ w'.
Proof.
  intros [Ho Hh Hn Ha Hb Ht Hf Hm Hl Hs Hse] HH En Hadj Eb Et. split; cbn [hp with_hp bus]; try done; try congruence.
  by destruct Ho as [? [[? ? ? ?] ?] ? ?]; split; [| split; [split|] | |].
Qed.

Lemma inv_range a σ w p k : ata_inv a σ w → used_at (st_base σ) w p k →
  st_base σ + 8 ≤ p ∧ 0 ≤ k ∧ p + k ≤ st_base σ + st_total σ ∧ 0 ≤ st_base σ ∧
  st_base σ + st_total σ < 4294967296.
Proof.
  intros HI Hu. pose proof (used_at_range _ _ _ _ (inv_sized _ _ _ HI) Hu).
  destruct HI as [_ [_ _ _ ? ?] _ _ Eb Et _ _ _ _ _]. rewrite Eb, Et in *. lia.
Qed.

Lemma inv_first a σ w : ata_inv a σ w → ∃ sz post, w = (sz, false) :: post ∧ first_size w = sz ∧
  ∀ ns r, post ≠ (ns, false) :: r.
Proof.
  intros HI. destruct (hp_first _ _ (ai_heap _ _ _ HI)) as (sz & post & ->). exists sz, post.
  split; [done|]. split; [done|]. intros ns r ->. destruct HI as [_ _ _ (_ & [=] & _) _ _ _ _ _ _ _].
Qed.

Lemma cost_round n : 0 ≤ n → n + 11 < 4294967296 → round_size n = cost n.
Proof. intros H0 H1. by destruct (round_size_spec n H0 H1) as [-> _]. Qed.

Lemma ata_new_spec a σ w n : ata_inv a σ w → 0 ≤ n → cost n ≤ first_size w - 8 →
  ∃ p a' w', io_new a n = Ok (p, a') ∧ ata_inv a' σ w' ∧ first_size w' - 8 = first_size w - 8 - cost n ∧
    used_at (st_base σ) w' p (cost n - 8) ∧ is_newest σ w' p ∧
    (∀ q j, used_at (st_base σ) w q j → used_at (st_base σ) w' q j ∧ q ≠ p) ∧
    (∀ x, (x < st_base σ ∨ st_base σ + st_total σ ≤ x) ∨ (∃ q j, used_at (st_base σ) w q j ∧ q ≤ x < q + j) →
       load8 (io_mem a') x = load8 (io_mem a) x).
Proof.
  intros HI Hn Hc. destruct (inv_first _ _ _ HI) as (sz & post & -> & Ef & Hpost). rewrite Ef in *.
  destruct (id HI) as [_ HH Hnf Hadj Eb Et _ _ _ _ _]. destruct (id HH) as [_ _ _ Hlo Hhi].
  pose proof (cost_bounds n Hn) as Hcb. pose proof (inv_sized _ _ _ HI) as Hs.
  pose proof (total_pos post ltac:(by inversion Hs)). cbn [total fst] in Et, Hhi.
  destruct (kmalloc_spec fuel (hp a) n [] [] sz post) as (h' & E & _ & HH' & Hst' & Hb' & _ & Hx'); try done.
  { split; [cbn; lia|by eexists _, _]. } { lia. } { rewrite cost_round by lia. lia. }
  { pose proof (inv_fuel _ _ _ [] _ HI eq_refl). cbn in *. lia. }
  rewrite cost_round in * by lia. cbn [app total] in *. rewrite Z.add_0_r in *. set (c := cost n) in *.
  exists (base (hp a) + (sz - c) + 8), (with_hp a h'), ((sz - c, false) :: (c, true) :: post).
  split; [cbn [io_new ata_KernelIO]; unfold operator_new; by rewrite E|]. split.
  { eapply inv_with_hp; [exact HI|done| | |done|cbn; lia].
    - destruct Hst' as [-> _]. cbn. lia.
    - cbn [no_adj orb] in *. destruct post as [|[ns []] post]; [done|tauto|]. by destruct (Hpost ns post). }
  split; [cbn; lia|]. rewrite <- Eb. split; [cbn [used_at]; right; left; lia|].
  split; [eexists _, _, _; split; [done|]; lia|].
  assert (Hfar : ∀ q j, used_at (base (hp a)) ((sz, false) :: post) q j → base (hp a) + sz + 8 ≤ q).
  { intros q j [[? _]|Hu]; [done|]. apply used_at_range in Hu; [lia|by inversion Hs]. }
  split.
  - intros q j Hu. specialize (Hfar _ _ Hu). split; [|lia]. destruct Hu as [[? _]|Hu]; [done|].
    cbn [used_at]. right; right. by replace (base (hp a) + (sz - c) + c) with (base (hp a) + sz) by lia.
  - intros x Hx. apply Hx'. unfold in_headers. destruct Hx as [?|(q & j & Hu & Hx)]; [lia|].
    specialize (Hfar _ _ Hu). lia.
Qed.

Lemma ata_delete_spec a σ w p k : ata_inv a σ w → used_at (st_base σ) w p k →
  ∃ a' w', io_delete a p = Ok a' ∧ ata_inv a' σ w' ∧
    first_size w - 8 ≤ first_size w' - 8 ∧ (is_newest σ w p → first_size w - 8 + k + 8 ≤ first_size w' - 8) ∧
    (∀ q j, used_at (st_base σ) w q j → q ≠ p → used_at (st_base σ) w' q j) ∧
    (∀ x, (x < st_base σ ∨ st_base σ + st_total σ ≤ x) ∨
          (∃ q j, used_at (st_base σ) w q j ∧ q ≠ p ∧ q ≤ x < q + j) →
       load8 (io_mem a') x = load8 (io_mem a) x).
Proof.
  intros HI Hu. pose proof (inv_range _ _ _ _ _ HI Hu) as Hr.
  destruct (used_at_split _ _ _ _ Hu) as (pre & post & Ew & ->).
  destruct (exists_last (l := pre)) as (l & [ps pu] & ->).
  { intros ->. destruct (inv_first _ _ _ HI) as (? & ? & E & _). by rewrite E in Ew. }
  pose proof (inv_sized _ _ _ HI) as Hs. destruct (id HI) as [_ HH Hnf Hadj Eb Et _ _ _ _ _].
  destruct (kfree_spec fuel (hp a) (l ++ [(ps, pu)]) (k + 8) post) as (h' & E & HH' & Et' & Hb' & Hn' & _ & Hx').
  { by rewrite <- Ew. } { pose proof (inv_fuel _ _ _ _ _ HI Ew). lia. }
  rewrite coalesce_snoc in *. rewrite <- Ew in Et'. rewrite <- app_assoc in Ew. cbn [app] in Ew.
  rewrite Ew in Hadj, Hs, Hu |- *. rewrite Eb in *.
  exists (with_hp a h'), (freed_list l ps pu (k + 8) post).
  split; [cbn [io_delete ata_KernelIO]; unfold operator_delete; by rewrite E|]. split.
  { eapply inv_with_hp; try done; try congruence. by apply no_adj_freed. }
  rewrite total_app in *. cbn [total fst] in *. rewrite Z.add_0_r, Z.add_assoc in *.
  assert (Hps : 8 ≤ ps). { apply Forall_app in Hs as [_ Hs]. inversion Hs. by cbn in *. }
  assert (Hsl : sized l) by by apply Forall_app in Hs as [? _].
  split; [|split; [|split]].
  - unfold freed_list. destruct l as [|[s0 u0] l]; destruct pu, post as [|[ns []] post']; cbn [app first_size]; try lia.
    all: apply Forall_app in Hs as [_ Hs]; inversion Hs as [|? ? _ Hs']; inversion Hs' as [|? ? _ Hs2];
      inversion Hs2; cbn in *; lia.
  - intros (x & r & post' & Enw & Ep). destruct l as [|[s0 u0] l].
    + cbn [app] in Enw. injection Enw as -> -> <- ->. unfold freed_list. cbn [app first_size].
      destruct post' as [|[ns []] post']; cbn [app first_size]; try lia.
      inversion Hs as [|? ? _ Hs']. inversion Hs' as [|? ? _ Hs2]. inversion Hs2. cbn in *. lia.
    + exfalso. cbn [app] in Enw. injection Enw as -> -> Enw. cbn [total fst] in Ep.
      pose proof (total_pos l ltac:(by inversion Hsl)) as Hl0. lia.
  - intros q j Hq Hne. by apply used_at_freed.
  - intros x Hx. apply (Hx' l (ps, pu)); [done|]. unfold in_headers.
    destruct Hx as [Ho|(q & j & Hq & Hne & Hx)].
    + pose proof (total_pos l ltac:(by apply Forall_app in Hs as [? _])). lia.
    + intros [Hh|Hh].
      * by apply (header_free _ l (ps, pu) _ x q j Hs Hq Hh).
      * replace (l ++ (ps, pu) :: (k + 8, true) :: post) with ((l ++ [(ps, pu)]) ++ (k + 8, true) :: post)
          in Hs, Hq by by rewrite <- app_assoc.
        apply (header_free _ _ _ _ x q j Hs Hq); [|done]. rewrite total_app. cbn. lia.
Qed.

Lemma disk_byte_media v v' drive k : IdeHdd.media v = IdeHdd.media v' → disk_byte v drive k = disk_byte v' drive k.
Proof. unfold disk_byte, IdeHdd.sector_at. by intros ->. Qed.

Lemma ata_read_spec a σ w pos buffer count : ata_inv a σ w → 0 < buffer → 0 ≤ pos → 0 ≤ count ≤ 65536 →
  pos + count ≤ st_limit σ → cost (count + 1024) ≤ first_size w - 8 →
  (∀ x, buffer ≤ x < buffer + count →
     (x < st_base σ ∨ st_base σ + st_total σ ≤ x) ∨ ∃ q j, used_at (st_base σ) w q j ∧ q ≤ x < q + j) →
  ∃ a', io_read a pos buffer count = Ok (count, a') ∧ ata_inv a' σ w ∧
    (∀ i, 0 ≤ i < count → load8 (io_mem a') (buffer + i) = disk_byte (st_disk σ) (st_drive σ) (pos + i)) ∧
    (∀ x, ¬ (buffer ≤ x < buffer + count) →
       (x < st_base σ ∨ st_base σ + st_total σ ≤ x) ∨ (∃ q j, used_at (st_base σ) w q j ∧ q ≤ x < q + j) →
       load8 (io_mem a') x = load8 (io_mem a) x).
Proof.
  intros HI Hbuf Hpos Hcnt Hlim Hc Hin. destruct (inv_first _ _ _ HI) as (sz & post & -> & Ef & Hpost).
  rewrite Ef in Hc. destruct (id HI) as [Hon HH Hnf Hadj Eb Et _ Em Hl Hsz Hsec].
  assert (Hsafe : ∀ x, (x < st_base σ ∨ st_base σ + st_total σ ≤ x) ∨
     (∃ q j, used_at (st_base σ) ((sz, false) :: post) q j ∧ q ≤ x < q + j) → safe (hp a) ((sz, false) :: post) x).
  { intros x. unfold safe. rewrite Eb, Et, used_byte_at. tauto. }
  assert (Hn : 1 ≤ read_blocks pos count ∧ read_blocks pos count * 512 ≤ count + 1024 ∧
               pos / 512 + read_blocks pos count ≤ st_limit σ / 512 + 1).
  { unfold read_blocks. Z.div_mod_to_equations; lia. }
  pose proof (cost_bounds (count + 1024) ltac:(lia)).
  destruct (read_spec fuel a (st_drive σ) pos buffer count err0 [] [] sz post)
    as (a' & E & Hnew & Hsame & HH' & Hst' & Eb' & Hon' & Em' & Ed' & Ea'); try done.
  - split; [lia|lia|lia|]. unfold readable, sector_list. apply Forall_fmap, Forall_forall.
    intros i Hi%elem_of_seq. cbn. unfold IdeHdd.sector_at in *. rewrite Em. apply Hsec. Z.div_mod_to_equations; lia.
  - split; cbn [app]; try done.
    + split; [cbn; lia|by eexists _, _].
    + rewrite cost_round by lia. unfold cost in *. Z.div_mod_to_equations; lia.
  - pose proof (inv_fuel _ _ _ [] _ HI eq_refl). done.
  - intros x Hx. by apply Hsafe, Hin.
  - exists a'. split; [exact E|]. cbn [app total] in *. split.
    + split; try done; try congruence.
      * destruct Hst' as [-> _]. cbn; lia.
      * apply HI.
      * unfold dev. by rewrite Ed', Ea'.
    + split.
      * intros i Hi. cbn [io_mem ata_KernelIO]. rewrite Hnew by done. by apply disk_byte_media.
      * intros x Hx Hs. apply Hsame; [done|]. by apply Hsafe.
Qed.

(** The promises of the interface, kept by the heap and the driver. *)
#[export] Instance ata_KernelIOSpec : KernelIOSpec (ata (D := D)).
Proof.
  refine {|
    static := ata_static;
    dyn := list (Z * bool);
    outside σ x := x < st_base σ ∨ st_base σ + st_total σ ≤ x;
    dbyte σ x := disk_byte (st_disk σ) (st_drive σ) x;
    dlimit := st_limit;
    KernelIO.block σ w p k := used_at (st_base σ) w p k;
    budget w := first_size w - 8;
    newest := is_newest;
    io_inv := ata_inv;
    io_new_spec := ata_new_spec;
    io_delete_spec := ata_delete_spec;
    io_read_spec := ata_read_spec
  |}.
  - intros σ x. unfold disk_byte, word_byte. apply u8_range.
  - intros a σ w HI. pose proof (ai_limit _ _ _ HI). lia.
  - intros a σ w p k HI Hu. pose proof (inv_range _ _ _ _ _ HI Hu). lia.
  - intros a σ w p k j HI Hk Hj. pose proof (used_at_order _ _ _ _ _ _ (inv_sized _ _ _ HI) Hk Hj).
    pose proof (inv_range _ _ _ _ _ HI Hk). pose proof (inv_range _ _ _ _ _ HI Hj). lia.
  - intros a σ w p k x HI Hu Ho. pose proof (inv_range _ _ _ _ _ HI Hu). lia.
  - intros a σ w p k q j x HI Hk Hj Hne. pose proof (used_at_order _ _ _ _ _ _ (inv_sized _ _ _ HI) Hk Hj). lia.
  - done.
  - intros a σ w m HI Hm. eapply inv_with_hp; [exact HI| |apply HI|apply HI|done|done].
    apply Heap_safe; [apply HI|]. intros x Hx. unfold safe in Hx. rewrite (ai_base _ _ _ HI), (ai_total _ _ _ HI) in Hx.
    apply Hm; [tauto|]. intros p k Hu Hr. apply Hx. right; right. apply used_byte_at. eauto.
Defined.

End instance.
End AtaIO.
