(* ===== verification/Utilclass.v ===== *)
(** * Strings and vectors ([src/include/os/Utilclass.hpp])

    [kstring] owns a heap block with the characters; [kvector<kstring>], the only
    vector the kernel uses, owns a heap block for its elements. Both work through
    [KernelIO]. The addresses of the characters are in the memory; the elements of
    a vector are kept in the record beside the address of their block. A copied
    empty string reads address 0, which is mapped in this kernel; an index past the
    end of a vector gives a NULL reference and is a [Fault] of the model. *)

From S2P Require Import Prelude Memory KString KernelIO.

Module Utilclass.
Import KString.

Section classes.
Context {S : Type} {KI : KernelIO S}.

(** ** [class kstring] *)

Record kstring := mkKstring { pstring : Z; len : Z }.

(** [kstring()]. *)
Definition kstring_empty : kstring := mkKstring 0 0.

(** [void copy(const kstring &copied)]. *)
Definition kstring_copy (s : S) (copied : kstring) : res (kstring * S) :=
  '(p, s) ← io_new s (u32 (len copied + 1 + 1));
  Ok (mkKstring p (len copied), io_set s (strncpy (io_mem s) p (pstring copied) (len copied))).

(** [kstring(const char *str)]. *)
Definition kstring_cstr (s : S) (str : Z) : res (kstring * S) :=
  let l := strlen (io_mem s) str in
  '(p, s) ← io_new s (u32 (l + 1));
  Ok (mkKstring p l, io_set s (strcpy (io_mem s) p str)).

(** [kstring(const char *str,int len)]. *)
Definition kstring_len (s : S) (str l : Z) : res (kstring * S) :=
  '(p, s) ← io_new s (u32 (l + 1));
  let s := io_set s (strncpy (io_mem s) p str l) in
  Ok (mkKstring p l, io_set s (store8 (io_mem s) (p + l) 0)).

(** [~kstring()], and the release at the start of both assignments. *)
Definition kstring_delete (s : S) (k : kstring) : res S :=
  if pstring k =? 0 then Ok s else io_delete s (pstring k).

(** [const kstring& operator=(const kstring &copied)]. *)
Definition kstring_assign (s : S) (k copied : kstring) : res (kstring * S) :=
  s ← kstring_delete s k;
  kstring_copy s copied.

(** [const kstring& operator=(const char *copied)]. *)
Definition kstring_assign_cstr (s : S) (k : kstring) (str : Z) : res (kstring * S) :=
  s ← kstring_delete s k;
  kstring_cstr s str.

(** [bool operator==(const kstring &rh)]. *)
Definition kstring_eqb (s : S) (k rh : kstring) : bool :=
  if negb (len rh =? len k) then false
  else strcmp (io_mem s) (pstring k) (pstring rh) (len k) =? 0.

(** [bool operator==(const char *str)]. *)
Definition kstring_eqb_cstr (s : S) (k : kstring) (str : Z) : bool :=
  strncmp (io_mem s) (pstring k) str (len k) =? 0.

(** ** [class kvector<kstring>] *)

Record kvector := mkKvector { elems : Z; cells : list kstring; max_elem : Z; num_elem : Z }.

(** [kvector()]. *)
Definition kvector_empty : kvector := mkKvector 0 [] 0 0.

Definition sizeof_kstring : Z := 8.

(** [new TYPE[n]]: the number of elements is kept in front of them, and every
    element is constructed. *)
Definition new_array (s : S) (n : Z) : res (Z * list kstring * S) :=
  '(p, s) ← io_new s (u32 (n * sizeof_kstring + 4));
  Ok (p + 4, replicate (Z.to_nat n) kstring_empty, io_set s (store32 (io_mem s) p n)).

(** [kvector(size_t max_elem)]. *)
Definition kvector_new (s : S) (n : Z) : res (kvector * S) :=
  '(e, l, s) ← new_array s n;
  Ok (mkKvector e l n n, s).

(** [elems[i]=copied[i]] for the remaining elements of the new array. *)
Fixpoint assign_all (s : S) (fresh copied : list kstring) : res (list kstring * S) :=
  match fresh, copied with
  | k :: fresh, c :: copied =>
    '(k, s) ← kstring_assign s k c;
    '(l, s) ← assign_all s fresh copied;
    Ok (k :: l, s)
  | [], _ => Ok ([], s)
  | _, [] => Fault
  end.

(** [bool copy(const kvector<TYPE> &copied)], also the copy constructor. *)
Definition kvector_copy (s : S) (copied : kvector) : res (kvector * S) :=
  '(e, l, s) ← new_array s (max_elem copied);
  '(l, s) ← assign_all s l (cells copied);
  Ok (mkKvector e l (max_elem copied) (num_elem copied), s).

(** The destructors of the elements, the last one first. *)
Fixpoint delete_all (s : S) (l : list kstring) : res S :=
  match l with
  | [] => Ok s
  | k :: l => s ← delete_all s l; kstring_delete s k
  end.

(** [~kvector()]: [delete[] elems]. *)
Definition kvector_delete (s : S) (v : kvector) : res S :=
  if elems v =? 0 then Ok s
  else s ← delete_all s (cells v); io_delete s (elems v - 4).

(** [int length()]. *)
Definition kvector_length (v : kvector) : Z := s32 (num_elem v).

(** [TYPE &operator [](size_t num_elem)const]; [None] is the NULL reference. *)
Definition kvector_at (v : kvector) (i : Z) : option kstring :=
  if max_elem v <=? i then None else cells v !! Z.to_nat i.

(** [path[i] = k]: the assignment of [kstring] to the element. *)
Definition kvector_set (s : S) (v : kvector) (i : Z) (k : kstring) : res (kvector * S) :=
  match kvector_at v i with
  | None => Fault
  | Some old =>
    '(k, s) ← kstring_assign s old k;
    Ok (mkKvector (elems v) (<[Z.to_nat i := k]> (cells v)) (max_elem v) (num_elem v), s)
  end.

(** [bool set_nr_elem(size_t nr_elem)]. *)
Definition set_nr_elem (v : kvector) (nr_elem : Z) : bool * kvector :=
  if nr_elem <? max_elem v then (true, mkKvector (elems v) (cells v) (max_elem v) nr_elem) else (false, v).

(** [kvector<TYPE>& operator=(const kvector<TYPE> &copied)]. *)
Definition kvector_assign (s : S) (v copied : kvector) : res (kvector * S) :=
  s ← kvector_delete s v;
  kvector_copy s copied.

End classes.
(** ** Specification *)

(** Characters of a file name: no NUL, at most 255 of them. *)
Definition name_ok (l : list Z) : Prop := Forall (λ b, 0 < b < 256) l ∧ (length l ≤ 255)%nat.

(** What the copy of a name takes from the heap at most. *)
Definition elem_cost : Z := cost 257.

(** The string owns the block with the characters [l]. *)
Definition kstr (H : gmap Z (list Z)) (k : kstring) (l : list Z) : Prop :=
  len k = Z.of_nat (length l) ∧ ∃ rest, H !! pstring k = Some (l ++ 0 :: rest).

Lemma kstr_weaken H H' k l : H ⊆ H' → kstr H k l → kstr H' k l.
Proof. intros Hs (El & rest & E). split; [done|]. exists rest. by eapply lookup_weaken. Qed.

Lemma kstr_insert H k l p bs : H !! p = None → kstr H k l → kstr (<[p := bs]> H) k l.
Proof. intros Hp. apply kstr_weaken, insert_subseteq, Hp. Qed.

Section spec.
Context {S : Type} {KI : KernelIO S} {KS : KernelIOSpec S}.
Context (σ : static).
Implicit Types (s : S) (Hp : gmap Z (list Z)).

(** The bytes [l] can be read at [a], whatever is allocated meanwhile. *)
Definition source s Hp (a : Z) (l : list Z) : Prop :=
  ∀ (i : nat) b, l !! i = Some b → load8 (io_mem s) (a + Z.of_nat i) = b ∧ known σ Hp (a + Z.of_nat i).

Lemma source_block s Hp B T p bs (o : nat) l : kheap s σ Hp B T → Hp !! p = Some bs →
  (∀ (i : nat) b, l !! i = Some b → bs !! (o + i)%nat = Some b) → source s Hp (p + Z.of_nat o) l.
Proof.
  intros HK E Hsub i b Hi. specialize (Hsub _ _ Hi). pose proof (lookup_lt_Some _ _ _ Hsub).
  replace (p + Z.of_nat o + Z.of_nat i) with (p + Z.of_nat (o + i)) by lia. split; [by eapply kheap_byte|].
  right. exists p, bs. split; [done|]. lia.
Qed.

Lemma source_stable s s' Hp Hp' B B' T T' a l : kheap s σ Hp B T → kheap s' σ Hp' B' T' → keeps σ s s' → Hp ⊆ Hp' →
  source s Hp a l → source s' Hp' a l.
Proof.
  intros HK HK' Hk Hsub Hsrc i b Hi. destruct (Hsrc _ _ Hi) as [E Hkn]. split.
  - rewrite <- E. by eapply known_same.
  - destruct Hkn as [?|(q & bs & Eq & Hx)]; [by left|]. right. exists q, bs. split; [|done]. by eapply lookup_weaken.
Qed.

Lemma strncpy_fresh s Hp B T p raw a l : kheap s σ (<[p := raw]> Hp) B T → Hp !! p = None → name_ok l →
  (length l < length raw)%nat → source s Hp a l →
  let m := strncpy (io_mem s) p a (Z.of_nat (length l)) in
  ∃ new, kheap (io_set s m) σ (<[p := new]> Hp) B T ∧ keeps σ s (io_set s m) ∧ length new = length raw ∧
    take (length l) new = l ∧
    (known σ Hp (a + Z.of_nat (length l)) → new !! length l = Some (u8 (load8 (io_mem s) (a + Z.of_nat (length l))))).
Proof.
  intros HK Hp0 [Hnz Hlen] Hlr Hsrc m.
  destruct (strncpy_prefix (io_mem s) p a l) as (Hc & Ho & He).
  { intros i b Hi. split; [by apply Hsrc|]. rewrite Forall_lookup in Hnz. by eapply Hnz. } { lia. }
  { intros i Hi. destruct (lookup_lt_is_Some_2 l (Z.to_nat i)) as [b Hb]; [lia|]. destruct (Hsrc _ _ Hb) as [_ Hk].
    rewrite Z2Nat.id in Hk by lia. pose proof (known_fresh _ _ _ _ _ _ _ _ HK Hp0 Hk). lia. }
  fold m in Hc, Ho, He. exists (bytes_of (load8 m) p (length raw)).
  destruct (kheap_write s σ _ B T p raw (bytes_of (load8 m) p (length raw)) m HK (lookup_insert_eq _ _ _))
    as [HK' Hk']; [by rewrite bytes_of_length|intros x Hx; apply Ho; lia| |].
  { intros i b Hi. pose proof (lookup_lt_Some _ _ _ Hi) as Hil. rewrite bytes_of_length in Hil.
    rewrite bytes_of_lookup in Hi by done. by injection Hi. }
  rewrite insert_insert_eq in HK'. split_and!; [done|done|by rewrite bytes_of_length| |].
  - replace (length raw) with (length l + (length raw - length l))%nat by lia.
    rewrite bytes_of_app, take_app_length' by by rewrite bytes_of_length. by apply bytes_of_eq.
  - intros Hk. rewrite bytes_of_lookup by done. f_equal. apply He.
    pose proof (known_fresh _ _ _ _ _ _ _ _ HK Hp0 Hk). lia.
Qed.

(** [kstring(const char *str,int len)] makes a string of the [len] characters. *)
Lemma kstring_len_spec s Hp B T a l : kheap s σ Hp B T → name_ok l → source s Hp a l →
  let n := Z.of_nat (length l) in
  cost (n + 1) ≤ B →
  ∃ k s', kstring_len s a n = Ok (k, s') ∧ len k = n ∧ Hp !! pstring k = None ∧ pstring k ≠ 0 ∧ keeps σ s s' ∧
    kheap s' σ (<[pstring k := l ++ [0]]> Hp) (B - cost (n + 1)) (Some (pstring k, cost (n + 1))).
Proof.
  intros HK Hl Hsrc n Hc. unfold kstring_len. destruct (id Hl) as [_ Hlen].
  rewrite u32_id by (unfold is_u32; lia).
  destruct (kheap_new s σ Hp B T (n + 1) HK ltac:(lia) Hc) as (p & s1 & -> & Hp0 & HK1 & Hk1). cbn [mbind res_bind].
  assert (Hsrc1 : source s1 Hp a l).
  { intros i b Hi. destruct (Hsrc _ _ Hi) as [E Hkn]. split; [|done]. rewrite <- E.
    eapply known_same; [exact HK|exact HK1|done|by apply insert_subseteq|done]. }
  destruct (strncpy_fresh s1 Hp _ _ p _ a l HK1 Hp0 Hl) as (new & HK2 & Hk2 & Hnl & Htk & _);
    [rewrite bytes_of_length; lia|done|]. rewrite bytes_of_length in Hnl.
  set (s2 := io_set s1 _) in *. set (m := store8 (io_mem s2) (p + n) 0).
  assert (Hin : ∀ (i : nat) b, l !! i = Some b → new !! i = Some b).
  { intros i b Hi. rewrite <- Htk in Hi. by apply lookup_take_Some in Hi as [? _]. }
  destruct (kheap_write s2 σ _ _ _ p new (l ++ [0]) m HK2 (lookup_insert_eq _ _ _)) as [HK3 Hk3].
  { rewrite length_app. cbn. lia. }
  { intros x Hx. unfold m. rewrite load8_store8, decide_False by lia. done. }
  { intros i b Hi. unfold m. rewrite load8_store8. case_decide as E.
    - assert (i = length l) as -> by lia. rewrite list_lookup_middle in Hi by done. injection Hi as <-. done.
    - assert (Hil : (i < length l)%nat).
      { apply lookup_lt_Some in Hi. rewrite length_app in Hi. cbn in Hi. lia. }
      rewrite lookup_app_l in Hi by done.
      eapply kheap_byte; [exact HK2|apply lookup_insert_eq|by apply Hin]. }
  rewrite insert_insert_eq in HK3. exists (mkKstring p n), (io_set s2 m).
  pose proof (kheap_range _ _ _ _ _ _ _ HK1 (lookup_insert_eq _ _ _)).
  split_and!; cbn [len pstring]; try done; [lia|]. by do 2 (eapply keeps_trans; [eassumption|]).
Qed.

(** [copy] of a string. *)
Lemma kstring_copy_spec s Hp B T c l : kheap s σ Hp B T → name_ok l → kstr Hp c l →
  let n := Z.of_nat (length l) in
  cost (n + 2) ≤ B →
  ∃ k s' bs, kstring_copy s c = Ok (k, s') ∧ Hp !! pstring k = None ∧ pstring k ≠ 0 ∧ keeps σ s s' ∧
    kheap s' σ (<[pstring k := bs]> Hp) (B - cost (n + 2)) (Some (pstring k, cost (n + 2))) ∧
    kstr (<[pstring k := bs]> Hp) k l.
Proof.
  intros HK Hl (El & rest & E) n Hc. unfold kstring_copy. destruct (id Hl) as [_ Hlen]. rewrite El.
  replace (Z.of_nat (length l) + 1 + 1) with (n + 2) by lia. rewrite u32_id by (unfold is_u32; lia).
  destruct (kheap_new s σ Hp B T (n + 2) HK ltac:(lia) Hc) as (p & s1 & -> & Hp0 & HK1 & Hk1). cbn [mbind res_bind].
  pose proof (kheap_range _ _ _ _ _ _ _ HK1 (lookup_insert_eq _ _ _)).
  assert (Hne : pstring c ≠ p) by congruence.
  assert (E1 : <[p := bytes_of (load8 (io_mem s1)) p (Z.to_nat (n + 2))]> Hp !! pstring c = Some (l ++ 0 :: rest))
    by by rewrite lookup_insert_ne.
  assert (Hby : ∀ (i : nat) b, (l ++ 0 :: rest) !! i = Some b → load8 (io_mem s1) (pstring c + Z.of_nat i) = b).
  { intros i b. by eapply kheap_byte. }
  assert (Hkn : ∀ i : nat, (i ≤ length l)%nat → known σ Hp (pstring c + Z.of_nat i)).
  { intros i Hi. right. exists (pstring c), (l ++ 0 :: rest). split; [done|]. rewrite length_app. cbn [length]. lia. }
  destruct (strncpy_fresh s1 Hp _ _ p _ (pstring c) l HK1 Hp0 Hl) as (new & HK2 & Hk2 & Hnl & Htk & Hend).
  { rewrite bytes_of_length. lia. }
  { intros i b Hi. pose proof (lookup_lt_Some _ _ _ Hi). split; [|apply Hkn; lia]. apply Hby. by rewrite lookup_app_l. }
  rewrite (Hby _ 0) in Hend by by rewrite list_lookup_middle. specialize (Hend (Hkn _ (Nat.le_refl _))).
  rewrite bytes_of_length in Hnl.
  eexists (mkKstring p n), _, new. cbn [pstring].
  split_and!; [reflexivity|done|lia|by eapply keeps_trans|done|].
  split; [done|]. exists (drop (Datatypes.S (length l)) new). cbn [pstring]. rewrite lookup_insert_eq. f_equal.
  rewrite <- Htk at 1. by rewrite (take_drop_middle new (length l) 0 Hend).
Qed.

(** [copy] of an empty string: the copy owns a block, its contents are not defined. *)
Lemma kstring_copy_blank s Hp B T c : kheap s σ Hp B T → len c = 0 → cost 2 ≤ B →
  ∃ k s' bs, kstring_copy s c = Ok (k, s') ∧ Hp !! pstring k = None ∧ pstring k ≠ 0 ∧ keeps σ s s' ∧ len k = 0 ∧
    kheap s' σ (<[pstring k := bs]> Hp) (B - cost 2) (Some (pstring k, cost 2)).
Proof.
  intros HK El Hc. unfold kstring_copy. rewrite El. change (u32 (0 + 1 + 1)) with 2.
  destruct (kheap_new s σ Hp B T 2 HK ltac:(lia) Hc) as (p & s1 & -> & Hp0 & HK1 & Hk1). cbn [mbind res_bind].
  pose proof (kheap_range _ _ _ _ _ _ _ HK1 (lookup_insert_eq _ _ _)).
  destruct (strncpy_fresh s1 Hp _ _ p _ (pstring c) [] HK1 Hp0) as (new & HK2 & Hk2 & _); try done.
  { by split; [constructor|cbn; lia]. } { rewrite bytes_of_length. cbn. lia. }
  eexists (mkKstring p 0), _, new. cbn [pstring len]. split_and!; [reflexivity|done|lia|by eapply keeps_trans|done|done].
Qed.

(** [operator==] decides equality of the characters. *)
Lemma kstring_eqb_spec s Hp B T k1 k2 l1 l2 : kheap s σ Hp B T → name_ok l1 → name_ok l2 → kstr Hp k1 l1 → kstr Hp k2 l2 →
  kstring_eqb s k1 k2 = bool_decide (l1 = l2).
Proof.
  intros HK [Hn1 Hl1] [Hn2 Hl2] (El1 & r1 & E1) (El2 & r2 & E2). unfold kstring_eqb. rewrite El1, El2.
  assert (Hcs : ∀ k l r, Forall (λ b, 0 < b < 256) l → (length l ≤ 255)%nat → Hp !! pstring k = Some (l ++ 0 :: r) →
    cstr (io_mem s) (pstring k) l).
  { intros k l r Hn Hlen E. split; [| |unfold STRLEN_MAX; lia].
    - intros i x Hi. split; [|rewrite Forall_lookup in Hn; specialize (Hn _ _ Hi); lia].
      eapply kheap_byte; [exact HK|exact E|]. rewrite lookup_app_l; [done|]. by eapply lookup_lt_Some.
    - eapply kheap_byte; [exact HK|exact E|]. by apply list_lookup_middle. }
  destruct (Z.eqb_spec (Z.of_nat (length l2)) (Z.of_nat (length l1))) as [Eq|Ne]; cbn [negb].
  - pose proof (strcmp_spec (io_mem s) (pstring k1) (pstring k2) l1 l2 (Z.of_nat (length l1))
      (Hcs _ _ _ Hn1 Hl1 E1) (Hcs _ _ _ Hn2 Hl2 E2) ltac:(lia)) as Hiff.
    case_bool_decide as Hd; [by rewrite (proj2 Hiff Hd)|]. apply Z.eqb_neq. by rewrite Hiff.
  - rewrite bool_decide_eq_false_2; [done|]. by intros ->.
Qed.

(** ** Vectors *)

(** The pointers of the elements. *)
Definition ptrs (l : list kstring) : list Z := filter (λ p, p ≠ 0) (pstring <$> l).

(** Release of the blocks at [l]. *)
Definition remove (l : list Z) Hp : gmap Z (list Z) := foldr (λ p h, delete p h) Hp l.

Lemma remove_lookup l Hp q : remove l Hp !! q = if decide (q ∈ l) then None else Hp !! q.
Proof.
  induction l as [|p l IH]; cbn [remove foldr]; [by rewrite decide_False by apply not_elem_of_nil|].
  fold (remove l Hp). destruct (decide (q = p)) as [->|Hne].
  - rewrite lookup_delete_eq, decide_True by by left. done.
  - rewrite lookup_delete_ne, IH by done. repeat case_decide; set_solver.
Qed.

Lemma delete_all_spec l : ∀ s Hp B T, kheap s σ Hp B T → NoDup (ptrs l) → (∀ p, p ∈ ptrs l → is_Some (Hp !! p)) →
  ∃ s', delete_all s l = Ok s' ∧ keeps σ s s' ∧ kheap s' σ (remove (ptrs l) Hp) B None.
Proof.
  induction l as [|k l IH]; intros s Hp B T HK Hnd Hin; cbn [delete_all].
  { exists s. split_and!; [done|done|]. eapply kheap_weaken; [|exact HK]. lia. }
  unfold ptrs in *. cbn [fmap list_fmap] in *. rewrite filter_cons in *. unfold kstring_delete.
  destruct (decide (pstring k ≠ 0)) as [Hk|Hk].
  - apply NoDup_cons in Hnd as [Hni Hnd].
    destruct (IH s Hp B T HK Hnd) as (s1 & -> & Hk1 & HK1). { intros p Hp'. apply Hin. by right. }
    cbn [mbind res_bind]. rewrite (proj2 (Z.eqb_neq _ _)) by done.
    destruct (Hin (pstring k)) as [bs Ebs]; [by left|].
    destruct (kheap_delete s1 σ _ B None (pstring k) bs HK1) as (s2 & -> & Hk2 & HK2); [|done|].
    { by rewrite remove_lookup, decide_False. }
    exists s2. split_and!; [done|by eapply keeps_trans|done].
  - destruct (IH s Hp B T HK Hnd Hin) as (s1 & -> & Hk1 & HK1). cbn [mbind res_bind].
    assert (pstring k = 0) as -> by (apply dec_stable; done). by exists s1.
Qed.

(** The elements of a vector of names: strings first, empty ones behind. *)
Definition names Hp (l : list kstring) (ls : list (list Z)) : Prop :=
  (∀ (i : nat) x, ls !! i = Some x → ∃ k, l !! i = Some k ∧ kstr Hp k x) ∧
  (∀ (i : nat) k, (length ls ≤ i)%nat → l !! i = Some k → len k = 0).

(** The vector owns its block and the blocks of its elements; the first elements
    are the strings [ls], the others are empty. *)
Record kvec Hp (v : kvector) (ls : list (list Z)) : Prop := {
  kv_elems : elems v ≠ 0 ∧ is_Some (Hp !! (elems v - 4));
  kv_nodup : NoDup (elems v - 4 :: ptrs (cells v));
  kv_owned : ∀ p, p ∈ ptrs (cells v) → is_Some (Hp !! p);
  kv_names : names Hp (cells v) ls;
  kv_len : max_elem v = Z.of_nat (length (cells v)) ∧ (length ls ≤ length (cells v))%nat
}.

(** The blocks of a vector. *)
Definition vblocks (v : kvector) : list Z := elems v - 4 :: ptrs (cells v).

Lemma kvector_delete_spec s Hp B T v ls : kheap s σ Hp B T → kvec Hp v ls →
  ∃ s', kvector_delete s v = Ok s' ∧ keeps σ s s' ∧ kheap s' σ (remove (vblocks v) Hp) B None.
Proof.
  intros HK [[He [bs Eb]] Hnd Hown _ _]. apply NoDup_cons in Hnd as [Hni Hnd]. unfold kvector_delete.
  rewrite (proj2 (Z.eqb_neq _ _)) by done.
  destruct (delete_all_spec (cells v) s Hp B T HK Hnd Hown) as (s1 & -> & Hk1 & HK1). cbn [mbind res_bind].
  destruct (kheap_delete s1 σ _ B None (elems v - 4) bs HK1) as (s2 & -> & Hk2 & HK2); [|done|].
  { by rewrite remove_lookup, decide_False. }
  exists s2. split_and!; [done|by eapply keeps_trans|done].
Qed.

Lemma new_array_spec s Hp B T n : kheap s σ Hp B T → 0 ≤ n ≤ 1000 → cost (n * 8 + 4) ≤ B →
  ∃ p s' bs, new_array s n = Ok (p + 4, replicate (Z.to_nat n) kstring_empty, s') ∧ 0 < p ∧ Hp !! p = None ∧
    keeps σ s s' ∧ kheap s' σ (<[p := bs]> Hp) (B - cost (n * 8 + 4)) None.
Proof.
  intros HK Hn Hc. unfold new_array, sizeof_kstring. rewrite u32_id by (unfold is_u32; lia).
  destruct (kheap_new s σ Hp B T (n * 8 + 4) HK ltac:(lia) Hc) as (p & s1 & -> & Hp0 & HK1 & Hk1). cbn [mbind res_bind].
  pose proof (kheap_range _ _ _ _ _ _ _ HK1 (lookup_insert_eq _ _ _)).
  set (m := store32 (io_mem s1) p n).
  destruct (kheap_write s1 σ _ _ _ p _ (bytes_of (load8 m) p (Z.to_nat (n * 8 + 4))) m HK1 (lookup_insert_eq _ _ _))
    as [HK2 Hk2]; rewrite ?bytes_of_length; try done.
  { intros x Hx. unfold m. apply load8_store32_ne. lia. }
  { intros i b Hi. pose proof (lookup_lt_Some _ _ _ Hi) as Hl. rewrite bytes_of_length in Hl.
    rewrite bytes_of_lookup in Hi by done. by injection Hi. }
  rewrite insert_insert_eq in HK2. eexists p, _, _. split_and!; [reflexivity|lia|done|by eapply keeps_trans|].
  eapply kheap_weaken; [|exact HK2]. lia.
Qed.

Lemma ptrs_replicate n : ptrs (replicate n kstring_empty) = [].
Proof. unfold ptrs. by induction n. Qed.

(** [kvector(size_t max_elem)]. *)
Lemma kvector_new_spec s Hp B T n : kheap s σ Hp B T → 0 ≤ n ≤ 1000 → cost (n * 8 + 4) ≤ B →
  ∃ v s' bs, kvector_new s n = Ok (v, s') ∧ Hp !! (elems v - 4) = None ∧ keeps σ s s' ∧
    kheap s' σ (<[elems v - 4 := bs]> Hp) (B - cost (n * 8 + 4)) None ∧ kvec (<[elems v - 4 := bs]> Hp) v [] ∧
    max_elem v = n ∧ num_elem v = n ∧ cells v = replicate (Z.to_nat n) kstring_empty.
Proof.
  intros HK Hn Hc. unfold kvector_new.
  destruct (new_array_spec s Hp B T n HK Hn Hc) as (p & s1 & bs & -> & Hp0 & Hpn & Hk & HK1). cbn [mbind res_bind].
  eexists (mkKvector (p + 4) _ n n), s1, bs. cbn [elems max_elem num_elem].
  replace (p + 4 - 4) with p by lia. split_and!; try done.
  split; cbn [elems cells max_elem]; rewrite ?ptrs_replicate; replace (p + 4 - 4) with p by lia.
  - split; [lia|]. rewrite lookup_insert_eq. by eexists.
  - apply NoDup_singleton.
  - by intros q ?%elem_of_nil.
  - split; [done|]. by intros i k _ [-> _]%lookup_replicate.
  - rewrite length_replicate. cbn. lia.
Qed.

Lemma names_cons Hp k l ls : names Hp (k :: l) ls →
  (∃ x ls', ls = x :: ls' ∧ kstr Hp k x ∧ names Hp l ls') ∨ (ls = [] ∧ len k = 0 ∧ names Hp l []).
Proof.
  intros [Hs Hr]. destruct ls as [|x ls].
  - right. split_and!; [done|by apply (Hr 0%nat)|]. split; [done|]. intros i k' _ Hi. apply (Hr (Datatypes.S i) k'); [cbn; lia|done].
  - left. exists x, ls. split; [done|]. destruct (Hs 0%nat x eq_refl) as (k' & [= <-] & Hk). split; [done|]. split.
    + intros i y Hi. by apply (Hs (Datatypes.S i)).
    + intros i k' Hl Hi. apply (Hr (Datatypes.S i) k'); [cbn in *; lia|done].
Qed.

(** One element of a copied vector. *)
Lemma copy_elem s Hp B T k l ls : kheap s σ Hp B T → names Hp (k :: l) ls → Forall name_ok ls → elem_cost ≤ B →
  ∃ k' s' bs, kstring_copy s k = Ok (k', s') ∧ Hp !! pstring k' = None ∧ pstring k' ≠ 0 ∧ keeps σ s s' ∧
    kheap s' σ (<[pstring k' := bs]> Hp) (B - elem_cost) None ∧
    (ls = [] → len k' = 0) ∧ (∀ x, head ls = Some x → kstr (<[pstring k' := bs]> Hp) k' x).
Proof.
  intros HK Hnm Hok HB. assert (Hec : elem_cost = 268) by done.
  destruct (names_cons _ _ _ _ Hnm) as [(x & ls' & -> & Hk & _)|(-> & Hk & _)].
  - apply Forall_cons in Hok as [Hx _]. destruct (id Hx) as [_ Hlen].
    assert (Hc : 0 ≤ cost (Z.of_nat (length x) + 2) ≤ 268) by (unfold cost; Z.div_mod_to_equations; lia).
    destruct (kstring_copy_spec s Hp B T k x HK Hx Hk ltac:(lia)) as (k' & s' & bs & E & Hn & Hp0 & Hkp & HK' & Hk').
    exists k', s', bs. split_and!; try done; [|by intros y [= <-]]. eapply kheap_weaken; [|exact HK']. lia.
  - destruct (kstring_copy_blank s Hp B T k HK Hk ltac:(change (cost 2) with 12; lia)) as (k' & s' & bs & E & Hn & Hp0 & Hkp & Hl & HK').
    exists k', s', bs. split_and!; try done. eapply kheap_weaken; [|exact HK'].
    change (cost 2) with 12. lia.
Qed.

Lemma names_weaken Hp Hp' l ls : Hp ⊆ Hp' → names Hp l ls → names Hp' l ls.
Proof.
  intros Hsub [Hs Hr]. split; [|done]. intros i x Hi. destruct (Hs i x Hi) as (k & Hk & Hks). exists k.
  split; [done|]. by eapply kstr_weaken.
Qed.

Lemma names_tail Hp k l ls : names Hp (k :: l) ls → names Hp l (tail ls).
Proof. intros [(x & ls' & -> & _ & ?)|(-> & _ & ?)]%names_cons; done. Qed.

Lemma names_cons_intro Hp k l ls : (ls = [] → len k = 0) → (∀ x, head ls = Some x → kstr Hp k x) →
  names Hp l (tail ls) → names Hp (k :: l) ls.
Proof.
  intros H0 Hx [Hs Hr]. split.
  - intros [|i] y Hi; [exists k; split; [done|]; apply Hx; by rewrite head_lookup|].
    destruct ls as [|x ls]; [done|]. by apply Hs.
  - intros [|i] k' Hl Hi.
    + injection Hi as <-. apply H0. destruct ls; [done|cbn in Hl; lia].
    + apply (Hr i); [|done]. destruct ls; cbn in *; lia.
Qed.

Lemma ptrs_cons k l : pstring k ≠ 0 → ptrs (k :: l) = pstring k :: ptrs l.
Proof. intros Hk. unfold ptrs. cbn [fmap list_fmap]. by rewrite filter_cons, decide_True. Qed.

(** The assignments to the elements of a new array. *)
Lemma assign_all_spec l : ∀ ls s Hp B T, kheap s σ Hp B T → names Hp l ls → Forall name_ok ls →
  elem_cost * Z.of_nat (length l) ≤ B →
  ∃ l' s' Hp', assign_all s (replicate (length l) kstring_empty) l = Ok (l', s') ∧ keeps σ s s' ∧
    kheap s' σ Hp' (B - elem_cost * Z.of_nat (length l)) None ∧ Hp ⊆ Hp' ∧ length l' = length l ∧
    NoDup (ptrs l') ∧ (∀ p, p ∈ ptrs l' → Hp !! p = None ∧ is_Some (Hp' !! p)) ∧ names Hp' l' ls ∧
    remove (ptrs l') Hp' = Hp.
Proof.
  assert (Hec : elem_cost = 268) by done.
  induction l as [|k l IH]; intros ls s Hp B T HK Hnm Hok HB; cbn [length replicate assign_all].
  { exists [], s, Hp. split_and!; try done; [|constructor|by intros p ?%elem_of_nil].
    eapply kheap_weaken; [|exact HK]. cbn. lia. }
  unfold kstring_assign, kstring_delete. change (pstring kstring_empty =? 0) with true. cbn [mbind res_bind].
  cbn [length] in HB.
  destruct (copy_elem s Hp B T k l ls HK Hnm Hok ltac:(lia)) as (k' & s1 & bs & -> & Hn & Hk0 & Hk1 & HK1 & He & Hx).
  cbn [mbind res_bind]. pose proof (insert_subseteq Hp (pstring k') bs Hn) as Hsub1.
  destruct (IH (tail ls) s1 (<[pstring k' := bs]> Hp) _ None HK1) as
    (l' & s2 & Hp' & -> & Hk2 & HK2 & Hsub2 & Hlen & Hnd & Hin & Hnm2 & Hrem).
  { eapply names_weaken; [exact Hsub1|]. by eapply names_tail. } { by apply Forall_tail. } { lia. }
  cbn [mbind res_bind]. exists (k' :: l'), s2, Hp'. rewrite ptrs_cons by done.
  assert (Hk'p : Hp' !! pstring k' = Some bs) by (eapply lookup_weaken; [|exact Hsub2]; apply lookup_insert_eq).
  assert (Hni : pstring k' ∉ ptrs l').
  { intros Hi. destruct (Hin _ Hi) as [Hc _]. by rewrite lookup_insert_eq in Hc. }
  split_and!.
  - done.
  - by eapply keeps_trans.
  - eapply kheap_weaken; [|exact HK2]. lia.
  - by etrans.
  - cbn. by rewrite Hlen.
  - by constructor.
  - intros p [->|Hi]%elem_of_cons; [by rewrite Hk'p|]. destruct (Hin _ Hi) as [Hc Hs]. split; [|done].
    by apply lookup_insert_None in Hc as [? _].
  - apply names_cons_intro; [done| |done]. intros x Hh. eapply kstr_weaken; [exact Hsub2|by apply Hx].
  - cbn [remove foldr]. fold (remove (ptrs l') Hp'). rewrite Hrem. by rewrite delete_insert_id.
Qed.

(** What a copied vector of [n] elements takes from the heap at most. *)
Definition vec_cost (n : Z) : Z := cost (n * 8 + 4) + elem_cost * n.

(** [copy] of a vector: a second vector with the same names and blocks of its own. *)
Lemma kvector_copy_spec s Hp B T v ls : kheap s σ Hp B T → kvec Hp v ls → Forall name_ok ls → max_elem v ≤ 1000 →
  vec_cost (max_elem v) ≤ B →
  ∃ v' s' Hp', kvector_copy s v = Ok (v', s') ∧ keeps σ s s' ∧ kheap s' σ Hp' (B - vec_cost (max_elem v)) None ∧
    Hp ⊆ Hp' ∧ kvec Hp' v' ls ∧ max_elem v' = max_elem v ∧ num_elem v' = num_elem v ∧ remove (vblocks v') Hp' = Hp.
Proof.
  intros HK [[He [bs0 Eb]] Hnd Hown Hnm [Hmax Hlen]] Hok Hm HB. unfold kvector_copy, vec_cost in *.
  assert (Hec : elem_cost = 268) by done. rewrite Hmax in *. set (n := Z.of_nat (length (cells v))) in *.
  destruct (new_array_spec s Hp B T n HK ltac:(lia) ltac:(lia)) as (p & s1 & bs & -> & Hp0 & Hpn & Hk1 & HK1).
  cbn [mbind res_bind]. pose proof (insert_subseteq Hp p bs Hpn) as Hsub1.
  replace (Z.to_nat n) with (length (cells v)) by (unfold n; lia).
  destruct (assign_all_spec (cells v) ls s1 _ _ None HK1) as
    (l' & s2 & Hp' & -> & Hk2 & HK2 & Hsub2 & Hl' & Hnd' & Hin' & Hnm' & Hrem).
  { by eapply names_weaken. } { done. } { lia. }
  cbn [mbind res_bind].
  assert (Ep : Hp' !! p = Some bs) by (eapply lookup_weaken; [|exact Hsub2]; apply lookup_insert_eq).
  assert (Hni : p ∉ ptrs l'). { intros Hi. destruct (Hin' _ Hi) as [Hc _]. by rewrite lookup_insert_eq in Hc. }
  eexists _, s2, Hp'. split; [reflexivity|]. unfold vblocks. cbn [elems cells max_elem num_elem].
  replace (p + 4 - 4) with p by lia. split_and!; try done.
  - by eapply keeps_trans.
  - eapply kheap_weaken; [|exact HK2]. lia.
  - by etrans.
  - split; cbn [elems cells max_elem]; replace (p + 4 - 4) with p by lia.
    + split; [lia|by eexists].
    + by constructor.
    + intros q Hq. by apply Hin'.
    + done.
    + rewrite Hl'. done.
  - cbn [remove foldr]. fold (remove (ptrs l') Hp'). rewrite Hrem. by rewrite delete_insert_id.
Qed.

Lemma ptrs_insert_empty l (i : nat) k : l !! i = Some kstring_empty → pstring k ≠ 0 →
  ptrs (<[i := k]> l) ≡ₚ pstring k :: ptrs l.
Proof.
  intros Hi Hk. unfold ptrs. rewrite list_fmap_insert.
  assert (Hi' : (pstring <$> l) !! i = Some 0) by by rewrite list_lookup_fmap, Hi.
  rewrite <- (take_drop_middle _ _ _ Hi') at 2.
  rewrite insert_take_drop by (by eapply lookup_lt_Some). rewrite !filter_app, !filter_cons.
  rewrite decide_True by done. rewrite (decide_False (P := 0 ≠ 0)) by tauto.
  symmetry. apply Permutation_middle.
Qed.

(** Assignment to the first empty element. *)
Lemma kvector_set_spec s Hp B T v ls k x : kheap s σ Hp B T → kvec Hp v ls → kstr Hp k x → name_ok x →
  cells v !! length ls = Some kstring_empty → elem_cost ≤ B →
  ∃ v' s' Hp', kvector_set s v (Z.of_nat (length ls)) k = Ok (v', s') ∧ keeps σ s s' ∧ kheap s' σ Hp' (B - elem_cost) None ∧
    Hp ⊆ Hp' ∧ kvec Hp' v' (ls ++ [x]) ∧ max_elem v' = max_elem v ∧ num_elem v' = num_elem v ∧
    (∃ k', cells v' = <[length ls := k']> (cells v)) ∧ elems v' = elems v ∧
    (∀ p, p ∈ vblocks v' → p ∈ vblocks v ∨ Hp !! p = None) ∧
    remove (vblocks v') Hp' = remove (vblocks v) Hp.
Proof.
  intros HK HV Hk Hx Hcell HB. destruct (id HV) as [[He [bs0 Eb]] Hnd Hown [Hs Hr] [Hmax Hlen]].
  pose proof (lookup_lt_Some _ _ _ Hcell) as Hlt. assert (Hec : elem_cost = 268) by done.
  unfold kvector_set, kvector_at. rewrite (proj2 (Z.leb_gt _ _)), Nat2Z.id, Hcell by lia.
  unfold kstring_assign, kstring_delete. change (pstring kstring_empty =? 0) with true. cbn [mbind res_bind].
  assert (Hc : 0 ≤ cost (Z.of_nat (length x) + 2) ≤ 268).
  { destruct Hx as [_ Hxl]. unfold cost. Z.div_mod_to_equations; lia. }
  destruct (kstring_copy_spec s Hp B T k x HK Hx Hk ltac:(lia)) as (k' & s1 & bs & -> & Hn & Hp0 & Hk1 & HK1 & Hks).
  cbn [mbind res_bind]. pose proof (insert_subseteq Hp (pstring k') bs Hn) as Hsub.
  pose proof (ptrs_insert_empty _ _ k' Hcell Hp0) as Hpp.
  assert (Hnb : pstring k' ∉ vblocks v).
  { intros [E|Hi]%elem_of_cons; [by rewrite E, Eb in Hn|]. destruct (Hown _ Hi) as [? Ei]. by rewrite Ei in Hn. }
  eexists _, s1, (<[pstring k' := bs]> Hp). split; [reflexivity|]. unfold vblocks in *. cbn [elems cells max_elem num_elem].
  split_and!; try done.
  - eapply kheap_weaken; [|exact HK1]. lia.
  - split; cbn [elems cells max_elem].
    + split; [done|]. rewrite lookup_insert_ne; [by eexists|]. intros E. apply Hnb. rewrite E. by left.
    + rewrite Hpp. apply NoDup_cons in Hnd as [Hn1 Hn2]. apply NoDup_cons. split; [|constructor; [|done]]; set_solver.
    + intros p. rewrite Hpp. intros [->|Hi]%elem_of_cons; [rewrite lookup_insert_eq; by eexists|].
      destruct (decide (p = pstring k')) as [->|]; [rewrite lookup_insert_eq; by eexists|].
      rewrite lookup_insert_ne by done. by apply Hown.
    + split.
      * intros i y [Hi|[Hi ->]]%lookup_snoc_Some.
        -- destruct Hi as [Hi Hy]. destruct (Hs i y Hy) as (k2 & Hk2 & Hks2). exists k2.
           rewrite list_lookup_insert_ne by lia. split; [done|]. by eapply kstr_weaken.
        -- subst i. exists k'. rewrite list_lookup_insert_eq by done. done.
      * intros i k2 Hl2 Hi2. rewrite length_app in Hl2. cbn in Hl2. rewrite list_lookup_insert_ne in Hi2 by lia.
        apply (Hr i); [lia|done].
    + rewrite length_insert, length_app. cbn. lia.
  - by eexists.
  - intros p. rewrite elem_of_cons, Hpp, elem_of_cons. intros [->|[->|Hi]]; [by left; left|by right|by left; right].
  - apply map_eq. intros q. rewrite !remove_lookup.
    assert (Hiff : q ∈ elems v - 4 :: ptrs (<[length ls := k']> (cells v)) ↔ q = pstring k' ∨ q ∈ elems v - 4 :: ptrs (cells v)).
    { rewrite !elem_of_cons, Hpp, elem_of_cons. tauto. }
    repeat case_decide; try tauto. all: destruct (decide (q = pstring k')) as [->|]; try tauto.
    + done.
    + by rewrite lookup_insert_ne.
Qed.

(** A vector keeps what it owns when other blocks come and go. *)
Lemma kvec_weaken Hp Hp' v ls : Hp ⊆ Hp' → kvec Hp v ls → kvec Hp' v ls.
Proof.
  intros Hsub [[He [b Eb]] Hnd Hown Hnm Hl]. split; [|done| |by eapply names_weaken|done].
  - split; [done|]. exists b. by eapply lookup_weaken.
  - intros p Hi. destruct (Hown p Hi) as [x Ex]. exists x. by eapply lookup_weaken.
Qed.

Lemma kstr_ptr s Hp B T l k x (i : nat) : kheap s σ Hp B T → l !! i = Some k → kstr Hp k x → pstring k ∈ ptrs l.
Proof.
  intros HK Hi (_ & rest & E). pose proof (kheap_range _ _ _ _ _ _ _ HK E). unfold ptrs. apply list_elem_of_filter.
  split; [lia|]. apply list_elem_of_fmap. exists k. split; [done|]. by eapply list_elem_of_lookup_2.
Qed.

Lemma kvec_remove s Hp B T v ls L : kheap s σ Hp B T → (∀ p, p ∈ vblocks v → p ∉ L) → kvec Hp v ls → kvec (remove L Hp) v ls.
Proof.
  intros HK HL [[He Eb] Hnd Hown [Hs Hr] Hl].
  assert (Hkeep : ∀ p, p ∈ vblocks v → remove L Hp !! p = Hp !! p).
  { intros p Hp'. rewrite remove_lookup, decide_False; [done|by apply HL]. }
  split; [|done| | |done].
  - split; [done|]. rewrite Hkeep by by left. done.
  - intros p Hi. rewrite Hkeep by by right. by apply Hown.
  - split; [|done]. intros i x Hi. destruct (Hs i x Hi) as (k & Hk & Hks). exists k. split; [done|].
    pose proof (kstr_ptr _ _ _ _ _ _ _ _ HK Hk Hks) as Hin. destruct Hks as (El & rest & E). split; [done|]. exists rest.
    rewrite Hkeep by by right. done.
Qed.

Lemma vblocks_owned Hp v ls p : kvec Hp v ls → p ∈ vblocks v → is_Some (Hp !! p).
Proof. intros [[_ Eb] _ Hown _ _] [->|Hi]%elem_of_cons; [done|by apply Hown]. Qed.

(** The number of elements in use does not change what the vector owns. *)
Lemma kvec_num Hp v ls n : kvec Hp v ls → kvec Hp (mkKvector (elems v) (cells v) (max_elem v) n) ls.
Proof. by intros []; split. Qed.

End spec.
End Utilclass.
