(* ===== verification/Ext2.v ===== *)
(** * The ext2 reader ([src/kernel/Ext2.cpp], [src/include/os/Ext2.h])

    On-disk structures are decoded by functions of a byte function [f] and an
    address, so that the structure the code reads from a buffer and the structure on
    the disk are the same definition at two places. The class [Ext2] works through
    [KernelIO]: heap, memory and [Ata::read]. The specification is the mapping from
    block numbers of a file to disk blocks ([bmap]) and the search in a directory. *)

From S2P Require Import Prelude Memory KString KernelIO Utilclass.

Module Ext2.
Import Utilclass.

(** ** Decoding *)

Definition get16 (f : Z → Z) (a : Z) : Z := f a + f (a + 1) * 256.
Definition get32 (f : Z → Z) (a : Z) : Z :=
  f a + f (a + 1) * 256 + f (a + 2) * 65536 + f (a + 3) * 16777216.

Lemma get16_ext f g a b : (∀ j, 0 ≤ j < 2 → f (a + j) = g (b + j)) → get16 f a = get16 g b.
Proof. intros H. unfold get16. by rewrite <- (Z.add_0_r a), <- (Z.add_0_r b), !H, <- !Z.add_assoc, !H by lia. Qed.

Lemma get32_ext f g a b : (∀ j, 0 ≤ j < 4 → f (a + j) = g (b + j)) → get32 f a = get32 g b.
Proof.
  intros H. unfold get32. by rewrite <- (Z.add_0_r a), <- (Z.add_0_r b), !H, <- !Z.add_assoc, !H by lia.
Qed.

Lemma get32_range f a : (∀ x, 0 ≤ f x < 256) → is_u32 (get32 f a).
Proof.
  intros H. unfold get32, is_u32.
  pose proof (H a). pose proof (H (a + 1)). pose proof (H (a + 2)). pose proof (H (a + 3)). lia.
Qed.

(** ** Constants *)

Definition EXT2_NDIR_BLOCKS : Z := 12.
Definition EXT2_IND_BLOCK : Z := EXT2_NDIR_BLOCKS.
Definition EXT2_DIND_BLOCK : Z := EXT2_IND_BLOCK + 1.
Definition EXT2_TIND_BLOCK : Z := EXT2_DIND_BLOCK + 1.
Definition EXT2_N_BLOCKS : Z := EXT2_TIND_BLOCK + 1.

Definition FT_UNKNOWN : Z := 0.
Definition FT_FIFO : Z := 1.
Definition FT_CHRDEV : Z := 2.
Definition FT_DIR : Z := 4.
Definition FT_BLKDEV : Z := 6.
Definition FT_REG_FILE : Z := 8.
Definition FT_SYMLINK : Z := 10.
Definition FT_SOCK : Z := 12.
Definition FT_MAX : Z := FT_SOCK + 1.

Definition group_desc_offset : Z := 2048.
Definition first_blockaddr : Z := 32256.

(** ** [struct ext2_group_desc] *)

Definition sizeof_group_desc : Z := 32.
Definition bg_block_bitmap (f : Z → Z) (p : Z) : Z := get32 f p.
Definition bg_inode_bitmap (f : Z → Z) (p : Z) : Z := get32 f (p + 4).
Definition bg_inode_table (f : Z → Z) (p : Z) : Z := get32 f (p + 8).
Definition bg_free_blocks_count (f : Z → Z) (p : Z) : Z := get16 f (p + 12).
Definition bg_free_inodes_count (f : Z → Z) (p : Z) : Z := get16 f (p + 14).
Definition bg_used_dirs_count (f : Z → Z) (p : Z) : Z := get16 f (p + 16).

(** ** [struct ext2_inode] *)

Record ext2_inode := mkInode {
  i_mode : Z;
  i_uid : Z;
  i_size : Z;
  i_atime : Z;
  i_ctime : Z;
  i_mtime : Z;
  i_dtime : Z;
  i_gid : Z;
  i_links_count : Z;
  i_blocks : Z;
  i_flags : Z;
  osd1 : Z;
  i_block : list Z;
  i_generation : Z;
  i_file_acl : Z;
  i_dir_acl : Z;
  i_faddr : Z;
  osd2 : list Z
}.

Definition sizeof_inode : Z := 128.

(** The 128 bytes of an inode at [p]. *)
Definition inode_of (f : Z → Z) (p : Z) : ext2_inode := {|
  i_mode := get16 f p;
  i_uid := get16 f (p + 2);
  i_size := get32 f (p + 4);
  i_atime := get32 f (p + 8);
  i_ctime := get32 f (p + 12);
  i_mtime := get32 f (p + 16);
  i_dtime := get32 f (p + 20);
  i_gid := get16 f (p + 24);
  i_links_count := get16 f (p + 26);
  i_blocks := get32 f (p + 28);
  i_flags := get32 f (p + 32);
  osd1 := get32 f (p + 36);
  i_block := (λ i : nat, get32 f (p + 40 + 4 * Z.of_nat i)) <$> seq 0 15;
  i_generation := get32 f (p + 100);
  i_file_acl := get32 f (p + 104);
  i_dir_acl := get32 f (p + 108);
  i_faddr := get32 f (p + 112);
  osd2 := (λ i : nat, get32 f (p + 116 + 4 * Z.of_nat i)) <$> seq 0 3
|}.

(** [bool is_directory()]. *)
Definition is_directory (n : ext2_inode) : bool := negb (Z.land (Z.shiftr (i_mode n) 12) FT_DIR =? 0).

(** [bool is_valid()]. *)
Definition is_valid (n : ext2_inode) : bool :=
  let type := u8 (Z.shiftr (i_mode n) 12) in
  (FT_UNKNOWN <? type) && (type <? FT_MAX).

(** The constructor [ext2_inode()] sets [i_mode] only. *)
Definition with_mode (n : ext2_inode) (v : Z) : ext2_inode :=
  mkInode v (i_uid n) (i_size n) (i_atime n) (i_ctime n) (i_mtime n) (i_dtime n) (i_gid n) (i_links_count n)
    (i_blocks n) (i_flags n) (osd1 n) (i_block n) (i_generation n) (i_file_acl n) (i_dir_acl n) (i_faddr n) (osd2 n).

Definition ext2_inode_new (uninit : ext2_inode) : ext2_inode := with_mode uninit FT_UNKNOWN.

(** ** [class ext2_super_block] *)

Definition sizeof_super_block : Z := 1024.
Definition s_inodes_count (f : Z → Z) (p : Z) : Z := get32 f p.
Definition s_blocks_count (f : Z → Z) (p : Z) : Z := get32 f (p + 4).
Definition s_first_data_block (f : Z → Z) (p : Z) : Z := get32 f (p + 20).
Definition s_log_block_size (f : Z → Z) (p : Z) : Z := get32 f (p + 24).
Definition s_blocks_per_group (f : Z → Z) (p : Z) : Z := get32 f (p + 32).
Definition s_inodes_per_group (f : Z → Z) (p : Z) : Z := get32 f (p + 40).
Definition s_magic (f : Z → Z) (p : Z) : Z := get16 f (p + 56).
Definition s_first_ino (f : Z → Z) (p : Z) : Z := get32 f (p + 84).
Definition s_inode_size (f : Z → Z) (p : Z) : Z := get16 f (p + 88).

(** [EXT2_MIN_BLOCK_SIZE << s_log_block_size]: the processor takes the shift
    count modulo 32. *)
Definition sb_block_size (f : Z → Z) (p : Z) : Z := u32 (Z.shiftl 1024 (s_log_block_size f p `mod` 32)).

(** ** [struct ext2_dir_entry_2] *)

Definition de_inode (f : Z → Z) (p : Z) : Z := get32 f p.
Definition de_rec_len (f : Z → Z) (p : Z) : Z := get16 f (p + 4).
Definition de_name_len (f : Z → Z) (p : Z) : Z := f (p + 6).
Definition de_file_type (f : Z → Z) (p : Z) : Z := f (p + 7).
Definition de_name (p : Z) : Z := p + 8.

(** ** [class Ext2] *)

Section ext2.
Context {S : Type} {KI : KernelIO S}.

Record ext2 := mkExt2 {
  super_block : Z;
  root_inode : ext2_inode;
  current_inode : ext2_inode;
  inode_size : Z;
  block_size : Z;
  invalid_inode : ext2_inode
}.

Abbreviation byte s := (load8 (io_mem s)).

(** [u32_t block_index2addr(u32_t index)]. *)
Definition block_index2addr (e : ext2) (index : Z) : Z := u32 (first_blockaddr + u32 (index * block_size e)).

(** [new ext2_inode()]: the constructor writes [i_mode]. *)
Definition new_inode (s : S) : res (Z * S) :=
  '(p, s) ← io_new s sizeof_inode;
  Ok (p, io_set s (store16 (io_mem s) p FT_UNKNOWN)).

(** [ext2_inode get_inode(u32_t inode_index)]: neither buffer is released. *)
Definition get_inode (e : ext2) (s : S) (inode_index : Z) : res (ext2_inode * S) :=
  let ipg := s_inodes_per_group (byte s) (super_block e) in
  if ipg =? 0 then Fault else
  let block_group_of_inode := u32 (inode_index - 1) / ipg in
  let index_in_bgroup := u32 (inode_index - 1) `mod` ipg in
  let addr_bgroup_desc :=
    u32 (first_blockaddr
         + u32 (block_group_of_inode * s_blocks_per_group (byte s) (super_block e) * block_size e)
         + group_desc_offset) in
  '(bgroup, s) ← io_new s sizeof_group_desc;
  '(_, s) ← io_read s addr_bgroup_desc bgroup sizeof_group_desc;
  '(inode, s) ← new_inode s;
  '(_, s) ← io_read s (u32 (block_index2addr e (bg_inode_table (byte s) bgroup) + index_in_bgroup * sizeof_inode))
              inode sizeof_inode;
  Ok (inode_of (byte s) inode, s).

(** The body of the [do] loop of [find_inode_from_direntries] and what follows it;
    the end of the loop is a bound on addresses, and a zero [rec_len] makes the loop
    run for ever. *)
Fixpoint find_loop (fuel : nat) (e : ext2) (s : S) (buffer file : Z) (search_for : kstring) : res (ext2_inode * S) :=
  match fuel with
  | O => NoFuel
  | Datatypes.S fuel' =>
    '(file_name, s) ← kstring_len s (de_name file) (de_name_len (byte s) file);
    if kstring_eqb s search_for file_name then
      '(n, s) ← get_inode e s (de_inode (byte s) file);
      s ← kstring_delete s file_name;
      Ok (n, s)
    else
      let file := u32 (file + de_rec_len (byte s) file) in
      s ← kstring_delete s file_name;
      if file <? u32 (buffer + 1024) then find_loop fuel' e s buffer file search_for
      else Ok (invalid_inode e, s)
  end.

Definition find_inode_from_direntries (fuel : nat) (e : ext2) (s : S) (buffer : Z) (search_for : kstring)
    : res (ext2_inode * S) :=
  find_loop fuel e s buffer buffer search_for.

(** [for(int i=0;i<path.length();i++)] of [get_inode_path]; [n] iterations are left. *)
Fixpoint path_loop (n : nat) (fuel : nat) (e : ext2) (s : S) (path : kvector) (i : Z) (cnode : ext2_inode)
    : res (ext2_inode * S) :=
  match n with
  | O => Ok (cnode, s)
  | Datatypes.S n' =>
    if negb (is_directory cnode) then Ok (invalid_inode e, s) else
    let addr_of_dir_info := block_index2addr e (default 0 (i_block cnode !! 0%nat)) in
    '(buffer, s) ← io_new s 1024;
    '(_, s) ← io_read s addr_of_dir_info buffer 1024;
    match kvector_at path i with
    | None => Fault
    | Some name =>
      '(cnode, s) ← find_inode_from_direntries fuel e s buffer name;
      if negb (is_valid cnode) then Ok (invalid_inode e, s)
      else path_loop n' fuel e s path (i + 1) cnode
    end
  end.

(** [ext2_inode get_inode_path(kvector<kstring> path)]. *)
Definition get_inode_path (fuel : nat) (e : ext2) (s : S) (path : kvector) : res (ext2_inode * S) :=
  path_loop (Z.to_nat (kvector_length path)) fuel e s path 0 (root_inode e).

(** [void read_block(u32_t block_index,u8_t *buffer)]. *)
Definition read_block (e : ext2) (s : S) (block_index buffer : Z) : res S :=
  '(_, s) ← io_read s (block_index2addr e block_index) buffer (block_size e);
  Ok s.

(** [((u32_t * )buffer)[i]] as an [int] that is passed on as [u32_t]. *)
Definition entry (s : S) (buffer i : Z) : Z := get32 (byte s) (buffer + 4 * i).

(** [bool read_block_pos(u32_t pos,void *dbuffer,ext2_inode inode)]. *)
Definition read_block_pos (e : ext2) (s : S) (pos buffer : Z) (node : ext2_inode) : res (bool * S) :=
  if block_size e =? 0 then Fault else
  let accessblock := s32 (pos / block_size e) in
  if i_size node <? u32 (pos + block_size e) then Ok (false, s) else
  let nr_entry := s32 (block_size e / 4) in
  let maxnr_dir_block := 12 in
  let maxnr_Ind_block := s32 (12 + nr_entry) in
  let maxnr_Dind_block := s32 (maxnr_Ind_block + nr_entry * nr_entry) in
  let maxnr_Tind_block := s32 (maxnr_Dind_block + nr_entry * nr_entry * nr_entry) in
  let blk i := default 0 (i_block node !! Z.to_nat i) in
  if accessblock <? maxnr_dir_block then
    s ← read_block e s (blk accessblock) buffer;
    Ok (true, s)
  else if accessblock <? maxnr_Ind_block then
    s ← read_block e s (blk EXT2_IND_BLOCK) buffer;
    s ← read_block e s (entry s buffer (accessblock - maxnr_dir_block)) buffer;
    Ok (true, s)
  else if accessblock <? maxnr_Dind_block then
    s ← read_block e s (blk EXT2_DIND_BLOCK) buffer;
    s ← read_block e s (entry s buffer (Z.quot (accessblock - maxnr_Ind_block) nr_entry)) buffer;
    s ← read_block e s (entry s buffer (Z.rem (accessblock - maxnr_Ind_block) nr_entry)) buffer;
    Ok (true, s)
  else if accessblock <? maxnr_Tind_block then
    s ← read_block e s (blk EXT2_TIND_BLOCK) buffer;
    s ← read_block e s (entry s buffer (Z.quot (accessblock - maxnr_Dind_block) (s32 (nr_entry * nr_entry)))) buffer;
    s ← read_block e s (entry s buffer (Z.rem (Z.quot (accessblock - maxnr_Dind_block) nr_entry) nr_entry)) buffer;
    s ← read_block e s (entry s buffer (Z.rem (accessblock - maxnr_Dind_block) nr_entry)) buffer;
    Ok (true, s)
  else Ok (true, s).

(** [Ext2(Ata *ata)]; the members that are not assigned are [uninit]. *)
Definition Ext2_new (s : S) (uninit : ext2_inode) : res (ext2 * S) :=
  '(sb, s) ← io_new s sizeof_super_block;
  '(_, s) ← io_read s (first_blockaddr + 1024) sb sizeof_super_block;
  let bs := sb_block_size (byte s) sb in
  let isz := s_inode_size (byte s) sb in
  '(gd, s) ← io_new s sizeof_group_desc;
  '(_, s) ← io_read s (first_blockaddr + 1024 + 1024) gd sizeof_group_desc;
  let e := mkExt2 sb (ext2_inode_new uninit) (ext2_inode_new uninit) isz bs (ext2_inode_new uninit) in
  '(root, s) ← get_inode e s 2;
  Ok (mkExt2 sb root (current_inode e) isz bs (invalid_inode e), s).

End ext2.

(** ** Specification: files on the disk *)

Section layout.
Context (d : Z → Z) (bs : Z).

(** Address of disk block [b]. *)
Definition baddr (b : Z) : Z := first_blockaddr + b * bs.

(** Entry [i] of the block of block numbers [b]. *)
Definition ent (b i : Z) : Z := get32 d (baddr b + 4 * i).

(** Number of entries of a block. *)
Definition nent : Z := bs / 4.

(** The block reached from [b] through [level] blocks of block numbers, for the
    block number [i] below it. *)
Fixpoint tree (level : nat) (b i : Z) : Z :=
  match level with
  | O => b
  | S l => tree l (ent b (i / nent ^ Z.of_nat l)) (i `mod` nent ^ Z.of_nat l)
  end.

(** All blocks on this way are in front of [limit]. *)
Fixpoint tree_in (limit : Z) (level : nat) (b i : Z) : Prop :=
  0 ≤ b ∧ baddr b + bs ≤ limit ∧
  match level with
  | O => True
  | S l => tree_in limit l (ent b (i / nent ^ Z.of_nat l)) (i `mod` nent ^ Z.of_nat l)
  end.

Definition iblock (n : ext2_inode) (i : Z) : Z := default 0 (i_block n !! Z.to_nat i).

(** Where block [i] of a file is found: the level, the entry of the inode and the
    number below it. *)
Definition place (i : Z) : nat * Z * Z :=
  if i <? 12 then (0%nat, i, 0)
  else if i <? 12 + nent then (1%nat, EXT2_IND_BLOCK, i - 12)
  else if i <? 12 + nent + nent ^ 2 then (2%nat, EXT2_DIND_BLOCK, i - (12 + nent))
  else (3%nat, EXT2_TIND_BLOCK, i - (12 + nent + nent ^ 2)).

(** The disk block that holds block [i] of the file [n]. *)
Definition bmap (n : ext2_inode) (i : Z) : Z :=
  let '(level, slot, r) := place i in tree level (iblock n slot) r.

Definition bmap_in (limit : Z) (n : ext2_inode) (i : Z) : Prop :=
  let '(level, slot, r) := place i in tree_in limit level (iblock n slot) r.

(** Byte [x] of the file. *)
Definition file_byte (n : ext2_inode) (x : Z) : Z := d (baddr (bmap n (x / bs)) + x `mod` bs).

(** Every whole block of the first [len] bytes is on the disk. *)
Definition file_in (limit : Z) (n : ext2_inode) (len : Z) : Prop :=
  ∀ i, 0 ≤ i → (i + 1) * bs ≤ len → bmap_in limit n i.

Section levels.
Context (Hn : 0 < nent).

Lemma digits_2 i : 0 ≤ i → (i `mod` nent ^ 2) / nent = (i / nent) `mod` nent ∧
  (i `mod` nent ^ 2) `mod` nent = i `mod` nent.
Proof.
  intros Hi. rewrite Z.pow_2_r, Z.rem_mul_r by lia.
  rewrite (Z.mul_comm nent), Z.div_add, Z.mod_add, Z.mod_mod by lia.
  rewrite (Z.div_small (i `mod` nent)) by (apply Z.mod_pos_bound; lia). lia.
Qed.

Lemma tree_in_1 limit b i : tree_in limit 1 b i ↔
  (0 ≤ b ∧ baddr b + bs ≤ limit) ∧ 0 ≤ ent b i ∧ baddr (ent b i) + bs ≤ limit.
Proof. cbn [tree_in]. change (nent ^ Z.of_nat 0) with 1. rewrite Z.div_1_r. tauto. Qed.

Lemma tree_1 b i : tree 1 b i = ent b i.
Proof. cbn [tree]. change (nent ^ Z.of_nat 0) with 1. by rewrite Z.div_1_r. Qed.

Lemma tree_in_2 limit b i : tree_in limit 2 b i ↔
  (0 ≤ b ∧ baddr b + bs ≤ limit) ∧ tree_in limit 1 (ent b (i / nent)) (i `mod` nent).
Proof.
  unfold tree_in at 1. fold (tree_in limit 1). change (Z.of_nat 1) with 1. rewrite Z.pow_1_r.
  cbn [tree_in]. tauto.
Qed.

Lemma tree_2 b i : tree 2 b i = tree 1 (ent b (i / nent)) (i `mod` nent).
Proof. cbn [tree]. change (Z.of_nat 1) with 1. by rewrite Z.pow_1_r. Qed.

Lemma tree_3 b i : 0 ≤ i →
  tree 3 b i = tree 1 (ent (ent b (i / nent ^ 2)) ((i / nent) `mod` nent)) (i `mod` nent).
Proof.
  intros Hi. change (tree 3 b i) with (tree 2 (ent b (i / nent ^ 2)) (i `mod` nent ^ 2)).
  rewrite tree_2. by destruct (digits_2 i Hi) as [-> ->].
Qed.

Lemma tree_in_3 limit b i : 0 ≤ i → tree_in limit 3 b i ↔
  (0 ≤ b ∧ baddr b + bs ≤ limit) ∧
  (0 ≤ ent b (i / nent ^ 2) ∧ baddr (ent b (i / nent ^ 2)) + bs ≤ limit) ∧
  tree_in limit 1 (ent (ent b (i / nent ^ 2)) ((i / nent) `mod` nent)) (i `mod` nent).
Proof.
  intros Hi.
  assert (E : tree_in limit 3 b i ↔
    (0 ≤ b ∧ baddr b + bs ≤ limit) ∧ tree_in limit 2 (ent b (i / nent ^ 2)) (i `mod` nent ^ 2)).
  { cbn [tree_in]. change (Z.of_nat 2) with 2. tauto. }
  rewrite E, tree_in_2. by destruct (digits_2 i Hi) as [-> ->].
Qed.

End levels.
End layout.

Section reading.
Context {S : Type} {KI : KernelIO S} {KS : KernelIOSpec S}.
Context (σ : static) (e : ext2).
Implicit Types s : S.

Definition size_ok : Prop := block_size e = 1024 ∨ block_size e = 2048 ∨ block_size e = 4096.
Context (Hbs : size_ok).

Abbreviation bs := (block_size e).
Abbreviation nbs := (Z.to_nat (block_size e)).

Lemma block_index2addr_ok b : 0 ≤ b → baddr bs b ≤ dlimit σ → dlimit σ < 2147483648 →
  block_index2addr e b = baddr bs b.
Proof.
  intros H0 H1 H2. unfold block_index2addr, baddr, first_blockaddr in *.
  rewrite (u32_id (b * bs)), u32_id; destruct Hbs as [E|[E|E]]; rewrite E in *; unfold is_u32; lia.
Qed.

(** The buffer at [p + o] holds disk block [b]. *)
Definition loaded s0 s Hp B T p (o : nat) bs0 b : Prop :=
  keeps σ s0 s ∧ kheap s σ (<[p := splice o (dbytes σ (baddr bs b) nbs) bs0]> Hp) B T.

Lemma read_block_ok s Hp B T p (o : nat) bs0 b : kheap s σ Hp B T → Hp !! p = Some bs0 →
  (o + nbs ≤ length bs0)%nat → cost (bs + 1024) ≤ B → 0 ≤ b → baddr bs b + bs ≤ dlimit σ →
  ∃ s', read_block e s b (p + Z.of_nat o) = Ok s' ∧ loaded s s' Hp B T p o bs0 b.
Proof.
  intros HK E Ho Hc Hb Hl. pose proof (kheap_dlimit _ _ _ _ _ HK) as Hd.
  unfold read_block. rewrite block_index2addr_ok by (try done; destruct Hbs as [Eb|[Eb|Eb]]; rewrite Eb in *; lia).
  assert (Hn : Z.of_nat nbs = bs) by (destruct Hbs as [Eb|[Eb|Eb]]; rewrite Eb; lia).
  destruct (kheap_read s σ Hp B T p bs0 o nbs (baddr bs b)) as (s' & Er & Hk & HK'); try done; rewrite ?Hn; try lia.
  - destruct Hbs as [Eb|[Eb|Eb]]; rewrite Eb; lia.
  - unfold baddr, first_blockaddr. destruct Hbs as [Eb|[Eb|Eb]]; rewrite Eb; lia.
  - rewrite Hn in Er. rewrite Er. cbn [mbind res_bind]. exists s'. by split.
Qed.

Lemma entry_loaded s0 s Hp B T p (o : nat) bs0 b i : loaded s0 s Hp B T p o bs0 b →
  (o + nbs ≤ length bs0)%nat → 0 ≤ i < nent bs → entry s (p + Z.of_nat o) i = ent (dbyte σ) bs b i.
Proof.
  intros [_ HK] Ho Hi. unfold entry, ent.
  assert (Hb : ∀ j, 0 ≤ j < bs → load8 (io_mem s) (p + Z.of_nat o + j) = dbyte σ (baddr bs b + j)).
  { intros j Hj. replace (p + Z.of_nat o + j) with (p + Z.of_nat (o + Z.to_nat j)) by lia.
    eapply kheap_byte; [exact HK|apply lookup_insert_eq|].
    rewrite splice_in by (unfold dbytes; rewrite bytes_of_length; lia).
    unfold dbytes. rewrite bytes_of_lookup by lia. do 2 f_equal. lia. }
  apply get32_ext. intros j Hj. rewrite <- !Z.add_assoc, (Z.add_assoc p). apply Hb.
  unfold nent in Hi. Z.div_mod_to_equations; lia.
Qed.

(** Following an entry of a loaded block. *)
Lemma read_entry s0 s Hp B T p (o : nat) bs0 b i : loaded s0 s Hp B T p o bs0 b → 
  (o + nbs ≤ length bs0)%nat → cost (bs + 1024) ≤ B → 0 ≤ i < nent bs →
  0 ≤ ent (dbyte σ) bs b i → baddr bs (ent (dbyte σ) bs b i) + bs ≤ dlimit σ →
  ∃ s', read_block e s (entry s (p + Z.of_nat o) i) (p + Z.of_nat o) = Ok s' ∧
    loaded s0 s' Hp B T p o bs0 (ent (dbyte σ) bs b i).
Proof.
  intros HL Ho Hc Hi Hb Hr. rewrite (entry_loaded _ _ _ _ _ _ _ _ _ _ HL) by done.
  destruct HL as [Hk HK]. assert (Hd : ∀ a, length (dbytes σ a nbs) = nbs) by (intros; apply bytes_of_length).
  destruct (read_block_ok s _ B T p o _ _ HK (lookup_insert_eq _ _ _)
             ltac:(by rewrite splice_length by by rewrite Hd) Hc Hb Hr) as (s' & E & Hk' & HK').
  exists s'. split; [done|]. split; [by eapply keeps_trans|].
  rewrite insert_insert_eq, splice_splice in HK' by (rewrite ?Hd; lia). done.
Qed.

(** The sizes of [read_block_pos] do not overflow. *)
Lemma sizes_ok : 256 ≤ nent bs ≤ 1024 ∧ nent bs * 4 = bs ∧ s32 (bs / 4) = nent bs ∧ s32 (12 + nent bs) = 12 + nent bs ∧
  s32 (12 + nent bs + nent bs * nent bs) = 12 + nent bs + nent bs ^ 2 ∧ s32 (nent bs * nent bs) = nent bs ^ 2 ∧
  4194304 ≤ s32 (12 + nent bs + nent bs ^ 2 + nent bs * nent bs * nent bs) ∧ bs ≠ 0.
Proof. unfold nent. destruct Hbs as [->|[->| ->]]; vm_compute; split_and!; done. Qed.

Section buffer.
Context (s : S) (Hp : gmap Z (list Z)) (B : Z) (T : option (Z * Z)) (p : Z) (o : nat) (bs0 : list Z).
Context (HK : kheap s σ Hp B T) (E : Hp !! p = Some bs0) (Ho : (o + nbs ≤ length bs0)%nat).
Context (Hc : cost (bs + 1024) ≤ B).

Abbreviation buffer := (p + Z.of_nat o).
Abbreviation disk_has b := (loaded s b Hp B T p o bs0).

(** The three ways through blocks of block numbers. *)
Lemma read_ind b i : 0 ≤ i < nent bs → tree_in (dbyte σ) bs (dlimit σ) 1 b i →
  ∃ s', (s1 ← read_block e s b buffer; s2 ← read_block e s1 (entry s1 buffer i) buffer; Ok (true, s2)) =
      Ok (true, s') ∧ disk_has s' (tree (dbyte σ) bs 1 b i).
Proof.
  intros Hi ((Hb & Hr) & Hb1 & Hr1)%tree_in_1. rewrite tree_1.
  destruct (read_block_ok s Hp B T p o bs0 b HK E Ho Hc Hb Hr) as (s1 & -> & HL1). cbn [mbind res_bind].
  destruct (read_entry _ _ _ _ _ _ _ _ _ i HL1 Ho Hc Hi Hb1 Hr1) as (s2 & -> & HL2). by exists s2.
Qed.

Lemma read_dind b i : 0 ≤ i < nent bs ^ 2 → 0 < nent bs → tree_in (dbyte σ) bs (dlimit σ) 2 b i →
  ∃ s', (s1 ← read_block e s b buffer; s2 ← read_block e s1 (entry s1 buffer (i / nent bs)) buffer;
         s3 ← read_block e s2 (entry s2 buffer (i `mod` nent bs)) buffer; Ok (true, s3)) =
      Ok (true, s') ∧ disk_has s' (tree (dbyte σ) bs 2 b i).
Proof.
  intros Hi Hn ((Hb & Hr) & ((Hb1 & Hr1) & Hb2 & Hr2)%tree_in_1)%tree_in_2. rewrite tree_2, tree_1.
  assert (Hq : 0 ≤ i / nent bs < nent bs) by (split; [apply Z.div_pos|apply Z.div_lt_upper_bound]; nia).
  pose proof (Z.mod_pos_bound i (nent bs) Hn) as Hm.
  destruct (read_block_ok s Hp B T p o bs0 b HK E Ho Hc Hb Hr) as (s1 & -> & HL1). cbn [mbind res_bind].
  destruct (read_entry _ _ _ _ _ _ _ _ _ _ HL1 Ho Hc Hq Hb1 Hr1) as (s2 & -> & HL2). cbn [mbind res_bind].
  destruct (read_entry _ _ _ _ _ _ _ _ _ _ HL2 Ho Hc Hm Hb2 Hr2) as (s3 & -> & HL3). by exists s3.
Qed.

Lemma read_tind b i : 0 ≤ i < nent bs ^ 3 → 0 < nent bs → tree_in (dbyte σ) bs (dlimit σ) 3 b i →
  ∃ s', (s1 ← read_block e s b buffer; s2 ← read_block e s1 (entry s1 buffer (i / nent bs ^ 2)) buffer;
         s3 ← read_block e s2 (entry s2 buffer ((i / nent bs) `mod` nent bs)) buffer;
         s4 ← read_block e s3 (entry s3 buffer (i `mod` nent bs)) buffer; Ok (true, s4)) =
      Ok (true, s') ∧ disk_has s' (tree (dbyte σ) bs 3 b i).
Proof.
  intros Hi Hn Hin. apply tree_in_3 in Hin as ((Hb & Hr) & (Hb1 & Hr1) & Hin); [|lia|lia].
  apply tree_in_1 in Hin as ((Hb2 & Hr2) & Hb3 & Hr3). rewrite tree_3, tree_1 by lia.
  assert (Hq : 0 ≤ i / nent bs ^ 2 < nent bs) by (split; [apply Z.div_pos|apply Z.div_lt_upper_bound]; nia).
  pose proof (Z.mod_pos_bound i (nent bs) Hn) as Hm.
  pose proof (Z.mod_pos_bound (i / nent bs) (nent bs) Hn) as Hm2.
  destruct (read_block_ok s Hp B T p o bs0 b HK E Ho Hc Hb Hr) as (s1 & -> & HL1). cbn [mbind res_bind].
  destruct (read_entry _ _ _ _ _ _ _ _ _ _ HL1 Ho Hc Hq Hb1 Hr1) as (s2 & -> & HL2). cbn [mbind res_bind].
  destruct (read_entry _ _ _ _ _ _ _ _ _ _ HL2 Ho Hc Hm2 Hb2 Hr2) as (s3 & -> & HL3). cbn [mbind res_bind].
  destruct (read_entry _ _ _ _ _ _ _ _ _ _ HL3 Ho Hc Hm Hb3 Hr3) as (s4 & -> & HL4). by exists s4.
Qed.

(** [read_block_pos] finds the disk block that holds the position. *)
Lemma read_block_pos_spec pos node : 0 ≤ pos → pos + bs ≤ i_size node → i_size node < 4294967296 →
  bmap_in (dbyte σ) bs (dlimit σ) node (pos / bs) →
  ∃ s', read_block_pos e s pos buffer node = Ok (true, s') ∧ disk_has s' (bmap (dbyte σ) bs node (pos / bs)).
Proof.
  intros Hpos Hsz Hsz2 Hin. destruct sizes_ok as (HN & HN4 & E1 & E2 & E3 & E4 & E5 & Hnz).
  unfold read_block_pos. rewrite (proj2 (Z.eqb_neq bs 0)) by done.
  rewrite (u32_id (pos + bs)) by (unfold is_u32; lia). rewrite (proj2 (Z.ltb_ge _ _)) by lia.
  cbv zeta. rewrite E1, E2, E3, E4.
  assert (Ha : 0 ≤ pos / bs < 4194304) by (split; [apply Z.div_pos; lia|apply Z.div_lt_upper_bound; nia]).
  rewrite (s32_id (pos / bs)) by (unfold is_s32; lia). set (a := pos / bs) in *.
  unfold bmap, bmap_in, place in *. fold (iblock node a) (iblock node EXT2_IND_BLOCK)
    (iblock node EXT2_DIND_BLOCK) (iblock node EXT2_TIND_BLOCK).
  destruct (Z.ltb_spec a 12) as [L0|L0]; [|destruct (Z.ltb_spec a (12 + nent bs)) as [L1|L1];
    [|destruct (Z.ltb_spec a (12 + nent bs + nent bs ^ 2)) as [L2|L2]]].
  - destruct Hin as (Hb & Hr & _).
    destruct (read_block_ok s Hp B T p o bs0 _ HK E Ho Hc Hb Hr) as (s1 & -> & HL). by exists s1.
  - apply read_ind; [lia|done].
  - rewrite Z.quot_div_nonneg, Z.rem_mod_nonneg by lia. apply read_dind; [nia|lia|done].
  - rewrite (proj2 (Z.ltb_lt _ _)), !Z.quot_div_nonneg by lia.
    rewrite !Z.rem_mod_nonneg by (try apply Z.div_pos; lia). apply read_tind; [nia|lia|done].
Qed.

End buffer.
End reading.
(** ** Specification: inodes and directories *)

Section inodes.
Context (d : Z → Z) (bs : Z).

Definition sb_addr : Z := first_blockaddr + 1024.

(** Address of inode [i]: the table of its group, whose descriptor is in the block
    behind the super block. *)
Definition group_desc_addr (g : Z) : Z := first_blockaddr + (s_first_data_block d sb_addr + 1) * bs + 32 * g.

Definition inode_addr (i : Z) : Z :=
  let ipg := s_inodes_per_group d sb_addr in
  baddr bs (bg_inode_table d (group_desc_addr ((i - 1) / ipg))) + ((i - 1) `mod` ipg) * sizeof_inode.

Definition inode_at (i : Z) : ext2_inode := inode_of d (inode_addr i).

(** Inode [i] belongs to the first group and lies in front of [limit]. *)
Definition inode_in (limit i : Z) : Prop :=
  1 ≤ i ≤ s_inodes_per_group d sb_addr ∧ 0 ≤ bg_inode_table d (group_desc_addr 0) ∧ inode_addr i + 128 ≤ limit.

(** The entries of a directory from offset [o] of the block at [a] on: inode numbers
    and names. *)
Fixpoint entries_at (a o : Z) (es : list (Z * list Z)) : Prop :=
  match es with
  | [] => False
  | (ino, name) :: es' =>
    de_inode d (a + o) = ino ∧ de_name_len d (a + o) = Z.of_nat (length name) ∧
    bytes_of d (a + o + 8) (length name) = name ∧ name_ok name ∧
    8 + Z.of_nat (length name) ≤ de_rec_len d (a + o) ∧
    match es' with
    | [] => o + de_rec_len d (a + o) = 1024
    | _ => o + de_rec_len d (a + o) < 1024 ∧ entries_at a (o + de_rec_len d (a + o)) es'
    end
  end.

(** The first entry with the name. *)
Fixpoint dir_lookup (es : list (Z * list Z)) (name : list Z) : option Z :=
  match es with
  | [] => None
  | (ino, n) :: es => if decide (name = n) then Some ino else dir_lookup es name
  end.

(** The directory [n] has the entries [es], all in its first block. *)
Definition dir_of (limit : Z) (n : ext2_inode) (es : list (Z * list Z)) : Prop :=
  0 ≤ iblock n 0 ∧ baddr bs (iblock n 0) + 1024 ≤ limit ∧ entries_at (baddr bs (iblock n 0)) 0 es.

(** Walking along a path from the inode [n]; [None]: there is no such file. *)
Inductive walk (limit : Z) : ext2_inode → list (list Z) → option ext2_inode → Prop :=
| walk_end n : walk limit n [] (Some n)
| walk_not_dir n x l : is_directory n = false → walk limit n (x :: l) None
| walk_missing n x l es : is_directory n = true → dir_of limit n es → dir_lookup es x = None →
    walk limit n (x :: l) None
| walk_invalid n x l es i : is_directory n = true → dir_of limit n es → dir_lookup es x = Some i →
    inode_in limit i → is_valid (inode_at i) = false → walk limit n (x :: l) None
| walk_step n x l es i r : is_directory n = true → dir_of limit n es → dir_lookup es x = Some i →
    inode_in limit i → is_valid (inode_at i) = true → walk limit (inode_at i) l r → walk limit n (x :: l) r.

(** A file found behind at least one name is valid. *)
Lemma walk_valid limit n x l m : walk limit n (x :: l) (Some m) → is_valid m = true.
Proof.
  assert (Hgen : ∀ n l r, walk limit n l r → l ≠ [] → ∀ m, r = Some m → is_valid m = true); [|by eauto].
  clear. induction 1 as [| | | |n x l es i r Hd Hes Hlk Hin Hv Hw IH]; intros Hne m Er; try done.
  destruct l as [|z l]; [|by apply IH]. inversion Hw; subst. by simplify_eq.
Qed.

End inodes.

Lemma inode_of_ext f g p q : (∀ j, 0 ≤ j < 128 → f (p + j) = g (q + j)) → inode_of f p = inode_of g q.
Proof.
  intros E. assert (E16 : ∀ o, 0 ≤ o → o + 2 ≤ 128 → get16 f (p + o) = get16 g (q + o)).
  { intros o H1 H2. apply get16_ext. intros j Hj. rewrite <- !Z.add_assoc. apply E. lia. }
  assert (E32 : ∀ o, 0 ≤ o → o + 4 ≤ 128 → get32 f (p + o) = get32 g (q + o)).
  { intros o H1 H2. apply get32_ext. intros j Hj. rewrite <- !Z.add_assoc. apply E. lia. }
  pose proof (E16 0) as E0. rewrite !Z.add_0_r in E0.
  unfold inode_of. f_equal; try (apply E16; lia); try (apply E32; lia); [apply E0; lia| |].
  - apply list_fmap_ext. intros i j [-> Hj]%lookup_seq. rewrite <- !Z.add_assoc. apply E32; lia.
  - apply list_fmap_ext. intros i j [-> Hj]%lookup_seq. rewrite <- !Z.add_assoc. apply E32; lia.
Qed.

Section lookup.
Context {S : Type} {KI : KernelIO S} {KS : KernelIOSpec S}.
Context (σ : static) (e : ext2).
Implicit Types s : S.

Abbreviation d := (dbyte σ).
Abbreviation bs := (block_size e).

(** The object was made by [Ext2_new] from the disk: its copy of the super block, its
    block size, its root; the descriptors are where the code looks for them. *)
Record mounted (Hp : gmap Z (list Z)) : Prop := {
  mt_size : size_ok e;
  mt_super : Hp !! super_block e = Some (dbytes σ sb_addr 1024);
  mt_desc : (s_first_data_block d sb_addr + 1) * bs = 2048;
  mt_limit : first_blockaddr + 4096 ≤ dlimit σ;
  mt_invalid : is_valid (invalid_inode e) = false
}.

Lemma super_field s Hp B T o : kheap s σ Hp B T → mounted Hp → 0 ≤ o → o + 4 ≤ 1024 →
  get32 (load8 (io_mem s)) (super_block e + o) = get32 d (sb_addr + o).
Proof.
  intros HK Hm Ho Ho2. apply get32_ext. intros j Hj. rewrite <- !Z.add_assoc.
  replace (o + j) with (Z.of_nat (Z.to_nat (o + j))) by lia. eapply kheap_byte; [exact HK|apply Hm|].
  unfold dbytes. rewrite bytes_of_lookup by lia. done.
Qed.

Lemma d_range x : 0 ≤ d x < 256.
Proof. apply dbyte_range. Qed.

(** Reading [n] bytes of the disk into a new block. *)
Lemma new_and_read s Hp B T n pos : kheap s σ Hp B T → 0 < n ≤ 65536 → cost n + cost (n + 1024) ≤ B → 0 ≤ pos →
  pos + n ≤ dlimit σ → ∃ p s1 s2, io_new s n = Ok (p, s1) ∧ io_read s1 pos p n = Ok (n, s2) ∧
    Hp !! p = None ∧ keeps σ s s2 ∧ kheap s2 σ (<[p := dbytes σ pos (Z.to_nat n)]> Hp) (B - cost n) None.
Proof.
  intros HK Hn HB Hpos Hlim. assert (Hc : 0 ≤ cost n ∧ 0 ≤ cost (n + 1024)) by (unfold cost; Z.div_mod_to_equations; lia).
  destruct (kheap_new s σ Hp B T n HK ltac:(lia) ltac:(lia)) as (p & s1 & E1 & Hp0 & HK1 & Hk1).
  destruct (kheap_read s1 σ _ _ _ p _ 0 (Z.to_nat n) pos HK1 (lookup_insert_eq _ _ _)) as (s2 & E2 & Hk2 & HK2);
    rewrite ?bytes_of_length, ?Z2Nat.id in * by lia; try lia.
  rewrite Z.add_0_r in E2. exists p, s1, s2. split_and!; try done; [by eapply keeps_trans|].
  rewrite insert_insert_eq, splice_all in HK2 by (unfold dbytes; by rewrite !bytes_of_length).
  eapply kheap_weaken; [|exact HK2]. lia.
Qed.

(** What [get_inode] takes from the heap: its two buffers are never released. *)
Definition inode_cost : Z := cost 32 + cost 128.

Lemma new_inode_spec s Hp B T : kheap s σ Hp B T → cost 128 ≤ B →
  ∃ q s' raw, new_inode s = Ok (q, s') ∧ Hp !! q = None ∧ keeps σ s s' ∧ length raw = 128%nat ∧
    kheap s' σ (<[q := raw]> Hp) (B - cost 128) None.
Proof.
  intros HK HB. unfold new_inode, sizeof_inode.
  destruct (kheap_new s σ _ _ _ 128 HK ltac:(lia) HB) as (q & s1 & -> & Hq0 & HK1 & Hk1). cbn [mbind res_bind].
  set (m := store16 (io_mem s1) q FT_UNKNOWN).
  destruct (kheap_write s1 σ _ _ _ q _ (bytes_of (load8 m) q 128) m HK1 (lookup_insert_eq _ _ _)) as [HK2 Hk2];
    rewrite ?bytes_of_length; try done.
  { intros x Hx. unfold m, store16. rewrite !load8_store8, !decide_False by lia. done. }
  { intros j b Hj. pose proof (lookup_lt_Some _ _ _ Hj) as Hl. rewrite bytes_of_length in Hl.
    rewrite bytes_of_lookup in Hj by done. by injection Hj. }
  rewrite insert_insert_eq in HK2. eexists q, _, _. split_and!; [reflexivity|done|by eapply keeps_trans|apply bytes_of_length|].
  eapply kheap_weaken; [|exact HK2]. lia.
Qed.

Lemma read_inode_spec s Hp B T q raw pos : kheap s σ Hp B T → Hp !! q = Some raw → length raw = 128%nat → 0 ≤ pos →
  pos + 128 ≤ dlimit σ → cost 1152 ≤ B →
  ∃ s', io_read s pos q 128 = Ok (128, s') ∧ keeps σ s s' ∧ inode_of (load8 (io_mem s')) q = inode_of d pos ∧
    kheap s' σ (<[q := dbytes σ pos 128]> Hp) B T.
Proof.
  intros HK Hq Hr Hpos Hlim HB.
  destruct (kheap_read s σ _ _ _ q _ 0 128 pos HK Hq) as (s1 & E1 & Hk1 & HK1); try lia;
    try (change (cost (Z.of_nat 128 + 1024)) with (cost 1152); lia).
  rewrite Z.add_0_r in E1. rewrite splice_all in HK1 by (unfold dbytes; by rewrite !bytes_of_length).
  exists s1. split_and!; [exact E1|done| |done].
  apply inode_of_ext. intros j Hj. replace j with (Z.of_nat (Z.to_nat j)) at 1 by lia.
  eapply kheap_byte; [exact HK1|apply lookup_insert_eq|]. unfold dbytes. rewrite bytes_of_lookup by lia. do 2 f_equal. lia.
Qed.

(** The address [get_inode] computes. *)
Lemma inode_addr_ok Hp i : mounted Hp → inode_in d bs (dlimit σ) i → dlimit σ < 2147483648 →
  u32 (block_index2addr e (bg_inode_table d (group_desc_addr d bs 0)) + (i - 1) * 128) = inode_addr d bs i ∧
  0 ≤ inode_addr d bs i.
Proof.
  intros Hm (Hi & Ht & Hlim) Hdl. unfold inode_addr in *. set (ipg := s_inodes_per_group _ _) in *.
  rewrite Z.div_small, Z.mod_small in Hlim |- * by lia. unfold sizeof_inode in *. set (t := bg_inode_table d _) in *.
  assert (Hbt : 0 ≤ t * bs) by (apply Z.mul_nonneg_nonneg; [done|destruct (mt_size _ Hm) as [->|[->| ->]]; lia]).
  unfold block_index2addr, baddr, first_blockaddr in *.
  rewrite (u32_id (t * bs)), (u32_id (_ + t * bs)), u32_id by (unfold is_u32; lia). lia.
Qed.

(** [get_inode] returns the inode on the disk. *)
Lemma get_inode_spec s Hp B T i : kheap s σ Hp B T → mounted Hp → inode_in d bs (dlimit σ) i →
  inode_cost + cost 1152 ≤ B →
  ∃ s', get_inode e s i = Ok (inode_at d bs i, s') ∧ keeps σ s s' ∧ kheap s' σ Hp (B - inode_cost) None.
Proof.
  intros HK Hm Hin HB. pose proof (kheap_dlimit _ _ _ _ _ HK) as Hdl.
  destruct (inode_addr_ok Hp i Hm Hin Hdl) as [Haddr Hpos]. destruct Hin as (Hi & Ht & Hlim).
  assert (Hc : inode_cost = 176 ∧ cost 1152 = 1160 ∧ cost 32 = 40 ∧ cost 128 = 136 ∧ cost (32 + 1024) = 1064) by done.
  unfold get_inode, s_inodes_per_group, s_blocks_per_group.
  rewrite (super_field _ _ _ _ 40 HK Hm) by lia. fold (s_inodes_per_group d sb_addr).
  pose proof (get32_range d (sb_addr + 40) d_range) as Hr. fold (s_inodes_per_group d sb_addr) in Hr.
  set (ipg := s_inodes_per_group d sb_addr) in *. rewrite (proj2 (Z.eqb_neq ipg 0)) by lia.
  unfold is_u32 in Hr. rewrite (u32_id (i - 1)), Z.div_small, Z.mod_small, !Z.mul_0_l by (unfold is_u32; lia).
  change (u32 (first_blockaddr + u32 0 + group_desc_offset)) with (first_blockaddr + 2048).
  pose proof (mt_limit _ Hm) as Hml.
  destruct (new_and_read s Hp B T 32 (first_blockaddr + 2048) HK) as (p & s1 & s2 & E1 & E2 & Hp0 & Hk2 & HK2);
    try (unfold first_blockaddr in *; lia).
  unfold sizeof_group_desc. rewrite E1. cbn [mbind res_bind]. rewrite E2. cbn [mbind res_bind].
  destruct (new_inode_spec s2 _ _ _ HK2 ltac:(lia)) as (q & s3 & raw & -> & Hq0 & Hk3 & Hraw & HK3). cbn [mbind res_bind].
  apply lookup_insert_None in Hq0 as [Hq0 Hpq].
  assert (Etab : bg_inode_table (load8 (io_mem s3)) p = bg_inode_table d (group_desc_addr d bs 0)).
  { unfold bg_inode_table. apply get32_ext. intros j Hj. rewrite <- !Z.add_assoc.
    replace (8 + j) with (Z.of_nat (Z.to_nat (8 + j))) at 1 by lia.
    eapply kheap_byte; [exact HK3|rewrite lookup_insert_ne by done; apply lookup_insert_eq|].
    unfold dbytes. rewrite bytes_of_lookup by lia. do 2 f_equal. unfold group_desc_addr.
    rewrite (mt_desc _ Hm). lia. }
  unfold sizeof_inode. rewrite Etab, Haddr.
  destruct (read_inode_spec s3 _ _ _ q raw (inode_addr d bs i) HK3 (lookup_insert_eq _ _ _)) as (s4 & -> & Hk4 & Ein & HK4);
    try done; [lia|].
  cbn [mbind res_bind]. rewrite Ein. exists s4. split_and!; [done|by do 2 (eapply keeps_trans; [eassumption|])|].
  rewrite insert_insert_eq in HK4.
  apply (kheap_drop _ _ _ _ _ q) in HK4. rewrite delete_insert_id in HK4 by by apply lookup_insert_None.
  apply (kheap_drop _ _ _ _ _ p) in HK4. rewrite delete_insert_id in HK4 by done.
  eapply kheap_weaken; [|exact HK4]. lia.
Qed.

(** ** Directories *)

(** The block of a directory lies in the buffer: its bytes are those of the disk. *)
Lemma buffer_byte s Hp B T buf a x : kheap s σ Hp B T → Hp !! buf = Some (dbytes σ a 1024) → 0 ≤ x < 1024 →
  load8 (io_mem s) (buf + x) = d (a + x).
Proof.
  intros HK E Hx. replace x with (Z.of_nat (Z.to_nat x)) by lia. eapply kheap_byte; [exact HK|exact E|].
  unfold dbytes. rewrite bytes_of_lookup by lia. done.
Qed.

Lemma buffer_source s Hp B T buf a o n : kheap s σ Hp B T → Hp !! buf = Some (dbytes σ a 1024) → 0 ≤ o →
  o + Z.of_nat n ≤ 1024 → source σ s Hp (buf + o) (bytes_of d (a + o) n).
Proof.
  intros HK E Ho Hn. replace (buf + o) with (buf + Z.of_nat (Z.to_nat o)) by lia. eapply source_block; [exact HK|exact E|].
  intros i b Hi. pose proof (lookup_lt_Some _ _ _ Hi) as Hl. rewrite bytes_of_length in Hl.
  rewrite bytes_of_lookup in Hi by done. injection Hi as <-. unfold dbytes. rewrite bytes_of_lookup by lia. do 2 f_equal. lia.
Qed.

(** What the search in a directory takes from the heap when it finds the name. *)
Definition find_cost : Z := elem_cost + inode_cost.

(** The members of the directory entry at offset [o], read from the buffer. *)
Lemma entry_fields s Hp B T buf a o : kheap s σ Hp B T → Hp !! buf = Some (dbytes σ a 1024) → 0 ≤ o → o + 8 ≤ 1024 →
  de_inode (load8 (io_mem s)) (buf + o) = de_inode d (a + o) ∧
  de_rec_len (load8 (io_mem s)) (buf + o) = de_rec_len d (a + o) ∧
  de_name_len (load8 (io_mem s)) (buf + o) = de_name_len d (a + o).
Proof.
  intros HK E Ho Ho2. unfold de_inode, de_rec_len, de_name_len. split_and!.
  - apply get32_ext. intros j Hj. rewrite <- !Z.add_assoc. eapply buffer_byte; try done. lia.
  - apply get16_ext. intros j Hj. rewrite <- !Z.add_assoc. eapply buffer_byte; try done. lia.
  - rewrite <- !Z.add_assoc. eapply buffer_byte; try done. lia.
Qed.

Section find.
Context (Hp : gmap Z (list Z)) (buf a : Z) (sf : kstring) (name : list Z).
Context (Hm : mounted Hp) (Hbuf : Hp !! buf = Some (dbytes σ a 1024)).
Context (Hsf : kstr Hp sf name) (Hname : name_ok name).

Lemma find_loop_spec es : ∀ fuel s B T o, kheap s σ Hp B T → entries_at d a o es → 0 ≤ o → (length es ≤ fuel)%nat →
  find_cost + cost 1152 ≤ B → (∀ i, dir_lookup es name = Some i → inode_in d bs (dlimit σ) i) →
  ∃ s', find_loop fuel e s buf (buf + o) sf =
      Ok (match dir_lookup es name with Some i => inode_at d bs i | None => invalid_inode e end, s') ∧
    keeps σ s s' ∧ kheap s' σ Hp (B - find_cost) None.
Proof.
  assert (Hfc : find_cost = 444 ∧ inode_cost = 176 ∧ cost 1152 = 1160) by done.
  induction es as [|[ino nm] es IH]; intros fuel s B T o HK He Ho Hf HB Hin; [done|].
  destruct fuel as [|fuel]; [cbn in Hf; lia|]. cbn [entries_at] in He.
  destruct He as (Eino & Enl & Enm & Hnm & Hrec & Hrest).
  assert (Hend : o + de_rec_len d (a + o) ≤ 1024) by (destruct es; lia).
  pose proof (kheap_range _ _ _ _ _ _ _ HK Hbuf) as Hrange. unfold dbytes in Hrange. rewrite bytes_of_length in Hrange.
  destruct (entry_fields _ _ _ _ _ _ o HK Hbuf Ho ltac:(lia)) as (_ & _ & El).
  cbn [find_loop]. unfold de_name. rewrite El, Enl.
  assert (Hsrc : source σ s Hp (buf + o + 8) nm).
  { rewrite <- Enm at 1. rewrite <- !Z.add_assoc. eapply buffer_source; try done; lia. }
  assert (Hcn : 0 ≤ cost (Z.of_nat (length nm) + 1) ≤ 268).
  { destruct Hnm as [_ Hl]. unfold cost. Z.div_mod_to_equations; lia. }
  destruct (kstring_len_spec σ s Hp B T _ nm HK Hnm Hsrc ltac:(lia)) as (k & s1 & -> & Ek & Hk0 & Hkn & Hk1 & HK1).
  cbn [mbind res_bind]. assert (Hkb : pstring k ≠ buf) by congruence.
  assert (Hks : kstr (<[pstring k := nm ++ [0]]> Hp) k nm) by (split; [done|exists []; apply lookup_insert_eq]).
  rewrite (kstring_eqb_spec σ s1 _ _ _ sf k name nm HK1 Hname Hnm (kstr_insert _ _ _ _ _ Hk0 Hsf) Hks).
  destruct (entry_fields _ _ _ _ buf a o HK1 ltac:(by rewrite lookup_insert_ne) Ho ltac:(lia)) as (-> & -> & _).
  cbn [dir_lookup] in *. unfold kstring_delete. rewrite (proj2 (Z.eqb_neq (pstring k) 0)) by done.
  assert (Hdel : delete (pstring k) (<[pstring k:=nm ++ [0]]> Hp) = Hp) by by apply delete_insert_id.
  destruct (decide (name = nm)) as [E|E].
  - rewrite bool_decide_eq_true_2 by done. rewrite Eino.
    assert (Hm1 : mounted (<[pstring k := nm ++ [0]]> Hp)).
    { destruct Hm. split; try done. rewrite lookup_insert_ne; [done|congruence]. }
    destruct (get_inode_spec s1 _ _ _ ino HK1 Hm1 (Hin _ eq_refl) ltac:(lia)) as (s2 & -> & Hk2 & HK2). cbn [mbind res_bind].
    destruct (kheap_delete s2 σ _ _ _ (pstring k) _ HK2 (lookup_insert_eq _ _ _)) as (s3 & -> & Hk3 & HK3); [done|].
    exists s3. split_and!; [done|by do 2 (eapply keeps_trans; [eassumption|])|].
    rewrite Hdel in HK3. eapply kheap_weaken; [|exact HK3]. lia.
  - rewrite bool_decide_eq_false_2 by done. cbn [negb].
    destruct (kheap_delete_newest s1 σ _ _ (pstring k) _ _ HK1 (lookup_insert_eq _ _ _)) as (s3 & -> & Hk3 & HK3).
    cbn [mbind res_bind]. rewrite Hdel in HK3. rewrite !u32_id by (unfold is_u32; lia).
    replace (B - cost (Z.of_nat (length nm) + 1) + cost (Z.of_nat (length nm) + 1)) with B in HK3 by lia.
    destruct es as [|en es].
    + rewrite (proj2 (Z.ltb_ge _ _)) by lia. exists s3. split_and!; [done|by eapply keeps_trans|].
      eapply kheap_weaken; [|exact HK3]. lia.
    + destruct Hrest as [Hlt Hrest]. rewrite (proj2 (Z.ltb_lt _ _)), <- Z.add_assoc by lia.
      destruct (IH fuel s3 B None (o + de_rec_len d (a + o)) HK3 Hrest) as (s4 & -> & Hk4 & HK4); try done; [lia|cbn in *; lia|].
      exists s4. split_and!; [done|by do 2 (eapply keeps_trans; [eassumption|])|done].
Qed.

End find.

(** Every entry takes at least eight bytes. *)
Lemma entries_at_length a es : ∀ o, entries_at d a o es → 8 * Z.of_nat (length es) ≤ 1024 - o.
Proof.
  induction es as [|[ino nm] es IH]; intros o He; [done|]. cbn [entries_at length] in *.
  destruct He as (_ & _ & _ & _ & Hrec & Hrest). destruct es as [|en es]; [cbn; lia|].
  destruct Hrest as [_ Hrest]. specialize (IH _ Hrest). cbn [length] in *. lia.
Qed.

(** What a step along a path takes from the heap: the block of the directory is not
    released. *)
Definition step_cost : Z := cost 1024 + find_cost.

Section path.
Context (Hp : gmap Z (list Z)) (path : kvector) (ls : list (list Z)) (fuel : nat).
Context (Hm : mounted Hp) (Hv : kvec Hp path ls) (Hok : Forall name_ok ls) (Hfuel : (128 ≤ fuel)%nat).

Lemma kvector_at_name (i : nat) x : ls !! i = Some x → ∃ k, kvector_at path (Z.of_nat i) = Some k ∧ kstr Hp k x.
Proof.
  intros Hi. destruct Hv as [_ _ _ [Hs _] [Hmax Hlen]]. destruct (Hs i x Hi) as (k & Hk & Hks). exists k. split; [|done].
  unfold kvector_at. pose proof (lookup_lt_Some _ _ _ Hi). rewrite (proj2 (Z.leb_gt _ _)) by lia. by rewrite Nat2Z.id.
Qed.

(** One name: the block of the directory is read and searched. *)
Lemma search_dir s B T cnode (i : nat) x es : kheap s σ Hp B T → ls !! i = Some x → dir_of d bs (dlimit σ) cnode es →
  (∀ ino, dir_lookup es x = Some ino → inode_in d bs (dlimit σ) ino) → step_cost + 2056 ≤ B →
  ∃ s1 s2 s3 buf k, io_new s 1024 = Ok (buf, s1) ∧
    io_read s1 (block_index2addr e (iblock cnode 0)) buf 1024 = Ok (1024, s2) ∧
    kvector_at path (Z.of_nat i) = Some k ∧
    find_inode_from_direntries fuel e s2 buf k =
      Ok (match dir_lookup es x with Some ino => inode_at d bs ino | None => invalid_inode e end, s3) ∧
    keeps σ s s3 ∧ kheap s3 σ Hp (B - step_cost) None.
Proof.
  intros HK Hi (Hb0 & Hbl & Hes) Hin HB. pose proof (kheap_dlimit _ _ _ _ _ HK) as Hdl.
  assert (Hc : step_cost = 1476 ∧ find_cost = 444 ∧ cost 1024 = 1032 ∧ cost (1024 + 1024) = 2056 ∧ cost 1152 = 1160) by done.
  assert (Hx : name_ok x) by (rewrite Forall_lookup in Hok; by eapply Hok).
  rewrite (block_index2addr_ok σ e (mt_size _ Hm)) by (done || lia).
  assert (Hbp : 0 ≤ baddr bs (iblock cnode 0)).
  { unfold baddr, first_blockaddr. destruct (mt_size _ Hm) as [->|[->| ->]]; lia. }
  destruct (new_and_read s Hp B T 1024 (baddr bs (iblock cnode 0)) HK) as (buf & s1 & s2 & E1 & E2 & Hb & Hk2 & HK2); try lia.
  destruct (kvector_at_name i x Hi) as (k & Ek & Hks).
  assert (Hm2 : mounted (<[buf := dbytes σ (baddr bs (iblock cnode 0)) (Z.to_nat 1024)]> Hp)).
  { destruct Hm. split; try done. rewrite lookup_insert_ne; [done|congruence]. }
  destruct (find_loop_spec _ buf (baddr bs (iblock cnode 0)) k x Hm2 (lookup_insert_eq _ _ _)
    (kstr_insert _ _ _ _ _ Hb Hks) Hx es fuel s2 _ None 0 HK2 Hes) as (s3 & E3 & Hk3 & HK3); try done; try lia.
  { pose proof (entries_at_length _ _ _ Hes). lia. }
  rewrite Z.add_0_r in E3. exists s1, s2, s3, buf, k. split_and!; try done; [by eapply keeps_trans|].
  apply (kheap_drop _ _ _ _ _ buf) in HK3. rewrite delete_insert_id in HK3 by done.
  eapply kheap_weaken; [|exact HK3]. lia.
Qed.

Lemma path_loop_spec l cnode r : walk d bs (dlimit σ) cnode l r → ∀ s B T (i : nat), kheap s σ Hp B T →
  (∀ j x, l !! j = Some x → ls !! (i + j)%nat = Some x) → step_cost * Z.of_nat (length l) + 2056 ≤ B →
  ∃ s', path_loop (length l) fuel e s path (Z.of_nat i) cnode =
      Ok (match r with Some n => n | None => invalid_inode e end, s') ∧ keeps σ s s' ∧
    kheap s' σ Hp (B - step_cost * Z.of_nat (length l)) None.
Proof.
  assert (Hc : step_cost = 1476) by done.
  induction 1 as [n|n x l Hd|n x l es Hd Hes Hlk|n x l es ino Hd Hes Hlk Hino Hval|n x l es ino r Hd Hes Hlk Hino Hval _ IH];
    intros s B T i HK Hsub HB; cbn [length path_loop].
  { exists s. split_and!; [done|done|]. eapply kheap_weaken; [|exact HK]. cbn. lia. }
  { rewrite Hd. exists s. split_and!; [done|done|]. eapply kheap_weaken; [|exact HK]. lia. }
  all: rewrite Hd; cbn [negb]; cbn [length] in HB; fold (iblock n 0).
  all: destruct (search_dir s B T n i x es HK) as (s1 & s2 & s3 & buf & k & E1 & E2 & E3 & E4 & Hk3 & HK3);
    [rewrite <- (Nat.add_0_r i); by apply (Hsub 0%nat)|done|rewrite Hlk; by intros ? [= <-]|lia|].
  all: rewrite E1; cbn [mbind res_bind]; change (block_index2addr e (default 0 (i_block n !! 0%nat)))
    with (block_index2addr e (iblock n 0)); rewrite E2; cbn [mbind res_bind]; rewrite E3, E4, Hlk; cbn [mbind res_bind].
  - rewrite (mt_invalid _ Hm). cbn [negb]. exists s3. split_and!; [done|done|]. eapply kheap_weaken; [|exact HK3]. lia.
  - rewrite Hval. cbn [negb]. exists s3. split_and!; [done|done|]. eapply kheap_weaken; [|exact HK3]. lia.
  - rewrite Hval. cbn [negb]. replace (Z.of_nat i + 1) with (Z.of_nat (Datatypes.S i)) by lia.
    destruct (IH s3 (B - step_cost) None (Datatypes.S i) HK3) as (s4 & -> & Hk4 & HK4).
    { intros j y Hj. rewrite Nat.add_succ_comm. by apply (Hsub (Datatypes.S j)). } { lia. }
    exists s4. split_and!; [done|by eapply keeps_trans|]. eapply kheap_weaken; [|exact HK4]. lia.
Qed.

End path.

End lookup.

(** ** Mounting *)

Section mount.
Context {S : Type} {KI : KernelIO S} {KS : KernelIOSpec S}.
Context (σ : static).
Implicit Types s : S.

Abbreviation d := (dbyte σ).
Abbreviation bs := (sb_block_size d sb_addr).

(** What the constructor relies on: an ext2 file system whose descriptors are behind
    the super block. *)
Record image_ok : Prop := {
  im_size : bs = 1024 ∨ bs = 2048 ∨ bs = 4096;
  im_desc : (s_first_data_block d sb_addr + 1) * bs = 2048;
  im_limit : first_blockaddr + 4096 ≤ dlimit σ;
  im_root : inode_in d bs (dlimit σ) 2
}.

Lemma Ext2_new_spec s Hp B T uninit : kheap s σ Hp B T → image_ok → 4000 ≤ B →
  ∃ e s' Hp', Ext2_new s uninit = Ok (e, s') ∧ keeps σ s s' ∧ kheap s' σ Hp' (B - 1248) None ∧ Hp ⊆ Hp' ∧
    mounted σ e Hp' ∧ block_size e = bs ∧ root_inode e = inode_at d bs 2.
Proof.
  intros HK [Hsz Hdesc Hlim Hroot] HB. unfold Ext2_new, sizeof_super_block, sizeof_group_desc.
  assert (Hc : cost 1024 = 1032 ∧ cost (1024 + 1024) = 2056 ∧ cost 32 = 40 ∧ cost (32 + 1024) = 1064 ∧
    inode_cost = 176 ∧ cost 1152 = 1160) by done.
  destruct (new_and_read σ s Hp B T 1024 sb_addr HK) as (sb & s1 & s2 & E1 & E2 & Hsb & Hk2 & HK2);
    try (unfold sb_addr, first_blockaddr in *; lia).
  rewrite E1. cbn [mbind res_bind]. fold sb_addr. rewrite E2. cbn [mbind res_bind].
  assert (Ebs : sb_block_size (load8 (io_mem s2)) sb = bs).
  { unfold sb_block_size, s_log_block_size. do 2 f_equal. f_equal. apply get32_ext. intros j Hj. rewrite <- !Z.add_assoc.
    replace (24 + j) with (Z.of_nat (Z.to_nat (24 + j))) at 1 by lia.
    eapply kheap_byte; [exact HK2|apply lookup_insert_eq|]. unfold dbytes. rewrite bytes_of_lookup by lia. do 2 f_equal. lia. }
  rewrite Ebs. set (isz := s_inode_size _ _).
  destruct (new_and_read σ s2 _ _ None 32 (sb_addr + 1024) HK2) as (gd & s3 & s4 & E3 & E4 & Hgd & Hk4 & HK4);
    try (unfold sb_addr, first_blockaddr in *; lia).
  rewrite E3. cbn [mbind res_bind]. rewrite E4. cbn [mbind res_bind].
  apply (kheap_drop _ _ _ _ _ gd) in HK4. rewrite delete_insert_id in HK4 by done.
  set (e0 := mkExt2 sb _ _ isz bs _). set (Hp' := <[sb := dbytes σ sb_addr (Z.to_nat 1024)]> Hp) in *.
  assert (Hm : ∀ root, mounted σ (mkExt2 sb root (current_inode e0) isz bs (invalid_inode e0)) Hp').
  { intros root. split; try done. cbn [super_block]. unfold Hp'. apply lookup_insert_eq. }
  destruct (get_inode_spec σ e0 s4 Hp' _ None 2 HK4 (Hm _) Hroot ltac:(lia)) as (s5 & -> & Hk5 & HK5). cbn [mbind res_bind].
  eexists _, s5, Hp'. split; [reflexivity|]. split_and!; try done.
  - by do 2 (eapply keeps_trans; [eassumption|]).
  - eapply kheap_weaken; [|exact HK5]. lia.
  - by apply insert_subseteq.
Qed.

End mount.
(** ** Theorems *)

Section theorems.
Context {S : Type} {KI : KernelIO S} {KS : KernelIOSpec S}.

(** C20: [read_block_pos] implements the ext2 block map. For a position whose whole
    block is inside of the file, through direct, indirect, doubly and triply indirect
    blocks, the call succeeds and the buffer receives the disk block that the
    reference definition [bmap] assigns to the position; other blocks of the heap and
    the memory outside of the heap do not change, and the heap is as before. *)
Theorem read_block_pos_correct (σ : static) (e : ext2) (s : S) Hp B T p (o : nat) bs0 pos node :
  size_ok e → kheap s σ Hp B T → Hp !! p = Some bs0 → (o + Z.to_nat (block_size e) ≤ length bs0)%nat →
  cost (block_size e + 1024) ≤ B → 0 ≤ pos → pos + block_size e ≤ i_size node → i_size node < 4294967296 →
  bmap_in (dbyte σ) (block_size e) (dlimit σ) node (pos / block_size e) →
  ∃ s', read_block_pos e s pos (p + Z.of_nat o) node = Ok (true, s') ∧ keeps σ s s' ∧
    kheap s' σ (<[p := splice o (dbytes σ (baddr (block_size e) (bmap (dbyte σ) (block_size e) node (pos / block_size e)))
                                   (Z.to_nat (block_size e))) bs0]> Hp) B T.
Proof. intros Hbs HK E Ho Hc ? ? ? ?. by apply (read_block_pos_spec σ e Hbs s Hp B T p o bs0 HK E Ho Hc). Qed.


End theorems.

(** ** Behaviours that differ from ext2 *)

(** The directory test also holds for block devices and sockets. *)
Lemma is_directory_block_device : is_directory (mkInode 24576 0 0 0 0 0 0 0 0 0 0 0 [] 0 0 0 0 []) = true ∧
  is_directory (mkInode 49152 0 0 0 0 0 0 0 0 0 0 0 [] 0 0 0 0 []) = true.
Proof. done. Qed.

Section differences.
Context {S : Type} {KI : KernelIO S}.

(** The last, partial block of a file cannot be read: nothing is transferred. *)
Lemma read_block_pos_partial (e : ext2) (s : S) pos buffer node : block_size e ≠ 0 →
  i_size node < u32 (pos + block_size e) → read_block_pos e s pos buffer node = Ok (false, s).
Proof.
  intros Hb Hp. unfold read_block_pos. rewrite (proj2 (Z.eqb_neq _ _)), (proj2 (Z.ltb_lt _ _)) by done. done.
Qed.

End differences.
End Ext2.
