(* ===== verification/FileSystem.v ===== *)
(** * Files ([src/kernel/FileSystem.cpp], [src/include/os/FileSystem.h])

    [FileSystem] keeps the mounted [Ext2]; [File] a path, an inode and the file
    system. [fopen] splits a path and asks [Ext2] for the inode; [File::read] cuts a
    transfer into blocks. *)

From S2P Require Import Prelude Memory KString KernelIO Utilclass Ext2.

Module FileSystem.
Import Utilclass Ext2.

Definition MAX_FILE_NR : Z := 20.
Definition sizeof_File : Z := 148.

Section files.
Context {S : Type} {KI : KernelIO S}.

(** [class FileSystem]: its only member is [root_fs]. *)
Record filesystem := mkFS { root_fs : ext2 }.

Definition fs_block_size (fs : filesystem) : Z := block_size (root_fs fs).

(** [class File]; [File()] leaves the pointer to the file system uninitialised: [None]. *)
Record File := mkFile { f_fs : option filesystem; file_path : kvector; f_inode : ext2_inode; f_is_valid : bool }.

(** [bool FileSystem::read_block(u32_t pos,void *dbuffer,Ext2::ext2_inode inode)]:
    the result of [read_block_pos] is dropped. *)
Definition fs_read_block (fs : filesystem) (s : S) (pos dbuffer : Z) (inode : ext2_inode) : res (bool * S) :=
  '(_, s) ← read_block_pos (root_fs fs) s pos dbuffer inode;
  Ok (true, s).

(** [bool File::read_block(u32_t addr,size_t size,void *dbuffer)]; in the position of
    the second block the [+] binds tighter than the [&]. *)
Definition File_read_block (f : File) (s : S) (addr size dbuffer : Z) : res (bool * S) :=
  match f_fs f with
  | None => Fault
  | Some fs =>
  let block_size := fs_block_size fs in
  let block_mask := u32 (block_size - 1) in
  if block_size <? size then Ok (false, s) else
  '(buffer, s) ←
    (if block_size <? u32 (Z.land addr block_mask + size) then
       '(buffer, s) ← io_new s (u32 (block_size * 2));
       '(_, s) ← fs_read_block fs s (Z.land addr (u32 (Z.lnot block_mask))) buffer (f_inode f);
       '(_, s) ← fs_read_block fs s (Z.land addr (u32 (Z.lnot block_mask + block_size)))
                   (buffer + block_size) (f_inode f);
       Ok (buffer, s)
     else
       '(buffer, s) ← io_new s block_size;
       '(_, s) ← fs_read_block fs s (Z.land addr (u32 (Z.lnot block_mask))) buffer (f_inode f);
       Ok (buffer, s));
  let s := io_set s (KString.memcpy (io_mem s) dbuffer (buffer + Z.land addr block_mask) (Z.to_nat size)) in
  s ← io_delete s buffer;
  Ok (true, s)
  end.

(** [for(;i<nr_blocks;i++){ read_block(src,block_size,dest); src+=...; dest+=...; }]. *)
Fixpoint read_blocks (n : nat) (f : File) (s : S) (src dest bsz : Z) : res (Z * Z * S) :=
  match n with
  | O => Ok (src, dest, s)
  | Datatypes.S n' =>
    '(_, s) ← File_read_block f s src bsz dest;
    read_blocks n' f s (u32 (src + bsz)) (u32 (dest + bsz)) bsz
  end.

(** [bool File::read(u32_t addr,size_t size,void *dbuffer)]: no statement returns a
    value. *)
Definition File_read (f : File) (s : S) (addr size dbuffer : Z) : res S :=
  match f_fs f with
  | None => Fault
  | Some fs =>
  let bsz := s32 (fs_block_size fs) in
  if u32 bsz =? 0 then Fault else
  if u32 bsz <? size then
    let edge_size := s32 (u32 (bsz - addr `mod` u32 bsz)) in
    let remain_size := s32 (size - edge_size) in
    let nr_blocks := Z.quot remain_size bsz in
    s ← (if negb (edge_size =? 0) then '(_, s) ← File_read_block f s addr (u32 edge_size) dbuffer; Ok s else Ok s);
    '(src, dest, s) ← read_blocks (Z.to_nat nr_blocks) f s (u32 (addr + edge_size)) (u32 (dbuffer + edge_size)) (u32 bsz);
    let remain_size := Z.rem remain_size bsz in
    if negb (remain_size =? 0) then '(_, s) ← File_read_block f s src (u32 remain_size) dest; Ok s else Ok s
  else
    '(_, s) ← File_read_block f s addr size dbuffer;
    Ok s
  end.

(** ** [File *FileSystem::fopen(const kstring &pathname)] *)

(** [while(1)] over the characters of the path; at most one iteration per character. *)
Fixpoint parse_loop (fuel : nat) (s : S) (pathname : kstring) (path : kvector) (cpos ppos num_file : Z)
    : res (kvector * Z * S) :=
  match fuel with
  | O => NoFuel
  | Datatypes.S fuel' =>
    let cname := pstring pathname in
    let at_end := cpos =? u32 (len pathname) in
    '(path, ppos, num_file, s) ←
      (if at_end || (load8 (io_mem s) (cname + cpos) =? 47) then
         '(afile, s) ← kstring_len s (cname + ppos + 1) (s32 (cpos - ppos - 1));
         '(path, s) ← kvector_set s path num_file afile;
         s ← kstring_delete s afile;
         Ok (path, cpos, u32 (num_file + 1), s)
       else Ok (path, ppos, num_file, s));
    if at_end then Ok (path, num_file, s)
    else parse_loop fuel' s pathname path (u32 (cpos + 1)) ppos num_file
  end.

(** [new File()] and [new File(path,inode,this)]. *)
Definition new_File_invalid (s : S) (uninit : ext2_inode) : res (Z * File * S) :=
  '(p, s) ← io_new s sizeof_File;
  Ok (p, mkFile None kvector_empty (ext2_inode_new uninit) false, s).

Definition new_File (fs : filesystem) (s : S) (path : kvector) (inode : ext2_inode) : res (Z * File * S) :=
  '(p, s) ← io_new s sizeof_File;
  '(fp, s) ← kvector_copy s path;
  Ok (p, mkFile (Some fs) fp inode true, s).

(** The result is the address of the [File] and its members. *)
Definition fopen (fuel : nat) (fs : filesystem) (s : S) (pathname : kstring) (uninit : ext2_inode)
    : res (Z * File * S) :=
  '(path, s) ← kvector_new s MAX_FILE_NR;
  '(pinv, invalid_file, s) ← new_File_invalid s uninit;
  if negb (load8 (io_mem s) (pstring pathname) =? 47) then
    s ← kvector_delete s path;
    Ok (pinv, invalid_file, s)
  else
  '(path, num_file, s) ← parse_loop fuel s pathname path 1 0 0;
  let '(_, path) := set_nr_elem path num_file in
  '(arg, s) ← kvector_copy s path;
  '(inode, s) ← get_inode_path fuel (root_fs fs) s arg;
  s ← kvector_delete s arg;
  if negb (is_valid inode) then
    s ← kvector_delete s path;
    Ok (pinv, invalid_file, s)
  else
    '(p, file, s) ← new_File fs s path inode;
    s ← kvector_delete s path;
    Ok (p, file, s).

End files.

(** ** Reading *)

Section reading.
Context {S : Type} {KI : KernelIO S} {KS : KernelIOSpec S}.
Context (σ : static) (f : File) (fs : filesystem).
Context (Hfs : f_fs f = Some fs) (Hbs : size_ok (root_fs fs)).
Context (Hsize : i_size (f_inode f) < 4294967296).
Implicit Types s : S.

Abbreviation bs := (block_size (root_fs fs)).
Abbreviation node := (f_inode f).

(** The bytes [addr ..] of the file, as they are on the disk. *)
Definition file_bytes (addr : Z) (n : nat) : list Z := bytes_of (file_byte (dbyte σ) bs node) addr n.

(** The block of position [x] lies inside of the file and on the disk. *)
Definition whole (x : Z) : Prop :=
  x / bs * bs + bs ≤ i_size node ∧ bmap_in (dbyte σ) bs (dlimit σ) node (x / bs).

Lemma bs_range : 1024 ≤ bs ≤ 4096.
Proof. destruct Hbs as [->|[->| ->]]; lia. Qed.

Lemma mask_low addr : Z.land addr (u32 (bs - 1)) = addr `mod` bs.
Proof.
  destruct Hbs as [->|[->| ->]].
  - change (u32 (1024 - 1)) with (Z.ones 10). by rewrite Z.land_ones.
  - change (u32 (2048 - 1)) with (Z.ones 11). by rewrite Z.land_ones.
  - change (u32 (4096 - 1)) with (Z.ones 12). by rewrite Z.land_ones.
Qed.

Lemma mask_high addr : is_u32 addr → Z.land addr (u32 (Z.lnot (u32 (bs - 1)))) = addr / bs * bs.
Proof.
  intros Ha. destruct Hbs as [->|[->| ->]].
  - apply (land_high_mask 10); [lia|done].
  - apply (land_high_mask 11); [lia|done].
  - apply (land_high_mask 12); [lia|done].
Qed.

(** The bytes of one block of the file. *)
Lemma block_bytes addr (n : nat) : 0 ≤ addr → addr `mod` bs + Z.of_nat n ≤ bs →
  take n (drop (Z.to_nat (addr `mod` bs)) (dbytes σ (baddr bs (bmap (dbyte σ) bs node (addr / bs))) (Z.to_nat bs))) =
  file_bytes addr n.
Proof.
  intros Ha Hn. pose proof bs_range as Hb. pose proof (Z.mod_pos_bound addr bs ltac:(lia)).
  apply list_eq. intros i. destruct (decide (i < n)%nat) as [Hi|Hi].
  - rewrite lookup_take_lt, lookup_drop by done. unfold dbytes, file_bytes. rewrite !bytes_of_lookup by lia.
    f_equal. unfold file_byte.
    assert (E : (addr + Z.of_nat i) / bs = addr / bs ∧ (addr + Z.of_nat i) `mod` bs = addr `mod` bs + Z.of_nat i).
    { pose proof (Z.div_mod addr bs ltac:(lia)). split; symmetry.
      - apply (Z.div_unique _ _ _ (addr `mod` bs + Z.of_nat i)); lia.
      - apply (Z.mod_unique _ _ (addr / bs)); lia. }
    destruct E as [-> ->]. f_equal. lia.
  - rewrite !(proj2 (lookup_ge_None _ _)); [done| |].
    + unfold file_bytes. rewrite bytes_of_length. lia.
    + rewrite length_take. lia.
Qed.

Lemma file_bytes_u8 addr n : Forall is_u8 (file_bytes addr n).
Proof. apply Forall_fmap, Forall_forall. intros i _. cbn. apply dbyte_range. Qed.

(** One block of the file lies in the buffer at [p]; a part of it is copied to the
    target. *)
Lemma copy_part t s Hp B T p bs0 (o n : nat) d l : kheap s σ Hp B T → Hp !! p = Some bs0 →
  (o + n ≤ length bs0)%nat → t ≠ Some p → target_ok t σ Hp d (Z.of_nat n) → Forall is_u8 l →
  take n (drop o bs0) = l →
  let s' := io_set s (KString.memcpy (io_mem s) d (p + Z.of_nat o) n) in
  kheap s' σ (put t Hp d l) B T ∧ wrote t σ s s' d l.
Proof.
  intros HK E Hl Ht Htgt Hu Htake s'.
  assert (Hll : length l = n) by (subst l; rewrite length_take, length_drop; lia).
  assert (Hsrc : ∀ i, 0 ≤ i < Z.of_nat n → l !! Z.to_nat i = Some (load8 (io_mem s) (p + Z.of_nat o + i))).
  { intros i Hi. subst l. rewrite lookup_take_lt, lookup_drop by lia.
    destruct (lookup_lt_is_Some_2 bs0 (o + Z.to_nat i)) as [b Hb]; [lia|]. rewrite Hb. f_equal. symmetry.
    rewrite <- (kheap_byte _ _ _ _ _ _ _ _ _ HK E Hb). f_equal. lia. }
  destruct (KString.copy_up (io_mem s) d (p + Z.of_nat o) n) as [Hc Ho].
  { intros i Hi. rewrite Forall_lookup in Hu. eapply Hu. apply Hsrc. lia. }
  { destruct (decide (n = 0%nat)) as [->|Hn0]; [lia|].
    assert (¬ (p + Z.of_nat o < d < p + Z.of_nat o + Z.of_nat n)); [|lia]. intros Hd.
    apply (kheap_apart t s σ Hp B T d (Z.of_nat n) p bs0 HK E Ht Htgt ltac:(lia)). lia. }
  apply kheap_put; rewrite ?Hll; try done.
  intros i b Hi. pose proof (lookup_lt_Some _ _ _ Hi). unfold KString.memcpy. rewrite Hc by lia.
  specialize (Hsrc (Z.of_nat i) ltac:(lia)). rewrite Nat2Z.id, Hi in Hsrc. by injection Hsrc.
Qed.

(** What [File::read_block] and [File::read] need of the heap. *)
Definition read_cost : Z := cost bs + cost (bs + 1024).

(** The end of [File::read_block]: the part at [o] of the buffer [p] is copied to the
    target and the buffer is released. *)
Lemma copy_and_release t s0 s Hp B c p data (o n : nat) d l : kheap s σ (<[p := data]> Hp) B (Some (p, c)) →
  Hp !! p = None → keeps σ s0 s → (o + n ≤ length data)%nat → target_ok t σ Hp d (Z.of_nat n) → Forall is_u8 l →
  take n (drop o data) = l →
  ∃ s', (s2 ← io_delete (io_set s (KString.memcpy (io_mem s) d (p + Z.of_nat o) n)) p; Ok (true, s2)) = Ok (true, s') ∧
    kheap s' σ (put t Hp d l) (B + c) None ∧ wrote t σ s0 s' d l.
Proof.
  intros HK Hp0 Hk0 Hl Ht Hu Etake.
  assert (Htp : t ≠ Some p). { intros ->. destruct Ht as (? & E & _). by rewrite Hp0 in E. }
  assert (Ht' : target_ok t σ (<[p := data]> Hp) d (Z.of_nat n)).
  { destruct t as [q|]; [|done]. destruct Ht as (x & E & Hx). exists x. rewrite lookup_insert_ne by congruence. done. }
  destruct (copy_part t s _ _ _ p data o n d l HK (lookup_insert_eq _ _ _)) as [HK3 Hw3]; try done.
  set (s3 := io_set s _) in *.
  assert (Ep : put t (<[p:=data]> Hp) d l = <[p:=data]> (put t Hp d l)).
  { destruct t as [q|]; [|done]. cbn [put]. by rewrite alter_insert_ne by congruence. }
  rewrite Ep in HK3.
  destruct (kheap_delete_newest s3 σ _ _ p c data HK3 (lookup_insert_eq _ _ _)) as (s4 & -> & Hk4 & HK4).
  exists s4. split; [done|]. split.
  - rewrite delete_insert_eq, delete_id in HK4; [done|].
    destruct t as [q|]; [|done]. cbn [put]. by rewrite lookup_alter_ne by congruence.
  - assert (length l = n) as <- by (subst l; rewrite length_take, length_drop; lia).
    eapply wrote_keeps_r; [exact Ht| |exact Hk4]. by eapply wrote_keeps_l.
Qed.

(** A transfer inside of one block. *)
Lemma File_read_block_spec t s Hp B T addr (n : nat) d : kheap s σ Hp B T → read_cost ≤ B →
  is_u32 addr → addr `mod` bs + Z.of_nat n ≤ bs → whole addr → target_ok t σ Hp d (Z.of_nat n) →
  ∃ s', File_read_block f s addr (Z.of_nat n) d = Ok (true, s') ∧
    kheap s' σ (put t Hp d (file_bytes addr n)) B None ∧ wrote t σ s s' d (file_bytes addr n).
Proof.
  intros HK HB Ha Hn [Hw Hin] Ht. pose proof bs_range as Hb. pose proof (Z.mod_pos_bound addr bs ltac:(lia)) as Hm.
  assert (Hc0 : 0 ≤ cost bs ∧ 0 ≤ cost (bs + 1024)) by (unfold cost; split; Z.div_mod_to_equations; lia).
  unfold File_read_block. rewrite Hfs. unfold fs_block_size. cbv zeta. rewrite mask_low, mask_high by done.
  rewrite (proj2 (Z.ltb_ge bs (Z.of_nat n))) by lia. rewrite u32_id by (unfold is_u32; lia).
  rewrite (proj2 (Z.ltb_ge bs _)) by lia.
  destruct (kheap_new s σ Hp B T bs HK ltac:(lia)) as (p & s1 & -> & Hp0 & HK1 & Hk1); [unfold read_cost in *; lia|].
  cbn [mbind res_bind]. unfold fs_read_block.
  assert (Edm : addr / bs * bs / bs = addr / bs) by (apply Z.div_mul; lia).
  destruct (read_block_pos_spec σ (root_fs fs) Hbs s1 _ _ _ p 0 _ HK1 (lookup_insert_eq _ _ _)
    ltac:(by rewrite bytes_of_length) ltac:(unfold read_cost in *; lia) (addr / bs * bs) node)
    as (s2 & E2 & Hk2 & HK2); try done.
  { apply Z.mul_nonneg_nonneg; [apply Z.div_pos|]; unfold is_u32 in *; lia. }
  { by rewrite Edm. }
  rewrite Z.add_0_r, Edm in *. rewrite E2. cbn [mbind res_bind]. rewrite insert_insert_eq, splice_all in HK2
    by (unfold dbytes; by rewrite !bytes_of_length).
  rewrite Nat2Z.id, <- (Z2Nat.id (addr `mod` bs)) by lia.
  destruct (copy_and_release t s s2 Hp _ _ p _ (Z.to_nat (addr `mod` bs)) n d (file_bytes addr n) HK2 Hp0)
    as (s3 & -> & HK3 & Hw3); try done.
  { by eapply keeps_trans. } { unfold dbytes. rewrite bytes_of_length. lia. } { apply file_bytes_u8. }
  { apply block_bytes; [unfold is_u32 in *; lia|done]. }
  exists s3. split_and!; [done| |done]. by replace B with (B - cost bs + cost bs) by lia.
Qed.

(** The file's bytes from [addr] on were moved to the target. *)
Definition moved t s s' Hp B d addr n : Prop :=
  kheap s' σ (put t Hp d (file_bytes addr n)) B None ∧ wrote t σ s s' d (file_bytes addr n).

Lemma file_bytes_length addr n : length (file_bytes addr n) = n.
Proof. apply bytes_of_length. Qed.

Lemma moved_app t s s1 s2 Hp B d addr n1 n2 : target_ok t σ Hp d (Z.of_nat (n1 + n2)) →
  moved t s s1 Hp B d addr n1 →
  moved t s1 s2 (put t Hp d (file_bytes addr n1)) B (d + Z.of_nat n1) (addr + Z.of_nat n1) n2 →
  moved t s s2 Hp B d addr (n1 + n2).
Proof.
  intros Ht [_ W1] [K2 W2]. unfold moved. unfold file_bytes. rewrite bytes_of_app. fold (file_bytes addr n1).
  fold (file_bytes (addr + Z.of_nat n1) n2). split.
  - rewrite <- (put_app t σ) by by rewrite !file_bytes_length. by rewrite file_bytes_length.
  - eapply (wrote_app t σ Hp); rewrite ?file_bytes_length; done.
Qed.

Lemma moved_nil t s Hp B T d addr : kheap s σ Hp B T → target_ok t σ Hp d 0 → moved t s s Hp B d addr 0.
Proof.
  intros HK Ht. split; [|apply wrote_nil]. rewrite (put_nil _ σ) by done.
  eapply kheap_weaken; [|exact HK]. lia.
Qed.

Lemma read_blocks_spec (k : nat) t : ∀ s Hp B T addr d, kheap s σ Hp B T → read_cost ≤ B →
  0 ≤ addr → addr `mod` bs = 0 → addr + Z.of_nat k * bs < 4294967296 → 0 ≤ d → d + Z.of_nat k * bs < 4294967296 →
  (∀ x, addr ≤ x < addr + Z.of_nat k * bs → whole x) → target_ok t σ Hp d (Z.of_nat k * bs) →
  ∃ s', read_blocks k f s addr d bs = Ok (addr + Z.of_nat k * bs, d + Z.of_nat k * bs, s') ∧
    moved t s s' Hp B d addr (Z.to_nat (Z.of_nat k * bs)).
Proof.
  pose proof bs_range as Hb. induction k as [|k IH]; intros s Hp B T addr d HK HB Ha Hm Hr Hd Hdr Hw Ht.
  { exists s. cbn [read_blocks]. rewrite Z.mul_0_l, !Z.add_0_r in *. split; [done|]. by eapply moved_nil. }
  cbn [read_blocks].
  destruct (File_read_block_spec t s Hp B T addr (Z.to_nat bs) d) as (s1 & E1 & M1); try done; rewrite ?Z2Nat.id by lia.
  { unfold is_u32. lia. } { lia. } { apply Hw. lia. } { eapply target_ok_sub; [exact Ht|lia|lia]. }
  rewrite Z2Nat.id in E1 by lia. rewrite E1. cbn [mbind res_bind]. rewrite !u32_id by (unfold is_u32; nia).
  set (Hp1 := put t Hp d (file_bytes addr (Z.to_nat bs))) in *.
  assert (Ht1 : target_ok t σ Hp1 (d + bs) (Z.of_nat k * bs)).
  { apply target_ok_put; [rewrite file_bytes_length|]; eapply target_ok_sub; try exact Ht; nia. }
  destruct (IH s1 Hp1 B None (addr + bs) (d + bs)) as (s2 & E2 & M2); try done; try lia; try nia.
  { apply M1. } { replace (addr + bs) with (addr + 1 * bs) by lia. by rewrite Z.mod_add by lia. } { intros x Hx. apply Hw. nia. }
  exists s2. split; [rewrite E2; do 3 f_equal; lia|].
  replace (Z.to_nat (Z.of_nat (Datatypes.S k) * bs)) with (Z.to_nat bs + Z.to_nat (Z.of_nat k * bs))%nat by nia.
  eapply moved_app; [|exact M1|]; rewrite ?Z2Nat.id by lia; [|done].
  eapply target_ok_sub; [exact Ht|lia|nia].
Qed.

(** From a block boundary on: [q] whole blocks and [r] more bytes. *)
Lemma read_rest t s Hp B T addr d (q r n : nat) : kheap s σ Hp B T → read_cost ≤ B →
  Z.of_nat n = Z.of_nat q * bs + Z.of_nat r → Z.of_nat r < bs →
  0 ≤ addr → addr `mod` bs = 0 → addr + Z.of_nat n < 4294967296 → 0 ≤ d → d + Z.of_nat n < 4294967296 →
  (∀ x, addr ≤ x < addr + Z.of_nat n → whole x) → target_ok t σ Hp d (Z.of_nat n) →
  ∃ s', ('(src, dest, s) ← read_blocks q f s addr d bs;
         if negb (Z.of_nat r =? 0) then '(_, s) ← File_read_block f s src (u32 (Z.of_nat r)) dest; Ok s else Ok s)
      = Ok s' ∧ moved t s s' Hp B d addr n.
Proof.
  intros HK HB En Hr Ha Hm Har Hd Hdr Hw Ht. pose proof bs_range as Hb.
  assert (Hk : 0 ≤ Z.of_nat q * bs) by (apply Z.mul_nonneg_nonneg; lia).
  destruct (read_blocks_spec q t s Hp B T addr d) as (s1 & -> & M1); try done; try lia.
  { intros x Hx. apply Hw. lia. } { eapply target_ok_sub; [exact Ht|lia|lia]. }
  cbn [mbind res_bind]. set (k := Z.of_nat q * bs) in *.
  destruct (Z.eqb_spec (Z.of_nat r) 0) as [E0|E0]; cbn [negb].
  { exists s1. split; [done|]. by replace n with (Z.to_nat k) by lia. }
  rewrite u32_id by (unfold is_u32; lia).
  assert (Ht1 : target_ok t σ (put t Hp d (file_bytes addr (Z.to_nat k))) (d + k) (Z.of_nat r)).
  { apply target_ok_put; [rewrite file_bytes_length|]; eapply target_ok_sub; try exact Ht; lia. }
  assert (Hm2 : (addr + k) `mod` bs = 0) by (unfold k; by rewrite Z.mod_add by lia).
  destruct (File_read_block_spec t s1 _ B None (addr + k) r (d + k) (proj1 M1) HB) as (s2 & -> & M2); try done; try lia.
  { unfold is_u32. lia. } { apply Hw. lia. }
  exists s2. split; [done|]. replace n with (Z.to_nat k + r)%nat by lia.
  eapply moved_app; [|exact M1|]; rewrite ?Z2Nat.id by lia; [|done].
  eapply target_ok_sub; [exact Ht|lia|lia].
Qed.

(** A transfer larger than a block. *)
Lemma read_large t s Hp B T addr (n : nat) d : kheap s σ Hp B T → read_cost ≤ B →
  0 ≤ addr → addr + Z.of_nat n < 4294967296 → Z.of_nat n < 2147483648 → bs < Z.of_nat n →
  0 ≤ d → d + Z.of_nat n < 4294967296 →
  (∀ x, addr ≤ x < addr + Z.of_nat n → whole x) → target_ok t σ Hp d (Z.of_nat n) →
  ∃ s', File_read f s addr (Z.of_nat n) d = Ok s' ∧ moved t s s' Hp B d addr n.
Proof.
  intros HK HB Ha Har Hn31 Hbig Hd Hdr Hw Ht. pose proof bs_range as Hb.
  pose proof (Z.mod_pos_bound addr bs ltac:(lia)) as Hm. pose proof (Z.div_mod addr bs ltac:(lia)) as Hda.
  unfold File_read. rewrite Hfs. unfold fs_block_size. cbv zeta.
  rewrite (s32_id bs), (u32_id bs), (proj2 (Z.eqb_neq bs 0)), (proj2 (Z.ltb_lt _ _)) by (unfold is_s32, is_u32; lia).
  assert (Ez : (addr + (bs - addr `mod` bs)) `mod` bs = 0).
  { replace (addr + (bs - addr `mod` bs)) with (0 + (addr / bs + 1) * bs) by lia. by rewrite Z.mod_add by lia. }
  set (edge := bs - addr `mod` bs) in *. assert (Hedge : 0 < edge ≤ bs) by (unfold edge; lia).
  assert (Hfit : addr `mod` bs + edge = bs) by (unfold edge; lia). clearbody edge.
  rewrite (u32_id edge), (s32_id edge), (s32_id (Z.of_nat n - edge)), (proj2 (Z.eqb_neq edge 0))
    by (unfold is_u32, is_s32; lia). cbn [negb].
  rewrite (u32_id edge), (u32_id (addr + edge)), (u32_id (d + edge)) by (unfold is_u32; lia).
  rewrite Z.quot_div_nonneg, Z.rem_mod_nonneg by lia.
  pose proof (Z.mod_pos_bound (Z.of_nat n - edge) bs ltac:(lia)) as Hr.
  pose proof (Z.div_mod (Z.of_nat n - edge) bs ltac:(lia)) as Hdm.
  pose proof (Z.div_pos (Z.of_nat n - edge) bs ltac:(lia) ltac:(lia)) as Hq.
  destruct (File_read_block_spec t s Hp B T addr (Z.to_nat edge) d) as (s1 & E1 & M1); try done; rewrite ?Z2Nat.id by lia.
  { unfold is_u32; lia. } { lia. } { apply Hw. lia. } { eapply target_ok_sub; [exact Ht|lia|lia]. }
  rewrite Z2Nat.id in E1 by lia. rewrite E1. cbn [mbind res_bind].
  assert (Ht1 : target_ok t σ (put t Hp d (file_bytes addr (Z.to_nat edge))) (d + edge) (Z.of_nat (n - Z.to_nat edge))).
  { apply target_ok_put; [rewrite file_bytes_length|]; eapply target_ok_sub; try exact Ht; lia. }
  destruct (read_rest t s1 _ B None (addr + edge) (d + edge) (Z.to_nat ((Z.of_nat n - edge) / bs))
    (Z.to_nat ((Z.of_nat n - edge) `mod` bs)) (n - Z.to_nat edge) (proj1 M1) HB) as (s2 & E2 & M2); try done; try lia.
  { intros x Hx. apply Hw. lia. }
  rewrite Z2Nat.id in E2 by lia. rewrite E2. exists s2. split; [done|].
  replace n with (Z.to_nat edge + (n - Z.to_nat edge))%nat at 1 by lia.
  eapply moved_app; [|exact M1|]; rewrite ?Z2Nat.id by lia; [|done].
  eapply target_ok_sub; [exact Ht|lia|lia].
Qed.

(** A transfer inside of a block, or larger than a block, is served. *)
Lemma File_read_spec t s Hp B T addr (n : nat) d : kheap s σ Hp B T → read_cost ≤ B →
  0 ≤ addr → addr + Z.of_nat n < 4294967296 → (0 < n)%nat → Z.of_nat n < 2147483648 →
  0 ≤ d → d + Z.of_nat n < 4294967296 → bs < Z.of_nat n ∨ addr `mod` bs + Z.of_nat n ≤ bs →
  (∀ x, addr ≤ x < addr + Z.of_nat n → whole x) → target_ok t σ Hp d (Z.of_nat n) →
  ∃ s', File_read f s addr (Z.of_nat n) d = Ok s' ∧ moved t s s' Hp B d addr n.
Proof.
  intros HK HB Ha Har Hn Hn31 Hd Hdr Hfit Hw Ht. pose proof bs_range as Hb.
  destruct (Z.ltb_spec bs (Z.of_nat n)) as [Hbig|Hsmall]; [by eapply read_large|].
  unfold File_read. rewrite Hfs. unfold fs_block_size. cbv zeta.
  rewrite (s32_id bs), (u32_id bs), (proj2 (Z.eqb_neq bs 0)), (proj2 (Z.ltb_ge _ _)) by (unfold is_s32, is_u32; lia).
  destruct (File_read_block_spec t s Hp B T addr n d) as (s1 & -> & M); try done; [unfold is_u32; lia|lia| |].
  - apply Hw. lia.
  - by exists s1.
Qed.

(** ** A transfer of at most a block that crosses a block boundary *)

(** [~block_mask+block_size] is 0. *)
Lemma second_block_pos addr : Z.land addr (u32 (Z.lnot (u32 (bs - 1)) + bs)) = 0.
Proof. destruct Hbs as [->|[->| ->]]; apply Z.land_0_r. Qed.

Lemma two_blocks (A C raw : list Z) (o n : nat) : length A = length C → length raw = (length A + length A)%nat →
  (o ≤ length A)%nat → (length A < o + n)%nat → (n ≤ length A)%nat →
  take n (drop o (splice (length A) C (splice 0 A raw))) = drop o A ++ take (o + n - length A) C.
Proof.
  intros El Er Ho Hn Hn2. unfold splice. rewrite take_0, app_nil_l. cbn [Nat.add].
  rewrite take_app_length, (drop_ge (A ++ drop (length A) raw)) by (rewrite length_app, length_drop; lia).
  rewrite app_nil_r, drop_app_le, take_app_ge by (rewrite ?length_drop; lia). f_equal. f_equal.
  rewrite length_drop. lia.
Qed.

Lemma File_read_straddle_spec t s Hp B T addr (n : nat) d : kheap s σ Hp B T → cost (bs * 2) + cost (bs + 1024) ≤ B →
  is_u32 addr → Z.of_nat n ≤ bs < addr `mod` bs + Z.of_nat n → whole addr → whole 0 →
  target_ok t σ Hp d (Z.of_nat n) →
  let k := Z.to_nat (bs - addr `mod` bs) in
  let l := file_bytes addr k ++ file_bytes 0 (n - k) in
  ∃ s', File_read f s addr (Z.of_nat n) d = Ok s' ∧ kheap s' σ (put t Hp d l) B None ∧ wrote t σ s s' d l.
Proof.
  intros HK HB Ha Hn [Hw Hin] [Hw0 Hin0] Ht k l. pose proof bs_range as Hb.
  pose proof (Z.mod_pos_bound addr bs ltac:(lia)) as Hm. rewrite Z.div_0_l in Hw0, Hin0 by lia.
  unfold is_u32 in Ha.
  assert (Hc0 : 0 ≤ cost (bs * 2) ∧ 0 ≤ cost (bs + 1024)) by (unfold cost; split; Z.div_mod_to_equations; lia).
  unfold File_read. rewrite Hfs. unfold fs_block_size. cbv zeta.
  rewrite (s32_id bs), (u32_id bs), (proj2 (Z.eqb_neq bs 0)), (proj2 (Z.ltb_ge _ _)) by (unfold is_s32, is_u32; lia).
  unfold File_read_block. rewrite Hfs. unfold fs_block_size. cbv zeta.
  rewrite mask_low, mask_high, second_block_pos by done.
  rewrite (proj2 (Z.ltb_ge bs (Z.of_nat n))), (u32_id (addr `mod` bs + Z.of_nat n)), (proj2 (Z.ltb_lt bs _)), (u32_id (bs * 2))
    by (unfold is_u32; lia).
  destruct (kheap_new s σ Hp B T (bs * 2) HK ltac:(lia)) as (p & s1 & -> & Hp0 & HK1 & Hk1); [lia|].
  cbn [mbind res_bind]. unfold fs_read_block.
  assert (Edm : addr / bs * bs / bs = addr / bs) by (apply Z.div_mul; lia).
  destruct (read_block_pos_spec σ (root_fs fs) Hbs s1 _ _ _ p 0 _ HK1 (lookup_insert_eq _ _ _)
    ltac:(rewrite bytes_of_length; lia) ltac:(lia) (addr / bs * bs) node) as (s2 & E2 & Hk2 & HK2); try done.
  { apply Z.mul_nonneg_nonneg; [apply Z.div_pos|]; lia. } { by rewrite Edm. }
  rewrite Z.add_0_r, Edm in *. rewrite E2. cbn [mbind res_bind]. rewrite insert_insert_eq in HK2.
  set (A := dbytes σ _ _) in HK2. assert (LA : length A = Z.to_nat bs) by apply bytes_of_length.
  set (raw := bytes_of _ p _) in HK2. assert (Lr : length raw = Z.to_nat (bs * 2)) by apply bytes_of_length.
  destruct (read_block_pos_spec σ (root_fs fs) Hbs s2 _ _ _ p (Z.to_nat bs) _ HK2 (lookup_insert_eq _ _ _)
    ltac:(rewrite splice_length; lia) ltac:(lia) 0 node) as (s3 & E3 & Hk3 & HK3); try done; try lia.
  rewrite Z.div_0_l, Z2Nat.id in * by lia. rewrite E3. cbn [mbind res_bind]. rewrite insert_insert_eq in HK3.
  set (C := dbytes σ _ _) in HK3. assert (LC : length C = Z.to_nat bs) by apply bytes_of_length.
  rewrite Nat2Z.id, <- (Z2Nat.id (addr `mod` bs)) by lia.
  destruct (copy_and_release t s s3 Hp _ _ p _ (Z.to_nat (addr `mod` bs)) n d l HK3 Hp0) as (s4 & E4 & HK4 & Hw4); try done.
  { by do 2 (eapply keeps_trans; [eassumption|]). } { rewrite !splice_length; rewrite ?splice_length; lia. }
  { apply Forall_app. split; apply file_bytes_u8. }
  { rewrite <- LA, two_blocks by lia. unfold l. f_equal.
    - rewrite <- (block_bytes addr k) by (unfold k; lia). rewrite take_ge; [done|].
      unfold dbytes. rewrite length_drop, bytes_of_length. unfold k. lia.
    - rewrite <- (block_bytes 0 (n - k)) by (rewrite ?Z.mod_0_l by lia; unfold k; lia).
      rewrite Z.mod_0_l, Z.div_0_l, drop_0 by lia. f_equal. unfold k. lia. }
  rewrite E4. exists s4. split_and!; [done| |done]. by replace B with (B - cost (bs * 2) + cost (bs * 2)) by lia.
Qed.

End reading.
(** ** Paths *)

(** The characters of the path with the components [ls]: each one behind a slash. *)
Definition path_chars (ls : list (list Z)) : list Z := concat ((λ x, 47 :: x) <$> ls).

Definition component_ok (x : list Z) : Prop := name_ok x ∧ 47 ∉ x.

Lemma path_chars_app l1 l2 : path_chars (l1 ++ l2) = path_chars l1 ++ path_chars l2.
Proof. unfold path_chars. by rewrite fmap_app, concat_app. Qed.

Lemma path_chars_cons x l : path_chars (x :: l) = 47 :: x ++ path_chars l.
Proof. done. Qed.

Lemma path_chars_length l : Forall component_ok l → (length (path_chars l) ≤ 256 * length l)%nat.
Proof.
  induction 1 as [|x l [[_ Hx] _] _ IH]; [done|]. rewrite path_chars_cons. cbn [length]. rewrite length_app. lia.
Qed.

Section parsing.
Context {S : Type} {KI : KernelIO S} {KS : KernelIOSpec S}.
Context (σ : static) (pn : kstring).
Implicit Types s : S.

(** The path [ls] is in the block of [pn]. *)
Definition path_in (Hp : gmap Z (list Z)) (ls : list (list Z)) : Prop := kstr Hp pn (path_chars ls).

(** Character [i] of the path. *)
Lemma path_byte s Hp B T ls (i : nat) b : kheap s σ Hp B T → path_in Hp ls → path_chars ls !! i = Some b →
  load8 (io_mem s) (pstring pn + Z.of_nat i) = b.
Proof.
  intros HK (_ & rest & E) Hi. eapply kheap_byte; [exact HK|exact E|].
  rewrite lookup_app_l; [done|]. by eapply lookup_lt_Some.
Qed.

(** The loop runs over the characters of a component. *)
Lemma parse_scan done_ cur todo v nf s Hp B T : kheap s σ Hp B T → path_in Hp (done_ ++ cur :: todo) →
  Forall component_ok (done_ ++ cur :: todo) → (length (done_ ++ cur :: todo) < 20)%nat →
  ∀ (k : nat) fuel (j : nat), (j + k = length cur)%nat →
  let P := Z.of_nat (length (path_chars done_)) in
  parse_loop (k + fuel) s pn v (P + 1 + Z.of_nat j) P nf =
  parse_loop fuel s pn v (P + 1 + Z.of_nat (length cur)) P nf.
Proof.
  intros HK Hin Hok Hlen k. pose proof (path_chars_length _ Hok) as Hcl.
  induction k as [|k IH]; intros fuel j Hj P; [cbn [Nat.add]; do 2 f_equal; lia|].
  destruct (lookup_lt_is_Some_2 cur j) as [b Hb]; [lia|].
  assert (Hc : path_chars (done_ ++ cur :: todo) !! (length (path_chars done_) + 1 + j)%nat = Some b).
  { rewrite path_chars_app, path_chars_cons, lookup_app_r by lia.
    replace (length (path_chars done_) + 1 + j - length (path_chars done_))%nat with (Datatypes.S j) by lia.
    change ((cur ++ path_chars todo) !! j = Some b). rewrite lookup_app_l; [done|]. by eapply lookup_lt_Some. }
  assert (Hb47 : b ≠ 47).
  { apply Forall_app in Hok as [_ Hok]. apply Forall_cons in Hok as [[_ Hs] _]. intros ->. apply Hs.
    by eapply list_elem_of_lookup_2. }
  cbn [Nat.add parse_loop]. destruct (id Hin) as (El & _ & _). rewrite El.
  pose proof (lookup_lt_Some _ _ _ Hc) as Hlt.
  rewrite (u32_id (Z.of_nat (length (path_chars _)))) by (unfold is_u32; lia).
  rewrite (proj2 (Z.eqb_neq (P + 1 + Z.of_nat j) _)) by lia. cbn [orb].
  replace (pstring pn + (P + 1 + Z.of_nat j)) with (pstring pn + Z.of_nat (length (path_chars done_) + 1 + j)) by lia.
  rewrite (path_byte _ _ _ _ _ _ _ HK Hin Hc), (proj2 (Z.eqb_neq b 47)) by done. cbn [mbind res_bind].
  rewrite u32_id by (unfold is_u32; lia). replace (P + 1 + Z.of_nat j + 1) with (P + 1 + Z.of_nat (Datatypes.S j)) by lia.
  apply IH. lia.
Qed.

(** The vector during the loop: the components found so far, behind them elements
    nothing was assigned to. *)
Record partial (Hp0 Hp : gmap Z (list Z)) (v : kvector) (ls : list (list Z)) : Prop := {
  pt_vec : kvec Hp v ls;
  pt_max : max_elem v = 20;
  pt_num : num_elem v = 20;
  pt_sub : Hp0 ⊆ Hp;
  pt_cells : ∀ i : nat, (length ls ≤ i < 20)%nat → cells v !! i = Some kstring_empty;
  pt_rem : remove (vblocks v) Hp = Hp0
}.

(** The end of a component: its string is made, assigned to the vector and
    destroyed. *)
Lemma parse_component Hp0 Hp B T s v done_ cur todo : kheap s σ Hp B T → path_in Hp0 (done_ ++ cur :: todo) →
  partial Hp0 Hp v done_ → component_ok cur → (length done_ < 20)%nat → 2 * elem_cost ≤ B →
  let P := Z.of_nat (length (path_chars done_)) in
  ∃ k s1 v' s2 s3 Hp', kstring_len s (pstring pn + P + 1) (Z.of_nat (length cur)) = Ok (k, s1) ∧
    kvector_set s1 v (Z.of_nat (length done_)) k = Ok (v', s2) ∧ kstring_delete s2 k = Ok s3 ∧
    keeps σ s s3 ∧ kheap s3 σ Hp' (B - 2 * elem_cost) None ∧ partial Hp0 Hp' v' (done_ ++ [cur]).
Proof.
  intros HK Hin [HV Hmx Hnu Hsub Hcells Hrem] [Hcur _] Hlen HB P.
  assert (Hec : elem_cost = 268) by done.
  assert (Hcn : 0 ≤ cost (Z.of_nat (length cur) + 1) ≤ 268).
  { destruct Hcur as [_ Hl]. unfold cost. Z.div_mod_to_equations; lia. }
  assert (Hsrc : source σ s Hp (pstring pn + P + 1) cur).
  { destruct Hin as (_ & rest & E). eapply lookup_weaken in E; [|exact Hsub].
    replace (pstring pn + P + 1) with (pstring pn + Z.of_nat (length (path_chars done_) + 1)) by lia.
    eapply source_block; [exact HK|exact E|]. intros i b Hi.
    rewrite path_chars_app, path_chars_cons, <- app_assoc, lookup_app_r by lia.
    replace (length (path_chars done_) + 1 + i - length (path_chars done_))%nat with (Datatypes.S i) by lia.
    change (((cur ++ path_chars todo) ++ 0 :: rest) !! i = Some b). rewrite <- app_assoc, lookup_app_l; [done|]. by eapply lookup_lt_Some. }
  destruct (kstring_len_spec σ s Hp B T _ cur HK Hcur Hsrc ltac:(lia)) as (k & s1 & E1 & Ek & Hk0 & Hkn & Hk1 & HK1).
  pose proof (insert_subseteq Hp (pstring k) (cur ++ [0]) Hk0) as Hs1.
  assert (Hks : kstr (<[pstring k := cur ++ [0]]> Hp) k cur) by (split; [done|exists []; apply lookup_insert_eq]).
  destruct (kvector_set_spec σ s1 _ _ _ v done_ k cur HK1 (kvec_weaken _ _ _ _ Hs1 HV) Hks Hcur)
    as (v' & s2 & Hp2 & E2 & Hk2 & HK2 & Hs2 & HV2 & Em & En & (k' & Ec) & Ee & Hfr & Hrm).
  { apply Hcells. lia. } { lia. }
  assert (Hkd : Hp2 !! pstring k = Some (cur ++ [0])) by (eapply lookup_weaken; [|exact Hs2]; apply lookup_insert_eq).
  assert (Hkv : pstring k ∉ vblocks v).
  { intros Hi. destruct (vblocks_owned _ _ _ _ HV Hi) as [? E]. by rewrite Hk0 in E. }
  assert (Hkv' : pstring k ∉ vblocks v').
  { intros Hi. destruct (Hfr _ Hi) as [Hi'|Hn]; [done|]. by rewrite lookup_insert_eq in Hn. }
  destruct (kheap_delete s2 σ _ _ _ (pstring k) _ HK2 Hkd) as (s3 & E3 & Hk3 & HK3); [done|].
  exists k, s1, v', s2, s3, (delete (pstring k) Hp2). split_and!; try done.
  - unfold kstring_delete. by rewrite (proj2 (Z.eqb_neq _ _)).
  - by do 2 (eapply keeps_trans; [eassumption|]).
  - eapply kheap_weaken; [|exact HK3]. lia.
  - split; try congruence.
    + apply (kvec_remove σ s2 Hp2 _ _ v' _ [pstring k] HK2); [|done]. intros p Hp' ->%list_elem_of_singleton. done.
    + apply map_subseteq_spec. intros q x Eq. eapply lookup_weaken in Eq; [|exact Hsub].
      rewrite lookup_delete_ne by congruence. eapply lookup_weaken; [|exact Hs2]. rewrite lookup_insert_ne by congruence. done.
    + intros i Hi. rewrite length_app in Hi. cbn in Hi. rewrite Ec, list_lookup_insert_ne by lia. apply Hcells. lia.
    + rewrite <- Hrem. apply map_eq. intros q. apply (f_equal (.!! q)) in Hrm. rewrite !remove_lookup in *.
      destruct (decide (q = pstring k)) as [->|Hne].
      * rewrite !decide_False by done. by rewrite lookup_delete_eq, Hk0.
      * rewrite lookup_delete_ne by done. rewrite lookup_insert_ne in Hrm by done. exact Hrm.
Qed.

Lemma path_chars_snoc l x : length (path_chars (l ++ [x])) = (length (path_chars l) + 1 + length x)%nat.
Proof. rewrite path_chars_app, path_chars_cons, length_app. cbn [length]. rewrite length_app. cbn. lia. Qed.

Lemma snoc_cons {A : Type} (l1 : list A) x l2 : l1 ++ x :: l2 = (l1 ++ [x]) ++ l2.
Proof. by rewrite <- app_assoc. Qed.

(** The step at the end of a component, whether the path ends there or goes on. *)
Lemma parse_end Hp0 Hp B T s v done_ cur todo fuel : kheap s σ Hp B T → path_in Hp0 (done_ ++ cur :: todo) →
  Forall component_ok (done_ ++ cur :: todo) → partial Hp0 Hp v done_ → (length (done_ ++ cur :: todo) < 20)%nat →
  2 * elem_cost ≤ B →
  let P := Z.of_nat (length (path_chars done_)) in
  let Q := Z.of_nat (length (path_chars (done_ ++ [cur]))) in
  let nf := Z.of_nat (length (done_ ++ [cur])) in
  ∃ v' s' Hp', keeps σ s s' ∧ kheap s' σ Hp' (B - 2 * elem_cost) None ∧ partial Hp0 Hp' v' (done_ ++ [cur]) ∧
    parse_loop (Datatypes.S fuel) s pn v (P + 1 + Z.of_nat (length cur)) P (Z.of_nat (length done_)) =
    match todo with
    | [] => Ok (v', nf, s')
    | _ => parse_loop fuel s' pn v' (Q + 1) Q nf
    end.
Proof.
  intros HK Hin Hok Hpt Hlen HB P Q nf.
  assert (Hcl : Z.of_nat (length (path_chars (done_ ++ cur :: todo))) ≤ 5120) by (pose proof (path_chars_length _ Hok); lia).
  assert (EQ : P + 1 + Z.of_nat (length cur) = Q) by (unfold P, Q; rewrite path_chars_snoc; lia). rewrite EQ.
  assert (Hcur : component_ok cur) by (apply Forall_app in Hok as [_ Hok]; by apply Forall_cons in Hok as [? _]).
  rewrite length_app in Hlen. cbn [length] in Hlen.
  destruct (parse_component Hp0 Hp B T s v done_ cur todo HK Hin Hpt Hcur ltac:(lia) HB)
    as (k & s1 & v' & s2 & s3 & Hp' & E1 & E2 & E3 & Hk & HK' & Hpt').
  fold P in E1. exists v', s3, Hp'. split_and!; [done|done|done|]. cbn [parse_loop].
  destruct (id Hin) as (El & _ & _). rewrite El. rewrite (u32_id (Z.of_nat (length (path_chars _)))) by (unfold is_u32; lia).
  assert (Htot : length (path_chars (done_ ++ cur :: todo)) = (length (path_chars (done_ ++ [cur])) + length (path_chars todo))%nat).
  { rewrite (snoc_cons done_ cur), (path_chars_app (done_ ++ [cur])), length_app. done. }
  assert (Hgo : (Q =? Z.of_nat (length (path_chars (done_ ++ cur :: todo)))) || (load8 (io_mem s) (pstring pn + Q) =? 47) = true).
  { destruct todo as [|x todo].
    - rewrite Htot. change (length (path_chars [])) with 0%nat. rewrite Nat.add_0_r. unfold Q. by rewrite Z.eqb_refl.
    - apply orb_true_iff. right. apply Z.eqb_eq. eapply path_byte; [exact HK| |].
      + eapply kstr_weaken; [apply Hpt|exact Hin].
      + rewrite (snoc_cons done_ cur (x :: todo)), (path_chars_app (done_ ++ [cur])), lookup_app_r, Nat.sub_diag by lia. by rewrite path_chars_cons. }
  rewrite Hgo. replace (Q - P - 1) with (Z.of_nat (length cur)) by lia.
  destruct Hcur as [[_ Hcl1] _]. rewrite s32_id by (unfold is_s32; lia). rewrite E1. cbn [mbind res_bind].
  rewrite E2. cbn [mbind res_bind]. rewrite E3. cbn [mbind res_bind].
  assert (Enf : u32 (Z.of_nat (length done_) + 1) = nf).
  { unfold nf. rewrite length_app. cbn [length]. rewrite u32_id by (unfold is_u32; lia). lia. }
  rewrite Enf. destruct todo as [|x todo].
  - rewrite Htot. change (length (path_chars [])) with 0%nat. rewrite Nat.add_0_r. unfold Q. by rewrite Z.eqb_refl.
  - rewrite (proj2 (Z.eqb_neq Q _)); [|rewrite Htot, path_chars_cons; cbn [length]; lia].
    rewrite u32_id; [done|]. unfold is_u32. lia.
Qed.

Lemma parse_loop_spec todo : ∀ done_ cur Hp0 Hp B T s v fuel, kheap s σ Hp B T → path_in Hp0 (done_ ++ cur :: todo) →
  Forall component_ok (done_ ++ cur :: todo) → partial Hp0 Hp v done_ → (length (done_ ++ cur :: todo) < 20)%nat →
  2 * elem_cost * Z.of_nat (length (cur :: todo)) ≤ B → (length (path_chars (cur :: todo)) ≤ fuel)%nat →
  let P := Z.of_nat (length (path_chars done_)) in
  ∃ v' s' Hp', parse_loop fuel s pn v (P + 1) P (Z.of_nat (length done_)) =
      Ok (v', Z.of_nat (length (done_ ++ cur :: todo)), s') ∧ keeps σ s s' ∧
    kheap s' σ Hp' (B - 2 * elem_cost * Z.of_nat (length (cur :: todo))) None ∧ partial Hp0 Hp' v' (done_ ++ cur :: todo).
Proof.
  assert (Hec : elem_cost = 268) by done.
  induction todo as [|x todo IH]; intros done_ cur Hp0 Hp B T s v fuel HK Hin Hok Hpt Hlen HB Hf P.
  all: rewrite path_chars_cons in Hf; cbn [length] in Hf, HB; rewrite length_app in Hf.
  all: replace fuel with (length cur + Datatypes.S (fuel - length cur - 1))%nat by lia.
  all: replace (P + 1) with (P + 1 + Z.of_nat 0) by lia.
  all: rewrite (parse_scan done_ cur _ v _ s Hp B T HK) by (done || (eapply kstr_weaken; [apply Hpt|exact Hin])).
  all: destruct (parse_end Hp0 Hp B T s v done_ cur _ (fuel - length cur - 1) HK Hin Hok Hpt Hlen ltac:(lia))
    as (v1 & s1 & Hp1 & Hk1 & HK1 & Hpt1 & ->).
  - exists v1, s1, Hp1. split_and!; [done|done| |done]. eapply kheap_weaken; [|exact HK1]. cbn. lia.
  - rewrite (snoc_cons done_ cur (x :: todo)) in Hin, Hok, Hlen |- *.
    destruct (IH (done_ ++ [cur]) x Hp0 Hp1 _ None s1 v1 (fuel - length cur - 1)%nat HK1 Hin Hok Hpt1 Hlen)
      as (v2 & s2 & Hp2 & -> & Hk2 & HK2 & Hpt2).
    { cbn [length]. lia. } { rewrite path_chars_cons in *. cbn [length] in *. lia. }
    exists v2, s2, Hp2. split_and!; [done|by eapply keeps_trans| |done]. eapply kheap_weaken; [|exact HK2]. cbn [length]. lia.
Qed.

(** The path is cut into its components. *)
Lemma parse_spec Hp B T s v ls fuel bsz : kheap s σ (<[elems v - 4 := bsz]> Hp) B T → Hp !! (elems v - 4) = None →
  kvec (<[elems v - 4 := bsz]> Hp) v [] → max_elem v = 20 → num_elem v = 20 → cells v = replicate 20 kstring_empty →
  path_in Hp ls → ls ≠ [] → Forall component_ok ls → (length ls < 20)%nat → 10200 ≤ B →
  (length (path_chars ls) ≤ fuel)%nat →
  ∃ v' s' Hp', parse_loop fuel s pn v 1 0 0 = Ok (v', Z.of_nat (length ls), s') ∧ keeps σ s s' ∧
    kheap s' σ Hp' (B - 10200) None ∧ partial Hp Hp' v' ls.
Proof.
  intros HK Hn HV Hmx Hnu Hc Hin Hne Hok Hlen HB Hf. destruct ls as [|cur todo]; [done|].
  assert (Hec : elem_cost = 268) by done. cbn [length] in Hlen.
  destruct (parse_loop_spec todo [] cur Hp _ B T s v fuel HK Hin Hok) as (v' & s' & Hp' & E & Hk & HK' & Hpt); try done.
  - split; try done.
    + by apply insert_subseteq.
    + intros i Hi. rewrite Hc. apply lookup_replicate_2. lia.
    + unfold vblocks. rewrite Hc, ptrs_replicate. cbn [remove foldr]. by apply delete_insert_id.
  - cbn [length]. lia.
  - exists v', s', Hp'. split_and!; [exact E|done| |done]. eapply kheap_weaken; [|exact HK']. cbn [length]. lia.
Qed.

End parsing.

(** ** Opening a file *)

Section opening.
Context {S : Type} {KI : KernelIO S} {KS : KernelIOSpec S}.
Context (σ : static) (fs : filesystem) (fuel : nat) (uninit : ext2_inode).
Implicit Types s : S.

Abbreviation e := (root_fs fs).
Abbreviation bs := (block_size (root_fs fs)).

(** The lookup of the path in a copy of the vector. *)
Lemma lookup_spec s Hp B T v ls r : kheap s σ Hp B T → mounted σ e Hp → kvec Hp v ls → Forall name_ok ls → max_elem v = 20 →
  num_elem v = Z.of_nat (length ls) → (length ls < 20)%nat → walk (dbyte σ) bs (dlimit σ) (root_inode e) ls r →
  (128 ≤ fuel)%nat → 36000 ≤ B →
  ∃ arg s1 s2 s3, kvector_copy s v = Ok (arg, s1) ∧
    get_inode_path fuel e s1 arg = Ok (match r with Some n => n | None => invalid_inode e end, s2) ∧
    kvector_delete s2 arg = Ok s3 ∧ keeps σ s s3 ∧ kheap s3 σ Hp (B - 36000) None.
Proof.
  intros HK Hm HV Hok Hmx Hnu Hlen Hw Hf HB. assert (Hc : vec_cost 20 = 5532 ∧ step_cost = 1476) by done.
  destruct (kvector_copy_spec σ s Hp B T v ls HK HV Hok) as (arg & s1 & Hp1 & E1 & Hk1 & HK1 & Hsub & HV1 & Em & En & Hrem);
    rewrite ?Hmx; try lia. rewrite Hmx in *.
  assert (Hm1 : mounted σ e Hp1) by (destruct Hm; split; try done; by eapply lookup_weaken).
  destruct (path_loop_spec σ e Hp1 arg ls fuel Hm1 HV1 Hok Hf ls (root_inode e) r Hw s1 _ _ 0 HK1) as (s2 & E2 & Hk2 & HK2);
    [done|lia|].
  destruct (kvector_delete_spec σ s2 Hp1 _ _ arg ls HK2 HV1) as (s3 & E3 & Hk3 & HK3). rewrite Hrem in HK3.
  exists arg, s1, s2, s3. split_and!; [done| |done|by do 2 (eapply keeps_trans; [eassumption|])|].
  - unfold get_inode_path, kvector_length. rewrite En, Hnu, s32_id, Nat2Z.id by (unfold is_s32; lia). done.
  - eapply kheap_weaken; [|exact HK3]. lia.
Qed.

(** The [File] of an inode: a copy of the path, then the end of [path]. *)
Lemma make_file_spec s Hp0 Hp B T v ls n : kheap s σ Hp B T → kvec Hp v ls → Forall name_ok ls → max_elem v = 20 →
  remove (vblocks v) Hp = Hp0 → Hp0 ⊆ Hp → 6000 ≤ B →
  ∃ p f s1 s2 Hp', new_File fs s v n = Ok (p, f, s1) ∧ kvector_delete s1 v = Ok s2 ∧ keeps σ s s2 ∧
    kheap s2 σ Hp' (B - 6000) None ∧ Hp0 ⊆ Hp' ∧ kvec Hp' (file_path f) ls ∧
    f_inode f = n ∧ f_is_valid f = true ∧ f_fs f = Some fs.
Proof.
  intros HK HV Hok Hmx Hrem Hsub HB. assert (Hc : vec_cost 20 = 5532 ∧ cost 148 = 156) by done. unfold new_File, sizeof_File.
  destruct (kheap_new s σ Hp B T 148 HK ltac:(lia) ltac:(lia)) as (p & s1 & -> & Hp1 & HK1 & Hk1). cbn [mbind res_bind].
  apply (kheap_drop _ _ _ _ _ p) in HK1. rewrite delete_insert_id in HK1 by done.
  destruct (kvector_copy_spec σ s1 Hp _ _ v ls HK1 HV Hok) as (fp & s2 & Hp2 & -> & Hk2 & HK2 & Hs2 & HV2 & _ & _ & Hrem2);
    rewrite ?Hmx; try lia. cbn [mbind res_bind].
  destruct (kvector_delete_spec σ s2 Hp2 _ _ v ls HK2 (kvec_weaken _ _ _ _ Hs2 HV)) as (s3 & E3 & Hk3 & HK3).
  assert (Hdis : ∀ q, q ∈ vblocks fp → Hp !! q = None).
  { intros q Hq. rewrite <- Hrem2, remove_lookup, decide_True by done. done. }
  eexists p, _, s2, s3, (remove (vblocks v) Hp2). split; [reflexivity|]. split_and!; try done.
  - by do 2 (eapply keeps_trans; [eassumption|]).
  - eapply kheap_weaken; [|exact HK3]. rewrite Hmx. lia.
  - apply map_subseteq_spec. intros q x Eq. rewrite remove_lookup, decide_False.
    + eapply lookup_weaken; [|exact Hs2]. by eapply lookup_weaken.
    + intros Hq. rewrite <- Hrem, remove_lookup, decide_True in Eq by done. done.
  - cbn [file_path]. apply (kvec_remove σ s2 Hp2 _ _ fp ls _ HK2); [|done]. intros q Hq Hq'.
    destruct (vblocks_owned _ _ _ _ HV Hq') as [? E]. by rewrite (Hdis q Hq) in E.
Qed.

Lemma fopen_spec s Hp B T pn ls r : kheap s σ Hp B T → mounted σ e Hp → path_in pn Hp ls → ls ≠ [] →
  Forall component_ok ls → (length ls < 20)%nat → walk (dbyte σ) bs (dlimit σ) (root_inode e) ls r →
  (128 ≤ fuel)%nat → (length (path_chars ls) ≤ fuel)%nat → 60000 ≤ B →
  ∃ p f s' Hp', fopen fuel fs s pn uninit = Ok (p, f, s') ∧ keeps σ s s' ∧ kheap s' σ Hp' (B - 60000) None ∧ Hp ⊆ Hp' ∧
    match r with
    | Some n => f_is_valid f = true ∧ f_inode f = n ∧ f_fs f = Some fs ∧ kvec Hp' (file_path f) ls
    | None => f_is_valid f = false
    end.
Proof.
  intros HK Hm Hin Hne Hok Hlen Hw Hf Hf2 HB. assert (Hc : cost (20 * 8 + 4) = 172 ∧ cost 148 = 156) by done.
  assert (Hnm : Forall name_ok ls) by (eapply Forall_impl; [exact Hok|]; by intros x []).
  unfold fopen, MAX_FILE_NR.
  destruct (kvector_new_spec σ s Hp B T 20 HK ltac:(lia) ltac:(lia)) as
    (v & s1 & bz & -> & Hvn & Hk1 & HK1 & HV1 & Hmx & Hnu & Hcl). cbn [mbind res_bind].
  unfold new_File_invalid, sizeof_File.
  destruct (kheap_new s1 σ _ _ _ 148 HK1 ltac:(lia) ltac:(lia)) as (pi & s2 & -> & Hpi & HK2 & Hk2). cbn [mbind res_bind].
  apply (kheap_drop _ _ _ _ _ pi) in HK2. rewrite delete_insert_id in HK2 by done.
  assert (Hsl : load8 (io_mem s2) (pstring pn) = 47).
  { rewrite <- (Z.add_0_r (pstring pn)). change 0 with (Z.of_nat 0). eapply (path_byte σ pn); [exact HK2| |].
    - eapply kstr_weaken; [by apply insert_subseteq|exact Hin].
    - destruct ls; [done|]. by rewrite path_chars_cons. }
  rewrite Hsl. cbn [Z.eqb Pos.eqb negb].
  destruct (parse_spec σ pn Hp _ _ s2 v ls fuel bz HK2) as (v2 & s3 & Hp3 & -> & Hk3 & HK3 & [HV3 Hmx3 Hnu3 Hsub3 _ Hrem3]);
    try done; try lia.
  cbn [mbind res_bind]. unfold set_nr_elem. rewrite Hmx3, (proj2 (Z.ltb_lt _ _)) by lia.
  set (v3 := mkKvector (elems v2) (cells v2) 20 (Z.of_nat (length ls))).
  assert (HV3' : kvec Hp3 v3 ls) by (unfold v3; rewrite <- Hmx3; by apply kvec_num).
  assert (Hm3 : mounted σ e Hp3) by (destruct Hm; split; try done; by eapply lookup_weaken).
  destruct (lookup_spec s3 Hp3 _ _ v3 ls r HK3 Hm3 HV3' Hnm) as (arg & s4 & s5 & s6 & -> & E5 & E6 & Hk6 & HK6); try done; try lia.
  cbn [mbind res_bind]. rewrite E5. cbn [mbind res_bind]. rewrite E6. cbn [mbind res_bind].
  assert (Hkk : keeps σ s s6) by by do 3 (eapply keeps_trans; [eassumption|]).
  destruct r as [n|].
  - assert (Hv : is_valid n = true) by (destruct ls; [done|]; by eapply walk_valid). rewrite Hv. cbn [negb].
    destruct (make_file_spec s6 Hp Hp3 _ _ v3 ls n HK6 HV3' Hnm) as
      (p & f & s7 & s8 & Hp8 & -> & E8 & Hk8 & HK8 & Hsub8 & HV8 & Ei & Ev & Ef); try done; try lia.
    cbn [mbind res_bind]. rewrite E8. exists p, f, s8, Hp8. split_and!; try done; [by eapply keeps_trans|].
    eapply kheap_weaken; [|exact HK8]. lia.
  - rewrite (mt_invalid _ _ _ Hm). cbn [negb].
    destruct (kvector_delete_spec σ s6 Hp3 _ _ v3 ls HK6 HV3') as (s7 & -> & Hk7 & HK7). cbn [mbind res_bind].
    change (vblocks v3) with (vblocks v2) in HK7. rewrite Hrem3 in HK7.
    eexists pi, _, s7, Hp. split; [reflexivity|]. split_and!; try done; [by eapply keeps_trans|].
    eapply kheap_weaken; [|exact HK7]. lia.
Qed.

End opening.
(** ** Theorems *)

Section theorems.
Context {S : Type} {KI : KernelIO S} {KS : KernelIOSpec S}.

(** C22: [File::read] returns the bytes of the file. For a request inside of the whole
    blocks of the file that fits into one block or is larger than a block, the bytes
    [addr .. addr+n-1] of the file, as the block map finds them on the disk, arrive at
    the target (memory outside of the heap or a heap block), nothing else changes, and
    the heap is as before. *)
Theorem File_read_correct (σ : static) (f : File) (fs : filesystem) (t : option Z) (s : S) Hp B T addr (n : nat) d :
  f_fs f = Some fs → size_ok (root_fs fs) → i_size (f_inode f) < 4294967296 →
  kheap s σ Hp B T → read_cost fs ≤ B → 0 ≤ addr → addr + Z.of_nat n < 4294967296 → (0 < n)%nat →
  Z.of_nat n < 2147483648 → 0 ≤ d → d + Z.of_nat n < 4294967296 →
  block_size (root_fs fs) < Z.of_nat n ∨ addr `mod` block_size (root_fs fs) + Z.of_nat n ≤ block_size (root_fs fs) →
  (∀ x, addr ≤ x < addr + Z.of_nat n → whole σ f fs x) → target_ok t σ Hp d (Z.of_nat n) →
  ∃ s', File_read f s addr (Z.of_nat n) d = Ok s' ∧ kheap s' σ (put t Hp d (file_bytes σ f fs addr n)) B None ∧
    wrote t σ s s' d (file_bytes σ f fs addr n).
Proof. intros. by eapply File_read_spec. Qed.

(** C40: A request of at most a block that crosses a block boundary gets wrong data:
    because [addr&~block_mask+block_size] is 0, the bytes behind the boundary are those
    of the beginning of the file. *)
Theorem File_read_straddle_wrong (σ : static) (f : File) (fs : filesystem) (t : option Z) (s : S) Hp B T addr (n : nat) d :
  f_fs f = Some fs → size_ok (root_fs fs) → i_size (f_inode f) < 4294967296 →
  kheap s σ Hp B T → cost (block_size (root_fs fs) * 2) + cost (block_size (root_fs fs) + 1024) ≤ B → is_u32 addr →
  Z.of_nat n ≤ block_size (root_fs fs) < addr `mod` block_size (root_fs fs) + Z.of_nat n →
  whole σ f fs addr → whole σ f fs 0 → target_ok t σ Hp d (Z.of_nat n) →
  let k := Z.to_nat (block_size (root_fs fs) - addr `mod` block_size (root_fs fs)) in
  let l := file_bytes σ f fs addr k ++ file_bytes σ f fs 0 (n - k) in
  ∃ s', File_read f s addr (Z.of_nat n) d = Ok s' ∧ kheap s' σ (put t Hp d l) B None ∧ wrote t σ s s' d l.
Proof. intros. by eapply File_read_straddle_spec. Qed.


End theorems.
End FileSystem.
