(* ===== verification/FsImage.v ===== *)
(** * A file system on a disk

    A small ext2 image with the file [/a], on a drive of [IdeHdd.v], and a kernel
    state with the ATA driver and a heap: the theorems about [Ext2] and [FileSystem]
    apply to it, through the instance of [AtaIO.v]. *)

From S2P Require Import Prelude Memory Ports IdeHdd Kmalloc Ata KernelIO AtaIO Utilclass Ext2 FileSystem.

Module FsImage.
Import Kmalloc Ata AtaIO Utilclass Ext2 FileSystem.

(** ** The image *)

Definition le16 (v : Z) : list Z := [v `mod` 256; v / 256].
Definition le32 (v : Z) : list Z := le16 (v `mod` 65536) ++ le16 (v / 65536).

Fixpoint write_bytes (a : Z) (l : list Z) (m : gmap Z Z) : gmap Z Z :=
  match l with
  | [] => m
  | b :: l => write_bytes (a + 1) l (<[a := b]> m)
  end.

(** An executable with one segment of eight bytes at 0x40000000. *)
Definition elf_image : list Z :=
  [127; 69; 76; 70; 1; 1; 1; 0; 0; 0; 0; 0; 0; 0; 0; 0] ++ le16 2 ++ le16 3 ++ le32 1 ++ le32 1073741826 ++
  le32 52 ++ le32 84 ++ le32 0 ++ le16 52 ++ le16 32 ++ le16 1 ++ le16 40 ++ le16 1 ++ le16 0 ++
  le32 1 ++ le32 124 ++ le32 1073741824 ++ le32 1073741824 ++ le32 8 ++ le32 8 ++ le32 5 ++ le32 4096 ++
  replicate 40 0 ++ [144; 144; 235; 254; 1; 2; 3; 4].

(** Super block, group descriptor, inodes 2, 11 and 12, the root directory, the two blocks
    of [/a], the executable. *)
Definition patches : list (Z * list Z) :=
  [ (33280 + 20, le32 1 ++ le32 0); (33280 + 32, le32 8192); (33280 + 40, le32 16); (33280 + 56, le16 61267);
    (34304 + 8, le32 5);
    (37504, le16 16877 ++ le16 0 ++ le32 1024); (37504 + 40, le32 7);
    (38656, le16 33188 ++ le16 0 ++ le32 2048); (38656 + 40, le32 8 ++ le32 9);
    (38784, le16 33188 ++ le16 0 ++ le32 1024); (38784 + 40, le32 10); (42496, elf_image);
    (39424, le32 2 ++ le16 12 ++ [1; 2; 46]); (39436, le32 2 ++ le16 12 ++ [2; 2; 46; 46]);
    (39448, le32 11 ++ le16 1000 ++ [1; 1; 97]);
    (40448, [104; 101; 108; 108; 111]); (41472, [119; 111; 114; 108; 100]) ].

Definition image : gmap Z Z := foldr (λ '(a, l) m, write_bytes a l m) ∅ patches.

Definition image_word (k : Z) : Z := default 0 (image !! k) + default 0 (image !! (k + 1)) * 256.

Definition image_sector (k : Z) : list Z := (λ i : nat, image_word (512 * k + 2 * Z.of_nat i)) <$> seq 0 256.

Definition image_media : gmap (Z * Z) (list Z) :=
  list_to_map ((λ k, ((0, k), image_sector k)) <$> seqZ 0 86).

(** ** The kernel *)

Definition ex_blocks : list (Z * bool) := [(131048, false); (24, true)].

(** The heap holds the string ["/a"]. *)
Definition ex_hp : heap :=
  let h := ex_heap ex_blocks 4096 in
  with_mem h (store8 (store8 (store8 (h_mem h) 135152 47) 135153 97) 135154 0).

Definition ex_bus : IdeHdd.disk := IdeHdd.mkDisk IdeHdd.Idle ∅ image_media ∅.

Definition ex_kernel : ata (D := IdeHdd.disk) :=
  mkAta ex_bus ex_hp 0 1 [mkChan 496 1012 0 0; mkChan 368 884 0 0]
    [mkDev 1 0 0 0 0 512 0 512 []; dev0; dev0; dev0] [] 0 0.

Definition ex_static : ata_static := mkStatic 4096 131072 0 image_media 43520.
Definition ex_fuel : nat := Z.to_nat 20000.
Definition ex_uninit : ext2_inode := mkInode 0 0 0 0 0 0 0 0 0 0 0 0 [] 0 0 0 0 [].
Definition ex_path : kstring := mkKstring 135152 2.
Definition ex_held : gmap Z (list Z) := {[ 135152 := [47; 97; 0] ]}.

Definition sector_check (k : Z) : bool :=
  let l := IdeHdd.sector_at (st_disk ex_static) 0 k in
  (length l =? 256)%nat && forallb (λ w, (0 <=? w) && (w <? 65536)) l.

Lemma sectors_checked : forallb sector_check (seqZ 0 86) = true.
Proof. vm_compute. reflexivity. Qed.

Lemma ex_sectors k : 0 ≤ k ≤ 43520 / 512 →
  length (IdeHdd.sector_at (st_disk ex_static) 0 k) = 256%nat ∧ Forall is_u16 (IdeHdd.sector_at (st_disk ex_static) 0 k).
Proof.
  intros Hk. assert (Hc : sector_check k = true).
  { pose proof sectors_checked as Hall. rewrite forallb_forall in Hall. apply Hall, list_elem_of_In, elem_of_seqZ.
    change (43520 / 512) with 85 in Hk. lia. }
  unfold sector_check in Hc. apply andb_prop in Hc as [Hl Hw]. apply Nat.eqb_eq in Hl. split; [done|].
  apply Forall_forall. intros w Hin. rewrite forallb_forall in Hw. specialize (Hw w (proj1 (list_elem_of_In _ _) Hin)).
  unfold is_u16. lia.
Qed.

Lemma ex_inv : ata_inv ex_fuel ex_kernel ex_static ex_blocks.
Proof.
  split; [|unfold ex_blocks; heap_by_compute|reflexivity| |reflexivity|reflexivity| |reflexivity|cbn; lia|vm_compute; discriminate|apply ex_sectors].
  - split; [split; [done|cbn; lia]| |done|done]. split; [|done]. split; try done. by left.
  - by repeat split.
  - unfold ex_fuel. rewrite Z2Nat.id by lia. cbn. lia.
Qed.

#[export] Instance ex_IO : KernelIO (ata (D := IdeHdd.disk)) := ata_KernelIO ex_fuel 0.
#[export] Instance ex_Spec : KernelIOSpec (ata (D := IdeHdd.disk)) := ata_KernelIOSpec ex_fuel 0.

Lemma ex_kheap : kheap (KS := ex_Spec) ex_kernel ex_static ex_held 131040 None.
Proof.
  exists ex_blocks. split; [exact ex_inv|]. split; [vm_compute; discriminate|]. split; [|done].
  intros p l Hl. unfold ex_held in Hl. apply lookup_singleton_Some in Hl as [<- <-].
  exists 16. split; [right; left; done|]. split; [cbn; lia|].
  intros i b Hi. do 3 (destruct i as [|i]; [injection Hi as <-; vm_compute; reflexivity|]). done.
Qed.

Abbreviation ex_byte := (dbyte (KernelIOSpec := ex_Spec) ex_static).

Lemma ex_image_ok : image_ok (KS := ex_Spec) ex_static.
Proof.
  split.
  - left. vm_compute. reflexivity.
  - vm_compute. reflexivity.
  - vm_compute. discriminate.
  - split; [vm_compute; split; discriminate|]. split; vm_compute; discriminate.
Qed.

(** ** Directories of the image *)

Definition ex_entries : list (Z * list Z) := [(2, [46]); (2, [46; 46]); (11, [97])].

Lemma name_ok_compute l : forallb (λ b, (0 <? b) && (b <? 256)) l = true → (length l ≤ 255)%nat → name_ok l.
Proof.
  intros Hb Hl. split; [|done]. apply Forall_forall. intros b Hin. rewrite forallb_forall in Hb.
  specialize (Hb b (proj1 (list_elem_of_In _ _) Hin)). lia.
Qed.

Lemma ex_dir : dir_of ex_byte 1024 43520 (inode_at ex_byte 1024 2) ex_entries.
Proof.
  split; [vm_compute; discriminate|]. split; [vm_compute; discriminate|].
  unfold ex_entries. cbn [entries_at].
  split_and!; try (vm_compute; reflexivity); try (vm_compute; discriminate); apply name_ok_compute; try reflexivity; cbn; lia.
Qed.

Lemma ex_walk : walk ex_byte 1024 43520 (inode_at ex_byte 1024 2) [[97]] (Some (inode_at ex_byte 1024 11)).
Proof.
  eapply (walk_step _ _ _ _ _ _ ex_entries 11); [vm_compute; reflexivity|exact ex_dir|reflexivity| |vm_compute; reflexivity|apply walk_end].
  split; [vm_compute; split; discriminate|]. split; vm_compute; discriminate.
Qed.

(** ** The theorems on the image *)


(** The mounted file system and the state after mounting. *)
Lemma ex_mounted : ∃ e s Hp, kheap (KS := ex_Spec) s ex_static Hp 129792 None ∧ ex_held ⊆ Hp ∧
  mounted (KS := ex_Spec) ex_static e Hp ∧ block_size e = 1024 ∧ root_inode e = inode_at ex_byte 1024 2.
Proof.
  destruct (Ext2_new_spec (KS := ex_Spec) ex_static ex_kernel ex_held 131040 None ex_uninit ex_kheap ex_image_ok)
    as (e & s' & Hp' & _ & _ & HK & Hsub & Hm & Eb & Er); [lia|].
  assert (E1024 : sb_block_size ex_byte sb_addr = 1024) by (vm_compute; reflexivity).
  exists e, s', Hp'. rewrite E1024 in Eb, Er. split; [exact HK|]. split; [exact Hsub|]. split; [exact Hm|]. by split.
Qed.


(** The file [/a]. *)
Definition ex_file (e : ext2) : File := mkFile (Some (mkFS e)) kvector_empty (inode_at ex_byte 1024 11) true.

Lemma ex_whole e x : block_size e = 1024 → 0 ≤ x < 2048 → whole (KS := ex_Spec) ex_static (ex_file e) (mkFS e) x.
Proof.
  intros Eb Hx. unfold whole. cbn [root_fs ex_file f_inode]. rewrite Eb.
  assert (Hq : x / 1024 = 0 ∨ x / 1024 = 1) by (Z.div_mod_to_equations; lia).
  destruct Hq as [-> | ->]; (split; [vm_compute; discriminate|]); split_and!; vm_compute; (discriminate || done).
Qed.

Lemma ex_size : i_size (inode_at ex_byte 1024 11) < 4294967296.
Proof. vm_compute. reflexivity. Qed.

(** Memory behind the heap. *)
Lemma ex_target (n : Z) : target_ok (KS := ex_Spec) None ex_static ∅ 1000000 n.
Proof. split; [lia|]. intros x Hx. right. cbn. lia. Qed.

Lemma File_read_correct_witness :
  ∃ e s s', File_read (KI := ex_IO) (ex_file e) s 3 1500 1000000 = Ok s' ∧
    load8 (io_mem s') 1000000 = 108 ∧ load8 (io_mem s') 1001021 = 119.
Proof.
  destruct ex_mounted as (e & s & Hp & HK & Hsub & Hm & Eb & Er).
  destruct (File_read_correct (KS := ex_Spec) ex_static (ex_file e) (mkFS e) None s Hp 129792 None 3 1500 1000000
    eq_refl (or_introl Eb) ex_size HK) as (s' & E & _ & Hw & _); cbn [root_fs]; rewrite ?Eb; [| | | | | | | | |exact (ex_target _)|].
  - unfold read_cost. cbn [root_fs]. rewrite Eb. vm_compute. discriminate.
  - lia.
  - lia.
  - lia.
  - lia.
  - lia.
  - lia.
  - left. lia.
  - intros x Hx. apply ex_whole; [done|]. lia.
  - exists e, s, s'. split; [exact E|]. split.
    + apply (Hw 0%nat). unfold file_bytes. rewrite bytes_of_lookup by lia.
      cbn [root_fs ex_file f_inode]. rewrite Eb. vm_compute. reflexivity.
    + replace 1001021 with (1000000 + Z.of_nat (Z.to_nat 1021)) by lia. apply Hw.
      unfold file_bytes. rewrite bytes_of_lookup by lia. cbn [root_fs ex_file f_inode]. rewrite Eb. vm_compute. reflexivity.
Defined.

Lemma File_read_straddle_wrong_witness :
  ∃ e s s', File_read (KI := ex_IO) (ex_file e) s 1022 4 1000000 = Ok s' ∧
    load8 (io_mem s') 1000002 = 104 ∧ file_byte ex_byte 1024 (f_inode (ex_file e)) 1024 = 119.
Proof.
  destruct ex_mounted as (e & s & Hp & HK & Hsub & Hm & Eb & Er).
  destruct (File_read_straddle_wrong (KS := ex_Spec) ex_static (ex_file e) (mkFS e) None s Hp 129792 None 1022 4 1000000
    eq_refl (or_introl Eb) ex_size HK) as (s' & E & _ & Hw & _); cbn [root_fs]; rewrite ?Eb; [| | | | |exact (ex_target _)|].
  - vm_compute. discriminate.
  - unfold is_u32. lia.
  - vm_compute. split; [discriminate|reflexivity].
  - apply ex_whole; [done|lia].
  - apply ex_whole; [done|lia].
  - exists e, s, s'. split; [exact E|]. split; [|vm_compute; reflexivity].
    apply (Hw 2%nat). unfold file_bytes. cbn [root_fs ex_file f_inode]. rewrite Eb. vm_compute. reflexivity.
Defined.

Lemma read_block_pos_correct_witness :
  ∃ e s buf s', read_block_pos (KI := ex_IO) e s 1024 buf (inode_at ex_byte 1024 11) = Ok (true, s') ∧
    load8 (io_mem s') buf = 119.
Proof.
  destruct ex_mounted as (e & s & Hp & HK & Hsub & Hm & Eb & Er).
  destruct (kheap_new (KS := ex_Spec) s ex_static Hp 129792 None 1024 HK) as (buf & s1 & _ & Hb & HK1 & _);
    [lia|vm_compute; discriminate|].
  destruct (read_block_pos_correct (KS := ex_Spec) ex_static e s1 _ _ _ buf 0 _ 1024 (inode_at ex_byte 1024 11)
    (or_introl Eb) HK1 (lookup_insert_eq _ _ _)) as (s' & E & _ & HK'); [| | | |exact ex_size| |].
  - rewrite Eb, bytes_of_length. done.
  - rewrite Eb. vm_compute. discriminate.
  - lia.
  - rewrite Eb. vm_compute. discriminate.
  - rewrite Eb. split_and!; vm_compute; (discriminate || done).
  - rewrite Z.add_0_r in E. exists e, s1, buf, s'. split; [exact E|].
    rewrite <- (Z.add_0_r buf). change 0 with (Z.of_nat 0). eapply kheap_byte; [exact HK'|apply lookup_insert_eq|].
    rewrite Eb. rewrite splice_in by (unfold dbytes; rewrite !bytes_of_length; lia).
    unfold dbytes. rewrite bytes_of_lookup by lia. vm_compute. reflexivity.
Defined.
End FsImage.
