(* ===== verification/ElfLoader.v ===== *)
(** * The ELF loader ([src/kernel/elf_loader.cpp], [src/kernel/exec.cpp],
    [src/include/os/elf.h])

    The loader reads the headers of a file through [FileSystem.v], maps the pages of
    every loadable segment with [VarMem.v] and reads the segment to its address. The
    state is the memory and the devices ([KernelIO]), as the running process sees
    them, and the page tables with the frame allocator. The local variable [header] is
    at the address [hdr] of the kernel stack. *)

From S2P Require Import Prelude Memory VarMem KString KernelIO Utilclass Ext2 FileSystem.

Module ElfLoader.
Import VarMem Ext2 FileSystem.

(** ** [elf.h] *)

Definition ET_EXEC : Z := 2.
Definition EM_386 : Z := 3.
Definition PT_LOAD : Z := 1.

Definition sizeof_Ehdr : Z := 52.
Definition sizeof_Phdr : Z := 32.
Definition sizeof_Shdr : Z := 40.

(** [Elf32_Ehdr] at [p]. *)
Definition e_ident (f : Z → Z) (p i : Z) : Z := f (p + i).
Definition e_type (f : Z → Z) (p : Z) : Z := get16 f (p + 16).
Definition e_machine (f : Z → Z) (p : Z) : Z := get16 f (p + 18).
Definition e_entry (f : Z → Z) (p : Z) : Z := get32 f (p + 24).
Definition e_phoff (f : Z → Z) (p : Z) : Z := get32 f (p + 28).
Definition e_shoff (f : Z → Z) (p : Z) : Z := get32 f (p + 32).
Definition e_phnum (f : Z → Z) (p : Z) : Z := get16 f (p + 44).
Definition e_shnum (f : Z → Z) (p : Z) : Z := get16 f (p + 48).

(** [Elf32_Phdr] at [p]. *)
Definition p_type (f : Z → Z) (p : Z) : Z := get32 f p.
Definition p_offset (f : Z → Z) (p : Z) : Z := get32 f (p + 4).
Definition p_vaddr (f : Z → Z) (p : Z) : Z := get32 f (p + 8).
Definition p_filesz (f : Z → Z) (p : Z) : Z := get32 f (p + 16).
Definition p_memsz (f : Z → Z) (p : Z) : Z := get32 f (p + 20).

(** The identification the loader compares with: [ELFMAG], 32 bit, little endian,
    version 1, padding. *)
Definition x86_32_ident : list Z := [127; 69; 76; 70; 1; 1; 1] ++ replicate 9 0.

Section loader.
Context {S : Type} {KI : KernelIO S} {A : Type} `{!FrameAlloc A}.

Record loader := mkLoader { l_io : S; l_vm : vm A }.

Abbreviation byte st := (load8 (io_mem (l_io st))).

(** The loop over [sizeof(header.e_ident)] bytes. *)
Definition ident_ok (st : loader) (hdr : Z) : bool :=
  forallb (λ '(i, b), e_ident (byte st) hdr i =? b) (zip (seqZ 0 16) x86_32_ident).

(** [case PT_LOAD]: the pages of the segment are mapped and [p_memsz] bytes are read. *)
Definition load_segment (f : File) (st : loader) (cr3 phdr : Z) : res loader :=
  v ← enableSpace (l_vm st) (p_vaddr (byte st) phdr) (p_memsz (byte st) phdr) cr3 userpage;
  let st := mkLoader (l_io st) v in
  s ← File_read f (l_io st) (p_offset (byte st) phdr) (p_memsz (byte st) phdr) (p_vaddr (byte st) phdr);
  Ok (mkLoader s v).

(** [for(int i=0;i<header.e_phnum;i++)]: [phdr] moves on with [i]. *)
Fixpoint load_loop (fuel : nat) (f : File) (st : loader) (cr3 hdr phdr i : Z) : res loader :=
  match fuel with
  | O => NoFuel
  | Datatypes.S fuel' =>
    if negb (i <? e_phnum (byte st) hdr) then Ok st else
    st ← (if p_type (byte st) phdr =? PT_LOAD then load_segment f st cr3 phdr else Ok st);
    load_loop fuel' f st cr3 hdr (u32 (phdr + sizeof_Phdr)) (i + 1)
  end.

(** [after_exec]: the program counter in the frame of the process whose kernel stack
    ends at [stack_top]. *)
Definition set_pc (st : loader) (stack_top ret_addr : Z) : loader :=
  mkLoader (io_set (l_io st) (store32 (io_mem (l_io st)) (u32 (u32 (stack_top - 68) + 48)) ret_addr)) (l_vm st).

(** [bool load_elf_executable(File *file)]. *)
Definition load_elf_executable (fuel : nat) (f : File) (st : loader) (cr3 stack_top hdr : Z) : res (bool * loader) :=
  s ← File_read f (l_io st) 0 sizeof_Ehdr hdr;
  let st := mkLoader s (l_vm st) in
  if negb (ident_ok st hdr) then Ok (false, st) else
  if negb (e_type (byte st) hdr =? ET_EXEC) then Ok (false, st) else
  if negb (e_machine (byte st) hdr =? EM_386) then Ok (false, st) else
  let phoff := e_phoff (byte st) hdr in
  let shoff := e_shoff (byte st) hdr in
  '(phdr, s) ← io_new (l_io st) (sizeof_Phdr * e_phnum (byte st) hdr);
  let st := mkLoader s (l_vm st) in
  '(shdr, s) ← io_new (l_io st) (sizeof_Shdr * e_shnum (byte st) hdr);
  let st := mkLoader s (l_vm st) in
  s ← File_read f (l_io st) phoff (sizeof_Phdr * e_phnum (byte st) hdr) phdr;
  let st := mkLoader s (l_vm st) in
  s ← File_read f (l_io st) shoff (sizeof_Shdr * e_shnum (byte st) hdr) shdr;
  let st := mkLoader s (l_vm st) in
  st ← load_loop fuel f st cr3 hdr phdr 0;
  Ok (true, set_pc st stack_top (e_entry (byte st) hdr)).

(** [int exec(File *file)]: the result of the loader is dropped and no value is
    returned. *)
Definition exec (fuel : nat) (f : File) (st : loader) (cr3 stack_top hdr : Z) : res loader :=
  '(_, st) ← load_elf_executable fuel f st cr3 stack_top hdr;
  Ok st.

End loader.
Arguments loader S A : clear implicits.

(** ** Specification *)

Section spec.
Context {S : Type} {KI : KernelIO S} {KS : KernelIOSpec S} {A : Type} `{!FrameAlloc A}.
Context (σ : static) (f : File) (fs : filesystem).
Context (Hfs : f_fs f = Some fs) (Hbs : size_ok (root_fs fs)) (Hsize : i_size (f_inode f) < 4294967296).
Context (cr3 hdr : Z).
Implicit Types st : loader S A.

Abbreviation bs := (block_size (root_fs fs)).
Abbreviation byte st := (load8 (io_mem (l_io st))).

(** The bytes of the file. *)
Definition fbyte : Z → Z := file_byte (dbyte σ) bs (f_inode f).

(** A request [File::read] serves. *)
Record can_read (addr n : Z) : Prop := {
  cr_addr : 0 ≤ addr ∧ addr + n < 4294967296;
  cr_size : 0 < n < 2147483648;
  cr_fit : bs < n ∨ addr `mod` bs + n ≤ bs;
  cr_whole : ∀ x, addr ≤ x < addr + n → whole σ f fs x
}.

Definition phnum : Z := e_phnum fbyte 0.
Definition shnum : Z := e_shnum fbyte 0.
Definition phoff : Z := e_phoff fbyte 0.

(** Segment [i] of the file. *)
Definition seg (i : Z) : Z := phoff + 32 * i.
Definition loadable (i : Z) : Prop := p_type fbyte (seg i) = PT_LOAD.
Definition vaddr (i : Z) : Z := p_vaddr fbyte (seg i).
Definition memsz (i : Z) : Z := p_memsz fbyte (seg i).
Definition offset (i : Z) : Z := p_offset fbyte (seg i).
Definition in_seg (i x : Z) : Prop := vaddr i ≤ x < vaddr i + memsz i.

(** Frames that suffice for the segments from [i] on: two for every page. *)
Definition seg_frames (i : Z) : nat :=
  if p_type fbyte (seg i) =? PT_LOAD then 2 * Z.to_nat ((vaddr i + memsz i + 4095) / 4096 - vaddr i / 4096) else 0.

Fixpoint frames (k : nat) (i : Z) : nat :=
  match k with
  | O => 0
  | Datatypes.S k => seg_frames i + frames k (i + 1)
  end.

(** The headers name an executable for this machine. *)
Definition recognised : bool :=
  forallb (λ '(i, b), fbyte i =? b) (zip (seqZ 0 16) x86_32_ident) &&
  (e_type fbyte 0 =? ET_EXEC) && (e_machine fbyte 0 =? EM_386).

(** The file has a header and the loader has room for it. *)
Definition header_ok : Prop :=
  can_read 0 52 ∧ 0 < hdr ∧ hdr + 52 < 4294967296 ∧ ∀ x, hdr ≤ x < hdr + 52 → outside σ x.

(** The file is an executable the loader can serve: proper headers, every header table
    and segment readable, segments apart from each other, from the heap and from the
    loader's own variable. *)
Record elf_ok : Prop := {
  eo_type : recognised = true;
  eo_header : header_ok;
  eo_tables : can_read phoff (32 * phnum) ∧ can_read (e_shoff fbyte 0) (40 * shnum);
  eo_seg : ∀ i, 0 ≤ i < phnum → loadable i →
    can_read (offset i) (memsz i) ∧ 0 < vaddr i ∧ vaddr i + memsz i + 4095 < 4294967296 ∧
    ∀ x, in_seg i x → outside σ x ∧ ¬ (hdr ≤ x < hdr + 52);
  eo_apart : ∀ i j x, 0 ≤ i < phnum → 0 ≤ j < phnum → loadable i → loadable j → i ≠ j → in_seg i x → ¬ in_seg j x
}.

(** Segment [i] is in memory and mapped. *)
Definition seg_loaded st (i : Z) : Prop := loadable i → ∀ x, in_seg i x →
  byte st x = fbyte (offset i + (x - vaddr i)) ∧ is_Some (translate (vm_mem (l_vm st)) cr3 x).

Context (Hok : elf_ok).

Lemma fbyte_range x : 0 ≤ fbyte x < 256.
Proof. apply dbyte_range. Qed.

(** The memory behind a transfer. *)
Lemma read_to_memory s Hp B T addr n d : kheap s σ Hp B T → read_cost fs ≤ B → can_read addr n → 0 < d →
  d + n < 4294967296 → (∀ x, d ≤ x < d + n → outside σ x) →
  ∃ s', File_read f s addr n d = Ok s' ∧ kheap s' σ Hp B None ∧
    (∀ x, d ≤ x < d + n → load8 (io_mem s') x = fbyte (addr + (x - d))) ∧
    (∀ x, outside σ x → ¬ (d ≤ x < d + n) → load8 (io_mem s') x = load8 (io_mem s) x).
Proof.
  intros HK HB [[Ha Ha2] [Hn Hn2] Hfit Hw] Hd Hd2 Ho.
  destruct (File_read_spec σ f fs Hfs Hbs Hsize None s Hp B T addr (Z.to_nat n) d) as (s' & E & HK' & Hwr & Hsame);
    rewrite ?Z2Nat.id by lia; try done; try lia.
  rewrite Z2Nat.id in E by lia. exists s'. split_and!; [done|done| |].
  - intros x Hx. replace x with (d + Z.of_nat (Z.to_nat (x - d))) at 1 by lia. apply Hwr.
    unfold file_bytes. rewrite bytes_of_lookup by lia. do 2 f_equal. lia.
  - intros x Hox Hx. apply Hsame; [done|]. unfold file_bytes. rewrite bytes_of_length. lia.
Qed.

(** What the loop keeps: the heap with the table of program headers, the local header,
    the address space with frames for the rest, the segments loaded so far, and the rest
    of the memory [m0]. *)
Record progress Hp B (m0 : Z → Z) (ph : Z) st (k : nat) (i : Z) : Prop := {
  pg_heap : kheap (l_io st) σ Hp B None;
  pg_table : Hp !! ph = Some (bytes_of fbyte phoff (Z.to_nat (32 * phnum)));
  pg_header : ∀ x, 0 ≤ x < 52 → byte st (hdr + x) = fbyte x;
  pg_space : Space (l_vm st) cr3;
  pg_frames : fa_ready (vm_pf (l_vm st)) (frames k i);
  pg_done : ∀ j, 0 ≤ j < i → seg_loaded st j;
  pg_rest : ∀ x, outside σ x → ¬ (hdr ≤ x < hdr + 52) → (∀ j, 0 ≤ j < i → loadable j → ¬ in_seg j x) → byte st x = m0 x
}.

Lemma table_field Hp B m0 ph st k i o : progress Hp B m0 ph st k i → 0 ≤ i < phnum → 0 ≤ o ≤ 28 →
  get32 (byte st) (ph + 32 * i + o) = get32 fbyte (seg i + o).
Proof.
  intros [HK Ht _ _ _ _ _] Hi Ho. apply get32_ext. intros j Hj. unfold seg.
  replace (ph + 32 * i + o + j) with (ph + Z.of_nat (Z.to_nat (32 * i + o + j))) by lia.
  eapply kheap_byte; [exact HK|exact Ht|]. rewrite bytes_of_lookup by lia. do 2 f_equal. lia.
Qed.

Lemma header_field16 Hp B m0 ph st k i o : progress Hp B m0 ph st k i → 0 ≤ o ≤ 50 →
  get16 (byte st) (hdr + o) = get16 fbyte (0 + o).
Proof. intros [_ _ Hh _ _ _ _] Ho. apply get16_ext. intros j Hj. rewrite <- Z.add_assoc. apply Hh. lia. Qed.

Lemma header_field32 Hp B m0 ph st k i o : progress Hp B m0 ph st k i → 0 ≤ o ≤ 48 →
  get32 (byte st) (hdr + o) = get32 fbyte (0 + o).
Proof. intros [_ _ Hh _ _ _ _] Ho. apply get32_ext. intros j Hj. rewrite <- Z.add_assoc. apply Hh. lia. Qed.

(** One loadable segment. *)
Lemma load_segment_spec Hp B m0 ph st k i : progress Hp B m0 ph st (Datatypes.S k) i → read_cost fs ≤ B → 0 ≤ i < phnum →
  loadable i → ∃ st', load_segment f st cr3 (ph + 32 * i) = Ok st' ∧ progress Hp B m0 ph st' k (i + 1).
Proof.
  intros HP HB Hi Hld. destruct (eo_seg Hok i Hi Hld) as (Hcr & Hv0 & Hvm & Hout). destruct (id HP) as [HK Ht Hh HSp Hfr Hdn Hrs].
  destruct (cr_size _ _ Hcr) as [Hm0 Hm1].
  unfold load_segment, p_vaddr, p_memsz, p_offset.
  cbn [l_io l_vm]. rewrite !(table_field _ _ _ _ _ _ _ _ HP Hi) by lia.
  fold (p_vaddr fbyte (seg i)) (p_memsz fbyte (seg i)) (p_offset fbyte (seg i)). fold (vaddr i) (memsz i) (offset i).
  cbn [frames] in Hfr. unfold seg_frames in Hfr. rewrite (proj2 (Z.eqb_eq _ _) Hld) in Hfr.
  destruct (enableSpace_spec (l_vm st) cr3 (vaddr i) (memsz i) userpage (frames k (i + 1)) HSp) as (v' & -> & Hr & HE & Hm);
    try done; try lia.
  cbn [mbind res_bind].
  destruct (read_to_memory (l_io st) Hp B None (offset i) (memsz i) (vaddr i) HK HB Hcr) as (s' & -> & HK' & Hby & Hsm); try lia.
  { intros x Hx. by apply Hout. }
  cbn [mbind res_bind]. eexists. split; [reflexivity|]. split; cbn [l_io l_vm]; try done.
  - intros x Hx. rewrite Hsm; [by apply Hh| |].
    + apply (eo_header Hok). lia.
    + intros Hr'. destruct (Hout _ Hr'). lia.
  - apply HE.
  - intros j Hj Hlj x Hx. cbn [l_io l_vm]. destruct (decide (j = i)) as [->|Hne].
    + split; [by apply Hby|by apply Hm].
    + assert (Hj' : 0 ≤ j < phnum) by lia. destruct (Hdn j ltac:(lia) Hlj x Hx) as [Hb1 Hb2].
      destruct (eo_seg Hok j Hj' Hlj) as (_ & ? & ? & Houtj). split.
      * rewrite Hsm; [done|by apply Houtj|]. by apply (eo_apart Hok j i x Hj' Hi Hlj Hld Hne).
      * eapply Enabled_keeps; [exact HE| |done]. unfold in_seg in Hx. unfold is_va. lia.
  - intros x Ho Hx Hj. rewrite Hsm; [|done|].
    + apply Hrs; [done|done|]. intros j Hj'. apply Hj. lia.
    + apply (Hj i); [lia|done].
Qed.

Lemma load_loop_spec Hp B m0 ph : read_cost fs ≤ B → ∀ (k : nat) st i fuel, progress Hp B m0 ph st k i → i + Z.of_nat k = phnum →
  0 ≤ i → (k < fuel)%nat → ∃ st', load_loop fuel f st cr3 hdr (ph + 32 * i) i = Ok st' ∧ progress Hp B m0 ph st' 0 phnum.
Proof.
  intros HB k. induction k as [|k IH]; intros st i fuel HP Hi Hi0 Hf; (destruct fuel as [|fuel]; [lia|]); cbn [load_loop].
  all: unfold e_phnum; rewrite (header_field16 _ _ _ _ _ _ _ 44 HP) by lia; fold (e_phnum fbyte 0); fold phnum.
  - rewrite (proj2 (Z.ltb_ge _ _)) by lia. cbn [negb]. exists st. split; [done|]. replace phnum with i by lia. done.
  - rewrite (proj2 (Z.ltb_lt _ _)) by lia. cbn [negb]. unfold p_type at 1.
    replace (get32 (byte st) (ph + 32 * i)) with (p_type fbyte (seg i)).
    2: { symmetry. rewrite <- (Z.add_0_r (ph + 32 * i)). rewrite (table_field _ _ _ _ _ _ _ 0 HP) by lia. by rewrite Z.add_0_r. }
    pose proof (kheap_range _ _ _ _ _ _ _ (pg_heap _ _ _ _ _ _ _ HP) (pg_table _ _ _ _ _ _ _ HP)) as Hr.
    rewrite bytes_of_length in Hr.
    assert (Enext : u32 (ph + 32 * i + sizeof_Phdr) = ph + 32 * (i + 1)).
    { unfold sizeof_Phdr. rewrite u32_id by (unfold is_u32; lia). lia. }
    destruct (Z.eqb_spec (p_type fbyte (seg i)) PT_LOAD) as [Hld|Hld].
    + destruct (load_segment_spec Hp B m0 ph st k i HP HB ltac:(lia) Hld) as (st1 & -> & HP1). cbn [mbind res_bind].
      rewrite Enext. apply (IH st1 (i + 1) fuel HP1); lia.
    + cbn [mbind res_bind]. rewrite Enext. apply (IH st (i + 1) fuel); try lia.
      destruct HP as [HK Ht Hh HSp Hfr Hdn Hrs]. split; try done.
      * cbn [frames] in Hfr. unfold seg_frames in Hfr. by rewrite (proj2 (Z.eqb_neq _ _) Hld) in Hfr.
      * intros j Hj. destruct (decide (j = i)) as [->|]; [by intros ?|]. apply Hdn. lia.
      * intros x Ho Hx Hj. apply Hrs; [done|done|]. intros j Hj'. apply Hj. lia.
Qed.

(** A transfer that fills a block of the heap. *)
Lemma read_to_block s Hp B T addr n q old : kheap s σ Hp B T → read_cost fs ≤ B → can_read addr n →
  Hp !! q = Some old → length old = Z.to_nat n →
  ∃ s', File_read f s addr n q = Ok s' ∧ kheap s' σ (<[q := bytes_of fbyte addr (Z.to_nat n)]> Hp) B None ∧ keeps σ s s'.
Proof.
  intros HK HB [[Ha Ha2] [Hn Hn2] Hfit Hw] Hq Hl. pose proof (kheap_range _ _ _ _ _ _ _ HK Hq) as Hr. rewrite Hl in Hr.
  destruct (File_read_spec σ f fs Hfs Hbs Hsize (Some q) s Hp B T addr (Z.to_nat n) q) as (s' & E & HK' & Hk);
    rewrite ?Z2Nat.id by lia; try done; try lia.
  { exists old. split; [done|]. rewrite Hl. lia. }
  rewrite Z2Nat.id in E by lia. exists s'. split; [done|]. split; [|exact Hk].
  replace (<[q := bytes_of fbyte addr (Z.to_nat n)]> Hp) with (put (Some q) Hp q (file_bytes σ f fs addr (Z.to_nat n))); [done|].
  cbn [put]. rewrite Z.sub_diag. apply map_eq. intros k. destruct (decide (k = q)) as [->|Hne].
  - rewrite lookup_alter_eq, lookup_insert_eq, Hq. cbn [fmap option_fmap option_map]. f_equal.
    apply splice_all. by rewrite Hl; apply bytes_of_length.
  - by rewrite lookup_alter_ne, lookup_insert_ne by done.
Qed.

(** The tests on the local copy of the header are the tests on the file. *)
Lemma header_tests s (v : vm A) : (∀ x, 0 ≤ x < 52 → load8 (io_mem s) (hdr + x) = fbyte x) →
  ident_ok (mkLoader s v) hdr && (e_type (load8 (io_mem s)) hdr =? ET_EXEC) &&
  (e_machine (load8 (io_mem s)) hdr =? EM_386) = recognised.
Proof.
  intros Hh. assert (H16 : ∀ o, 0 ≤ o ≤ 50 → get16 (load8 (io_mem s)) (hdr + o) = get16 fbyte (0 + o)).
  { intros o Ho. apply get16_ext. intros j Hj. rewrite <- Z.add_assoc. apply Hh. lia. }
  unfold recognised, e_type, e_machine. rewrite !H16 by lia. do 2 f_equal. unfold ident_ok, e_ident. cbn [l_io].
  apply eq_true_iff_eq. rewrite !forallb_forall.
  assert (Hi : ∀ i b, In (i, b) (zip (seqZ 0 16) x86_32_ident) → 0 ≤ i < 52).
  { intros i b Hi%list_elem_of_In%elem_of_zip_l. apply elem_of_seqZ in Hi. lia. }
  split; intros H [i b] Hin; specialize (H _ Hin); cbn in H |- *; specialize (Hi _ _ Hin);
    [rewrite <- Hh by done|rewrite Hh by done]; exact H.
Qed.

(** The header is read and tested. *)
Lemma read_header s Hp B T : header_ok → kheap s σ Hp B T → read_cost fs ≤ B →
  ∃ s', File_read f s 0 sizeof_Ehdr hdr = Ok s' ∧ kheap s' σ Hp B None ∧
    (∀ x, 0 ≤ x < 52 → load8 (io_mem s') (hdr + x) = fbyte x) ∧
    (∀ x, outside σ x → ¬ (hdr ≤ x < hdr + 52) → load8 (io_mem s') x = load8 (io_mem s) x).
Proof.
  intros (Hcr & H0 & H1 & Ho) HK HB.
  destruct (read_to_memory s Hp B T 0 52 hdr HK HB Hcr H0 H1 Ho) as (s' & E & HK' & Hby & Hsm).
  exists s'. split_and!; try done. intros x Hx. rewrite Hby by lia. f_equal. lia.
Qed.

(** Both tables are read into new blocks. *)
Lemma read_tables s (v : vm A) Hp B : kheap s σ Hp B None → (∀ x, 0 ≤ x < 52 → load8 (io_mem s) (hdr + x) = fbyte x) →
  Space v cr3 → fa_ready (vm_pf v) (frames (Z.to_nat phnum) 0) →
  read_cost fs + cost (32 * phnum) + cost (40 * shnum) ≤ B →
  ∃ ph s1 sh s2 s3 s4 Hp', io_new s (sizeof_Phdr * phnum) = Ok (ph, s1) ∧ io_new s1 (sizeof_Shdr * shnum) = Ok (sh, s2) ∧
    File_read f s2 phoff (sizeof_Phdr * phnum) ph = Ok s3 ∧
    File_read f s3 (e_shoff fbyte 0) (sizeof_Shdr * shnum) sh = Ok s4 ∧
    keeps σ s s1 ∧ keeps σ s s2 ∧ keeps σ s s3 ∧ keeps σ s s4 ∧ Hp ⊆ Hp' ∧
    progress Hp' (B - cost (32 * phnum) - cost (40 * shnum)) (load8 (io_mem s)) ph (mkLoader s4 v) (Z.to_nat phnum) 0.
Proof.
  intros HK Hh HSp Hfr HB. destruct (eo_tables Hok) as [Hc1 Hc2].
  destruct (cr_size _ _ Hc1) as [Hp0 _], (cr_size _ _ Hc2) as [Hs0 _].
  pose proof (cost_bounds (32 * phnum) ltac:(lia)). pose proof (cost_bounds (40 * shnum) ltac:(lia)).
  assert (0 ≤ read_cost fs) by (unfold read_cost; destruct Hbs as [->|[->| ->]]; vm_compute; discriminate).
  destruct (kheap_new s σ Hp B None (32 * phnum) HK) as (ph & s1 & E1 & N1 & HK1 & K1); [lia|lia|].
  destruct (kheap_new s1 σ _ _ _ (40 * shnum) HK1) as (sh & s2 & E2 & N2 & HK2 & K2); [lia|lia|].
  assert (Hne : sh ≠ ph) by (intros ->; by rewrite lookup_insert_eq in N2).
  rewrite lookup_insert_ne in N2 by done.
  destruct (read_to_block s2 _ _ _ phoff (32 * phnum) ph _ HK2 ltac:(lia) Hc1
    ltac:(rewrite lookup_insert_ne by done; apply lookup_insert_eq) (bytes_of_length _ _ _)) as (s3 & E3 & HK3 & K3).
  destruct (read_to_block s3 _ _ _ (e_shoff fbyte 0) (40 * shnum) sh _ HK3 ltac:(lia) Hc2
    ltac:(rewrite lookup_insert_ne by done; apply lookup_insert_eq) (bytes_of_length _ _ _)) as (s4 & E4 & HK4 & K4).
  assert (K12 := keeps_trans _ _ _ _ K1 K2). assert (K13 := keeps_trans _ _ _ _ K12 K3). assert (K14 := keeps_trans _ _ _ _ K13 K4).
  match type of HK4 with kheap _ _ ?X _ _ => exists ph, s1, sh, s2, s3, s4, X end. split_and!; try done; [|split; cbn [l_io l_vm]; try done].
  - apply map_subseteq_spec. intros k l Hk. by rewrite !lookup_insert_ne by congruence.
  - rewrite lookup_insert_ne by done. apply lookup_insert_eq.
  - intros x Hx. rewrite K14; [by apply Hh|]. apply (eo_header Hok). lia.
  - intros j Hj. lia.
  - intros x Ho _ _. by apply K14.
Qed.

(** The local copy of the header. *)
Definition header_in (s : S) : Prop := ∀ x, 0 ≤ x < 52 → load8 (io_mem s) (hdr + x) = fbyte x.

Lemma header_in_fields s : header_in s → e_phnum (load8 (io_mem s)) hdr = phnum ∧ e_shnum (load8 (io_mem s)) hdr = shnum ∧
  e_phoff (load8 (io_mem s)) hdr = phoff ∧ e_shoff (load8 (io_mem s)) hdr = e_shoff fbyte 0 ∧
  e_entry (load8 (io_mem s)) hdr = e_entry fbyte 0.
Proof.
  intros Hh. split_and!; apply get16_ext || apply get32_ext; intros j Hj; rewrite <- Z.add_assoc, Hh by lia; f_equal; lia.
Qed.

Lemma header_in_keeps s s' : header_ok → keeps σ s s' → header_in s → header_in s'.
Proof. intros Ho Hk Hh x Hx. rewrite Hk; [by apply Hh|]. apply Ho. lia. Qed.

(** [after_exec] stores the entry point and nothing else. *)
Lemma set_pc_spec st Hp B T stack_top v : kheap (l_io st) σ Hp B T → 68 ≤ stack_top < 4294967296 → is_u32 v →
  (∀ x, stack_top - 20 ≤ x < stack_top - 16 → outside σ x) →
  kheap (l_io (set_pc st stack_top v)) σ Hp B T ∧ load32 (io_mem (l_io (set_pc st stack_top v))) (stack_top - 20) = v ∧
  ∀ x, ¬ (stack_top - 20 ≤ x < stack_top - 16) → byte (set_pc st stack_top v) x = byte st x.
Proof.
  intros HK Hst Hv Ho. unfold set_pc. cbn [l_io]. rewrite (u32_id (stack_top - 68)) by (unfold is_u32; lia).
  rewrite u32_id by (unfold is_u32; lia). replace (stack_top - 68 + 48) with (stack_top - 20) by lia.
  assert (Hrest : ∀ x, ¬ (stack_top - 20 ≤ x < stack_top - 16) →
    load8 (store32 (io_mem (l_io st)) (stack_top - 20) v) x = load8 (io_mem (l_io st)) x).
  { intros x Hx. apply load8_store32_ne. lia. }
  rewrite io_mem_set. split_and!; [|by apply load32_store32_eq|exact Hrest].
  apply kheap_write_outside; [done|]. intros x Hx. apply Hrest. intros Hr. by apply Hx, Ho.
Qed.

(** The frame of the process, apart from the segments. *)
Definition frame_ok (stack_top : Z) : Prop :=
  68 ≤ stack_top < 4294967296 ∧ ∀ x, stack_top - 20 ≤ x < stack_top - 16 → outside σ x ∧
    ∀ i, 0 ≤ i < phnum → loadable i → ¬ in_seg i x.

Lemma load_elf_spec st Hp B T fuel stack_top : kheap (l_io st) σ Hp B T →
  read_cost fs + cost (32 * phnum) + cost (40 * shnum) ≤ B → Space (l_vm st) cr3 →
  fa_ready (vm_pf (l_vm st)) (frames (Z.to_nat phnum) 0) → frame_ok stack_top → phnum < Z.of_nat fuel →
  ∃ st' Hp', load_elf_executable fuel f st cr3 stack_top hdr = Ok (true, st') ∧ Hp ⊆ Hp' ∧
    kheap (l_io st') σ Hp' (B - cost (32 * phnum) - cost (40 * shnum)) None ∧ Space (l_vm st') cr3 ∧
    (∀ i, 0 ≤ i < phnum → seg_loaded st' i) ∧
    load32 (io_mem (l_io st')) (stack_top - 20) = e_entry fbyte 0 ∧
    ∀ x, outside σ x → ¬ (hdr ≤ x < hdr + 52) → ¬ (stack_top - 20 ≤ x < stack_top - 16) →
      (∀ i, 0 ≤ i < phnum → loadable i → ¬ in_seg i x) → byte st' x = byte st x.
Proof.
  intros HK HB HSp Hfr [Hst Hfo] Hf. pose proof (eo_header Hok) as Hho. destruct (eo_tables Hok) as [Hc1 Hc2].
  destruct (cr_size _ _ Hc1) as [Hp0 _], (cr_size _ _ Hc2) as [Hs0 _].
  pose proof (cost_bounds (32 * phnum) ltac:(lia)). pose proof (cost_bounds (40 * shnum) ltac:(lia)).
  unfold load_elf_executable.
  destruct (read_header (l_io st) Hp B T Hho HK ltac:(lia)) as (s0 & -> & HK0 & Hh0 & Hsm0). cbn [mbind res_bind l_io l_vm].
  pose proof (header_tests s0 (l_vm st) Hh0) as Ht. rewrite (eo_type Hok) in Ht.
  apply andb_prop in Ht as [Ht Ht3]. apply andb_prop in Ht as [Ht1 Ht2]. rewrite Ht1, Ht2, Ht3. cbn [negb].
  destruct (read_tables s0 (l_vm st) Hp B HK0 Hh0 HSp Hfr HB)
    as (ph & s1 & sh & s2 & s3 & s4 & Hp' & E1 & E2 & E3 & E4 & K1 & K2 & K3 & K4 & Hsub & HP).
  assert (Hin : ∀ s, keeps σ s0 s → header_in s) by (intros s Hk; exact (header_in_keeps s0 s Hho Hk Hh0)).
  destruct (header_in_fields s0 Hh0) as (-> & _ & -> & -> & _). rewrite E1. cbn [mbind res_bind l_io l_vm].
  destruct (header_in_fields s1 (Hin s1 K1)) as (_ & -> & _). rewrite E2. cbn [mbind res_bind l_io l_vm].
  destruct (header_in_fields s2 (Hin s2 K2)) as (-> & _). rewrite E3. cbn [mbind res_bind l_io l_vm].
  destruct (header_in_fields s3 (Hin s3 K3)) as (_ & -> & _). rewrite E4. cbn [mbind res_bind l_io l_vm].
  destruct (load_loop_spec Hp' (B - cost (32 * phnum) - cost (40 * shnum)) _ ph ltac:(lia) (Z.to_nat phnum) _ 0 fuel HP) as (st1 & E & HP1); [lia|lia|lia|].
  rewrite Z.mul_0_r, Z.add_0_r in E. rewrite E. cbn [mbind res_bind].
  destruct HP1 as [HK1 _ Hh1 HSp1 _ Hdn Hrs]. destruct (header_in_fields (l_io st1) Hh1) as (_ & _ & _ & _ & ->).
  destruct (set_pc_spec st1 _ _ _ stack_top (e_entry fbyte 0) HK1 Hst) as (HK2 & Hpc & Hrest).
  { apply get32_range, fbyte_range. }
  { intros x Hx. by apply Hfo. }
  eexists _, Hp'. split; [reflexivity|]. split_and!; try done.
  - intros i Hi Hl x Hx. destruct (Hdn i Hi Hl x Hx) as [Hb Hm]. split; [|exact Hm].
    rewrite Hrest; [done|]. intros Hr. by apply (Hfo x Hr) in Hx.
  - intros x Ho Hx Hx2 Hj. rewrite Hrest, Hrs by done. by apply Hsm0.
Qed.

End spec.

Section claims.
Context {S : Type} {KI : KernelIO S} {KS : KernelIOSpec S} {A : Type} `{!FrameAlloc A}.



End claims.
End ElfLoader.
