(* ===== verification/ElfImage.v ===== *)
(** * An executable on a disk

    The executable of the image of [FsImage.v] and an address space of [VarMem.v]: the
    theorems about the loader apply to them. *)

From S2P Require Import Prelude Memory PageFrames VarMem Kmalloc Ata KernelIO AtaIO Utilclass Ext2 FileSystem FsImage ElfLoader.

Module ElfImage.
Import VarMem Ata Utilclass Ext2 FileSystem FsImage ElfLoader.

Definition elf_inode : ext2_inode := inode_at ex_byte 1024 12.
Definition elf_file (e : ext2) : File := mkFile (Some (mkFS e)) kvector_empty elf_inode true.
Definition elf_byte : Z → Z := file_byte ex_byte 1024 elf_inode.

Section image.
Context (e : ext2) (Eb : block_size e = 1024).

Lemma elf_fbyte : fbyte (KS := ex_Spec) ex_static (elf_file e) (mkFS e) = elf_byte.
Proof. unfold fbyte, elf_byte. cbn [root_fs elf_file f_inode]. by rewrite Eb. Qed.

Lemma elf_whole x : 0 ≤ x < 1024 → whole (KS := ex_Spec) ex_static (elf_file e) (mkFS e) x.
Proof.
  intros Hx. unfold whole. cbn [root_fs elf_file f_inode]. rewrite Eb, (Z.div_small x) by lia.
  split; [vm_compute; discriminate|]. split_and!; vm_compute; (discriminate || done).
Qed.

Lemma elf_can_read addr n : 0 ≤ addr → 0 < n → addr + n ≤ 1024 →
  can_read (KS := ex_Spec) ex_static (elf_file e) (mkFS e) addr n.
Proof.
  intros. split; [lia|lia| |intros x Hx; apply elf_whole; lia]. right. cbn [root_fs]. rewrite Eb.
  rewrite Z.mod_small by lia. lia.
Qed.

Lemma elf_phnum : phnum (KS := ex_Spec) ex_static (elf_file e) (mkFS e) = 1.
Proof. unfold phnum. rewrite elf_fbyte. vm_compute. reflexivity. Qed.

Lemma elf_shnum : shnum (KS := ex_Spec) ex_static (elf_file e) (mkFS e) = 1.
Proof. unfold shnum. rewrite elf_fbyte. vm_compute. reflexivity. Qed.

Lemma elf_phoff : phoff (KS := ex_Spec) ex_static (elf_file e) (mkFS e) = 52.
Proof. unfold phoff. rewrite elf_fbyte. vm_compute. reflexivity. Qed.

(** The segment. *)
Lemma elf_segment :
  vaddr (KS := ex_Spec) ex_static (elf_file e) (mkFS e) 0 = 1073741824 ∧
  memsz (KS := ex_Spec) ex_static (elf_file e) (mkFS e) 0 = 8 ∧
  offset (KS := ex_Spec) ex_static (elf_file e) (mkFS e) 0 = 124.
Proof. unfold vaddr, memsz, offset, seg. rewrite elf_phoff, elf_fbyte. split_and!; vm_compute; reflexivity. Qed.

Lemma elf_header : header_ok (KS := ex_Spec) ex_static (elf_file e) (mkFS e) 2000000.
Proof. split; [apply elf_can_read; lia|]. split_and!; [lia|lia|]. intros x Hx. right. cbn. lia. Qed.

Lemma elf_image_ok : elf_ok (KS := ex_Spec) ex_static (elf_file e) (mkFS e) 2000000.
Proof.
  destruct elf_segment as (Ev & Em & Eo). split.
  - unfold recognised. rewrite elf_fbyte. vm_compute. reflexivity.
  - exact elf_header.
  - rewrite elf_phoff, elf_phnum, elf_shnum, elf_fbyte.
    assert (E : e_shoff elf_byte 0 = 84) by (vm_compute; reflexivity). rewrite E.
    split; apply elf_can_read; lia.
  - rewrite elf_phnum. intros i Hi _. assert (i = 0) as -> by lia. unfold in_seg. rewrite Ev, Em, Eo.
    split; [apply elf_can_read; lia|]. split_and!; [lia|lia|]. intros x Hx. split; [right; cbn; lia|lia].
  - rewrite elf_phnum. intros i j x Hi Hj _ _ Hne. lia.
Qed.

Lemma elf_frame : frame_ok (KS := ex_Spec) ex_static (elf_file e) (mkFS e) 3000000.
Proof.
  destruct elf_segment as (Ev & Em & _). split; [lia|]. intros x Hx. split; [right; cbn; lia|].
  rewrite elf_phnum. intros i Hi _. assert (i = 0) as -> by lia. unfold in_seg. rewrite Ev, Em. lia.
Qed.

Lemma elf_frames : frames (KS := ex_Spec) ex_static (elf_file e) (mkFS e) 1 0 = 2%nat.
Proof.
  destruct elf_segment as (Ev & Em & _). cbn [frames]. unfold seg_frames. rewrite Ev, Em, elf_fbyte.
  unfold seg. rewrite elf_phoff. vm_compute. reflexivity.
Qed.

End image.



End ElfImage.
